(** * Gattrose-NG host controller: protocol engine

    A shallow embedding of the device protocol engine of
    [flipper_bw16_deauther/gattrose_ng.c]: the byte framer
    ([uart_rx_thread]), the token scanner ([token_init], [token_next]), the
    message decoders ([parse_network_message], [parse_client_message],
    [parse_ble_message], [parse_credential_message], [process_rx_message],
    [process_rx_line]), firmware detection ([detect_firmware]), the ranking
    pass ([sort_networks]) and the deauth command ([do_deauth]).
    Beside them stand the sending side ([uart_init], [uart_send],
    [uart_send_legacy]), the console log ([console_append]), the scan and
    stop-all commands ([do_scan], [do_stop_all]), the MAC address of the
    attack configuration ([generate_random_mac], [mac_bytes_to_string],
    [mac_string_to_bytes], [mac_type_change_cb], [mac_input_callback]) and
    the network and client lists with their callbacks
    ([update_network_list], [network_list_callback], [update_client_list],
    [client_list_callback]).

    Conventions.
    - A C [int] is a [Z]; every [int] the modelled code computes stays far
      inside the 32-bit range (counters bounded by the array sizes, or the
      result of [atoi]).  A [size_t] that only indexes an array is a [nat];
      the one [size_t] expression that can wrap is written out modulo 2^32.
    - A [char] array that the program treats as a working buffer and indexes
      byte by byte ([rx_line], [credentials]) is a [list ascii] holding every
      cell of the array.  A store past the last cell lengthens the list, so
      "the list still has the array's length" says that no store went past
      the end of the array.
    - A [char] array that only ever holds a C string written through
      [strncpy] into zeroed storage ([ssid], [bssid], [mac], ...) is the
      [string] of the characters before its terminator.
    - An index that the code bounds from one side only can leave its array.
      A read past the end of an index list (a client count above sixteen)
      finds nothing in the model, and the properties that depend on such a
      read are stated for counts of at most sixteen.  A store before the
      start of an index list (a negative client count on a legacy client
      line) is not placed anywhere by the model: it sets the mark
      [out_of_bounds], and the properties of a run are stated for runs that
      end with the mark clear.
    - GUI handles, logging and the notification service are not modelled.  *)

From Stdlib Require Import Ascii String ZArith Lia Permutation Sorted.
From stdpp Require Import base tactics numbers list strings.

Local Open Scope string_scope.
Local Open Scope list_scope.

(** ** C strings *)

Module CStr.

Definition NUL : ascii := "000"%char.

Definition is_nul (c : ascii) : bool := Ascii.eqb c NUL.

(** The characters of [s] before the first terminator: what a [const char*]
    to the bytes [s] (followed by a terminator) denotes. *)
Fixpoint cstr (s : string) : string :=
  match s with
  | EmptyString => EmptyString
  | String c r => if is_nul c then EmptyString else String c (cstr r)
  end.

Fixpoint str_take (n : nat) (s : string) : string :=
  match n, s with
  | S k, String c r => String c (str_take k r)
  | _, _ => EmptyString
  end.

Fixpoint str_drop (n : nat) (s : string) : string :=
  match n, s with
  | S k, String _ r => str_drop k r
  | _, _ => s
  end.

Definition strlen (s : string) : nat := String.length (cstr s).

(** [strncpy(dst, src, n)] into storage whose cell [n] is zero: [dst] then
    reads as the first [n] characters of the C string [src]. *)
Definition strncpy (src : string) (n : nat) : string := str_take n (cstr src).

Definition strcmp_eq (a b : string) : bool := String.eqb (cstr a) (cstr b).

(** [strncmp(a, b, n) == 0] *)
Definition strncmp_eq (a b : string) (n : nat) : bool :=
  String.eqb (str_take n (cstr a)) (str_take n (cstr b)).

Fixpoint is_prefix (p s : string) : bool :=
  match p, s with
  | EmptyString, _ => true
  | String a p', String b s' => Ascii.eqb a b && is_prefix p' s'
  | String _ _, EmptyString => false
  end.

(** [strstr(h, n)]: the offset of the first occurrence, when there is one. *)
Fixpoint strstr_from (h n : string) (off : nat) : option nat :=
  if is_prefix n h then Some off
  else match h with
       | EmptyString => None
       | String _ h' => strstr_from h' n (S off)
       end.

Definition strstr (h n : string) : option nat := strstr_from (cstr h) n 0.

Fixpoint strchr_from (s : string) (c : ascii) (off : nat) : option nat :=
  match s with
  | EmptyString => None
  | String a r => if Ascii.eqb a c then Some off else strchr_from r c (S off)
  end.

Definition strchr (s : string) (c : ascii) : option nat := strchr_from (cstr s) c 0.

Fixpoint str_map (f : ascii -> ascii) (s : string) : string :=
  match s with
  | EmptyString => EmptyString
  | String c r => String (f c) (str_map f r)
  end.

(** *** [atoi] *)

Definition INT_MAX : Z := 2147483647.
Definition INT_MIN : Z := -2147483648.

Definition is_space (c : ascii) : bool :=
  let n := nat_of_ascii c in
  Nat.eqb n 32 || (Nat.leb 9 n && Nat.leb n 13).

Definition digit_val (c : ascii) : option Z :=
  let n := nat_of_ascii c in
  if Nat.leb 48 n && Nat.leb n 57 then Some (Z.of_nat n - 48)%Z else None.

Fixpoint skip_space (s : string) : string :=
  match s with
  | String c r => if is_space c then skip_space r else s
  | EmptyString => s
  end.

Fixpoint digits_value (s : string) (acc : Z) : Z :=
  match s with
  | String c r =>
      match digit_val c with
      | Some d => digits_value r (10 * acc + d)%Z
      | None => acc
      end
  | EmptyString => acc
  end.

(** The C library's [atoi] is [(int)strtol(s, NULL, 10)]: leading white
    space, an optional sign, then decimal digits up to the first other
    character; no digits give 0.  Out of range values saturate, as [strtol]
    does on the 32-bit target. *)
Definition clamp_int (z : Z) : Z := Z.max INT_MIN (Z.min INT_MAX z).

Definition atoi (s : string) : Z :=
  match skip_space (cstr s) with
  | String "-"%char r => clamp_int (- digits_value r 0)
  | String "+"%char r => clamp_int (digits_value r 0)
  | t => clamp_int (digits_value t 0)
  end.

(** *** [%d] *)

Definition digit_char (d : nat) : ascii := ascii_of_nat (48 + d).

Fixpoint pos_digits (fuel : nat) (n : nat) (acc : string) : string :=
  match fuel with
  | O => acc
  | S k =>
      let acc' := String (digit_char (n mod 10)) acc in
      if Nat.ltb n 10 then acc' else pos_digits k (n / 10) acc'
  end.

Definition nat_to_decimal (n : nat) : string := pos_digits (S n) n EmptyString.

Definition int_to_decimal (z : Z) : string :=
  if (z <? 0)%Z then String "-"%char (nat_to_decimal (Z.to_nat (- z)))
  else nat_to_decimal (Z.to_nat z).

End CStr.

Import CStr.

(** ** Constants *)

Definition PROTO_STX : ascii := "002"%char.
Definition PROTO_ETX : ascii := "003"%char.
Definition PROTO_SEP : ascii := "029"%char.

Definition MAX_NETWORKS : Z := 64.
Definition MAX_CLIENTS : Z := 128.
Definition MAX_CLIENTS_PER_AP : Z := 16.
Definition MAX_SSID_LEN : nat := 33.
Definition MAX_BSSID_LEN : nat := 18.
Definition MAX_BLE_DEVICES : Z := 32.

(** [sizeof(app->rx_line)], [sizeof(app->credentials)] and
    [sizeof(app->console_buffer)]. *)
Definition RX_LINE_SIZE : nat := 256.
Definition CREDENTIALS_SIZE : nat := 512.
Definition CONSOLE_SIZE : nat := 2048.

(** ** Data types *)

Record Client := mkClient {
  mac : string;
  client_rssi : Z;
  ap_index : Z
}.

Record Network := mkNetwork {
  id : Z;
  ssid : string;
  bssid : string;
  channel : Z;
  rssi : Z;
  security : Z;
  is_5ghz : bool;
  deauth_active : bool;
  client_count : Z;
  client_indices : list Z;
  security_str : string;
  has_pmf : bool;
  hidden : bool
}.

Record BleDevice := mkBleDevice {
  ble_address : string;
  ble_name : string;
  ble_rssi : Z
}.

Inductive FirmwareType :=
| FirmwareUnknown
| FirmwareGattrose
| FirmwareEvilBW16
| FirmwarePingequa
| FirmwareMarauder
| FirmwareGeneric.

Record FirmwareCapabilities := mkCaps {
  wifi_scan : bool;
  wifi_scan_5ghz : bool;
  client_detection : bool;
  targeted_deauth : bool;
  broadcast_deauth : bool;
  beacon_spam : bool;
  evil_twin : bool;
  ble_scan : bool;
  ble_spam : bool;
  channel_hop : bool;
  monitor_mode : bool;
  eapol_capture : bool
}.

Definition firmware_caps : list FirmwareCapabilities := [
  (* Unknown - assume minimal *)
  mkCaps true false false false true false false false false false false false;
  (* Gattrose-NG - full features *)
  mkCaps true true true true true true true true true true true true;
  (* Evil-BW16 - WiFi only, no client detection *)
  mkCaps true true false false true true true false false true false true;
  (* Pingequa - unknown, assume basic *)
  mkCaps true false false false true false false false false false false false;
  (* Marauder - ESP32, different protocol *)
  mkCaps true false false false true true false true true false false false;
  (* Generic AT - minimal *)
  mkCaps true false false false false false false false false false false false
].

(** The value of the enumerator, used to index [firmware_caps]. *)
Definition firmware_index (t : FirmwareType) : nat :=
  match t with
  | FirmwareUnknown => 0
  | FirmwareGattrose => 1
  | FirmwareEvilBW16 => 2
  | FirmwarePingequa => 3
  | FirmwareMarauder => 4
  | FirmwareGeneric => 5
  end.

Definition firmware_eqb (a b : FirmwareType) : bool :=
  Nat.eqb (firmware_index a) (firmware_index b).

(** The part of [App] the protocol engine reads and writes.  [in_message] is
    the local of [uart_rx_thread] that lives as long as the thread; [tx] is
    what has been handed to [furi_hal_serial_tx], oldest byte first;
    [serial] says that the handle is not [NULL].  [out_of_bounds] is no field
    of the C structure: it is set once the program has stored outside an
    array.  Where such a store lands depends on how the structure is laid
    out in memory, and from then on the fields of the C program need not be
    what this record says; a property of the C program that is read off a
    run of the model is read off a run that ends with the mark clear. *)
Record App := mkApp {
  serial : bool;
  uart_running : bool;
  connected : bool;
  tx : list ascii;
  networks : list Network;
  network_count : Z;
  clients : list Client;
  app_client_count : Z;
  selected_network : Z;
  ble_devices : list BleDevice;
  ble_count : Z;
  monitor_active : bool;
  deauth_reason : Z;
  portal_type : Z;
  custom_mac : string;
  credentials : list ascii;
  scan_finished : bool;
  scanning : bool;
  rx_line : list ascii;
  rx_pos : nat;
  in_message : bool;
  console_buffer : string;
  bytes_rx : Z;
  bytes_tx : Z;
  firmware_type : FirmwareType;
  caps : FirmwareCapabilities;
  firmware_version : string;
  firmware_response : string;
  detection_done : bool;
  got_pong : bool;
  got_info : bool;
  got_help : bool;
  device_channel : Z;
  device_deauth_count : Z;
  device_beacon_active : bool;
  device_ap_active : bool;
  device_ble_count : Z;
  out_of_bounds : bool
}.

(** *** Field assignment

    [x <| f := v |>] is the record [x] after [x.f = v].  The setter of a
    field is read off the eta expansion of the record. *)

Definition Network_eta (r : Network) : Network :=
  mkNetwork (id r) (ssid r) (bssid r) (channel r) (rssi r) (security r)
    (is_5ghz r) (deauth_active r) (client_count r) (client_indices r)
    (security_str r) (has_pmf r) (hidden r).

Definition Client_eta (r : Client) : Client :=
  mkClient (mac r) (client_rssi r) (ap_index r).

Definition BleDevice_eta (r : BleDevice) : BleDevice :=
  mkBleDevice (ble_address r) (ble_name r) (ble_rssi r).

Definition App_eta (r : App) : App :=
  mkApp (serial r) (uart_running r) (connected r) (tx r) (networks r)
    (network_count r) (clients r) (app_client_count r) (selected_network r)
    (ble_devices r) (ble_count r) (monitor_active r) (deauth_reason r)
    (portal_type r) (custom_mac r) (credentials r) (scan_finished r)
    (scanning r) (rx_line r) (rx_pos r) (in_message r) (console_buffer r)
    (bytes_rx r) (bytes_tx r) (firmware_type r) (caps r) (firmware_version r)
    (firmware_response r) (detection_done r) (got_pong r) (got_info r)
    (got_help r) (device_channel r) (device_deauth_count r)
    (device_beacon_active r) (device_ap_active r) (device_ble_count r)
    (out_of_bounds r).

Class Setter {R T : Type} (proj : R -> T) := set_field : T -> R -> R.
Global Arguments set_field {R T} proj {Setter} v r / : assert.

Ltac derive_setter eta :=
  lazymatch goal with
  | |- @Setter ?R ?T ?proj =>
      let e := eval cbv delta [eta] in eta in
      lazymatch eval pattern proj in e with
      | ?s proj =>
          let body := eval cbv beta in (fun (v : T) => s (fun _ : R => v)) in
          exact body
      end
  end.

#[global] Instance set_id : Setter id := ltac:(derive_setter Network_eta).
#[global] Instance set_ssid : Setter ssid := ltac:(derive_setter Network_eta).
#[global] Instance set_bssid : Setter bssid := ltac:(derive_setter Network_eta).
#[global] Instance set_channel : Setter channel := ltac:(derive_setter Network_eta).
#[global] Instance set_rssi : Setter rssi := ltac:(derive_setter Network_eta).
#[global] Instance set_security : Setter security := ltac:(derive_setter Network_eta).
#[global] Instance set_is_5ghz : Setter is_5ghz := ltac:(derive_setter Network_eta).
#[global] Instance set_deauth_active : Setter deauth_active := ltac:(derive_setter Network_eta).
#[global] Instance set_client_count : Setter client_count := ltac:(derive_setter Network_eta).
#[global] Instance set_client_indices : Setter client_indices := ltac:(derive_setter Network_eta).
#[global] Instance set_security_str : Setter security_str := ltac:(derive_setter Network_eta).
#[global] Instance set_has_pmf : Setter has_pmf := ltac:(derive_setter Network_eta).
#[global] Instance set_hidden : Setter hidden := ltac:(derive_setter Network_eta).

#[global] Instance set_mac : Setter mac := ltac:(derive_setter Client_eta).
#[global] Instance set_client_rssi : Setter client_rssi := ltac:(derive_setter Client_eta).
#[global] Instance set_ap_index : Setter ap_index := ltac:(derive_setter Client_eta).

#[global] Instance set_ble_address : Setter ble_address := ltac:(derive_setter BleDevice_eta).
#[global] Instance set_ble_name : Setter ble_name := ltac:(derive_setter BleDevice_eta).
#[global] Instance set_ble_rssi : Setter ble_rssi := ltac:(derive_setter BleDevice_eta).

#[global] Instance set_tx : Setter tx := ltac:(derive_setter App_eta).
#[global] Instance set_networks : Setter networks := ltac:(derive_setter App_eta).
#[global] Instance set_network_count : Setter network_count := ltac:(derive_setter App_eta).
#[global] Instance set_clients : Setter clients := ltac:(derive_setter App_eta).
#[global] Instance set_app_client_count : Setter app_client_count := ltac:(derive_setter App_eta).
#[global] Instance set_ble_devices : Setter ble_devices := ltac:(derive_setter App_eta).
#[global] Instance set_ble_count : Setter ble_count := ltac:(derive_setter App_eta).
#[global] Instance set_monitor_active : Setter monitor_active := ltac:(derive_setter App_eta).
#[global] Instance set_credentials : Setter credentials := ltac:(derive_setter App_eta).
#[global] Instance set_scan_finished : Setter scan_finished := ltac:(derive_setter App_eta).
#[global] Instance set_scanning : Setter scanning := ltac:(derive_setter App_eta).
#[global] Instance set_rx_line : Setter rx_line := ltac:(derive_setter App_eta).
#[global] Instance set_rx_pos : Setter rx_pos := ltac:(derive_setter App_eta).
#[global] Instance set_in_message : Setter in_message := ltac:(derive_setter App_eta).
#[global] Instance set_console_buffer : Setter console_buffer := ltac:(derive_setter App_eta).
#[global] Instance set_bytes_rx : Setter bytes_rx := ltac:(derive_setter App_eta).
#[global] Instance set_bytes_tx : Setter bytes_tx := ltac:(derive_setter App_eta).
#[global] Instance set_firmware_type : Setter firmware_type := ltac:(derive_setter App_eta).
#[global] Instance set_caps : Setter caps := ltac:(derive_setter App_eta).
#[global] Instance set_firmware_version : Setter firmware_version := ltac:(derive_setter App_eta).
#[global] Instance set_firmware_response : Setter firmware_response := ltac:(derive_setter App_eta).
#[global] Instance set_detection_done : Setter detection_done := ltac:(derive_setter App_eta).
#[global] Instance set_got_pong : Setter got_pong := ltac:(derive_setter App_eta).
#[global] Instance set_got_info : Setter got_info := ltac:(derive_setter App_eta).
#[global] Instance set_got_help : Setter got_help := ltac:(derive_setter App_eta).
#[global] Instance set_device_channel : Setter device_channel := ltac:(derive_setter App_eta).
#[global] Instance set_device_deauth_count : Setter device_deauth_count := ltac:(derive_setter App_eta).
#[global] Instance set_device_beacon_active : Setter device_beacon_active := ltac:(derive_setter App_eta).
#[global] Instance set_device_ap_active : Setter device_ap_active := ltac:(derive_setter App_eta).
#[global] Instance set_device_ble_count : Setter device_ble_count := ltac:(derive_setter App_eta).
#[global] Instance set_out_of_bounds : Setter out_of_bounds := ltac:(derive_setter App_eta).

(** Unfolds every field assignment and the field reads that meet it. *)
Ltac unfold_setters :=
  cbv [set_field
       set_id set_ssid set_bssid set_channel set_rssi
       set_security set_is_5ghz set_deauth_active set_client_count set_client_indices
       set_security_str set_has_pmf set_hidden set_mac set_client_rssi
       set_ap_index set_ble_address set_ble_name set_ble_rssi set_tx
       set_networks set_network_count set_clients set_app_client_count set_ble_devices
       set_ble_count set_monitor_active set_credentials set_scan_finished set_scanning
       set_rx_line set_rx_pos set_in_message set_console_buffer set_bytes_rx
       set_bytes_tx set_firmware_type set_caps set_firmware_version set_firmware_response
       set_detection_done set_got_pong set_got_info set_got_help set_device_channel
       set_device_deauth_count set_device_beacon_active set_device_ap_active set_device_ble_count
       set_out_of_bounds
       mac client_rssi ap_index id ssid
       bssid channel rssi security is_5ghz
       deauth_active client_count client_indices security_str has_pmf
       hidden ble_address ble_name ble_rssi serial
       uart_running connected tx networks network_count
       clients app_client_count selected_network ble_devices ble_count
       monitor_active deauth_reason portal_type custom_mac credentials
       scan_finished scanning rx_line rx_pos in_message
       console_buffer bytes_rx bytes_tx firmware_type caps
       firmware_version firmware_response detection_done got_pong got_info
       got_help device_channel device_deauth_count device_beacon_active device_ap_active
       device_ble_count out_of_bounds].

Ltac unfold_setters_in H :=
  cbv [set_field
       set_id set_ssid set_bssid set_channel set_rssi
       set_security set_is_5ghz set_deauth_active set_client_count set_client_indices
       set_security_str set_has_pmf set_hidden set_mac set_client_rssi
       set_ap_index set_ble_address set_ble_name set_ble_rssi set_tx
       set_networks set_network_count set_clients set_app_client_count set_ble_devices
       set_ble_count set_monitor_active set_credentials set_scan_finished set_scanning
       set_rx_line set_rx_pos set_in_message set_console_buffer set_bytes_rx
       set_bytes_tx set_firmware_type set_caps set_firmware_version set_firmware_response
       set_detection_done set_got_pong set_got_info set_got_help set_device_channel
       set_device_deauth_count set_device_beacon_active set_device_ap_active set_device_ble_count
       set_out_of_bounds
       mac client_rssi ap_index id ssid
       bssid channel rssi security is_5ghz
       deauth_active client_count client_indices security_str has_pmf
       hidden ble_address ble_name ble_rssi serial
       uart_running connected tx networks network_count
       clients app_client_count selected_network ble_devices ble_count
       monitor_active deauth_reason portal_type custom_mac credentials
       scan_finished scanning rx_line rx_pos in_message
       console_buffer bytes_rx bytes_tx firmware_type caps
       firmware_version firmware_response detection_done got_pong got_info
       got_help device_channel device_deauth_count device_beacon_active device_ap_active
       device_ble_count out_of_bounds] in H.

Notation "x <| proj := v |>" := (set_field proj v x)
  (at level 1, left associativity, format "x  <| proj  :=  v |>").

(** ** Arrays and loops *)

(** [buf[i] = c] on a byte array.  A store past the last cell is kept, and
    lengthens the list. *)
Definition store (buf : list ascii) (i : nat) (c : ascii) : list ascii :=
  if Nat.ltb i (length buf) then <[i := c]> buf
  else buf ++ replicate (i - length buf) NUL ++ [c].

(** [memcpy(buf + off, src, strlen(src))] *)
Fixpoint memcpy (buf : list ascii) (off : nat) (src : string) : list ascii :=
  match src with
  | EmptyString => buf
  | String c r => memcpy (store buf off c) (S off) r
  end.

(** [strlen] of a byte array: the cells before the first terminator.  (When
    the array holds no terminator the C scan leaves the array; the model
    stops at its end.) *)
Fixpoint buf_strlen (buf : list ascii) : nat :=
  match buf with
  | [] => 0
  | c :: r => if is_nul c then 0 else S (buf_strlen r)
  end.

(** The C string that starts at [buf + off]. *)
Definition cstring_at (buf : list ascii) (off : nat) : string :=
  cstr (string_of_list_ascii (drop off buf)).

Definition byte_at (buf : list ascii) (i : nat) : ascii := default NUL (buf !! i).

(** [for(int i = lo; i < lo + count; i++) s = body(i, s);] *)
Fixpoint for_loop {St : Type} (count : nat) (i : nat) (body : nat -> St -> St) (s : St) : St :=
  match count with
  | O => s
  | S k => for_loop k (S i) body (body i s)
  end.

Definition zero_network : Network :=
  mkNetwork 0 "" "" 0 0 0 false false 0 (replicate 16 0%Z) "" false false.

Definition zero_client : Client := mkClient "" 0 0.

Definition zero_ble : BleDevice := mkBleDevice "" "" 0.

Definition net_at (nets : list Network) (i : nat) : Network := default zero_network (nets !! i).

Definition client_at (cs : list Client) (i : nat) : Client := default zero_client (cs !! i).

(** ** Token scanner *)

Record TokenState := mkTokenState {
  str : string;
  pos : nat
}.

Definition token_init (s : string) : TokenState := mkTokenState s 0.

Definition char_at (s : string) (i : nat) : ascii := default NUL (String.get i s).

Fixpoint set_char (s : string) (i : nat) (c : ascii) : string :=
  match s, i with
  | EmptyString, _ => EmptyString
  | String _ r, O => String c r
  | String a r, S k => String a (set_char r k c)
  end.

(** How far the [while] loop of [token_next] moves [pos]: the characters
    before the first terminator or delimiter. *)
Fixpoint token_span (s : string) (delim : ascii) : nat :=
  match s with
  | EmptyString => 0
  | String c r => if is_nul c || Ascii.eqb c delim then 0 else S (token_span r delim)
  end.

(** The token is returned as the C string at [start] in the buffer as
    [token_next] leaves it; later calls only overwrite delimiters behind it. *)
Definition token_next (state : TokenState) (delim : ascii) : option string * TokenState :=
  if is_nul (char_at (str state) (pos state)) then (None, state)
  else
    let start := pos state in
    let p := start + token_span (str_drop start (str state)) delim in
    let state' :=
      if Ascii.eqb (char_at (str state) p) delim
      then mkTokenState (set_char (str state) p NUL) (S p)
      else mkTokenState (str state) p in
    (Some (cstr (str_drop start (str state'))), state').

Notation "'let_token' ( t , ts ) := e 'else_return' r 'in' k" :=
  (match e with
   | (Some t, ts) => k
   | (None, _) => r
   end)
  (at level 10, t name, ts name, e at level 100, r at level 100, k at level 200,
   format "'[v' 'let_token'  ( t ,  ts )  :=  e  'else_return'  r  'in' '/' k ']'").

Definition sep_to_pipe (sep : ascii) (buffer : string) : string :=
  str_map (fun c => if Ascii.eqb c sep then "|"%char else c) buffer.

(** ** Transport *)

(** [uart_send]: STX, the command, ETX. *)
Definition uart_send (app : App) (cmd : string) : App :=
  if negb (serial app) || negb (uart_running app) then app
  else
    let len := strlen cmd in
    app <| tx := tx app ++ [PROTO_STX] ++ list_ascii_of_string (cstr cmd) ++ [PROTO_ETX] |>
        <| bytes_tx := ((bytes_tx app + Z.of_nat len + 2) mod 2 ^ 32)%Z |>.

(** [uart_send_legacy]: the command and a newline. *)
Definition uart_send_legacy (app : App) (cmd : string) : App :=
  if negb (serial app) || negb (uart_running app) then app
  else
    let len := strlen cmd in
    app <| tx := tx app ++ list_ascii_of_string (cstr cmd) ++ ["010"%char] |>
        <| bytes_tx := ((bytes_tx app + Z.of_nat len + 1) mod 2 ^ 32)%Z |>.

(** ** Console log *)

(** [console_buffer] is kept as the C string it holds.  The first-half
    eviction looks for a newline from cell 1023 on; the model looks in the
    string only, which is where cell 1023 lies whenever a caller's line is
    shorter than 1023 characters. *)
Definition console_append (app : App) (line : string) : App :=
  let line := cstr line in
  let line_len := String.length line in
  let max_len := CONSOLE_SIZE - 2 in
  let buf := console_buffer app in
  let buf :=
    if Nat.ltb max_len (String.length buf + line_len + 2) then
      let half := str_drop (max_len / 2) buf in
      match strchr_from half "010"%char 0 with
      | Some nl => str_drop (S nl) half
      | None => ""
      end
    else buf in
  let current_len := String.length buf in
  let space := max_len - current_len in
  let to_copy := if Nat.ltb line_len space then line_len else space in
  let buf := buf +:+ str_take to_copy line in
  let current_len := current_len + to_copy in
  let buf := if Nat.ltb current_len max_len then buf +:+ String "010"%char "" else buf in
  app <| console_buffer := buf |>.

(** ** Binary protocol decoders *)

Definition unlinked_indices : list Z := replicate (Z.to_nat MAX_CLIENTS_PER_AP) (-1)%Z.

(** [networks[network_count]] after [memset] and the loop that marks every
    index slot unlinked. *)
Definition fresh_network : Network := zero_network <| client_indices := unlinked_indices |>.

(** [net] points into the array: whatever has been assigned when the
    function returns is in the slot. *)
Definition put_network (app : App) (slot : nat) (net : Network) : App :=
  app <| networks := <[slot := net]> (networks app) |>.

Definition parse_network_message (app : App) (data : string) : App :=
  if (network_count app >=? MAX_NETWORKS)%Z then app
  else
    let buffer := sep_to_pipe PROTO_SEP (strncpy data 127) in
    let slot := Z.to_nat (network_count app) in
    let net := fresh_network in
    let ts := token_init buffer in
    let_token (token, ts) := token_next ts "|" else_return put_network app slot net in
    let net := net <| id := atoi token |> in
    let_token (token, ts) := token_next ts "|" else_return put_network app slot net in
    let net := net <| ssid := strncpy token (MAX_SSID_LEN - 1) |> in
    let_token (token, ts) := token_next ts "|" else_return put_network app slot net in
    let net := net <| bssid := strncpy token (MAX_BSSID_LEN - 1) |> in
    let_token (token, ts) := token_next ts "|" else_return put_network app slot net in
    let net := net <| channel := atoi token |> in
    let_token (token, ts) := token_next ts "|" else_return put_network app slot net in
    let net := net <| rssi := atoi token |> in
    (* Band: 2 or 5 *)
    let '(token, ts) := token_next ts "|" in
    let net := match token with
               | Some token => net <| is_5ghz := (atoi token =? 5)%Z |>
               | None => net
               end in
    (* Client count *)
    let '(token, ts) := token_next ts "|" in
    let net := match token with
               | Some token => net <| client_count := atoi token |>
               | None => net
               end in
    (* Security string *)
    let '(token, ts) := token_next ts "|" in
    let net := match token with
               | Some token => net <| security_str := strncpy token 15 |>
               | None => net <| security_str := strncpy "???" 15 |>
               end in
    (* PMF (0 or 1) *)
    let '(token, ts) := token_next ts "|" in
    let net := match token with
               | Some token => net <| has_pmf := (atoi token =? 1)%Z |>
               | None => net
               end in
    (* Hidden (0 or 1) *)
    let '(token, ts) := token_next ts "|" in
    let net := match token with
               | Some token => net <| hidden := (atoi token =? 1)%Z |>
               | None => net
               end in
    (put_network app slot net) <| network_count := (network_count app + 1)%Z |>.

(** The duplicate scan: some [clients[i]], [i < client_count], has this MAC. *)
Definition client_known (app : App) (client_mac : string) : bool :=
  for_loop (Z.to_nat (app_client_count app)) 0
    (fun i found => found || strcmp_eq (mac (client_at (clients app) i)) client_mac)
    false.

(** The occupancy scan: the index slots before the first negative one. *)
Fixpoint leading_valid (indices : list Z) : Z :=
  match indices with
  | [] => 0
  | x :: r => if (0 <=? x)%Z then (1 + leading_valid r)%Z else 0%Z
  end.

Definition actual_count (net : Network) : Z :=
  leading_valid (take (Z.to_nat MAX_CLIENTS_PER_AP) (client_indices net)).

Definition parse_client_message (app : App) (data : string) : App :=
  if (app_client_count app >=? MAX_CLIENTS)%Z then app
  else
    let buffer := sep_to_pipe PROTO_SEP (strncpy data 63) in
    let ts := token_init buffer in
    let_token (token, ts) := token_next ts "|" else_return app in
    let ap_idx := atoi token in
    let_token (token, ts) := token_next ts "|" else_return app in
    let client_mac := token in
    let '(token, ts) := token_next ts "|" in
    let rssi := match token with Some token => atoi token | None => (-80)%Z end in
    (* Check if client already exists *)
    if client_known app client_mac then app
    (* Validate AP index *)
    else if (ap_idx <? 0)%Z || (ap_idx >=? network_count app)%Z then app
    else
      let c := Z.to_nat (app_client_count app) in
      let client := client_at (clients app) c in
      let client := client <| mac := strncpy client_mac (MAX_BSSID_LEN - 1) |>
                           <| client_rssi := rssi |>
                           <| ap_index := ap_idx |> in
      let app := app <| clients := <[c := client]> (clients app) |> in
      (* Add to AP's client list *)
      let net := net_at (networks app) (Z.to_nat ap_idx) in
      let actual := actual_count net in
      let net :=
        if (actual <? MAX_CLIENTS_PER_AP)%Z then
          let net := net <| client_indices :=
                         <[Z.to_nat actual := app_client_count app]> (client_indices net) |> in
          if (actual + 1 >? client_count net)%Z
          then net <| client_count := (actual + 1)%Z |>
          else net
        else net in
      let app := put_network app (Z.to_nat ap_idx) net in
      app <| app_client_count := (app_client_count app + 1)%Z |>.

Definition parse_ble_message (app : App) (data : string) : App :=
  if (ble_count app >=? MAX_BLE_DEVICES)%Z then app
  else
    let buffer := sep_to_pipe PROTO_SEP (strncpy data 127) in
    let slot := Z.to_nat (ble_count app) in
    let put (dev : BleDevice) := app <| ble_devices := <[slot := dev]> (ble_devices app) |> in
    let dev := zero_ble in
    let ts := token_init buffer in
    let_token (token, ts) := token_next ts "|" else_return put dev in
    let dev := dev <| ble_address := strncpy token (MAX_BSSID_LEN - 1) |> in
    let '(token, ts) := token_next ts "|" in
    let dev := match token with
               | Some token => dev <| ble_name := strncpy token 63 |>
               | None => dev <| ble_name := strncpy "Unknown" 63 |>
               end in
    let '(token, ts) := token_next ts "|" in
    let dev := dev <| ble_rssi := match token with
                                  | Some token => atoi token
                                  | None => (-80)%Z
                                  end |> in
    (put dev) <| ble_count := (ble_count app + 1)%Z |>.

(** [size_t] arithmetic of the 32-bit target. *)
Definition size_t (z : Z) : Z := (z mod 2 ^ 32)%Z.

(** The append shared by [parse_credential_message] and the [EV:] branch of
    [process_rx_line]:
    [space = sizeof(credentials) - current_len - 2; if(len < space) ...]. *)
Definition credentials_append (app : App) (line : string) : App :=
  let line := cstr line in
  let current_len := buf_strlen (credentials app) in
  let new_len := String.length line in
  let space := size_t (Z.of_nat CREDENTIALS_SIZE - Z.of_nat current_len - 2) in
  if (Z.of_nat new_len <? space)%Z then
    let buf := memcpy (credentials app) current_len line in
    let buf := store buf (current_len + new_len) "010"%char in
    let buf := store buf (current_len + new_len + 1) NUL in
    app <| credentials := buf |>
  else app.

Definition parse_credential_message (app : App) (data : string) : App :=
  let buffer := sep_to_pipe PROTO_SEP (strncpy data 255) in
  credentials_append app buffer.

(** [strstr(h, n) != NULL] *)
Definition has_substr (h n : string) : bool :=
  match strstr h n with
  | Some _ => true
  | None => false
  end.

(** [p = strstr(data, key); if(p) ... atoi(p + strlen(key))] of the info
    decoder. *)
Definition info_field (data key : string) : option Z :=
  match strstr data key with
  | Some p => Some (atoi (str_drop (p + String.length key) (cstr data)))
  | None => None
  end.

Definition parse_info (app : App) (data : string) : App :=
  let app := app <| firmware_response := strncpy data 127 |> in
  let app :=
    match strstr data "V:" with
    | Some p =>
        match strchr (str_drop p (cstr data)) "|" with
        | Some e =>
            let len := e - 2 in
            if Nat.ltb len 31
            then app <| firmware_version := str_take len (str_drop (p + 2) (cstr data)) |>
            else app
        | None => app
        end
    | None => app
    end in
  let app := match info_field data "CH:" with
             | Some v => app <| device_channel := v |> | None => app end in
  let app := match info_field data "D:" with
             | Some v => app <| device_deauth_count := v |> | None => app end in
  let app := match info_field data "B:" with
             | Some v => app <| device_beacon_active := (v =? 1)%Z |> | None => app end in
  let app := match info_field data "W:" with
             | Some v => app <| device_ap_active := (v =? 1)%Z |> | None => app end in
  let app := match info_field data "BLE:" with
             | Some v => app <| device_ble_count := v |> | None => app end in
  app.

Definition is_digit (c : ascii) : bool :=
  Nat.leb 48 (nat_of_ascii c) && Nat.leb (nat_of_ascii c) 57.

(** [for(i = 0; i < network_count; i++) networks[i].deauth_active = false;] *)
Definition clear_deauth_flags (app : App) : App :=
  for_loop (Z.to_nat (network_count app)) 0
    (fun i app => put_network app i ((net_at (networks app) i) <| deauth_active := false |>))
    app.

(** [process_rx_message(app, msg, len)]: [msg] is the byte array the frame
    was collected in. *)
Definition process_rx_message (app : App) (msg : list ascii) (len : nat) : App :=
  if Nat.ltb len 1 then app
  else
    let resp_type := byte_at msg 0 in
    let data := if Nat.ltb 1 len then cstring_at msg 1 else "" in
    let log_line := str_take 127 ("[" +:+ String resp_type ("] " +:+ data)) in
    let app := console_append app log_line in
    match resp_type with
    | "r"%char =>
        if strncmp_eq data "LED" 3 then app
        else
          let app := app <| firmware_type := FirmwareGattrose |>
                         <| firmware_response := strncpy data 127 |> in
          let app := match strstr data ":" with
                     | Some ver => app <| firmware_version := strncpy (str_drop (S ver) data) 31 |>
                     | None => app
                     end in
          app <| detection_done := true |>
    | "s"%char =>
        if strncmp_eq data "DONE:" 5 then app <| scan_finished := true |>
        else if strcmp_eq data "SCANNING" then app <| scanning := true |>
        else app
    | "n"%char => parse_network_message app data
    | "c"%char => parse_client_message app data
    | "l"%char =>
        if strncmp_eq data "SCAN_DONE:" 10 then app
        else if strcmp_eq data "BLE_SCANNING" then app
        else if strcmp_eq data "BLE_SPAM_ON" then app
        else if strcmp_eq data "BLE_STOP" then app
        else parse_ble_message app data
    | "C"%char => parse_credential_message app data
    | "i"%char =>
        let app :=
          if is_digit (char_at data 0) && Nat.ltb (strlen data) 5 then app
          else parse_info app data in
        app <| got_info := true |>
    | "e"%char => app
    | "d"%char => app      (* notification only *)
    | "w"%char => app      (* notification only *)
    | "b"%char => app      (* notification only *)
    | "m"%char =>
        if has_substr data "ON" || has_substr data "MONITOR_ON"
        then app <| monitor_active := true |>
        else if has_substr data "OFF" || has_substr data "MONITOR_OFF"
        then app <| monitor_active := false |>
        else app
    | "x"%char => clear_deauth_flags (app <| monitor_active := false |>)
    | "p"%char => app
    | "a"%char => app
    | "k"%char => app
    | _ => app
    end.

(** ** Legacy line decoder *)

(** [for(i = 0; i < network_count; i++) if(networks[i].id == ap_id) { ap_index = i; break; }] *)
Definition find_ap_by_id (app : App) (ap_id : Z) : Z :=
  for_loop (Z.to_nat (network_count app)) 0
    (fun i found =>
       if (found <? 0)%Z && (id (net_at (networks app) i) =? ap_id)%Z
       then Z.of_nat i else found)
    (-1)%Z.

(** [indices[i] = v] with an [int] index below sixteen.  With a negative
    index the C store lands in the cells that precede the index list in
    memory: the count, signal and other fields of the network, the networks
    before it, or what precedes the array.  The model does not say which; it
    leaves the list as it is and reports that the store went outside it. *)
Definition store_index (indices : list Z) (i : Z) (v : Z) : list Z * bool :=
  if (0 <=? i)%Z then (<[Z.to_nat i := v]> indices, false) else (indices, true).

Definition legacy_ap_line (app : App) (line : string) : App :=
  if (network_count app >=? MAX_NETWORKS)%Z then app
  else
    let buffer := sep_to_pipe ":" (strncpy line 127) in
    let ts := token_init buffer in
    let_token (token, ts) := token_next ts "|" else_return app in  (* "AP" *)
    let slot := Z.to_nat (network_count app) in
    let net := fresh_network in
    let_token (token, ts) := token_next ts "|" else_return put_network app slot net in
    let net := net <| id := atoi token |> in
    let_token (token, ts) := token_next ts "|" else_return put_network app slot net in
    let net := net <| ssid := strncpy token (MAX_SSID_LEN - 1) |> in
    let_token (token, ts) := token_next ts "|" else_return put_network app slot net in
    let net := net <| bssid := strncpy token (MAX_BSSID_LEN - 1) |> in
    let_token (token, ts) := token_next ts "|" else_return put_network app slot net in
    let net := net <| channel := atoi token |> in
    let_token (token, ts) := token_next ts "|" else_return put_network app slot net in
    let net := net <| security := atoi token |> in
    let_token (token, ts) := token_next ts "|" else_return put_network app slot net in
    let net := net <| rssi := atoi token |> in
    (* Optional: client_count from custom firmware *)
    let '(token, ts) := token_next ts "|" in
    let net := net <| client_count := match token with
                                      | Some token => atoi token
                                      | None => 0%Z
                                      end |> in
    let net := net <| is_5ghz := (channel net >=? 36)%Z |> in
    (put_network app slot net) <| network_count := (network_count app + 1)%Z |>.

Definition legacy_client_line (app : App) (line : string) : App :=
  if (app_client_count app >=? MAX_CLIENTS)%Z then app
  else
    let buffer := sep_to_pipe ":" (strncpy line 63) in
    let ts := token_init buffer in
    let_token (token, ts) := token_next ts "|" else_return app in  (* "CLIENT" or "STA" *)
    (* Skip "NEW" if present *)
    let_token (token, ts) := token_next ts "|" else_return app in
    let_token (token, ts) :=
      (if strcmp_eq token "NEW" then token_next ts "|" else (Some token, ts))
      else_return app in
    let ap_id := atoi token in
    let_token (token, ts) := token_next ts "|" else_return app in
    let client_mac := token in
    let '(token, ts) := token_next ts "|" in
    let rssi := match token with Some token => atoi token | None => (-80)%Z end in
    (* Find AP by ID *)
    let ap_index' := find_ap_by_id app ap_id in
    if (ap_index' <? 0)%Z then app
    (* Check if client already exists *)
    else if client_known app client_mac then app
    else
      let c := Z.to_nat (app_client_count app) in
      let client := client_at (clients app) c in
      let client := client <| mac := strncpy client_mac (MAX_BSSID_LEN - 1) |>
                           <| client_rssi := rssi |>
                           <| ap_index := ap_index' |> in
      let app := app <| clients := <[c := client]> (clients app) |> in
      (* Add to AP's client list *)
      let net := net_at (networks app) (Z.to_nat ap_index') in
      let stored :=
        store_index (client_indices net) (client_count net) (app_client_count app) in
      let outside := (client_count net <? MAX_CLIENTS_PER_AP)%Z && snd stored in
      let net :=
        if (client_count net <? MAX_CLIENTS_PER_AP)%Z then
          net <| client_indices := fst stored |>
              <| client_count := (client_count net + 1)%Z |>
        else net in
      let app := put_network app (Z.to_nat ap_index') net in
      let app := app <| out_of_bounds := out_of_bounds app || outside |> in
      app <| app_client_count := (app_client_count app + 1)%Z |>.

Definition legacy_credential_line (app : App) (line : string) : App :=
  let cred := str_drop 3 (cstr line) in
  let app := credentials_append app cred in
  let log_msg := str_take 127 ("[CRED] " +:+ cred) in
  console_append app log_msg.

Definition process_rx_line (app : App) (line : string) : App :=
  let line := cstr line in
  (* Always log to console buffer for debugging *)
  let app := console_append app line in
  if Nat.ltb (String.length line) 2 then app
  else if strncmp_eq line "AP:" 3 then legacy_ap_line app line
  else if strncmp_eq line "CLIENT:" 7 || strncmp_eq line "STA:" 4 then legacy_client_line app line
  else if strncmp_eq line "SCAN:OK" 7 then app <| scan_finished := true |>
  else if strncmp_eq line "EV:" 3 then legacy_credential_line app line
  else if strncmp_eq line "ERROR:" 6 then app
  else if strncmp_eq line "DEAUTH:" 7 then app
  else if strncmp_eq line "BEACON:" 7 then app
  else if strncmp_eq line "BLE:|" 5 then app
  else if strncmp_eq line "SCAN:" 5 then app
  (* ========== Firmware Detection Responses ========== *)
  else if strcmp_eq line "PONG" then app <| got_pong := true |>
  else if strncmp_eq line "GATTROSE-BW16:" 14 then
    app <| firmware_type := FirmwareGattrose |>
        <| firmware_response := strncpy line 127 |>
        <| detection_done := true |>
  else if strncmp_eq line "INFO:" 5 then
    let app := app <| got_info := true |> in
    let app :=
      if has_substr line "Gattrose" then
        let app := app <| firmware_type := FirmwareGattrose |> in
        match strstr line "v" with
        | Some ver => app <| firmware_version := strncpy (str_drop ver line) 31 |>
        | None => app
        end
      else if has_substr line "Evil" || has_substr line "BW16"
      then app <| firmware_type := FirmwareEvilBW16 |>
      else app in
    app <| firmware_response := strncpy line 127 |>
  else if strncmp_eq line "HELP:" 5 then
    let app := app <| got_help := true |> in
    if has_substr line "BLESCAN" || has_substr line "CLIENTS"
    then app <| firmware_type := FirmwareGattrose |>
    else app
  else if has_substr line "Marauder" || has_substr line "ESP32" then
    app <| firmware_type := FirmwareMarauder |>
        <| firmware_response := strncpy line 127 |>
        <| detection_done := true |>
  else if strcmp_eq line "OK" && negb (detection_done app) then
    if firmware_eqb (firmware_type app) FirmwareUnknown
    then app <| firmware_type := FirmwareGeneric |>
    else app
  else if strncmp_eq line "AT+" 3 || strncmp_eq line "+" 1 then
    app <| firmware_type := FirmwareGeneric |>
  else app.

(** ** Byte framer *)

(** One turn of the body of the [while] loop of [uart_rx_thread], for a
    byte that was received and with the mutex taken. *)
Definition uart_rx_byte (app : App) (data : ascii) : App :=
  let app := app <| bytes_rx := ((bytes_rx app + 1) mod 2 ^ 32)%Z |> in
  if Ascii.eqb data PROTO_STX then
    (* Start of new message *)
    app <| in_message := true |> <| rx_pos := 0 |>
  else if Ascii.eqb data PROTO_ETX && in_message app then
    (* End of message - process it *)
    let app := app <| rx_line := store (rx_line app) (rx_pos app) NUL |> in
    let app := process_rx_message app (rx_line app) (rx_pos app) in
    app <| rx_pos := 0 |> <| in_message := false |>
  else if in_message app then
    (* Inside STX/ETX frame - buffer the data *)
    if Nat.ltb (rx_pos app) (RX_LINE_SIZE - 1)
    then app <| rx_line := store (rx_line app) (rx_pos app) data |>
             <| rx_pos := S (rx_pos app) |>
    else app
  else
    (* Legacy mode: handle newline-terminated text *)
    if Ascii.eqb data "010"%char then
      if Nat.ltb 0 (rx_pos app) then
        let app :=
          if Ascii.eqb (byte_at (rx_line app) (rx_pos app - 1)) "013"%char
          then app <| rx_pos := rx_pos app - 1 |>
          else app in
        let app := app <| rx_line := store (rx_line app) (rx_pos app) NUL |> in
        let app := process_rx_line app (cstring_at (rx_line app) 0) in
        app <| rx_pos := 0 |>
      else app
    else if Nat.leb 32 (nat_of_ascii data) || Ascii.eqb data "009"%char then
      if Nat.ltb (rx_pos app) (RX_LINE_SIZE - 1)
      then app <| rx_line := store (rx_line app) (rx_pos app) data |>
               <| rx_pos := S (rx_pos app) |>
      else app
    else app.

(** The receive thread over the bytes that arrive, in order. *)
Definition uart_rx (app : App) (bytes : list ascii) : App :=
  fold_left uart_rx_byte bytes app.

(** ** Firmware detection *)

Section Detection.

(** [delay k] is what the receive thread does to the shared state while
    [detect_firmware] sits in its [k]-th [furi_delay_ms]. *)
Variable delay : nat -> App -> App.

Definition detection_complete (app : App) : App :=
  if Nat.ltb (firmware_index (firmware_type app)) (length firmware_caps)
  then app <| caps := default (mkCaps false false false false false false false false false false false false)
                              (firmware_caps !! firmware_index (firmware_type app)) |>
  else app <| caps := default (mkCaps false false false false false false false false false false false false)
                              (firmware_caps !! 0) |>.

Definition detect_firmware (app : App) : App :=
  if negb (connected app) then app
  else
    (* Reset detection state *)
    let app := app <| firmware_type := FirmwareUnknown |>
                   <| firmware_version := "" |>
                   <| firmware_response := "" |>
                   <| detection_done := false |>
                   <| got_pong := false |>
                   <| got_info := false |>
                   <| got_help := false |> in
    (* Wait briefly for boot message *)
    let app := delay 0 app in
    if detection_done app && firmware_eqb (firmware_type app) FirmwareGattrose
    then detection_complete app
    else
      (* Phase 1: Try new protocol - send 'i' (info) command *)
      let app := uart_send app "i" in
      let app := delay 1 app in
      if detection_done app || got_info app then
        let app :=
          if firmware_eqb (firmware_type app) FirmwareUnknown && got_info app
          then app <| firmware_type := FirmwareGattrose |>
          else app in
        detection_complete app
      else
        (* Phase 2: Try legacy protocol - send INFO command *)
        let app := uart_send_legacy app "INFO" in
        let app := delay 2 app in
        if detection_done app then detection_complete app
        else
          (* Phase 3: Try legacy PING command *)
          let app := uart_send_legacy app "PING" in
          let app := delay 3 app in
          let app := if got_pong app then app <| firmware_type := FirmwareEvilBW16 |> else app in
          (* Phase 4: Try HELP command for legacy firmware *)
          let app :=
            if firmware_eqb (firmware_type app) FirmwareUnknown
            then delay 4 (uart_send_legacy app "HELP")
            else app in
          (* Phase 5: Try AT command for generic firmware *)
          let app :=
            if firmware_eqb (firmware_type app) FirmwareUnknown
            then delay 5 (uart_send_legacy app "AT")
            else app in
          detection_complete app.

End Detection.

(** ** Ranking *)

(** Returns true if [a] and [b] are to be exchanged ([a] comes first). *)
Definition network_should_swap (a b : Network) : bool :=
  (* Networks with clients should come first *)
  if (client_count a >? 0)%Z && (client_count b =? 0)%Z then false
  else if (client_count a =? 0)%Z && (client_count b >? 0)%Z then true
  (* Same category, sort by RSSI *)
  else (rssi a <? rssi b)%Z.

Definition swap_with_next (nets : list Network) (j : nat) : list Network :=
  let temp := net_at nets j in
  let nets := <[j := net_at nets (S j)]> nets in
  <[S j := temp]> nets.

(** The bubble sort of [sort_networks]. *)
Definition sort_pass (bound : Z) (nets : list Network) : list Network :=
  for_loop (Z.to_nat bound) 0
    (fun j nets =>
       if network_should_swap (net_at nets j) (net_at nets (S j))
       then swap_with_next nets j
       else nets)
    nets.

Definition bubble_sort (n : Z) (nets : list Network) : list Network :=
  for_loop (Z.to_nat (n - 1)) 0
    (fun i nets => sort_pass (n - Z.of_nat i - 1) nets)
    nets.

(** [for(ci = 0; ci < net.client_count; ci++) if(net.client_indices[ci] == c) { ...; break; }]:
    whether the assignment is reached.  (A [client_count] above sixteen makes
    the C loop read past the index array; the model finds nothing there.) *)
Definition lists_client (net : Network) (c : Z) : bool :=
  for_loop (Z.to_nat (client_count net)) 0
    (fun ci found =>
       found || match client_indices net !! ci with
                | Some x => (x =? c)%Z
                | None => false
                end)
    false.

(** The re-link of client [c]: every network that lists [c] assigns its
    position, the last one stays. *)
Definition relink_client (nets : list Network) (network_count : Z) (c : nat) (cl : Client) : Client :=
  for_loop (Z.to_nat network_count) 0
    (fun n cl =>
       if lists_client (net_at nets n) (Z.of_nat c)
       then cl <| ap_index := Z.of_nat n |>
       else cl)
    cl.

Definition sort_networks (app : App) : App :=
  let app := app <| networks := bubble_sort (network_count app) (networks app) |> in
  (* Update client AP indices after sort *)
  for_loop (Z.to_nat (app_client_count app)) 0
    (fun c app =>
       app <| clients := <[c := relink_client (networks app) (network_count app) c
                                   (client_at (clients app) c)]> (clients app) |>)
    app.

(** ** Commands *)

(** [do_deauth]; the view refresh at its end is not modelled. *)
Definition do_deauth (app : App) : App :=
  let idx := selected_network app in
  if negb (connected app) || (idx <? 0)%Z || (idx >=? network_count app)%Z then app
  else
    let net := net_at (networks app) (Z.to_nat idx) in
    if deauth_active net then
      (* Stop deauth *)
      let app :=
        if firmware_eqb (firmware_type app) FirmwareGattrose then
          let app := uart_send app "ds" in
          uart_send app "r0,255,0"
        else uart_send_legacy app ("STOP " +:+ int_to_decimal (id net)) in
      put_network app (Z.to_nat idx) (net <| deauth_active := false |>)
    else
      (* Start deauth *)
      let app :=
        if firmware_eqb (firmware_type app) FirmwareGattrose then
          let app := uart_send app "r3" in
          let cmd :=
            if negb (deauth_reason app =? 2)%Z
            then "d" +:+ int_to_decimal (id net) +:+ "-" +:+ int_to_decimal (deauth_reason app)
            else "d" +:+ int_to_decimal (id net) in
          uart_send app cmd
        else
          let app := uart_send app (str_take 31 ("APMAC " +:+ custom_mac app)) in
          let app := uart_send app (str_take 31 ("REASON " +:+ int_to_decimal (deauth_reason app))) in
          let app := uart_send app (str_take 31 ("PORTAL " +:+ int_to_decimal (portal_type app))) in
          uart_send_legacy app ("DEAUTH " +:+ int_to_decimal (id net)) in
      put_network app (Z.to_nat idx) (net <| deauth_active := true |>).

(** [malloc] and [memset(app, 0, sizeof(App))]. *)
Definition app_alloc : App :=
  mkApp false false false []
    (replicate (Z.to_nat MAX_NETWORKS) zero_network) 0
    (replicate (Z.to_nat MAX_CLIENTS) zero_client) 0 0
    (replicate (Z.to_nat MAX_BLE_DEVICES) zero_ble) 0
    false 0 0 ""
    (replicate CREDENTIALS_SIZE NUL)
    false false
    (replicate RX_LINE_SIZE NUL) 0 false
    "" 0 0
    FirmwareUnknown
    (mkCaps false false false false false false false false false false false false)
    "" "" false false false false
    0 0 false false 0
    false.

(** After [uart_init]. *)
Definition app_connected : App :=
  mkApp true true true []
    (replicate (Z.to_nat MAX_NETWORKS) zero_network) 0
    (replicate (Z.to_nat MAX_CLIENTS) zero_client) 0 0
    (replicate (Z.to_nat MAX_BLE_DEVICES) zero_ble) 0
    false 0 0 ""
    (replicate CREDENTIALS_SIZE NUL)
    false false
    (replicate RX_LINE_SIZE NUL) 0 false
    "" 0 0
    FirmwareUnknown
    (mkCaps false false false false false false false false false false false false)
    "" "" false false false false
    0 0 false false 0
    false.

(** ** MAC addresses *)

Definition MAC_LENGTH : nat := 6.

(** A [uint8_t]. *)
Definition is_byte (b : Z) : Prop := (0 <= b < 256)%Z.

(** *** [%02X] *)

Definition hex_digit (d : Z) : ascii :=
  if (d <? 10)%Z then ascii_of_nat (48 + Z.to_nat d) else ascii_of_nat (55 + Z.to_nat d).

Fixpoint hex_digits (fuel : nat) (n : Z) (acc : string) : string :=
  match fuel with
  | O => acc
  | S k =>
      let acc' := String (hex_digit (n mod 16)) acc in
      if (n <? 16)%Z then acc' else hex_digits k (n / 16) acc'
  end.

(** [%02X] of an [unsigned int]: upper-case hexadecimal, at least two
    digits, padded with zeros. *)
Definition fmt_02X (v : Z) : string :=
  let s := hex_digits 8 v "" in
  if Nat.ltb (String.length s) 2 then String "0" s else s.

(** [bytes[i]] of a [uint8_t] array. *)
Definition byte_nth (bytes : list Z) (i : nat) : Z := default 0%Z (bytes !! i).

(** [mac_bytes_to_string]: [snprintf] into the 18 bytes of [str]. *)
Definition mac_bytes_to_string (bytes : list Z) : string :=
  str_take (MAX_BSSID_LEN - 1)
    (fmt_02X (byte_nth bytes 0) +:+ ":" +:+ fmt_02X (byte_nth bytes 1) +:+ ":" +:+
     fmt_02X (byte_nth bytes 2) +:+ ":" +:+ fmt_02X (byte_nth bytes 3) +:+ ":" +:+
     fmt_02X (byte_nth bytes 4) +:+ ":" +:+ fmt_02X (byte_nth bytes 5)).

(** *** [sscanf] with [%02X] conversions *)

Definition hex_val (c : ascii) : option Z :=
  let n := nat_of_ascii c in
  if Nat.leb 48 n && Nat.leb n 57 then Some (Z.of_nat n - 48)%Z
  else if Nat.leb 65 n && Nat.leb n 70 then Some (Z.of_nat n - 55)%Z
  else if Nat.leb 97 n && Nat.leb n 102 then Some (Z.of_nat n - 87)%Z
  else None.

(** One [%02X] conversion into an [unsigned int]: white space is skipped,
    then at most two characters make the number, an optional sign and
    hexadecimal digits; without a digit the conversion fails.  (With a field
    width of 2 no digit can follow a [0x] prefix: the C library of the
    target reads the [0] and leaves the [x].)  The result is the value and
    the rest of the input. *)
Definition scan_hex2 (s : string) : option (Z * string) :=
  match skip_space s with
  | EmptyString => None
  | String c r =>
      if Ascii.eqb c "-" || Ascii.eqb c "+" then
        match r with
        | EmptyString => None
        | String d r' =>
            match hex_val d with
            | Some v => Some (if Ascii.eqb c "-" then (- v) mod 2 ^ 32 else v, r')%Z
            | None => None
            end
        end
      else
        match hex_val c with
        | None => None
        | Some v1 =>
            match r with
            | EmptyString => Some (v1, r)
            | String d r' =>
                match hex_val d with
                | Some v2 => Some (16 * v1 + v2, r')%Z
                | None => Some (v1, r)
                end
            end
        end
  end.

(** A character of the format that is not a conversion: the input has to
    continue with it. *)
Definition scan_char (c : ascii) (s : string) : option string :=
  match s with
  | String a r => if Ascii.eqb a c then Some r else None
  | EmptyString => None
  end.

(** [sscanf(str, "%02X:%02X:%02X:%02X:%02X:%02X", ...) == 6]: the six
    values, when all six conversions succeed. *)
Definition sscanf_mac (str : string) : option (list Z) :=
  '(b0, s) ← scan_hex2 (cstr str); s ← scan_char ":" s;
  '(b1, s) ← scan_hex2 s; s ← scan_char ":" s;
  '(b2, s) ← scan_hex2 s; s ← scan_char ":" s;
  '(b3, s) ← scan_hex2 s; s ← scan_char ":" s;
  '(b4, s) ← scan_hex2 s; s ← scan_char ":" s;
  '(b5, _) ← scan_hex2 s;
  Some [b0; b1; b2; b3; b4; b5].

(** [mac_string_to_bytes]: the first six cells of [bytes] are assigned
    when the text scans, each value cut to a [uint8_t]. *)
Definition mac_string_to_bytes (str : string) (bytes : list Z) : list Z :=
  match sscanf_mac str with
  | Some b => ((fun x => x mod 256)%Z <$> b) ++ drop MAC_LENGTH bytes
  | None => bytes
  end.

(** [generate_random_mac]; [random] is what [furi_hal_random_fill_buf]
    writes into the six cells. *)
Definition generate_random_mac (random : list Z) : list Z :=
  let mac := take MAC_LENGTH random in
  let mac := <[0 := Z.land (byte_nth mac 0) 254]> mac in   (* Unicast *)
  <[0 := Z.lor (byte_nth mac 0) 2]> mac.                   (* Locally administered *)

(** *** The MAC of the attack configuration *)

(** [mac_type] and [mac_bytes] of [App]; [custom_mac] is with the fields
    the commands read. *)
Record MacConfig := mkMacConfig {
  mac_type : Z;
  mac_bytes : list Z
}.

#[global] Instance set_custom_mac : Setter custom_mac := ltac:(derive_setter App_eta).
#[global] Instance set_selected_network : Setter selected_network := ltac:(derive_setter App_eta).

(** [mac_type_change_cb]; [index] is the value the item shows, [random]
    what the random generator supplies should it be asked. *)
Definition mac_type_change_cb (random : list Z) (index : Z) (app : App) (cfg : MacConfig)
  : App * MacConfig :=
  let cfg := mkMacConfig index (mac_bytes cfg) in
  let app :=
    if (mac_type cfg =? 0)%Z then
      (* Default *)
      app <| custom_mac := strncpy "00:E0:4C:01:02:03" MAX_BSSID_LEN |>
    else if (mac_type cfg =? 1)%Z then
      (* Random *)
      let mac := generate_random_mac random in
      app <| custom_mac := mac_bytes_to_string mac |>
    else if (mac_type cfg =? 3)%Z && (selected_network app >=? 0)%Z then
      (* Same as AP *)
      app <| custom_mac :=
               strncpy (bssid (net_at (networks app) (Z.to_nat (selected_network app))))
                 MAX_BSSID_LEN |>
    else app in
  (app, mkMacConfig (mac_type cfg) (mac_string_to_bytes (custom_mac app) (mac_bytes cfg))).

(** [mac_input_callback]: the bytes the user typed become the text. *)
Definition mac_input_callback (app : App) (cfg : MacConfig) : App :=
  app <| custom_mac := mac_bytes_to_string (mac_bytes cfg) |>.

(** ** Connecting and scanning *)

#[global] Instance set_serial : Setter serial := ltac:(derive_setter App_eta).
#[global] Instance set_uart_running : Setter uart_running := ltac:(derive_setter App_eta).
#[global] Instance set_connected : Setter connected := ltac:(derive_setter App_eta).

Section Scan.

(** Whether [furi_hal_serial_control_acquire] hands out the UART. *)
Variable acquire : bool.

(** What the receive thread does to the shared state during the waits of
    [detect_firmware] ([delay]) and during those of [do_scan] ([wait]): its
    wait after the LED command is number 0, the [times]-th wait for the end
    of the scan number [1 + times], the waits for the network list and for
    the client list numbers 21 and 22. *)
Variable delay : nat -> App -> App.
Variable wait : nat -> App -> App.

(** [uart_init]; the stream buffer and the thread handle are not modelled. *)
Definition uart_init (app : App) : bool * App :=
  let app := app <| serial := acquire |> in
  if negb (serial app) then (false, app)
  else
    let app := app <| uart_running := true |> in
    let app := app <| connected := true |> in
    (true, app).

(** [while(!app->scan_finished && times < 20) { furi_delay_ms(500); times++; }],
    with [left] the rounds that remain before [times] is 20. *)
Fixpoint scan_wait (left : nat) (times : nat) (app : App) : App :=
  match left with
  | O => app
  | S left' =>
      if negb (scan_finished app)
      then scan_wait left' (S times) (wait (1 + times) app)
      else app
  end.

Definition do_scan (app : App) : App :=
  let '(ok, just_connected, app) :=
    if negb (connected app) then
      let (ok, app) := uart_init app in (ok, true, app)
    else (true, false, app) in
  if negb ok then app
  else
    (* Detect firmware on first connection *)
    let app :=
      if just_connected || firmware_eqb (firmware_type app) FirmwareUnknown
      then detect_firmware delay app
      else app in
    (* Clear previous results *)
    let app := app <| network_count := 0%Z |> in
    let app := app <| app_client_count := 0%Z |> in
    let app := app <| scan_finished := false |> in
    let app := app <| scanning := true |> in
    (* Use new protocol for Gattrose-NG, legacy for others *)
    let app :=
      if firmware_eqb (firmware_type app) FirmwareGattrose then
        let app := uart_send app "r1" in
        let app := wait 0 app in
        uart_send app "s"
      else uart_send_legacy app "SCAN" in
    (* Wait for scan completion *)
    let app := scan_wait 20 0 app in
    (* Request network list *)
    let app :=
      if firmware_eqb (firmware_type app) FirmwareGattrose
      then uart_send app "g"
      else uart_send_legacy app "LIST" in
    let app := wait 21 app in
    (* Request client list (only if firmware supports client detection) *)
    let app :=
      if client_detection (caps app) then
        let app :=
          if firmware_eqb (firmware_type app) FirmwareGattrose
          then uart_send app "c"
          else uart_send_legacy app "CLIENTS" in
        wait 22 app
      else app in
    (* Sort networks *)
    let app := sort_networks app in
    let app := app <| scanning := false |> in
    (* Set LED to green (ready state) *)
    if firmware_eqb (firmware_type app) FirmwareGattrose
    then uart_send app "r0,255,0"
    else app.

End Scan.

(** [do_stop_all]; of the flags it resets, those of the attacks that are
    not modelled are left out. *)
Definition do_stop_all (app : App) : App :=
  let app := console_append app "=== STOPPING ALL ===" in
  let app :=
    if connected app then
      if firmware_eqb (firmware_type app) FirmwareGattrose
      then uart_send app "x"
      else uart_send_legacy app "STOP"
    else app in
  let app := clear_deauth_flags app in
  app <| monitor_active := false |>.

(** ** The network and client lists *)

(** A submenu of the GUI, as far as the application fills it: the header,
    the items with the index each one hands to its callback, and the index
    last asked to be selected.  An item added without a callback cannot be
    chosen. *)
Record SubmenuItem := mkSubmenuItem {
  item_label : string;
  item_index : Z;
  item_callback : bool
}.

Record Submenu := mkSubmenu {
  submenu_header : string;
  submenu_items : list SubmenuItem;
  submenu_selected : Z
}.

Definition submenu_reset : Submenu := mkSubmenu "" [] 0.

Definition submenu_set_header (menu : Submenu) (header : string) : Submenu :=
  mkSubmenu (cstr header) (submenu_items menu) (submenu_selected menu).

Definition submenu_add_item (menu : Submenu) (label : string) (index : Z) (callback : bool)
  : Submenu :=
  mkSubmenu (submenu_header menu)
    (submenu_items menu ++ [mkSubmenuItem (cstr label) index callback])
    (submenu_selected menu).

Definition submenu_set_selected_item (menu : Submenu) (index : Z) : Submenu :=
  mkSubmenu (submenu_header menu) (submenu_items menu) index.

(** An [int] passed as [uint32_t], and back. *)
Definition to_uint32 (z : Z) : Z := (z mod 2 ^ 32)%Z.
Definition to_int (z : Z) : Z := (if z <? 2 ^ 31 then z else z - 2 ^ 32)%Z.

(** The label of a network in the list, as the loop of
    [update_network_list] writes it into [label[64]] and cuts it. *)
Definition network_label (net : Network) : string :=
  let prefix := if deauth_active net then "D|" else "" in
  let band := if is_5ghz net then "5G" else "2G" in
  (* Handle *hidden* as hidden SSID (firmware sends this for empty SSIDs) *)
  let is_hidden :=
    is_nul (char_at (ssid net) 0) || strcmp_eq (ssid net) "*hidden*" || hidden net in
  let display_ssid := if is_hidden then "<hidden>" else cstr (ssid net) in
  let label :=
    if (client_count net >? 0)%Z then
      str_take 63 (prefix +:+ band +:+ "|" +:+ int_to_decimal (client_count net) +:+ "|" +:+
                   display_ssid +:+ " " +:+ int_to_decimal (rssi net) +:+ "dB")
    else
      str_take 63 (prefix +:+ band +:+ "|" +:+
                   display_ssid +:+ " " +:+ int_to_decimal (rssi net) +:+ "dB") in
  (* Truncate if needed *)
  if Nat.ltb 32 (String.length label) then str_take 29 label +:+ ".." else label.

(** [update_network_list]; [show_all] is the [show_all_networks] flag. *)
Definition update_network_list (show_all : bool) (app : App) : Submenu :=
  let menu := submenu_reset in
  (* Count networks with clients *)
  let with_clients :=
    for_loop (Z.to_nat (network_count app)) 0
      (fun i n => if (client_count (net_at (networks app) i) >? 0)%Z then (n + 1)%Z else n)
      0%Z in
  (* Show firmware and network count in header *)
  let header :=
    if show_all
    then str_take 47 ("All APs (" +:+ int_to_decimal (network_count app) +:+ ")")
    else str_take 47 ("APs w/Clients (" +:+ int_to_decimal with_clients +:+ ")") in
  let menu := submenu_set_header menu header in
  if (network_count app =? 0)%Z then
    submenu_add_item menu ">> Tap to Scan <<" 999 true
  else
    (* Add toggle option at top *)
    let menu :=
      if show_all
      then submenu_add_item menu "[Show Only w/Clients]" 998 true
      else submenu_add_item menu "[Show All Networks]" 998 true in
    let menu :=
      for_loop (Z.to_nat (network_count app)) 0
        (fun i menu =>
           let net := net_at (networks app) i in
           (* Skip networks without clients unless showing all *)
           if negb show_all && (client_count net =? 0)%Z then menu
           else submenu_add_item menu (network_label net) (Z.of_nat i) true)
        menu in
    submenu_set_selected_item menu (to_uint32 (selected_network app)).

(** The label of a client in the list. *)
Definition client_label (client : Client) : string :=
  str_take 31 (cstr (mac client) +:+ " " +:+ int_to_decimal (client_rssi client) +:+ "dB").

(** [update_client_list].  (A [client_count] above sixteen makes the C loop
    read past the index array; the model adds no item there.) *)
Definition update_client_list (app : App) : Submenu :=
  let menu := submenu_reset in
  if (selected_network app <? 0)%Z || (selected_network app >=? network_count app)%Z then
    submenu_set_header menu "No AP selected"
  else
    let net := net_at (networks app) (Z.to_nat (selected_network app)) in
    let header :=
      str_take 47 ((if negb (is_nul (char_at (ssid net) 0)) then cstr (ssid net) else "<hidden>")
                   +:+ " (" +:+ int_to_decimal (client_count net) +:+ ")") in
    let menu := submenu_set_header menu header in
    if (client_count net =? 0)%Z then
      submenu_add_item menu "[No clients]" 0 false
    else
      for_loop (Z.to_nat (client_count net)) 0
        (fun i menu =>
           match client_indices net !! i with
           | Some ci =>
               if (ci >=? 0)%Z && (ci <? app_client_count app)%Z then
                 let client := client_at (clients app) (Z.to_nat ci) in
                 submenu_add_item menu (client_label client) (Z.of_nat i) true
               else menu
           | None => menu
           end)
        menu.

(** The state of the network list view: the filter flag and the submenu. *)
Record NetworkListView := mkNetworkListView {
  show_all_networks : bool;
  network_list : Submenu
}.

Section ListCallbacks.

Variable acquire : bool.
Variable delay : nat -> App -> App.
Variable wait : nat -> App -> App.

(** [network_list_callback]; switching between the views and the refresh
    of the network page are not modelled. *)
Definition network_list_callback (app : App) (view : NetworkListView) (index : Z)
  : App * NetworkListView :=
  (* Index 999 = trigger scan *)
  if (index =? 999)%Z then
    let app := do_scan acquire delay wait app in
    (app, mkNetworkListView (show_all_networks view)
            (update_network_list (show_all_networks view) app))
  (* Index 998 = toggle show all/clients only filter *)
  else if (index =? 998)%Z then
    let show_all := negb (show_all_networks view) in
    (app, mkNetworkListView show_all (update_network_list show_all app))
  else
    (app <| selected_network := to_int index |>, view).

End ListCallbacks.

(** [client_list_callback].  (An index that is not below sixteen makes the C
    code read past the index array; the model does nothing there.) *)
Definition client_list_callback (app : App) (index : Z) : App :=
  (* Get the selected client *)
  if (selected_network app <? 0)%Z || (selected_network app >=? network_count app)%Z then app
  else
    let slot := Z.to_nat (selected_network app) in
    let net := net_at (networks app) slot in
    if (to_int index >=? client_count net)%Z then app
    else
      match client_indices net !! Z.to_nat index with
      | None => app
      | Some ci =>
          if (ci <? 0)%Z || (ci >=? app_client_count app)%Z then app
          else
            let client := client_at (clients app) (Z.to_nat ci) in
            (* Perform targeted deauth to this client *)
            if firmware_eqb (firmware_type app) FirmwareGattrose then
              (* New protocol: d<idx>-<reason>-<MAC> *)
              let cmd :=
                str_take 63 ("d" +:+ int_to_decimal (id net) +:+ "-" +:+
                             int_to_decimal (deauth_reason app) +:+ "-" +:+ cstr (mac client)) in
              let app := uart_send app cmd in
              put_network app slot ((net_at (networks app) slot) <| deauth_active := true |>)
            else if targeted_deauth (caps app) then
              (* Legacy: DEAUTH <idx> <MAC> *)
              let cmd :=
                str_take 63 ("DEAUTH " +:+ int_to_decimal (id net) +:+ " " +:+
                             cstr (mac client)) in
              let app := uart_send_legacy app cmd in
              put_network app slot ((net_at (networks app) slot) <| deauth_active := true |>)
            else
              (* Firmware doesn't support targeted deauth *)
              app
      end.

(** * Vocabulary of the properties *)

(** ** Byte arrays and the credential log *)

(** No terminator among the bytes. *)
Definition no_nul (l : list ascii) : Prop := Forall (fun c => is_nul c = false) l.

(** The line feed that ends a line of the log. *)
Definition newline : ascii := "010"%char.

(** The outcome of an append of the text [line] that takes the array [old]
    to [new]. *)
Definition credential_outcome (old new : list ascii) (line : string) : Prop :=
  let cur := buf_strlen old in
  let n := String.length line in
  (* no store past the array, and a terminator inside it *)
  length new = CREDENTIALS_SIZE /\
  buf_strlen new <= CREDENTIALS_SIZE - 2 /\
  (* the whole line, or nothing *)
  (cur + n < CREDENTIALS_SIZE - 2 ->
     cstring_at new 0 = cstring_at old 0 +:+ line +:+ String newline "") /\
  (CREDENTIALS_SIZE - 2 <= cur + n -> new = old) /\
  (* in particular when line, newline and terminator exceed what is left *)
  (CREDENTIALS_SIZE < cur + n + 2 -> new = old).

(** A credential frame in the line buffer: tag, user, separator, password. *)
Definition cred_frame : list ascii :=
  list_ascii_of_string "Cadmin" ++ [PROTO_SEP] ++ list_ascii_of_string "hunter2" ++ [NUL].

(** ** The framer *)

(** The framer's own state: the line buffer, the position and the mode. *)
Definition rx_state (app : App) : list ascii * nat * bool :=
  (rx_line app, rx_pos app, in_message app).

(** The line buffer has its 256 cells and the position is one of them. *)
Definition framer_ok (app : App) : Prop :=
  length (rx_line app) = RX_LINE_SIZE /\ rx_pos app < RX_LINE_SIZE.

(** [n] receptions on the byte counter. *)
Definition count_rx (n : nat) (x : Z) : Z := Nat.iter n (fun x => ((x + 1) mod 2 ^ 32)%Z) x.

(** A byte that is neither the start nor the end marker. *)
Definition frame_byte (b : ascii) : Prop := b <> PROTO_STX /\ b <> PROTO_ETX.

(** ** The inventory *)

(** The Network collection: the first [network_count] cells of the array. *)
Definition live_networks (app : App) : list Network :=
  take (Z.to_nat (network_count app)) (networks app).

(** The Client collection. *)
Definition live_clients (app : App) : list Client :=
  take (Z.to_nat (app_client_count app)) (clients app).

(** The arrays have their declared sizes and the counters are inside them. *)
Definition inventory_ok (app : App) : Prop :=
  length (networks app) = Z.to_nat MAX_NETWORKS /\
  (0 <= network_count app <= MAX_NETWORKS)%Z /\
  length (clients app) = Z.to_nat MAX_CLIENTS /\
  (0 <= app_client_count app <= MAX_CLIENTS)%Z.

(** ** Messages and their fields *)

(** The first [n] tokens of a buffer, as [n] calls of [token_next] give them. *)
Fixpoint tokens_from (n : nat) (ts : TokenState) (delim : ascii) : list string :=
  match n with
  | O => []
  | S k =>
      match token_next ts delim with
      | (Some t, ts') => t :: tokens_from k ts' delim
      | (None, _) => []
      end
  end.

(** A network message is valid when it carries the five fields the decoder
    insists on: id, SSID, BSSID, channel and signal. *)
Definition network_fields (data : string) : list string :=
  tokens_from 5 (token_init (sep_to_pipe PROTO_SEP (strncpy data 127))) "|".

(** The decoder finds its five fields. *)
Definition valid_network_message (data : string) : bool :=
  Nat.eqb (length (network_fields data)) 5.

(** The bytes of a frame with tag [t] and text [data], as the framer
    leaves them in the line buffer. *)
Definition frame_bytes (t : ascii) (data : string) : list ascii :=
  t :: list_ascii_of_string data.

(** The sample frame of the specification and the Network it stands for. *)
Definition myap_body : string := "3|MyAP|AA:BB:CC:DD:EE:FF|6|-42|2|0|WPA2-AES|0|0".

Definition myap : Network :=
  mkNetwork 3 "MyAP" "AA:BB:CC:DD:EE:FF" 6 (-42) 0 false false 0
    (replicate 16 (-1)%Z) "WPA2-AES" false false.

(** Two states with the same inventory: the two arrays and their counters. *)
Definition same_inventory (a b : App) : Prop :=
  networks a = networks b /\ network_count a = network_count b /\
  clients a = clients b /\ app_client_count a = app_client_count b.

(** The sample legacy line of the specification. *)
Definition testnet_line : string := "AP:1:TestNet:11:22:33:44:55:66:6:1049600:-55".

(** The same network in the binary dialect. *)
Definition testnet_body : string := "1|TestNet|11:22:33:44:55:66|6|-55|2|0".

(** ** Client messages *)

(** The MAC field of a binary client message: its second token. *)
Definition client_message_mac (data : string) : option string :=
  let ts := token_init (sep_to_pipe PROTO_SEP (strncpy data 63)) in
  let_token (_t, ts) := token_next ts "|" else_return None in
  let_token (m, _ts) := token_next ts "|" else_return None in
  Some m.

(** The MAC field of a legacy [CLIENT:] or [STA:] line: the token after the
    AP id, which follows the tag and an optional [NEW]. *)
Definition legacy_client_mac (line : string) : option string :=
  let ts := token_init (sep_to_pipe ":" (strncpy line 63)) in
  let_token (_tag, ts) := token_next ts "|" else_return None in
  let_token (token, ts) := token_next ts "|" else_return None in
  let_token (_ap, ts) :=
    (if strcmp_eq token "NEW" then token_next ts "|" else (Some token, ts))
    else_return None in
  let_token (m, _ts) := token_next ts "|" else_return None in
  Some m.

(** Some entry of the Client collection has this MAC. *)
Definition mac_present (app : App) (m : string) : Prop :=
  exists i c, i < Z.to_nat (app_client_count app) /\ clients app !! i = Some c /\ mac c = m.

(** A session that has seen one network and one client of it. *)
Definition one_client_app : App :=
  parse_client_message (parse_network_message app_connected myap_body) "0|DE:AD:BE:EF:00:01|-48".

(** ** Client counts *)

(** The number of valid (non-negative) entries of an index list. *)
Fixpoint count_valid (indices : list Z) : Z :=
  match indices with
  | [] => 0%Z
  | x :: r => ((if (0 <=? x)%Z then 1 else 0) + count_valid r)%Z
  end.

(** The occupancy of the index list of a network. *)
Definition valid_entries (net : Network) : Z := count_valid (client_indices net).

(** The claim as the specification has it: every Network of the collection
    reports as many clients as its index list holds. *)
Definition count_is_occupancy (app : App) : Prop :=
  Forall (fun net => client_count net = valid_entries net) (live_networks app).

(** The client count a network message carries: its seventh field, 0 when
    the message stops before it. *)
Definition network_wire_count (data : string) : Z :=
  match tokens_from 7 (token_init (sep_to_pipe PROTO_SEP (strncpy data 127))) "|" with
  | [_; _; _; _; _; _; t] => atoi t
  | _ => 0%Z
  end.

(** An index list as the binary decoders build it: sixteen slots, the valid
    ones first. *)
Definition well_linked (net : Network) : Prop :=
  length (client_indices net) = Z.to_nat MAX_CLIENTS_PER_AP /\
  count_valid (client_indices net) = leading_valid (client_indices net).

(** The AP index a binary client message carries: its first field, read as
    the decoder reads it. *)
Definition client_message_ap (data : string) : option Z :=
  let ts := token_init (sep_to_pipe PROTO_SEP (strncpy data 63)) in
  let_token (t, _ts) := token_next ts "|" else_return None in
  Some (atoi t).

(** ** Detection *)

(** What detection looks at in the shared state. *)
Definition detection_view (app : App) : FirmwareType * bool * bool * bool :=
  (firmware_type app, detection_done app, got_info app, got_pong app).

(** No recognizable response: whatever the receive thread does during a
    wait, it leaves the detection fields as they were. *)
Definition quiet (delay : nat -> App -> App) : Prop :=
  forall k app, detection_view (delay k app) = detection_view app.

(** The capability set of the Unknown profile. *)
Definition minimal_caps : FirmwareCapabilities :=
  {| wifi_scan := true; wifi_scan_5ghz := false; client_detection := false;
     targeted_deauth := false; broadcast_deauth := true; beacon_spam := false;
     evil_twin := false; ble_scan := false; ble_spam := false;
     channel_hop := false; monitor_mode := false; eapol_capture := false |}.

(** A state seen through a wait and a probe: the detection fields of the
    reset state. *)
Definition undetected (app : App) : Prop :=
  detection_view app = (FirmwareUnknown, false, false, false).

(** ** Deauth *)

(** The bytes [uart_send] puts on the wire for a command. *)
Definition wire (cmd : string) : list ascii :=
  [PROTO_STX] ++ list_ascii_of_string (cstr cmd) ++ [PROTO_ETX].

(** The modern deauth-by-id command: [d<id>], with [-<reason>] when the
    reason is not the default 2. *)
Definition deauth_command (net_id reason : Z) : string :=
  if (reason =? 2)%Z then "d" +:+ int_to_decimal net_id
  else "d" +:+ int_to_decimal net_id +:+ "-" +:+ int_to_decimal reason.

(** The active-deauth flag of the selected network. *)
Definition selected_flag (app : App) : bool :=
  deauth_active (net_at (networks app) (Z.to_nat (selected_network app))).

(** A session on the Native profile with a selected network of the
    collection. *)
Definition native_session (app : App) : Prop :=
  connected app = true /\ serial app = true /\ uart_running app = true /\
  firmware_type app = FirmwareGattrose /\
  (0 <= selected_network app < network_count app)%Z /\
  Z.to_nat (selected_network app) < length (networks app).

(** What a command leaves alone. *)
Definition session_view (app : App) :=
  (connected app, serial app, uart_running app, firmware_type app,
   selected_network app, network_count app, networks app, deauth_reason app).

(** A Native session with the sample network selected. *)
Definition native_app : App :=
  (parse_network_message app_connected myap_body) <| firmware_type := FirmwareGattrose |>.

(** ** Ranking *)

(** [a] may stay in front of [b]. *)
Definition keeps_order (a b : Network) : Prop := network_should_swap a b = false.

(** The client-presence category the comparison looks at: the client count
    is positive. *)
Definition has_clients (net : Network) : bool := (0 <? client_count net)%Z.

(** Same category and same signal. *)
Definition tie (c : bool) (r : Z) (net : Network) : bool :=
  Bool.eqb (has_clients net) c && (rssi net =? r)%Z.

(** The client count is not negative. *)
Definition count_ok (net : Network) : Prop := (0 <= client_count net)%Z.

(** The inner loop run over [x :: r]: what it leaves in front, and the
    element it has carried to the last cell. *)
Fixpoint bubble (x : Network) (r : list Network) : list Network * Network :=
  match r with
  | [] => ([], x)
  | y :: r' =>
      if network_should_swap x y
      then let (q, z) := bubble x r' in (y :: q, z)
      else let (q, z) := bubble y r' in (x :: q, z)
  end.

(** [k] passes over a list of [k + 1] elements. *)
Fixpoint bubble_passes (k : nat) (l : list Network) : list Network :=
  match k, l with
  | S k', x :: r => let (q, z) := bubble x r in bubble_passes k' q ++ [z]
  | _, _ => l
  end.

(** The body of the inner loop of the sort. *)
Definition pass_body (j : nat) (nets : list Network) : list Network :=
  if network_should_swap (net_at nets j) (net_at nets (S j))
  then swap_with_next nets j
  else nets.

(** The body of the network loop of the re-link, for client [c]. *)
Definition relink_body (nets : list Network) (c : nat) (n : nat) (cl : Client) : Client :=
  if lists_client (net_at nets n) (Z.of_nat c) then cl <| ap_index := Z.of_nat n |> else cl.

(** The body of the client loop of the re-link. *)
Definition relink_step (c : nat) (app : App) : App :=
  app <| clients := <[c := relink_client (networks app) (network_count app) c
                            (client_at (clients app) c)]> (clients app) |>.

(** An inventory the decoders build: network A announces two clients on the
    wire and none is seen, network B announces none and one is seen. *)
Definition announced_app : App :=
  let app := parse_network_message app_connected "1|A|02:00:00:00:00:0A|1|-30|2|2" in
  let app := parse_network_message app "2|B|02:00:00:00:00:0B|6|-60|2|0" in
  parse_client_message app "1|DE:AD:BE:EF:00:01|-50".

(** The specification's order: a network with a linked client precedes
    every network without one. *)
Definition linked_first (app : App) : Prop :=
  forall i j a b,
    live_networks app !! i = Some a -> live_networks app !! j = Some b ->
    (0 < valid_entries a)%Z -> valid_entries b = 0%Z -> i < j.

(** A seventeenth client of a network is stored but finds no index slot;
    the sort has nothing to re-link it by, and its network index stays what
    it was before the networks moved. *)
Definition crowded_app : App :=
  let app := parse_network_message app_connected "1|A|02:00:00:00:00:0A|1|-30|2|0" in
  let app := parse_network_message app "2|B|02:00:00:00:00:0B|6|-60|2|0" in
  fold_left
    (fun app k => parse_client_message app ("1|DE:AD:BE:EF:00:" +:+ k +:+ "|-50"))
    ["10"; "11"; "12"; "13"; "14"; "15"; "16"; "17"; "18"; "19";
     "1A"; "1B"; "1C"; "1D"; "1E"; "1F"; "20"]
    app.

(** ** Fields and tokens *)

(** The fields of a message written one after the other, with the delimiter
    between two of them. *)
Fixpoint join_fields (delim : ascii) (fields : list string) : string :=
  match fields with
  | [] => ""
  | f :: r =>
      match r with
      | [] => f
      | _ :: _ => f +:+ String delim (join_fields delim r)
      end
  end.

(** A field holds neither the delimiter nor a terminator. *)
Definition plain_field (delim : ascii) (f : string) : Prop :=
  Forall (fun c => c <> delim /\ c <> NUL) (list_ascii_of_string f).

(** A text in which the character [c] does not occur. *)
Definition lacks (c : ascii) (s : string) : Prop :=
  Forall (fun a => a <> c) (list_ascii_of_string s).

(** The scanner's state after the text [seen] has been consumed, with the
    fields [fields] still to come. *)
Definition scan_state (delim : ascii) (seen : string) (fields : list string) : TokenState :=
  mkTokenState (seen +:+ join_fields delim fields) (String.length seen).

(** A field of a device message: free of both separators and of terminators. *)
Definition message_field (f : string) : Prop :=
  plain_field "|" f /\ plain_field PROTO_SEP f.

(** The [i]-th field, empty when the message stops before it. *)
Definition field (fs : list string) (i : nat) : string := default "" (fs !! i).

(** The Network a network message with the fields [fs] stands for:
    id, SSID, BSSID, channel, signal, band, client count, security label,
    PMF and hidden flags, in this order. *)
Definition network_of_fields (fs : list string) : Network :=
  {| id := atoi (field fs 0);
     ssid := strncpy (field fs 1) 32;
     bssid := strncpy (field fs 2) 17;
     channel := atoi (field fs 3);
     rssi := atoi (field fs 4);
     security := 0;
     is_5ghz := (atoi (field fs 5) =? 5)%Z;
     deauth_active := false;
     client_count := atoi (field fs 6);
     client_indices := replicate 16 (-1)%Z;
     security_str := match fs !! 7 with
                     | Some t => strncpy t 15
                     | None => "???"
                     end;
     has_pmf := (atoi (field fs 8) =? 1)%Z;
     hidden := (atoi (field fs 9) =? 1)%Z |}.

(** The Client a client message with the fields [fs] stands for: AP index,
    MAC, signal; the signal is -80 when the message stops before it. *)
Definition client_of_fields (fs : list string) : Client :=
  {| mac := strncpy (field fs 1) 17;
     client_rssi := match fs !! 2 with
                    | Some t => atoi t
                    | None => (-80)%Z
                    end;
     ap_index := atoi (field fs 0) |}.

(** The BLE device a device message with the fields [fs] stands for:
    address, name, signal; a missing name reads "Unknown", a missing signal
    -80. *)
Definition ble_of_fields (fs : list string) : BleDevice :=
  {| ble_address := strncpy (field fs 0) 17;
     ble_name := match fs !! 1 with
                 | Some t => strncpy t 63
                 | None => "Unknown"
                 end;
     ble_rssi := match fs !! 2 with
                 | Some t => atoi t
                 | None => (-80)%Z
                 end |}.

(** The BLE list: the first [ble_count] cells of the array. *)
Definition live_ble (app : App) : list BleDevice :=
  take (Z.to_nat (ble_count app)) (ble_devices app).

(** ** The inventory as a linked structure *)

(** The three collections and their counters. *)
Definition inventory_view (app : App) :=
  (networks app, network_count app, clients app, app_client_count app,
   ble_devices app, ble_count app).

(** An entry of an index list: the unlinked mark, or the position of a
    stored client. *)
Definition link_ok (app : App) (x : Z) : Prop := (-1 <= x < app_client_count app)%Z.

(** The arrays have their declared sizes, the counters are inside them,
    every index list of a stored network has its sixteen slots and holds
    only links to stored clients, and every stored client names a stored
    network. *)
Definition inventory_linked (app : App) : Prop :=
  inventory_ok app /\
  length (ble_devices app) = Z.to_nat MAX_BLE_DEVICES /\
  (0 <= ble_count app <= MAX_BLE_DEVICES)%Z /\
  Forall (fun net => length (client_indices net) = Z.to_nat MAX_CLIENTS_PER_AP /\
                     Forall (link_ok app) (client_indices net))
         (live_networks app) /\
  Forall (fun cl => (0 <= ap_index cl < network_count app)%Z) (live_clients app).

(** What a network is, as opposed to what is known of its clients and of
    the attack on it. *)
Definition net_identity (net : Network) :=
  (id net, ssid net, bssid net, channel net, rssi net, security net, is_5ghz net,
   security_str net, has_pmf net, hidden net).

(** From [a] to [b] the collections have only grown: the clients and BLE
    devices of [a] are still there, unchanged and in place, and so are its
    networks, as far as their identity goes. *)
Definition inventory_grows (a b : App) : Prop :=
  live_clients a `prefix_of` live_clients b /\
  live_ble a `prefix_of` live_ble b /\
  (net_identity <$> live_networks a) `prefix_of` (net_identity <$> live_networks b).

(** A step that keeps the inventory linked and only lets it grow. *)
Definition inventory_step (a b : App) : Prop :=
  inventory_linked a -> inventory_linked b /\ inventory_grows a b.

(** A stream with a network frame, a client frame for it and a legacy line. *)
Definition sample_stream : list ascii :=
  PROTO_STX :: frame_bytes "n" myap_body ++ [PROTO_ETX]
  ++ PROTO_STX :: frame_bytes "c" "0|DE:AD:BE:EF:00:01|-48" ++ [PROTO_ETX]
  ++ list_ascii_of_string "CLIENT:3:02:00:00:00:00:09" ++ ["010"%char].

(** ** Lines and frames on the wire *)

(** The bytes the legacy branch of the framer keeps: [data >= 0x20 || data == '\t']. *)
Definition is_printable (b : ascii) : bool :=
  Nat.leb 32 (nat_of_ascii b) || Ascii.eqb b "009"%char.

(** What the framer has collected of a legacy line when its line feed
    arrives: the printable bytes, as far as the line buffer takes them. *)
Definition line_text (bytes : list ascii) : list ascii :=
  take (RX_LINE_SIZE - 1) (List.filter is_printable bytes).

(** ** Detection and the wire *)

(** What the receive path never touches: the UART handle and its flags, and
    what has been transmitted. *)
Definition link_view (app : App) :=
  (serial app, uart_running app, connected app, tx app, bytes_tx app).

(** The bytes [uart_send_legacy] puts on the wire for a command. *)
Definition legacy_wire (cmd : string) : list ascii :=
  list_ascii_of_string (cstr cmd) ++ ["010"%char].

(** The probes of [detect_firmware], in the order it sends them. *)
Definition probes : list (list ascii) :=
  [wire "i"; legacy_wire "INFO"; legacy_wire "PING"; legacy_wire "HELP"; legacy_wire "AT"].

(** A device whose bytes during the [k]-th wait are [incoming k]. *)
Definition device (incoming : nat -> list ascii) : nat -> App -> App :=
  fun k app => uart_rx app (incoming k).

(** Between [a] and [b] the UART has stayed up and [bytes] have been sent. *)
Definition sent_since (a b : App) (bytes : list ascii) : Prop :=
  serial b = true /\ uart_running b = true /\ tx b = tx a ++ bytes.

(** The capability row of a firmware type. *)
Definition caps_of (t : FirmwareType) : option FirmwareCapabilities :=
  firmware_caps !! firmware_index t.

(** The ready frame a Gattrose-NG device sends when it boots. *)
Definition ready_frame (banner : string) : list ascii :=
  PROTO_STX :: frame_bytes "r" banner ++ [PROTO_ETX].

(** A device that only sends its boot banner, during the first wait. *)
Definition booting_device (banner : string) : nat -> App -> App :=
  device (fun k => match k with 0 => ready_frame banner | _ => [] end).

(** A device that stays silent until it answers the PING probe. *)
Definition pong_device : nat -> App -> App :=
  device (fun k => match k with 3 => legacy_wire "PONG" | _ => [] end).

(** The framer at the start of a line, outside a frame. *)
Definition framer_idle (app : App) : Prop :=
  in_message app = false /\ rx_pos app = 0 /\ length (rx_line app) = RX_LINE_SIZE.

(** ** The configured MAC *)

(** The text and the bytes of the configured MAC say the same. *)
Definition mac_in_step (app : App) (cfg : MacConfig) : Prop :=
  length (mac_bytes cfg) = MAC_LENGTH /\ Forall is_byte (mac_bytes cfg) /\
  custom_mac app = mac_bytes_to_string (mac_bytes cfg).

(** ** Ranking and the inventory *)

(** What a client is, as opposed to the network it is linked to. *)
Definition client_identity (cl : Client) := (mac cl, client_rssi cl).

(** Two networks without clients, the weaker one first, and a third with a
    client behind them. *)
Definition unranked_app : App :=
  let app := parse_network_message app_alloc "1|A|02:00:00:00:00:0A|1|-70|2|0" in
  let app := parse_network_message app "2|B|02:00:00:00:00:0B|6|-40|2|0" in
  let app := parse_network_message app "3|C|02:00:00:00:00:0C|11|-80|2|0" in
  parse_client_message app "2|DE:AD:BE:EF:00:01|-50".

(** ** A scan on a sample device *)

(** A device that sends its boot banner while detection waits, and two
    networks, the weaker one first, when it is asked for its list. *)
Definition scan_banner : nat -> list ascii :=
  fun k => match k with 0 => ready_frame "GATTROSE-NG:2.1" | _ => [] end.

Definition scan_answers : nat -> list ascii :=
  fun k =>
    match k with
    | 21 => PROTO_STX :: frame_bytes "n" "7|A|02:00:00:00:00:0A|1|-70|2|0" ++ [PROTO_ETX]
            ++ PROTO_STX :: frame_bytes "n" "9|B|02:00:00:00:00:0B|6|-40|2|0" ++ [PROTO_ETX]
    | _ => []
    end.

(** The flag of a stored network after [do_stop_all]. *)
Definition at_rest (net : Network) : Network := net <| deauth_active := false |>.

(** ** What the lists stand for *)

(** Whether the network list shows a network. *)
Definition shown (show_all : bool) (net : Network) : bool :=
  show_all || (0 <? client_count net)%Z.

(** The deauth commands aimed at one client of a network. *)
Definition client_deauth_command (net : Network) (reason : Z) (client : Client) : string :=
  str_take 63 ("d" +:+ int_to_decimal (id net) +:+ "-" +:+ int_to_decimal reason +:+ "-" +:+
               cstr (mac client)).

Definition legacy_client_deauth_command (net : Network) (client : Client) : string :=
  str_take 63 ("DEAUTH " +:+ int_to_decimal (id net) +:+ " " +:+ cstr (mac client)).

(** A hidden network with two clients, selected, and a network without
    clients before it. *)
Definition listed_app : App :=
  let app := parse_network_message app_connected "4|Cafe|02:00:00:00:00:0A|1|-48|2|0" in
  let app := parse_network_message app "5||02:00:00:00:00:0B|36|-71|5|0" in
  let app := parse_client_message app "1|DE:AD:BE:EF:00:01|-50" in
  let app := parse_client_message app "1|DE:AD:BE:EF:00:02|-63" in
  (app <| selected_network := 1%Z |>) <| firmware_type := FirmwareGattrose |>.

(** ** Deauth on a legacy firmware *)



(** The sample inventory on an Evil-BW16 firmware, its second network
    selected. *)
Definition legacy_app : App :=
  ((unranked_app <| serial := true |>) <| uart_running := true |>) <| connected := true |>
    <| selected_network := 1%Z |> <| firmware_type := FirmwareEvilBW16 |>
    <| custom_mac := "00:E0:4C:01:02:03" |>.

(** * Properties *)

(** ** C library and scanner, on samples *)

Example atoi_neg : atoi "-42" = (-42)%Z.
Proof. reflexivity. Qed.

Example atoi_trailing : atoi " 17abc" = 17%Z.
Proof. reflexivity. Qed.

Example atoi_empty : atoi "" = 0%Z.
Proof. reflexivity. Qed.

Example int_to_decimal_ex : int_to_decimal 305 = "305" /\ int_to_decimal (-7) = "-7" /\ int_to_decimal 0 = "0".
Proof. repeat split; reflexivity. Qed.

Example set_field_ex (n : Network) : rssi (n <| rssi := (-40)%Z |> <| channel := 6%Z |>) = (-40)%Z.
Proof. reflexivity. Qed.

Example token_next_ex :
  let '(t1, s1) := token_next (token_init "ab||c") "|" in
  let '(t2, s2) := token_next s1 "|" in
  let '(t3, s3) := token_next s2 "|" in
  let '(t4, s4) := token_next s3 "|" in
  (t1, t2, t3, t4) = (Some "ab", Some "", Some "c", None).
Proof. reflexivity. Qed.

(** ** Byte arrays *)

Section ByteArrays.

Implicit Types (buf : list ascii) (s : string) (c : ascii).

Lemma store_in_range buf i c :
  i < length buf -> store buf i c = <[i := c]> buf.
Proof.
  intros H. unfold store.
  destruct (Nat.ltb_spec i (length buf)); [done | lia].
Qed.

Lemma store_length buf i c :
  i < length buf -> length (store buf i c) = length buf.
Proof. intros H. rewrite store_in_range by done. apply length_insert. Qed.

(** A store past the end shows in the length. *)
Lemma store_past_end buf i c :
  length buf <= i -> length (store buf i c) = S i.
Proof.
  intros H. unfold store.
  destruct (Nat.ltb_spec i (length buf)); [lia |].
  rewrite !length_app, length_replicate. simpl. lia.
Qed.

Lemma store_split buf i c :
  i < length buf -> store buf i c = take i buf ++ c :: drop (S i) buf.
Proof.
  intros H. rewrite store_in_range by done.
  revert i H. induction buf as [| a buf IH]; intros [| i] H; simpl in *; try lia; try done.
  f_equal. apply IH. lia.
Qed.

Lemma string_length_list s : length (list_ascii_of_string s) = String.length s.
Proof. induction s; simpl; congruence. Qed.

Lemma memcpy_split s : forall buf off,
  off + String.length s <= length buf ->
  memcpy buf off s = take off buf ++ list_ascii_of_string s ++ drop (off + String.length s) buf.
Proof.
  induction s as [| c s IH]; intros buf off H; simpl in *.
  - rewrite Nat.add_0_r. symmetry. apply take_drop.
  - rewrite IH by (rewrite store_length; lia).
    rewrite store_in_range by lia.
    rewrite (take_S_r _ _ c) by (apply list_lookup_insert_eq; lia).
    rewrite take_insert_ge by lia.
    rewrite drop_insert_lt by lia.
    rewrite <- app_assoc. simpl. by rewrite Nat.add_succ_r.
Qed.

Lemma buf_strlen_le buf : buf_strlen buf <= length buf.
Proof. induction buf as [| c buf IH]; simpl; [lia |]. destruct (is_nul c); simpl; lia. Qed.

Lemma is_nul_true c : is_nul c = true -> c = NUL.
Proof. unfold is_nul. apply Ascii.eqb_eq. Qed.

Lemma buf_strlen_prefix buf : no_nul (take (buf_strlen buf) buf).
Proof.
  induction buf as [| c buf IH]; simpl; [constructor |].
  destruct (is_nul c) eqn:E; simpl; [constructor |].
  constructor; done.
Qed.

Lemma buf_strlen_app pre rest :
  no_nul pre -> buf_strlen (pre ++ rest) = length pre + buf_strlen rest.
Proof.
  induction 1 as [| c pre Hc _ IH]; simpl; [done |].
  rewrite Hc, IH. reflexivity.
Qed.

Lemma string_app_cons c (a b : string) : String c a +:+ b = String c (a +:+ b).
Proof. reflexivity. Qed.

Lemma string_app_nil_l (a : string) : "" +:+ a = a.
Proof. reflexivity. Qed.

Lemma cstr_list pre rest :
  no_nul pre ->
  cstr (string_of_list_ascii (pre ++ rest))
  = string_of_list_ascii pre +:+ cstr (string_of_list_ascii rest).
Proof.
  induction 1 as [| c pre Hc _ IH]; simpl; [done |].
  rewrite Hc, IH. by rewrite string_app_cons.
Qed.

Lemma cstr_idem s : cstr (cstr s) = cstr s.
Proof. induction s as [| c s IH]; simpl; [done |]. destruct (is_nul c) eqn:E; simpl; [done |]. by rewrite E, IH. Qed.

Lemma cstr_no_nul s : no_nul (list_ascii_of_string (cstr s)).
Proof.
  induction s as [| c s IH]; simpl; [constructor |].
  destruct (is_nul c) eqn:E; simpl; [constructor | by constructor].
Qed.

Lemma string_of_list_app (l k : list ascii) :
  string_of_list_ascii (l ++ k) = string_of_list_ascii l +:+ string_of_list_ascii k.
Proof. induction l as [| c l IH]; simpl; [done |]. by rewrite string_app_cons, IH. Qed.

Lemma string_app_assoc (a b c : string) : (a +:+ b) +:+ c = a +:+ (b +:+ c).
Proof. induction a as [| x a IH]; [done |]. by rewrite !string_app_cons, IH. Qed.

Lemma string_app_nil_r (a : string) : a +:+ "" = a.
Proof. induction a as [| x a IH]; [done |]. by rewrite string_app_cons, IH. Qed.

(** The text of a byte array that holds a terminator. *)
Lemma cstring_at_0 buf :
  cstring_at buf 0 = string_of_list_ascii (take (buf_strlen buf) buf).
Proof.
  unfold cstring_at. rewrite drop_0.
  induction buf as [| c buf IH]; simpl; [done |].
  destruct (is_nul c); simpl; [done |]. by rewrite IH.
Qed.

End ByteArrays.

(** ** The credential log *)

Section CredentialLog.

(** What the append does to the array, when it appends. *)
Lemma credentials_append_fits app line :
  length (credentials app) = CREDENTIALS_SIZE ->
  buf_strlen (credentials app) + String.length (cstr line) < CREDENTIALS_SIZE - 2 ->
  credentials (credentials_append app line)
  = take (buf_strlen (credentials app)) (credentials app)
    ++ list_ascii_of_string (cstr line)
    ++ newline :: NUL
       :: drop (buf_strlen (credentials app) + String.length (cstr line) + 2) (credentials app).
Proof.
  intros Hlen Hfit. unfold credentials_append, size_t, CREDENTIALS_SIZE in *.
  set (cur := buf_strlen (credentials app)) in *.
  set (l := cstr line) in *.
  set (buf := credentials app) in *.
  rewrite Z.mod_small by lia.
  destruct (Z.ltb_spec (Z.of_nat (String.length l)) (Z.of_nat 512 - Z.of_nat cur - 2)); [| lia].
  change (credentials (app <| credentials := ?b |>)) with b.
  rewrite memcpy_split by lia.
  set (pre := take cur buf ++ list_ascii_of_string l).
  assert (Hpre : length pre = cur + String.length l).
  { unfold pre. rewrite length_app, length_take, string_length_list. lia. }
  destruct (drop (cur + String.length l) buf) as [| x [| y r]] eqn:E;
    try (apply (f_equal length) in E; rewrite length_drop in E; simpl in E; lia).
  assert (Er : r = drop (cur + String.length l + 2) buf).
  { rewrite <- drop_drop, E. reflexivity. }
  rewrite app_assoc. fold pre. rewrite <- Er.
  rewrite (store_in_range (pre ++ _)) by (rewrite length_app, Hpre; simpl; lia).
  rewrite store_in_range by (rewrite length_insert, length_app, Hpre; simpl; lia).
  rewrite <- Hpre.
  replace (length pre) with (length pre + 0) at 2 by lia.
  rewrite !insert_app_r. simpl.
  unfold pre. by rewrite <- app_assoc.
Qed.

Lemma credentials_append_full app line :
  buf_strlen (credentials app) <= CREDENTIALS_SIZE - 2 ->
  CREDENTIALS_SIZE - 2 <= buf_strlen (credentials app) + String.length (cstr line) ->
  credentials_append app line = app.
Proof.
  intros Hinv Hfull. unfold credentials_append, size_t, CREDENTIALS_SIZE in *.
  rewrite Z.mod_small by lia.
  destruct (Z.ltb_spec (Z.of_nat (String.length (cstr line)))
              (Z.of_nat 512 - Z.of_nat (buf_strlen (credentials app)) - 2)); [lia | done].
Qed.

Lemma credentials_append_outcome app line :
  length (credentials app) = CREDENTIALS_SIZE ->
  buf_strlen (credentials app) <= CREDENTIALS_SIZE - 2 ->
  credential_outcome (credentials app) (credentials (credentials_append app line)) (cstr line).
Proof.
  intros Hlen Hinv. unfold credential_outcome.
  set (cur := buf_strlen (credentials app)).
  set (l := cstr line).
  destruct (Nat.lt_ge_cases (cur + String.length l) (CREDENTIALS_SIZE - 2)) as [Hfit | Hfull].
  - pose proof (credentials_append_fits app line Hlen Hfit) as E.
    fold cur l in E. unfold CREDENTIALS_SIZE in *.
    assert (Hnn : no_nul (take cur (credentials app) ++ list_ascii_of_string l ++ [newline])).
    { apply Forall_app; split; [apply buf_strlen_prefix |].
      apply Forall_app; split; [apply cstr_no_nul | by repeat constructor]. }
    assert (E' : credentials (credentials_append app line)
                 = (take cur (credentials app) ++ list_ascii_of_string l ++ [newline])
                   ++ NUL :: drop (cur + String.length l + 2) (credentials app)).
    { rewrite E. rewrite <- !app_assoc. reflexivity. }
    repeat split.
    + rewrite E. rewrite !length_app, length_take, string_length_list. simpl.
      rewrite length_drop. lia.
    + rewrite E', buf_strlen_app by done. simpl.
      rewrite !length_app, length_take, string_length_list. simpl. lia.
    + intros _. unfold cstring_at at 1. rewrite drop_0, E', cstr_list by done.
      simpl. rewrite string_app_nil_r, !string_of_list_app, cstring_at_0.
      fold cur. f_equal. f_equal. apply string_of_list_ascii_of_string.
    + intros ?. lia.
    + intros ?. lia.
  - rewrite credentials_append_full by (unfold CREDENTIALS_SIZE in *; fold cur l; lia).
    repeat split; try done. intros ?. lia.
Qed.

(** *** Strings without terminator *)

Lemma cstr_take n s : cstr s = s -> cstr (str_take n s) = str_take n s.
Proof.
  revert n. induction s as [| c s IH]; intros [| n] H; simpl in *; try done.
  destruct (is_nul c); [done |]. injection H as H. by rewrite IH.
Qed.

Lemma cstr_drop n s : cstr s = s -> cstr (str_drop n s) = str_drop n s.
Proof.
  revert n. induction s as [| c s IH]; intros [| n] H; simpl in *; try done.
  destruct (is_nul c); [done |]. injection H as H. by apply IH.
Qed.

Lemma cstr_sep_to_pipe sep s : cstr s = s -> cstr (sep_to_pipe sep s) = sep_to_pipe sep s.
Proof.
  unfold sep_to_pipe. induction s as [| c s IH]; intros H; simpl in *; [done |].
  destruct (is_nul c) eqn:E; [done |]. injection H as H.
  destruct (Ascii.eqb c sep); simpl; rewrite ?E; by rewrite IH.
Qed.

Lemma cstr_strncpy s n : cstr (strncpy s n) = strncpy s n.
Proof. apply cstr_take, cstr_idem. Qed.

(** The append looks at the log only. *)
Lemma credentials_append_local app app' line :
  credentials app' = credentials app ->
  credentials (credentials_append app' line) = credentials (credentials_append app line).
Proof.
  intros E. unfold credentials_append. rewrite E.
  destruct (_ <? _)%Z; [reflexivity | exact E].
Qed.

Lemma credential_message_dispatch app msg len :
  byte_at msg 0 = "C"%char -> 1 <= len ->
  credentials (process_rx_message app msg len)
  = credentials (credentials_append app
      (sep_to_pipe PROTO_SEP (strncpy (if Nat.ltb 1 len then cstring_at msg 1 else "") 255))).
Proof.
  intros Htag Hlen. unfold process_rx_message.
  destruct (Nat.ltb_spec len 1); [lia |].
  rewrite Htag. by apply credentials_append_local.
Qed.

Lemma credential_line_dispatch app cred :
  credentials (process_rx_line app ("EV:" +:+ cred))
  = credentials (credentials_append app (cstr cred)).
Proof.
  unfold process_rx_line.
  change (cstr ("EV:" +:+ cred)) with ("EV:" +:+ cstr cred).
  set (c := cstr cred). 
  assert (Hc : cstr c = c) by apply cstr_idem.
  cbv [strncmp_eq]. change (cstr ("EV:" +:+ c)) with ("EV:" +:+ cstr c). rewrite Hc.
  change (credentials (legacy_credential_line (console_append app ("EV:" +:+ c)) ("EV:" +:+ c))
          = credentials (credentials_append app c)).
  unfold legacy_credential_line.
  change (cstr ("EV:" +:+ c)) with ("EV:" +:+ cstr c). rewrite Hc.
  change (str_drop 3 ("EV:" +:+ c)) with c.
  change (credentials (console_append ?a ?l)) with (credentials a).
  by apply credentials_append_local.
Qed.

(** C10. Appending a captured credential, from a binary [C] message or from
    a legacy [EV:] line, to the 512-byte log whose text is at most 510
    characters long (as it is from the zeroed log onwards) is all or nothing:
    either the log's text grows by the whole line and a newline, or, when
    they do not fit, the array is left as it was; no byte is stored outside
    the array and a terminator stays within its first 511 cells. *)
Theorem credential_log_all_or_nothing (app : App) :
  length (credentials app) = CREDENTIALS_SIZE ->
  buf_strlen (credentials app) <= CREDENTIALS_SIZE - 2 ->
  (forall msg len,
     byte_at msg 0 = "C"%char -> 1 <= len ->
     credential_outcome (credentials app) (credentials (process_rx_message app msg len))
       (sep_to_pipe PROTO_SEP (strncpy (if Nat.ltb 1 len then cstring_at msg 1 else "") 255)))
  /\
  (forall cred,
     credential_outcome (credentials app) (credentials (process_rx_line app ("EV:" +:+ cred)))
       (cstr cred)).
Proof.
  intros Hlen Hinv. split.
  - intros msg len Htag Hl.
    rewrite credential_message_dispatch by done.
    set (line := sep_to_pipe _ _).
    pose proof (credentials_append_outcome app line Hlen Hinv) as H.
    unfold line in H at 2.
    by rewrite cstr_sep_to_pipe in H by apply cstr_strncpy.
  - intros cred. rewrite credential_line_dispatch.
    pose proof (credentials_append_outcome app (cstr cred) Hlen Hinv) as H.
    by rewrite cstr_idem in H.
Qed.

Lemma credential_log_witness :
  credential_outcome (credentials app_alloc)
    (credentials (process_rx_message app_alloc cred_frame 14)) "admin|hunter2".
Proof.
  apply (proj1 (credential_log_all_or_nothing app_alloc eq_refl ltac:(vm_compute; lia))
           cred_frame 14); [reflexivity | lia].
Defined.

(** From a log whose text fills 511 cells the [size_t] difference wraps
    and the append stores past the array; the bound on the text is what
    excludes it. *)
Example credentials_append_wraps :
  let app := app_alloc <| credentials := replicate 511 "x"%char ++ [NUL] |> in
  length (credentials app) = CREDENTIALS_SIZE /\
  length (credentials (credentials_append app "y")) = 514.
Proof. vm_compute. split; reflexivity. Qed.

End CredentialLog.

(** ** What the decoders leave alone *)

Lemma for_loop_invariant {St : Type} (P : St -> Prop) (body : nat -> St -> St) :
  (forall i s, P s -> P (body i s)) ->
  forall count i s, P s -> P (for_loop count i body s).
Proof.
  intros Hbody count. induction count as [| k IH]; intros i s Hs; simpl; [done |].
  apply IH, Hbody, Hs.
Qed.

Lemma for_loop_snoc {St : Type} (body : nat -> St -> St) count : forall i s,
  for_loop (S count) i body s = body (i + count) (for_loop count i body s).
Proof.
  induction count as [| k IH]; intros i s.
  - simpl. by rewrite Nat.add_0_r.
  - change (for_loop (S (S k)) i body s) with (for_loop (S k) (S i) body (body i s)).
    rewrite IH. simpl. do 2 f_equal. lia.
Qed.

(** Case analysis on the tests and the token reads of a decoder. *)
Ltac decoder_cases :=
  repeat match goal with
    | |- context [match token_next ?ts ?d with _ => _ end] =>
        destruct (token_next ts d) as [[?|] ?]
    | |- context [if ?c then _ else _] => destruct c
    | |- context [match ?o with Some _ => _ | None => _ end] => destruct o
    end.

Lemma parse_network_message_rx app data :
  rx_state (parse_network_message app data) = rx_state app.
Proof. unfold parse_network_message. decoder_cases; reflexivity. Qed.

Lemma parse_client_message_rx app data :
  rx_state (parse_client_message app data) = rx_state app.
Proof. unfold parse_client_message. decoder_cases; reflexivity. Qed.

Lemma parse_ble_message_rx app data :
  rx_state (parse_ble_message app data) = rx_state app.
Proof. unfold parse_ble_message. decoder_cases; reflexivity. Qed.

Lemma credentials_append_rx app line :
  rx_state (credentials_append app line) = rx_state app.
Proof. unfold credentials_append. decoder_cases; reflexivity. Qed.

Lemma parse_info_rx app data : rx_state (parse_info app data) = rx_state app.
Proof. unfold parse_info. decoder_cases; reflexivity. Qed.

Lemma clear_deauth_flags_rx app : rx_state (clear_deauth_flags app) = rx_state app.
Proof.
  unfold clear_deauth_flags.
  apply (for_loop_invariant (fun s => rx_state s = rx_state app)); [| done].
  intros i s Hs. rewrite <- Hs. reflexivity.
Qed.

Lemma process_rx_message_rx app msg len :
  rx_state (process_rx_message app msg len) = rx_state app.
Proof.
  unfold process_rx_message.
  destruct (Nat.ltb len 1); [done |].
  set (data := if Nat.ltb 1 len then _ else _).
  set (app1 := console_append app _).
  change (rx_state app) with (rx_state app1).
  clearbody app1 data.
  destruct (byte_at msg 0) as [[] [] [] [] [] [] [] []];
    try reflexivity;
    rewrite ?parse_network_message_rx, ?parse_client_message_rx, ?parse_ble_message_rx,
      ?clear_deauth_flags_rx;
    try reflexivity;
    decoder_cases;
    rewrite ?parse_ble_message_rx, ?parse_info_rx;
    try reflexivity.
  - unfold parse_credential_message. by rewrite credentials_append_rx.
  - change (rx_state (?a <| got_info := ?v |>)) with (rx_state a). apply parse_info_rx.
Qed.

Lemma legacy_ap_line_rx app line : rx_state (legacy_ap_line app line) = rx_state app.
Proof. unfold legacy_ap_line. decoder_cases; reflexivity. Qed.

Lemma legacy_client_line_rx app line : rx_state (legacy_client_line app line) = rx_state app.
Proof. unfold legacy_client_line. decoder_cases; reflexivity. Qed.

Lemma legacy_credential_line_rx app line :
  rx_state (legacy_credential_line app line) = rx_state app.
Proof.
  unfold legacy_credential_line.
  change (rx_state (console_append ?a ?l)) with (rx_state a).
  apply credentials_append_rx.
Qed.

Lemma process_rx_line_rx app line : rx_state (process_rx_line app line) = rx_state app.
Proof.
  unfold process_rx_line.
  set (app1 := console_append app _).
  change (rx_state app) with (rx_state app1). clearbody app1.
  repeat match goal with
    | |- context [if ?c then _ else _] => destruct c
    | |- context [match ?o with Some _ => _ | None => _ end] => destruct o
    end;
    rewrite ?legacy_ap_line_rx, ?legacy_client_line_rx, ?legacy_credential_line_rx;
    reflexivity.
Qed.

(** ** The byte framer *)

Section Framer.

Lemma rx_state_fields app app' :
  rx_state app' = rx_state app ->
  rx_line app' = rx_line app /\ rx_pos app' = rx_pos app /\ in_message app' = in_message app.
Proof. unfold rx_state. intros [= -> -> ->]. done. Qed.

Lemma uart_rx_byte_ok app data : framer_ok app -> framer_ok (uart_rx_byte app data).
Proof.
  intros [Hlen Hpos]. unfold uart_rx_byte, framer_ok, RX_LINE_SIZE in *.
  set (app0 := app <| bytes_rx := _ |>).
  change (rx_line app) with (rx_line app0) in Hlen.
  change (rx_pos app) with (rx_pos app0) in Hpos. clearbody app0.
  destruct (Ascii.eqb data PROTO_STX); [cbn; lia |].
  destruct (Ascii.eqb data PROTO_ETX && in_message app0).
  { set (app1 := app0 <| rx_line := _ |>).
    destruct (rx_state_fields _ _ (process_rx_message_rx app1 (rx_line app1) (rx_pos app1)))
      as (E1 & E2 & E3).
    change (rx_line (?a <| rx_pos := _ |> <| in_message := _ |>)) with (rx_line a).
    change (rx_pos (?a <| rx_pos := ?p |> <| in_message := _ |>)) with p.
    rewrite E1. unfold app1.
    change (rx_line (?a <| rx_line := ?l |>)) with l.
    rewrite store_length by lia. lia. }
  destruct (in_message app0).
  { destruct (Nat.ltb_spec (rx_pos app0) (256 - 1)); [| done].
    cbn. rewrite store_length by lia. lia. }
  destruct (Ascii.eqb data "010").
  { destruct (Nat.ltb_spec 0 (rx_pos app0)); [| done].
    set (app1 := if Ascii.eqb _ _ then _ else _).
    assert (H1 : length (rx_line app1) = 256 /\ rx_pos app1 < 256).
    { unfold app1. destruct (Ascii.eqb _ _); cbn; lia. }
    clearbody app1. destruct H1 as [H1 H2].
    set (app2 := app1 <| rx_line := _ |>).
    destruct (rx_state_fields _ _ (process_rx_line_rx app2 (cstring_at (rx_line app2) 0)))
      as (E1 & E2 & E3).
    change (rx_line (?a <| rx_pos := _ |>)) with (rx_line a).
    change (rx_pos (?a <| rx_pos := ?p |>)) with p.
    rewrite E1. unfold app2.
    change (rx_line (?a <| rx_line := ?l |>)) with l.
    rewrite store_length by lia. lia. }
  destruct (_ || _); [| done].
  destruct (Nat.ltb_spec (rx_pos app0) (256 - 1)); [| done].
  cbn. rewrite store_length by lia. lia.
Qed.

Lemma uart_rx_ok bytes : forall app, framer_ok app -> framer_ok (uart_rx app bytes).
Proof.
  unfold uart_rx. induction bytes as [| b bytes IH]; intros app H; simpl; [done |].
  apply IH, uart_rx_byte_ok, H.
Qed.

(** Inside a frame the bytes pile up from the position on. *)
Lemma uart_rx_collect bytes : forall app,
  in_message app = true ->
  Forall frame_byte bytes ->
  rx_pos app + length bytes < RX_LINE_SIZE ->
  length (rx_line app) = RX_LINE_SIZE ->
  uart_rx app bytes
  = app <| bytes_rx := count_rx (length bytes) (bytes_rx app) |>
        <| rx_line := take (rx_pos app) (rx_line app) ++ bytes
                      ++ drop (rx_pos app + length bytes) (rx_line app) |>
        <| rx_pos := rx_pos app + length bytes |>.
Proof.
  unfold uart_rx, RX_LINE_SIZE.
  induction bytes as [| b bytes IH]; intros app Hin Hfb Hpos Hlen; simpl in *.
  - rewrite Nat.add_0_r, take_drop. by destruct app.
  - inversion Hfb as [| ? ? [Hs He] Hfb']; subst.
    assert (Hstep : uart_rx_byte app b
                    = app <| bytes_rx := ((bytes_rx app + 1) mod 2 ^ 32)%Z |>
                          <| rx_line := store (rx_line app) (rx_pos app) b |>
                          <| rx_pos := S (rx_pos app) |>).
    { unfold uart_rx_byte.
      apply Ascii.eqb_neq in Hs, He. rewrite Hs, He. cbn [andb].
      change (in_message (app <| bytes_rx := _ |>)) with (in_message app). rewrite Hin.
      change (rx_pos (app <| bytes_rx := _ |>)) with (rx_pos app).
      unfold RX_LINE_SIZE.
      destruct (Nat.ltb_spec (rx_pos app) (256 - 1)); [reflexivity | lia]. }
    rewrite Hstep, IH; clear IH Hstep; try done.
    + destruct app; unfold_setters; cbn in *. f_equal; try lia.
      * rewrite store_in_range by lia.
        rewrite (take_S_r _ _ b) by (apply list_lookup_insert_eq; lia).
        rewrite take_insert_ge, drop_insert_lt by lia.
        rewrite <- app_assoc. simpl. by rewrite Nat.add_succ_r.
      * clear. unfold count_rx. induction (length bytes) as [| n IHn]; simpl; [done |].
        by rewrite IHn.
    + cbn. lia.
    + cbn. rewrite store_length; lia.
Qed.

Lemma count_rx_succ n x : count_rx n ((x + 1) mod 2 ^ 32)%Z = count_rx (S n) x.
Proof. unfold count_rx. induction n as [| n IH]; simpl; [done |]. by rewrite IH. Qed.

Lemma uart_rx_app app xs ys : uart_rx app (xs ++ ys) = uart_rx (uart_rx app xs) ys.
Proof. apply fold_left_app. Qed.

Lemma uart_rx_stx app :
  uart_rx_byte app PROTO_STX
  = app <| bytes_rx := count_rx 1 (bytes_rx app) |> <| in_message := true |> <| rx_pos := 0 |>.
Proof. reflexivity. Qed.

Lemma uart_rx_etx app :
  in_message app = true ->
  uart_rx_byte app PROTO_ETX
  = (process_rx_message
       (app <| bytes_rx := count_rx 1 (bytes_rx app) |>
            <| rx_line := store (rx_line app) (rx_pos app) NUL |>)
       (store (rx_line app) (rx_pos app) NUL) (rx_pos app))
      <| rx_pos := 0 |> <| in_message := false |>.
Proof.
  intros Hin. unfold uart_rx_byte.
  change (Ascii.eqb PROTO_ETX PROTO_STX) with false. cbv iota.
  change (Ascii.eqb PROTO_ETX PROTO_ETX) with true.
  change (in_message (app <| bytes_rx := _ |>)) with (in_message app).
  rewrite Hin. reflexivity.
Qed.

Lemma uart_rx_full app b :
  in_message app = true -> rx_pos app = RX_LINE_SIZE - 1 -> frame_byte b ->
  uart_rx_byte app b = app <| bytes_rx := count_rx 1 (bytes_rx app) |>.
Proof.
  intros Hin Hpos [Hs He]. unfold uart_rx_byte.
  apply Ascii.eqb_neq in Hs, He. rewrite Hs, He. cbv iota. cbn [andb].
  change (in_message (app <| bytes_rx := _ |>)) with (in_message app).
  change (rx_pos (app <| bytes_rx := _ |>)) with (rx_pos app).
  rewrite Hin, Hpos, Nat.ltb_irrefl. reflexivity.
Qed.

Lemma uart_rx_stx_body app body :
  length (rx_line app) = RX_LINE_SIZE ->
  Forall frame_byte body ->
  length body < RX_LINE_SIZE ->
  uart_rx app (PROTO_STX :: body)
  = app <| bytes_rx := count_rx (S (length body)) (bytes_rx app) |>
        <| in_message := true |>
        <| rx_pos := length body |>
        <| rx_line := body ++ drop (length body) (rx_line app) |>.
Proof.
  intros Hlen Hbody Hfit.
  change (uart_rx app (PROTO_STX :: body)) with (uart_rx (uart_rx_byte app PROTO_STX) body).
  rewrite uart_rx_stx, (uart_rx_collect body) by done.
  destruct app. unfold_setters. f_equal.
  unfold count_rx. simpl. clear. induction (length body) as [| n IHn]; simpl; [done |].
  by rewrite IHn.
Qed.

(** A whole frame: what is dispatched is the bytes since the start byte,
    followed by a terminator, whatever the buffer held before. *)
Lemma uart_rx_frame app body :
  length (rx_line app) = RX_LINE_SIZE ->
  Forall frame_byte body ->
  length body < RX_LINE_SIZE ->
  let msg := body ++ NUL :: drop (S (length body)) (rx_line app) in
  uart_rx app (PROTO_STX :: body ++ [PROTO_ETX])
  = (process_rx_message
       (app <| bytes_rx := count_rx (S (S (length body))) (bytes_rx app) |>
            <| in_message := true |>
            <| rx_pos := length body |>
            <| rx_line := msg |>)
       msg (length body))
      <| rx_pos := 0 |> <| in_message := false |>.
Proof.
  intros Hlen Hbody Hfit msg.
  change (PROTO_STX :: body ++ [PROTO_ETX]) with ((PROTO_STX :: body) ++ [PROTO_ETX]).
  rewrite uart_rx_app, uart_rx_stx_body by done.
  change (uart_rx ?a [PROTO_ETX]) with (uart_rx_byte a PROTO_ETX).
  rewrite uart_rx_etx by done.
  change (rx_line (_ <| rx_line := ?l |>)) with l.
  change (rx_pos (?a <| rx_pos := ?p |> <| rx_line := _ |>)) with p.
  assert (Hmsg : store (body ++ drop (length body) (rx_line app)) (length body) NUL = msg).
  { unfold msg, RX_LINE_SIZE in *.
    rewrite store_in_range by (rewrite length_app, length_drop; lia).
    replace (length body) with (length body + 0) at 1 by lia.
    rewrite insert_app_r. f_equal.
    destruct (drop (length body) (rx_line app)) as [| x r] eqn:E.
    - apply (f_equal length) in E. rewrite length_drop in E. simpl in E. lia.
    - simpl. f_equal. change (S (length body)) with (1 + length body).
      rewrite Nat.add_comm, <- drop_drop, E. reflexivity. }
  rewrite Hmsg. clearbody msg.
  do 3 f_equal.
Qed.

(** C8. The framer never stores outside the 256 cells of the line buffer,
    whatever bytes arrive: the buffer keeps its length and the position
    stays inside it.  A start byte puts the position back to 0 and enters
    frame mode without dispatching anything; a byte that arrives inside a
    frame when the position is at the last cell changes nothing but the
    receive counter; an end byte inside a frame terminates the collected
    bytes and dispatches them; and a whole frame is dispatched as exactly the
    bytes between the start and the end byte, followed by a terminator, so
    a legacy line that was in progress is gone. *)
Theorem framer_never_overruns (app : App) (bytes : list ascii) :
  framer_ok app ->
  framer_ok (uart_rx app bytes)
  /\ uart_rx_byte app PROTO_STX
     = app <| bytes_rx := count_rx 1 (bytes_rx app) |> <| in_message := true |> <| rx_pos := 0 |>
  /\ (forall b,
        in_message app = true -> rx_pos app = RX_LINE_SIZE - 1 -> frame_byte b ->
        uart_rx_byte app b = app <| bytes_rx := count_rx 1 (bytes_rx app) |>)
  /\ (in_message app = true ->
      let msg := <[rx_pos app := NUL]> (rx_line app) in
      msg !! rx_pos app = Some NUL
      /\ take (rx_pos app) msg = take (rx_pos app) (rx_line app)
      /\ uart_rx_byte app PROTO_ETX
         = (process_rx_message
              (app <| bytes_rx := count_rx 1 (bytes_rx app) |> <| rx_line := msg |>)
              msg (rx_pos app))
             <| rx_pos := 0 |> <| in_message := false |>)
  /\ (forall body,
        Forall frame_byte body -> length body < RX_LINE_SIZE ->
        let msg := body ++ NUL :: drop (S (length body)) (rx_line app) in
        uart_rx app (PROTO_STX :: body ++ [PROTO_ETX])
        = (process_rx_message
             (app <| bytes_rx := count_rx (S (S (length body))) (bytes_rx app) |>
                  <| in_message := true |>
                  <| rx_pos := length body |>
                  <| rx_line := msg |>)
             msg (length body))
            <| rx_pos := 0 |> <| in_message := false |>).
Proof.
  intros [Hlen Hpos]. repeat split.
  - by apply uart_rx_ok.
  - by apply uart_rx_ok.
  - intros b. apply uart_rx_full.
  - apply list_lookup_insert_eq. lia.
  - by apply take_insert_ge.
  - rewrite uart_rx_etx by done. by rewrite store_in_range by lia.
  - intros body Hb Hfit. by apply uart_rx_frame.
Qed.

Lemma framer_never_overruns_witness :
  framer_ok (uart_rx app_alloc (list_ascii_of_string "AP:1" ++ [PROTO_STX; "s"%char; PROTO_ETX])).
Proof.
  apply (framer_never_overruns app_alloc
           (list_ascii_of_string "AP:1" ++ [PROTO_STX; "s"%char; PROTO_ETX])).
  split; [reflexivity | vm_compute; lia].
Defined.

End Framer.

(** ** The network decoder *)

Section NetworkDecoder.

Lemma parse_network_message_valid app data :
  valid_network_message data = true ->
  (network_count app < MAX_NETWORKS)%Z ->
  exists net,
    parse_network_message app data
    = (put_network app (Z.to_nat (network_count app)) net)
        <| network_count := (network_count app + 1)%Z |>
    /\ client_indices net = unlinked_indices.
Proof.
  unfold valid_network_message, network_fields, parse_network_message. intros Hv Hfree.
  destruct (Z.geb_spec (network_count app) MAX_NETWORKS); [lia |].
  revert Hv. cbn [tokens_from].
  repeat match goal with
    | |- context [match token_next ?ts ?d with _ => _ end] =>
        destruct (token_next ts d) as [[?|] ?]
    end;
    cbn [length Nat.eqb]; intros Hv; try discriminate Hv;
    eexists; split; reflexivity.
Qed.

Lemma parse_network_message_full app data :
  (MAX_NETWORKS <= network_count app)%Z ->
  parse_network_message app data = app.
Proof.
  intros Hfull. unfold parse_network_message.
  destruct (Z.geb_spec (network_count app) MAX_NETWORKS); [done | lia].
Qed.

Lemma live_networks_append app net :
  (0 <= network_count app)%Z ->
  Z.to_nat (network_count app) < length (networks app) ->
  live_networks ((put_network app (Z.to_nat (network_count app)) net)
                   <| network_count := (network_count app + 1)%Z |>)
  = live_networks app ++ [net].
Proof.
  intros Hn Hlen. unfold live_networks, put_network.
  change (network_count (?a <| network_count := ?v |>)) with v.
  change (networks (?a <| networks := ?v |> <| network_count := _ |>)) with v.
  replace (Z.to_nat (network_count app + 1)) with (S (Z.to_nat (network_count app))) by lia.
  rewrite (take_S_r _ _ net) by (by apply list_lookup_insert_eq).
  by rewrite take_insert_ge.
Qed.

(** C5. A valid network message decoded while the collection has room makes
    the collection one entry longer: the entries it had, then the new one,
    whose index slots are all -1.  Decoded while the collection holds 64
    networks, any message leaves the whole state as it was. *)
Theorem network_message_appends_or_is_dropped (app : App) (data : string) :
  inventory_ok app ->
  valid_network_message data = true ->
  ((network_count app < MAX_NETWORKS)%Z ->
   exists net,
     live_networks (parse_network_message app data) = live_networks app ++ [net]
     /\ network_count (parse_network_message app data) = (network_count app + 1)%Z
     /\ client_indices net = replicate 16 (-1)%Z)
  /\
  (network_count app = MAX_NETWORKS ->
   parse_network_message app data = app).
Proof.
  intros (Hlen & Hcnt & _) Hv. split.
  - intros Hfree.
    destruct (parse_network_message_valid app data Hv Hfree) as (net & E & Hidx).
    exists net. rewrite E. repeat split; [| done].
    apply live_networks_append; unfold MAX_NETWORKS in *; lia.
  - intros Hfull. apply parse_network_message_full. lia.
Qed.

Lemma app_alloc_inventory_ok : inventory_ok app_alloc.
Proof. repeat split; try reflexivity; by vm_compute. Qed.

Lemma app_connected_inventory_ok : inventory_ok app_connected.
Proof. repeat split; try reflexivity; by vm_compute. Qed.

Lemma network_message_witness :
  (exists net,
     live_networks (parse_network_message app_alloc "7|Cafe|00:11:22:33:44:55|11|-70")
     = live_networks app_alloc ++ [net]
     /\ network_count (parse_network_message app_alloc "7|Cafe|00:11:22:33:44:55|11|-70")
        = (network_count app_alloc + 1)%Z
     /\ client_indices net = replicate 16 (-1)%Z).
Proof.
  apply (proj1 (network_message_appends_or_is_dropped app_alloc "7|Cafe|00:11:22:33:44:55|11|-70"
                  app_alloc_inventory_ok eq_refl)).
  reflexivity.
Defined.

(** *** Dispatch of a frame *)

Lemma cstring_at_frame t data rest :
  cstr data = data ->
  cstring_at (frame_bytes t data ++ NUL :: rest) 1 = data.
Proof.
  intros Hd. unfold cstring_at, frame_bytes. simpl. rewrite drop_0.
  rewrite cstr_list.
  - simpl. by rewrite string_app_nil_r, string_of_list_ascii_of_string.
  - rewrite <- Hd. apply cstr_no_nul.
Qed.

Lemma frame_data t data rest :
  cstr data = data ->
  (if Nat.ltb 1 (length (frame_bytes t data))
   then cstring_at (frame_bytes t data ++ NUL :: rest) 1 else "") = data.
Proof.
  intros Hd. destruct data as [| c data]; [reflexivity |].
  change (Nat.ltb 1 (length (frame_bytes t (String c data)))) with true.
  by apply cstring_at_frame.
Qed.

Lemma process_rx_message_network app data rest :
  cstr data = data ->
  process_rx_message app (frame_bytes "n" data ++ NUL :: rest) (length (frame_bytes "n" data))
  = parse_network_message (console_append app (str_take 127 ("[n] " +:+ data))) data.
Proof.
  intros Hd. unfold process_rx_message. rewrite frame_data by done. reflexivity.
Qed.

Lemma frame_bytes_ok t data :
  frame_byte t -> cstr data = data ->
  Forall (fun c => c <> PROTO_STX /\ c <> PROTO_ETX) (list_ascii_of_string data) ->
  Forall frame_byte (frame_bytes t data).
Proof. intros Ht _ Hd. by constructor. Qed.

(** *** The sample frame *)

Lemma parse_myap app :
  (network_count app < MAX_NETWORKS)%Z ->
  parse_network_message app myap_body
  = (put_network app (Z.to_nat (network_count app)) myap)
      <| network_count := (network_count app + 1)%Z |>.
Proof.
  intros Hfree. unfold parse_network_message.
  destruct (Z.geb_spec (network_count app) MAX_NETWORKS); [lia |].
  reflexivity.
Qed.

Lemma myap_frame_ok : Forall frame_byte (frame_bytes "n" myap_body).
Proof.
  unfold frame_bytes, myap_body; simpl.
  repeat (constructor; [split; discriminate |]). constructor.
Qed.

(** A network frame on the wire reaches the network decoder, in a state
    that has the inventory the framer started from. *)
Lemma uart_rx_network_frame app data :
  length (rx_line app) = RX_LINE_SIZE ->
  cstr data = data ->
  Forall frame_byte (frame_bytes "n" data) ->
  length (frame_bytes "n" data) < RX_LINE_SIZE ->
  exists app1,
    uart_rx app (PROTO_STX :: frame_bytes "n" data ++ [PROTO_ETX])
    = (parse_network_message app1 data) <| rx_pos := 0 |> <| in_message := false |>
    /\ same_inventory app1 app.
Proof.
  intros Hrx Hd Hfb Hfit.
  rewrite uart_rx_frame by assumption. cbv zeta.
  rewrite process_rx_message_network by exact Hd.
  eexists. split; [reflexivity |].
  split; [| split; [| split]]; reflexivity.
Qed.

Lemma live_networks_rx_fields app p m :
  live_networks (app <| rx_pos := p |> <| in_message := m |>) = live_networks app.
Proof. reflexivity. Qed.

Lemma live_clients_rx_fields app p m :
  live_clients (app <| rx_pos := p |> <| in_message := m |>) = live_clients app.
Proof. reflexivity. Qed.

Lemma network_count_rx_fields app p m :
  network_count (app <| rx_pos := p |> <| in_message := m |>) = network_count app.
Proof. reflexivity. Qed.

Lemma same_inventory_live a b :
  same_inventory a b -> live_networks a = live_networks b /\ live_clients a = live_clients b.
Proof. intros (E1 & E2 & E3 & E4). unfold live_networks, live_clients. by rewrite E1, E2, E3, E4. Qed.

(** C4. Receiving the frame STX, 'n', "3|MyAP|AA:BB:CC:DD:EE:FF|6|-42|2|0|WPA2-AES|0|0",
    ETX while the Network collection has room adds exactly one Network, with
    id 3, SSID "MyAP", BSSID "AA:BB:CC:DD:EE:FF", channel 6, signal -42, not
    5 GHz, client count 0, security label "WPA2-AES", no PMF, not hidden. *)
Theorem binary_network_frame_decodes (app : App) :
  length (rx_line app) = RX_LINE_SIZE ->
  inventory_ok app ->
  (network_count app < MAX_NETWORKS)%Z ->
  let app' := uart_rx app (PROTO_STX :: frame_bytes "n" myap_body ++ [PROTO_ETX]) in
  live_networks app' = live_networks app ++ [myap]
  /\ network_count app' = (network_count app + 1)%Z
  /\ live_clients app' = live_clients app.
Proof.
  intros Hrx (Hlen & Hcnt & _) Hfree app'. unfold app'. clear app'.
  destruct (uart_rx_network_frame app myap_body Hrx eq_refl myap_frame_ok) as (app1 & E & Hsame).
  { vm_compute. lia. }
  rewrite E. clear E.
  destruct (same_inventory_live _ _ Hsame) as [Hln Hlc].
  destruct Hsame as (En & Ec & _ & _).
  rewrite live_networks_rx_fields, live_clients_rx_fields, network_count_rx_fields.
  rewrite parse_myap by (rewrite Ec; exact Hfree).
  rewrite live_networks_append.
  - rewrite Hln, Ec. split; [reflexivity |]. split; [reflexivity |]. exact Hlc.
  - rewrite Ec. lia.
  - rewrite En, Ec. unfold MAX_NETWORKS in *. lia.
Qed.

Lemma binary_network_frame_witness :
  let app' := uart_rx app_connected (PROTO_STX :: frame_bytes "n" myap_body ++ [PROTO_ETX]) in
  live_networks app' = live_networks app_connected ++ [myap]
  /\ network_count app' = (network_count app_connected + 1)%Z
  /\ live_clients app' = live_clients app_connected.
Proof.
  apply (binary_network_frame_decodes app_connected eq_refl app_connected_inventory_ok).
  reflexivity.
Defined.

End NetworkDecoder.

(** ** The legacy AP line *)

Section LegacyApLine.

(** C3. The legacy line [AP:1:TestNet:11:22:33:44:55:66:6:1049600:-55]
    does append exactly one Network, but every colon of the line is turned
    into a field separator, those of the BSSID included: the entry has BSSID
    "11", channel 22, security 33, signal 44 and client count 55, where the
    binary form of the same network has BSSID "11:22:33:44:55:66", channel 6
    and signal -55. *)
Theorem legacy_ap_line_splits_bssid :
  let legacy := uart_rx app_connected (list_ascii_of_string testnet_line ++ ["010"%char]) in
  let binary := uart_rx app_connected (PROTO_STX :: frame_bytes "n" testnet_body ++ [PROTO_ETX]) in
  network_count legacy = 1%Z
  /\ live_networks legacy
     = [mkNetwork 1 "TestNet" "11" 22 44 33 false false 55 (replicate 16 (-1)%Z) "" false false]
  /\ network_count binary = 1%Z
  /\ live_networks binary
     = [mkNetwork 1 "TestNet" "11:22:33:44:55:66" 6 (-55) 0 false false 0
          (replicate 16 (-1)%Z) "???" false false].
Proof. vm_compute. repeat split; reflexivity. Qed.

End LegacyApLine.

(** ** Client messages *)

Section ClientDecoder.

Lemma for_loop_or (P : nat -> bool) count : forall i0 acc,
  for_loop count i0 (fun i found => found || P i) acc
  = acc || existsb P (seq i0 count).
Proof.
  induction count as [| k IH]; intros i0 acc; simpl.
  - by rewrite orb_false_r.
  - rewrite IH. by rewrite orb_assoc.
Qed.

Lemma client_known_present app m : mac_present app m -> client_known app m = true.
Proof.
  intros (i & c & Hi & Hc & Hm). unfold client_known.
  rewrite for_loop_or. simpl. apply existsb_exists. exists i. split.
  - apply in_seq. lia.
  - unfold client_at. rewrite Hc. simpl. subst m. unfold strcmp_eq. apply String.eqb_refl.
Qed.

Lemma parse_client_message_known app data m :
  client_message_mac data = Some m -> client_known app m = true ->
  parse_client_message app data = app.
Proof.
  unfold client_message_mac, parse_client_message. intros Hm Hk.
  destruct (_ >=? _)%Z; [done |].
  revert Hm.
  destruct (token_next _ _) as [[t1|] ts1]; [| done].
  destruct (token_next ts1 _) as [[t2|] ts2]; [| done].
  intros [= ->].
  destruct (token_next ts2 _) as [t3 ts3].
  by rewrite Hk.
Qed.

Lemma legacy_client_line_known app line m :
  legacy_client_mac line = Some m -> client_known app m = true ->
  legacy_client_line app line = app.
Proof.
  unfold legacy_client_mac, legacy_client_line. intros Hm Hk.
  destruct (_ >=? _)%Z; [done |].
  revert Hm.
  destruct (token_next _ _) as [[t1|] ts1]; [| done].
  destruct (token_next ts1 _) as [[t2|] ts2]; [| done].
  destruct (if strcmp_eq t2 "NEW" then _ else _) as [[t3|] ts3]; [| done].
  destruct (token_next ts3 _) as [[t4|] ts4]; [| done].
  intros [= ->].
  destruct (token_next ts4 _) as [t5 ts5].
  destruct (_ <? 0)%Z; [done |].
  by rewrite Hk.
Qed.

Lemma token_next_cstr ts d t ts' : token_next ts d = (Some t, ts') -> cstr t = t.
Proof.
  unfold token_next. destruct (is_nul _); [done |].
  intros [= <- _]. apply cstr_idem.
Qed.

Lemma str_take_all n s : String.length s <= n -> str_take n s = s.
Proof.
  revert n. induction s as [| c s IH]; intros [| n] H; simpl in *; try done; try lia.
  f_equal. apply IH. lia.
Qed.

Lemma strncpy_short s n : cstr s = s -> String.length s <= n -> strncpy s n = s.
Proof. intros Hs Hn. unfold strncpy. rewrite Hs. by apply str_take_all. Qed.

(** Once a client has been stored at the end of the collection, its MAC is
    known. *)
Lemma client_known_after_append app app' cl m :
  (0 <= app_client_count app)%Z ->
  Z.to_nat (app_client_count app) < length (clients app) ->
  clients app' = <[Z.to_nat (app_client_count app) := cl]> (clients app) ->
  app_client_count app' = (app_client_count app + 1)%Z ->
  mac cl = m ->
  client_known app' m = true.
Proof.
  intros H0 Hlen Hcl Hcnt Hm. apply client_known_present.
  exists (Z.to_nat (app_client_count app)), cl. rewrite Hcl, Hcnt.
  split; [lia |]. split; [| done]. by apply list_lookup_insert_eq.
Qed.

(** What a binary client message does when it does anything. *)
Lemma parse_client_message_cases app data :
  parse_client_message app data = app \/
  exists m cl,
    client_message_mac data = Some m /\
    mac cl = strncpy m (MAX_BSSID_LEN - 1) /\
    clients (parse_client_message app data)
    = <[Z.to_nat (app_client_count app) := cl]> (clients app) /\
    app_client_count (parse_client_message app data) = (app_client_count app + 1)%Z.
Proof.
  unfold client_message_mac, parse_client_message.
  destruct (_ >=? _)%Z; [by left |].
  destruct (token_next _ _) as [[t1|] ts1]; [| by left].
  destruct (token_next ts1 _) as [[t2|] ts2]; [| by left].
  destruct (token_next ts2 _) as [t3 ts3].
  destruct (client_known app t2); [by left |].
  destruct (_ || _); [by left |].
  right. eexists _, _. split; [reflexivity |]. split; [| split].
  2: reflexivity. 2: reflexivity. reflexivity.
Qed.

Lemma legacy_client_line_cases app line :
  legacy_client_line app line = app \/
  exists m cl,
    legacy_client_mac line = Some m /\
    mac cl = strncpy m (MAX_BSSID_LEN - 1) /\
    clients (legacy_client_line app line)
    = <[Z.to_nat (app_client_count app) := cl]> (clients app) /\
    app_client_count (legacy_client_line app line) = (app_client_count app + 1)%Z.
Proof.
  unfold legacy_client_mac, legacy_client_line.
  destruct (_ >=? _)%Z; [by left |].
  destruct (token_next _ _) as [[t1|] ts1]; [| by left].
  destruct (token_next ts1 _) as [[t2|] ts2]; [| by left].
  destruct (if strcmp_eq t2 "NEW" then _ else _) as [[t3|] ts3]; [| by left].
  destruct (token_next ts3 _) as [[t4|] ts4]; [| by left].
  destruct (token_next ts4 _) as [t5 ts5].
  destruct (_ <? 0)%Z; [by left |].
  destruct (client_known app t4); [by left |].
  right. eexists _, _. split; [reflexivity |]. split; [| split].
  2: reflexivity. 2: reflexivity. reflexivity.
Qed.

Lemma client_message_mac_cstr data m : client_message_mac data = Some m -> cstr m = m.
Proof.
  unfold client_message_mac.
  destruct (token_next _ _) as [[t1|] ts1]; [| done].
  destruct (token_next ts1 _) as [[t2|] ts2] eqn:E; [| done].
  intros [= <-]. by eapply token_next_cstr.
Qed.

Lemma legacy_client_mac_cstr line m : legacy_client_mac line = Some m -> cstr m = m.
Proof.
  unfold legacy_client_mac.
  destruct (token_next _ _) as [[t1|] ts1]; [| done].
  destruct (token_next ts1 _) as [[t2|] ts2]; [| done].
  destruct (if strcmp_eq t2 "NEW" then _ else _) as [[t3|] ts3]; [| done].
  destruct (token_next ts3 _) as [[t4|] ts4] eqn:E; [| done].
  intros [= <-]. by eapply token_next_cstr.
Qed.

Lemma parse_client_message_twice app data :
  inventory_ok app ->
  (forall m, client_message_mac data = Some m -> String.length m <= MAX_BSSID_LEN - 1) ->
  parse_client_message (parse_client_message app data) data = parse_client_message app data.
Proof.
  intros (_ & _ & Hlen & Hcnt) Hshort.
  destruct (parse_client_message_cases app data) as [E | (m & cl & Hm & Hmac & Hcl & Hc)].
  - by rewrite !E.
  - destruct (Z.ltb_spec (app_client_count app) MAX_CLIENTS) as [Hroom | Hfull].
    + apply (parse_client_message_known _ _ m Hm).
      apply (client_known_after_append app _ cl m);
        [lia | rewrite Hlen; unfold MAX_CLIENTS in *; lia | exact Hcl | exact Hc |].
      rewrite Hmac. apply strncpy_short; [by eapply client_message_mac_cstr | by apply Hshort].
    + assert (E : parse_client_message app data = app).
      { unfold parse_client_message.
        destruct (Z.geb_spec (app_client_count app) MAX_CLIENTS); [done | lia]. }
      rewrite E in Hc. lia.
Qed.

Lemma legacy_client_line_twice app line :
  inventory_ok app ->
  (forall m, legacy_client_mac line = Some m -> String.length m <= MAX_BSSID_LEN - 1) ->
  legacy_client_line (legacy_client_line app line) line = legacy_client_line app line.
Proof.
  intros (_ & _ & Hlen & Hcnt) Hshort.
  destruct (legacy_client_line_cases app line) as [E | (m & cl & Hm & Hmac & Hcl & Hc)].
  - by rewrite !E.
  - destruct (Z.ltb_spec (app_client_count app) MAX_CLIENTS) as [Hroom | Hfull].
    + apply (legacy_client_line_known _ _ m Hm).
      apply (client_known_after_append app _ cl m);
        [lia | rewrite Hlen; unfold MAX_CLIENTS in *; lia | exact Hcl | exact Hc |].
      rewrite Hmac. apply strncpy_short; [by eapply legacy_client_mac_cstr | by apply Hshort].
    + assert (E : legacy_client_line app line = app).
      { unfold legacy_client_line.
        destruct (Z.geb_spec (app_client_count app) MAX_CLIENTS); [done | lia]. }
      rewrite E in Hc. lia.
Qed.

Lemma process_rx_message_client app data rest :
  cstr data = data ->
  process_rx_message app (frame_bytes "c" data ++ NUL :: rest) (length (frame_bytes "c" data))
  = parse_client_message (console_append app (str_take 127 ("[c] " +:+ data))) data.
Proof.
  intros Hd. unfold process_rx_message. rewrite frame_data by done. reflexivity.
Qed.

(** A legacy client line reaches the legacy client decoder. *)
Lemma process_rx_line_client app rest :
  process_rx_line app ("CLIENT:" +:+ rest)
  = legacy_client_line (console_append app ("CLIENT:" +:+ cstr rest)) ("CLIENT:" +:+ cstr rest).
Proof.
  unfold process_rx_line.
  change (cstr ("CLIENT:" +:+ rest)) with ("CLIENT:" +:+ cstr rest).
  set (c := cstr rest).
  assert (Hc : cstr c = c) by apply cstr_idem.
  cbv [strncmp_eq]. change (cstr ("CLIENT:" +:+ c)) with ("CLIENT:" +:+ cstr c). rewrite Hc.
  reflexivity.
Qed.

Lemma process_rx_line_sta app rest :
  process_rx_line app ("STA:" +:+ rest)
  = legacy_client_line (console_append app ("STA:" +:+ cstr rest)) ("STA:" +:+ cstr rest).
Proof.
  unfold process_rx_line.
  change (cstr ("STA:" +:+ rest)) with ("STA:" +:+ cstr rest).
  set (c := cstr rest).
  assert (Hc : cstr c = c) by apply cstr_idem.
  cbv [strncmp_eq]. change (cstr ("STA:" +:+ c)) with ("STA:" +:+ cstr c). rewrite Hc.
  reflexivity.
Qed.

(** The decoder reads its line as a C string. *)
Lemma legacy_client_mac_cstr_arg line : legacy_client_mac (cstr line) = legacy_client_mac line.
Proof. unfold legacy_client_mac, strncpy. by rewrite cstr_idem. Qed.

Lemma mac_present_console app line m :
  mac_present app m -> mac_present (console_append app line) m.
Proof. intros H. exact H. Qed.

(** What the two decoders compare.  A client message whose MAC field, as
    the decoder splits it off, is the MAC of an entry of the Client
    collection changes nothing: both decoders return the state they were
    given (a frame or a line leaves its trace in the console log only), and
    decoding the same message a second time does what decoding it once
    does, for a field of at most 17 characters.  In the binary dialect the
    field is the MAC; in the legacy dialect it is what precedes the first
    colon of the MAC. *)
Lemma known_mac_field_is_ignored (app : App) :
  (forall m data,
     mac_present app m -> client_message_mac data = Some m ->
     parse_client_message app data = app)
  /\
  (forall m line,
     mac_present app m -> legacy_client_mac line = Some m ->
     legacy_client_line app line = app)
  /\
  (forall m data rest,
     cstr data = data -> mac_present app m -> client_message_mac data = Some m ->
     process_rx_message app (frame_bytes "c" data ++ NUL :: rest) (length (frame_bytes "c" data))
     = console_append app (str_take 127 ("[c] " +:+ data)))
  /\
  (forall m tag rest,
     tag = "CLIENT:" \/ tag = "STA:" ->
     mac_present app m -> legacy_client_mac (tag +:+ rest) = Some m ->
     process_rx_line app (tag +:+ rest) = console_append app (tag +:+ cstr rest))
  /\
  (forall data,
     inventory_ok app ->
     (forall m, client_message_mac data = Some m -> String.length m <= MAX_BSSID_LEN - 1) ->
     parse_client_message (parse_client_message app data) data = parse_client_message app data)
  /\
  (forall line,
     inventory_ok app ->
     (forall m, legacy_client_mac line = Some m -> String.length m <= MAX_BSSID_LEN - 1) ->
     legacy_client_line (legacy_client_line app line) line = legacy_client_line app line).
Proof.
  split; [| split; [| split; [| split; [| split]]]].
  - intros m data Hp Hm. eapply parse_client_message_known; [exact Hm |].
    by apply client_known_present.
  - intros m line Hp Hm. eapply legacy_client_line_known; [exact Hm |].
    by apply client_known_present.
  - intros m data rest Hd Hp Hm. rewrite process_rx_message_client by exact Hd.
    eapply parse_client_message_known; [exact Hm |].
    by apply client_known_present, mac_present_console.
  - intros m tag rest Htag Hp Hm.
    rewrite <- legacy_client_mac_cstr_arg in Hm.
    destruct Htag as [-> | ->].
    + rewrite process_rx_line_client.
      eapply legacy_client_line_known; [exact Hm |].
      by apply client_known_present, mac_present_console.
    + rewrite process_rx_line_sta.
      eapply legacy_client_line_known; [exact Hm |].
      by apply client_known_present, mac_present_console.
  - intros data Hok Hshort. by apply parse_client_message_twice.
  - intros line Hok Hshort. by apply legacy_client_line_twice.
Qed.

Example binary_duplicate_is_ignored :
  parse_client_message one_client_app "0|DE:AD:BE:EF:00:01|-61" = one_client_app.
Proof.
  apply (proj1 (known_mac_field_is_ignored one_client_app) "DE:AD:BE:EF:00:01").
  - exists 0, (mkClient "DE:AD:BE:EF:00:01" (-48) 0).
    split; [vm_compute; lia |]. split; reflexivity.
  - reflexivity.
Qed.

(** C6, as the code has it in the legacy dialect.  The session has stored
    network 3 and, from a binary message, its client DE:AD:BE:EF:00:01.
    The legacy line that carries the same MAC for the same network has its
    colons turned into separators, those of the MAC included, so the field
    the decoder takes for the MAC is DE: it is no MAC of the collection, a
    second Client with the MAC DE (and the signal 0, read off AD) is
    stored, and the network's index list holds two entries.  The binary
    message with this MAC is ignored. *)
Theorem legacy_duplicate_is_stored_again :
  let line := "CLIENT:3:DE:AD:BE:EF:00:01:-48" in
  let app' := uart_rx one_client_app (list_ascii_of_string line ++ ["010"%char]) in
  id <$> live_networks one_client_app = [3%Z]
  /\ mac <$> live_clients one_client_app = ["DE:AD:BE:EF:00:01"]
  /\ take 2 (client_indices (net_at (networks one_client_app) 0)) = [0; -1]%Z
  /\ legacy_client_mac line = Some "DE"
  /\ live_clients app'
     = [mkClient "DE:AD:BE:EF:00:01" (-48) 0; mkClient "DE" 0 0]
  /\ take 3 (client_indices (net_at (networks app') 0)) = [0; 1; -1]%Z
  /\ client_count (net_at (networks app') 0) = 2%Z
  /\ out_of_bounds app' = false
  /\ parse_client_message one_client_app "0|DE:AD:BE:EF:00:01|-48" = one_client_app.
Proof. vm_compute. repeat split; reflexivity. Qed.

(** The other side of the same slip: once DE is stored, a legacy line for
    another client whose MAC starts with DE is taken for a duplicate, and
    the client is not stored. *)
Example legacy_client_is_taken_for_duplicate :
  let app := uart_rx one_client_app
               (list_ascii_of_string "CLIENT:3:DE:AD:BE:EF:00:01:-48" ++ ["010"%char]) in
  let app' := uart_rx app
                (list_ascii_of_string "CLIENT:3:DE:99:88:77:66:55:-60" ++ ["010"%char]) in
  live_clients app' = live_clients app /\ networks app' = networks app.
Proof. vm_compute. split; reflexivity. Qed.

(** A MAC field longer than a Client entry can hold is stored cut to 17
    characters, so the same message is not recognised the second time. *)
Example overlong_mac_is_stored_twice :
  let data := "0|DE:AD:BE:EF:00:01:02|-48" in
  let once := parse_client_message (parse_network_message app_connected myap_body) data in
  let twice := parse_client_message once data in
  app_client_count once = 1%Z /\ app_client_count twice = 2%Z /\
  mac <$> live_clients twice = ["DE:AD:BE:EF:00:01"; "DE:AD:BE:EF:00:01"].
Proof. vm_compute. repeat split; reflexivity. Qed.

End ClientDecoder.

(** ** Client counts *)

Section ClientCounts.

Lemma token_next_none ts d ts' : token_next ts d = (None, ts') -> ts' = ts.
Proof.
  unfold token_next. destruct (is_nul _); [| done]. by intros [= <-].
Qed.

(** Case analysis on the token reads of a decoder, first to last; once a
    read finds nothing the later ones find nothing either. *)
Ltac token_cases :=
  repeat match goal with
    | |- context [token_next ?ts ?d] =>
        let E := fresh "E" in
        let ts' := fresh "ts" in
        destruct (token_next ts d) as [[?|] ts'] eqn:E;
        [| pose proof (token_next_none _ _ _ E); subst ts'; rewrite ?E ]
    end.

Lemma parse_network_message_count app data :
  valid_network_message data = true ->
  (network_count app < MAX_NETWORKS)%Z ->
  exists net,
    parse_network_message app data
    = (put_network app (Z.to_nat (network_count app)) net)
        <| network_count := (network_count app + 1)%Z |>
    /\ client_indices net = unlinked_indices
    /\ client_count net = network_wire_count data.
Proof.
  unfold valid_network_message, network_fields, network_wire_count, parse_network_message.
  intros Hv Hfree.
  destruct (Z.geb_spec (network_count app) MAX_NETWORKS); [lia |].
  revert Hv. cbv beta iota delta [tokens_from].
  token_cases;
    cbn [length Nat.eqb]; intros Hv; try discriminate Hv;
    eexists; (split; [reflexivity |]); split; reflexivity.
Qed.

(** The wire count is stored as it comes. *)
Example wire_count_is_stored :
  let app := parse_network_message app_connected "1|Lab|02:00:00:00:00:01|6|-40|2|5" in
  let app' := parse_client_message app "0|DE:AD:BE:EF:00:01|-48" in
  (client_count <$> live_networks app, valid_entries <$> live_networks app) = ([5%Z], [0%Z]) /\
  (client_count <$> live_networks app', valid_entries <$> live_networks app') = ([5%Z], [1%Z]).
Proof. vm_compute. split; reflexivity. Qed.

Lemma count_is_not_occupancy :
  count_is_occupancy app_connected /\
  ~ count_is_occupancy
      (parse_network_message app_connected "1|Lab|02:00:00:00:00:01|6|-40|2|5").
Proof.
  split.
  - constructor.
  - intros H. vm_compute in H. apply Forall_inv in H. discriminate H.
Qed.

(** *** What the client decoder does to a network *)

Lemma net_at_insert nets j x i :
  net_at (<[j := x]> nets) i = x /\ i = j \/ net_at (<[j := x]> nets) i = net_at nets i.
Proof.
  unfold net_at. destruct (decide (j = i)) as [-> | Hne].
  - destruct (decide (i < length nets)) as [Hlt | Hge].
    + left. by rewrite list_lookup_insert_eq.
    + right. by rewrite list_insert_ge by lia.
  - right. by rewrite list_lookup_insert_ne.
Qed.

Lemma parse_client_message_network app data i :
  let net := net_at (networks app) i in
  let net' := net_at (networks (parse_client_message app data)) i in
  net' = net \/
  ((actual_count net < MAX_CLIENTS_PER_AP)%Z /\
   client_indices net'
   = <[Z.to_nat (actual_count net) := app_client_count app]> (client_indices net) /\
   client_count net' = Z.max (client_count net) (actual_count net + 1)).
Proof.
  cbv zeta. unfold parse_client_message.
  destruct (_ >=? _)%Z; [by left |].
  destruct (token_next _ _) as [[t1|] ts1]; [| by left].
  destruct (token_next ts1 _) as [[t2|] ts2]; [| by left].
  destruct (token_next ts2 _) as [t3 ts3].
  destruct (client_known app t2); [by left |].
  destruct (_ || _); [by left |].
  set (idx := Z.to_nat (atoi t1)).
  change (networks (?a <| app_client_count := _ |>)) with (networks a).
  unfold put_network.
  change (networks (?a <| networks := ?l |>)) with l.
  change (networks (?a <| clients := _ |>)) with (networks a).
  change (app_client_count (?a <| clients := _ |>)) with (app_client_count a).
  match goal with
  | |- context [net_at (<[idx := ?x]> _) i] =>
      destruct (net_at_insert (networks app) idx x i) as [[E ->] | E]
  end;
    rewrite E; [| by left].
  destruct (Z.ltb_spec (actual_count (net_at (networks app) idx)) MAX_CLIENTS_PER_AP);
    [| by left].
  right. split; [done |].
  change (client_count (?n <| client_indices := _ |>)) with (client_count n).
  destruct (Z.gtb_spec (actual_count (net_at (networks app) idx) + 1)
              (client_count (net_at (networks app) idx))).
  - split; [reflexivity |].
    change (client_count (?n <| client_count := ?v |>)) with v. lia.
  - split; [reflexivity |].
    change (client_count (?n <| client_indices := _ |>)) with (client_count n). lia.
Qed.

(** *** Index lists *)

Lemma leading_valid_bounds l : (0 <= leading_valid l <= count_valid l)%Z.
Proof.
  induction l as [| x l IH]; simpl; [lia |].
  destruct (0 <=? x)%Z; lia.
Qed.

Lemma leading_valid_length l : (leading_valid l <= Z.of_nat (length l))%Z.
Proof.
  induction l as [| x l IH]; simpl; [lia |].
  destruct (0 <=? x)%Z; lia.
Qed.

Lemma insert_after_leading l v :
  (0 <= v)%Z ->
  count_valid l = leading_valid l ->
  Z.to_nat (leading_valid l) < length l ->
  leading_valid (<[Z.to_nat (leading_valid l) := v]> l) = (leading_valid l + 1)%Z /\
  count_valid (<[Z.to_nat (leading_valid l) := v]> l) = (count_valid l + 1)%Z.
Proof.
  intros Hv. induction l as [| x l IH]; intros Hc Hlen; simpl in *; [lia |].
  pose proof (leading_valid_bounds l) as Hb.
  destruct (Z.leb_spec 0 x) as [Hx | Hx].
  - replace (Z.to_nat (1 + leading_valid l)) with (S (Z.to_nat (leading_valid l))) by lia.
    simpl. destruct (Z.leb_spec 0 x); [| lia].
    destruct IH as [IH1 IH2]; [lia | lia |]. rewrite IH1, IH2. lia.
  - simpl. destruct (Z.leb_spec 0 v); [| lia]. lia.
Qed.

Lemma fresh_network_well_linked : well_linked fresh_network.
Proof. split; reflexivity. Qed.

Lemma actual_count_well_linked net :
  well_linked net -> actual_count net = valid_entries net.
Proof.
  intros [Hlen Hc]. unfold actual_count, valid_entries.
  rewrite firstn_all2 by lia. by rewrite Hc.
Qed.

(** What the client decoder does to the collection: nothing, or it stores
    the client for the network its AP index names and touches no other
    network. *)
Lemma parse_client_message_links app data :
  inventory_ok app ->
  let app' := parse_client_message app data in
  app' = app \/
  exists ap,
    client_message_ap data = Some ap
    /\ (0 <= ap < network_count app)%Z
    /\ app_client_count app' = (app_client_count app + 1)%Z
    /\ (forall i, i <> Z.to_nat ap -> net_at (networks app') i = net_at (networks app) i)
    /\ let net := net_at (networks app) (Z.to_nat ap) in
       let net' := net_at (networks app') (Z.to_nat ap) in
       ((actual_count net < MAX_CLIENTS_PER_AP)%Z ->
        client_indices net'
        = <[Z.to_nat (actual_count net) := app_client_count app]> (client_indices net)
        /\ client_count net' = Z.max (client_count net) (actual_count net + 1))
       /\ ((MAX_CLIENTS_PER_AP <= actual_count net)%Z -> net' = net).
Proof.
  intros (Hnl & Hnc & Hcl & Hcc). cbv zeta.
  unfold parse_client_message, client_message_ap.
  destruct (Z.geb_spec (app_client_count app) MAX_CLIENTS); [by left |].
  destruct (token_next _ _) as [[t1|] ts1]; [| by left].
  destruct (token_next ts1 _) as [[t2|] ts2]; [| by left].
  destruct (token_next ts2 _) as [t3 ts3].
  destruct (client_known app t2); [by left |].
  destruct (Z.ltb_spec (atoi t1) 0); [by left |].
  destruct (Z.geb_spec (atoi t1) (network_count app)); [by left |].
  cbn [orb]. right. exists (atoi t1).
  split; [reflexivity |]. split; [lia |]. split; [reflexivity |].
  set (idx := Z.to_nat (atoi t1)).
  assert (Hidx : idx < length (networks app)).
  { subst idx. unfold MAX_NETWORKS in *. lia. }
  change (networks (?a <| app_client_count := _ |>)) with (networks a).
  unfold put_network.
  change (networks (?a <| networks := ?l |>)) with l.
  change (networks (?a <| clients := _ |>)) with (networks app).
  change (app_client_count (?a <| clients := _ |>)) with (app_client_count app).
  split.
  - intros i Hi. unfold net_at. by rewrite list_lookup_insert_ne by done.
  - assert (Hat : forall x, net_at (<[idx := x]> (networks app)) idx = x).
    { intros x. unfold net_at. by rewrite list_lookup_insert_eq by done. }
    rewrite !Hat. split.
    + intros Hroom.
      destruct (Z.ltb_spec (actual_count (net_at (networks app) idx)) MAX_CLIENTS_PER_AP);
        [| lia].
      change (client_count (?n <| client_indices := _ |>)) with (client_count n).
      destruct (Z.gtb_spec (actual_count (net_at (networks app) idx) + 1)
                  (client_count (net_at (networks app) idx))).
      * split; [reflexivity |].
        change (client_count (?n <| client_count := ?v |>)) with v. lia.
      * split; [reflexivity |].
        change (client_count (?n <| client_indices := _ |>)) with (client_count n). lia.
    + intros Hfull.
      destruct (Z.ltb_spec (actual_count (net_at (networks app) idx)) MAX_CLIENTS_PER_AP);
        [lia | reflexivity].
Qed.

(** C2, as the code has it.  The network decoder stores the client count
    that came on the wire (0 when the message carries none) next to an index
    list without valid entry.  The client decoder either leaves the state as
    it was, or stores the client for the network that the AP index of the
    message names and leaves every other network as it was; when the index
    list of that network, holding its valid entries first as the binary
    decoders build it, has a free slot, the first free slot takes the
    position of the new client, the number of valid entries grows by one
    and the network's count becomes the larger of the count it had and
    that number; when the list is full the network is unchanged.  The
    stored count is thus the wire's claim until the occupancy overtakes
    it. *)
Theorem client_count_is_wire_count_or_occupancy (app : App) (data : string) :
  (valid_network_message data = true ->
   inventory_ok app ->
   (network_count app < MAX_NETWORKS)%Z ->
   exists net,
     live_networks (parse_network_message app data) = live_networks app ++ [net]
     /\ well_linked net
     /\ valid_entries net = 0%Z
     /\ client_count net = network_wire_count data)
  /\
  (inventory_ok app ->
   let app' := parse_client_message app data in
   app' = app \/
   exists ap,
     client_message_ap data = Some ap
     /\ (0 <= ap < network_count app)%Z
     /\ app_client_count app' = (app_client_count app + 1)%Z
     /\ (forall i, i <> Z.to_nat ap -> net_at (networks app') i = net_at (networks app) i)
     /\ let net := net_at (networks app) (Z.to_nat ap) in
        let net' := net_at (networks app') (Z.to_nat ap) in
        well_linked net ->
        ((valid_entries net < MAX_CLIENTS_PER_AP)%Z ->
         client_indices net'
         = <[Z.to_nat (valid_entries net) := app_client_count app]> (client_indices net)
         /\ well_linked net'
         /\ valid_entries net' = (valid_entries net + 1)%Z
         /\ client_count net' = Z.max (client_count net) (valid_entries net'))
        /\ ((MAX_CLIENTS_PER_AP <= valid_entries net)%Z -> net' = net)).
Proof.
  split.
  - intros Hv (Hlen & Hcnt & _) Hfree.
    destruct (parse_network_message_count app data Hv Hfree) as (net & E & Hidx & Hwire).
    exists net. rewrite E. split; [| split; [| split]].
    + apply live_networks_append; unfold MAX_NETWORKS in *; lia.
    + unfold well_linked. rewrite Hidx. split; reflexivity.
    + unfold valid_entries. rewrite Hidx. reflexivity.
    + exact Hwire.
  - intros Hok. cbv zeta.
    destruct (parse_client_message_links app data Hok)
      as [E | (ap & Hap & Hrange & Hcc & Hothers & Hnet)]; [by left | right].
    cbv zeta in Hnet. destruct Hnet as [Hroom Hfull].
    exists ap. split; [exact Hap |]. split; [exact Hrange |]. split; [exact Hcc |].
    split; [exact Hothers |].
    intros Hwl.
    pose proof (actual_count_well_linked _ Hwl) as Ha.
    rewrite Ha in Hroom, Hfull.
    split; [| exact Hfull].
    intros Hfree. destruct (Hroom Hfree) as [Hidx Hcount].
    destruct Hwl as [Hlen Hcv].
    assert (Hlv : valid_entries (net_at (networks app) (Z.to_nat ap))
                  = leading_valid (client_indices (net_at (networks app) (Z.to_nat ap))))
      by exact Hcv.
    destruct Hok as (_ & _ & _ & Hc0).
    destruct (insert_after_leading (client_indices (net_at (networks app) (Z.to_nat ap)))
                (app_client_count app) ltac:(lia) Hcv) as [H1 H2].
    { unfold MAX_CLIENTS_PER_AP in *. rewrite <- Hlv. lia. }
    rewrite <- Hlv in H1, H2.
    assert (Hve : valid_entries (net_at (networks (parse_client_message app data)) (Z.to_nat ap))
                  = (valid_entries (net_at (networks app) (Z.to_nat ap)) + 1)%Z).
    { unfold valid_entries at 1. rewrite Hidx. exact H2. }
    split; [exact Hidx |]. split; [| split].
    + unfold well_linked. rewrite Hidx, length_insert. split; [exact Hlen |].
      rewrite H1. exact H2.
    + exact Hve.
    + rewrite Hcount, Hve. reflexivity.
Qed.

Lemma client_count_witness :
  let app := parse_network_message app_connected "1|Lab|02:00:00:00:00:01|6|-40|2|5" in
  let app' := parse_client_message app "0|DE:AD:BE:EF:00:01|-48" in
  client_indices (net_at (networks app') 0)
  = <[0 := 0%Z]> (client_indices (net_at (networks app) 0))
  /\ valid_entries (net_at (networks app') 0) = 1%Z
  /\ client_count (net_at (networks app') 0) = 5%Z
  /\ net_at (networks app') 1 = net_at (networks app) 1.
Proof.
  cbv zeta.
  set (app := parse_network_message app_connected "1|Lab|02:00:00:00:00:01|6|-40|2|5").
  assert (Hok : inventory_ok app) by (repeat split; try reflexivity; by vm_compute).
  destruct (proj2 (client_count_is_wire_count_or_occupancy app "0|DE:AD:BE:EF:00:01|-48") Hok)
    as [E | (ap & Hap & _ & _ & Hothers & Hnet)].
  - apply (f_equal app_client_count) in E. vm_compute in E. discriminate E.
  - assert (Eap : ap = 0%Z) by (vm_compute in Hap; congruence).
    subst ap. change (Z.to_nat 0) with 0 in *. cbv zeta in Hnet.
    assert (Hwl : well_linked (net_at (networks app) 0)) by (split; reflexivity).
    destruct (Hnet Hwl) as [Hroom _].
    destruct Hroom as (Hidx & _ & Hve & Hcount); [by vm_compute |].
    split; [exact Hidx |]. split; [exact Hve |]. split.
    + rewrite Hcount, Hve. reflexivity.
    + apply Hothers. discriminate.
Defined.

(** The sample run: the message links the client into the first slot of
    network 0, whose count stays the five the wire announced, and no other
    network changes. *)
Example client_count_on_sample :
  let app := parse_network_message
               (parse_network_message app_connected "1|Lab|02:00:00:00:00:01|6|-40|2|5")
               "2|Hall|02:00:00:00:00:02|11|-70|2|0" in
  let app' := parse_client_message app "1|DE:AD:BE:EF:00:01|-48" in
  client_message_ap "1|DE:AD:BE:EF:00:01|-48" = Some 1%Z
  /\ net_at (networks app') 0 = net_at (networks app) 0
  /\ (client_count <$> live_networks app, valid_entries <$> live_networks app)
     = ([5; 0], [0; 0])%Z
  /\ (client_count <$> live_networks app', valid_entries <$> live_networks app')
     = ([5; 1], [0; 1])%Z.
Proof. vm_compute. repeat split; reflexivity. Qed.

End ClientCounts.

(** ** Firmware detection *)

Section DetectionProperties.

Lemma uart_send_view app cmd : detection_view (uart_send app cmd) = detection_view app.
Proof. unfold uart_send. by destruct (_ || _). Qed.

Lemma uart_send_legacy_view app cmd :
  detection_view (uart_send_legacy app cmd) = detection_view app.
Proof. unfold uart_send_legacy. by destruct (_ || _). Qed.

Lemma detection_view_fields a b :
  detection_view a = detection_view b ->
  firmware_type a = firmware_type b /\ detection_done a = detection_done b /\
  got_info a = got_info b /\ got_pong a = got_pong b.
Proof. unfold detection_view. by intros [= -> -> -> ->]. Qed.

Lemma undetected_delay delay k app : quiet delay -> undetected app -> undetected (delay k app).
Proof. intros Hq Hu. unfold undetected. by rewrite Hq. Qed.

Lemma undetected_send app cmd : undetected app -> undetected (uart_send app cmd).
Proof. intros Hu. unfold undetected. by rewrite uart_send_view. Qed.

Lemma undetected_send_legacy app cmd : undetected app -> undetected (uart_send_legacy app cmd).
Proof. intros Hu. unfold undetected. by rewrite uart_send_legacy_view. Qed.

Lemma undetected_fields app :
  undetected app ->
  firmware_type app = FirmwareUnknown /\ detection_done app = false /\
  got_info app = false /\ got_pong app = false.
Proof. unfold undetected, detection_view. by intros [= -> -> -> ->]. Qed.

Lemma detection_complete_unknown app :
  firmware_type app = FirmwareUnknown ->
  firmware_type (detection_complete app) = FirmwareUnknown /\
  caps (detection_complete app) = minimal_caps.
Proof. intros E. unfold detection_complete. rewrite E. split; [exact E | reflexivity]. Qed.

(** C7. When no wait of the detection sequence brings a recognizable
    response, detection ends with the Unknown profile and its capability
    set: WiFi scan and broadcast deauth, nothing else. *)
Theorem silent_detection_resolves_unknown (delay : nat -> App -> App) (app : App) :
  connected app = true ->
  quiet delay ->
  firmware_type (detect_firmware delay app) = FirmwareUnknown /\
  caps (detect_firmware delay app) = minimal_caps.
Proof.
  intros Hconn Hq. unfold detect_firmware. rewrite Hconn. cbn [negb].
  set (a0 := app <| firmware_type := _ |> <| firmware_version := _ |>
                 <| firmware_response := _ |> <| detection_done := _ |>
                 <| got_pong := _ |> <| got_info := _ |> <| got_help := _ |>).
  assert (H0 : undetected a0) by reflexivity. clearbody a0.
  pose proof (undetected_delay delay 0 _ Hq H0) as H1.
  destruct (undetected_fields _ H1) as (F1 & D1 & I1 & P1).
  rewrite D1. cbn [andb].
  set (a2 := delay 1 _).
  assert (H2 : undetected a2) by (apply undetected_delay, undetected_send; done).
  destruct (undetected_fields _ H2) as (F2 & D2 & I2 & P2).
  rewrite D2, I2. cbn [orb].
  set (a3 := delay 2 _).
  assert (H3 : undetected a3) by (apply undetected_delay, undetected_send_legacy; done).
  destruct (undetected_fields _ H3) as (F3 & D3 & I3 & P3).
  rewrite D3.
  set (a4 := delay 3 _).
  assert (H4 : undetected a4) by (apply undetected_delay, undetected_send_legacy; done).
  destruct (undetected_fields _ H4) as (F4 & D4 & I4 & P4).
  rewrite P4, F4. cbn [firmware_eqb firmware_index Nat.eqb].
  set (a5 := delay 4 _).
  assert (H5 : undetected a5) by (apply undetected_delay, undetected_send_legacy; done).
  destruct (undetected_fields _ H5) as (F5 & D5 & I5 & P5).
  rewrite F5. cbn [firmware_eqb firmware_index Nat.eqb].
  set (a6 := delay 5 _).
  assert (H6 : undetected a6) by (apply undetected_delay, undetected_send_legacy; done).
  destruct (undetected_fields _ H6) as (F6 & D6 & I6 & P6).
  by apply detection_complete_unknown.
Qed.

(** The receive thread that is fed nothing. *)
Lemma no_bytes_quiet : quiet (fun _ app => uart_rx app []).
Proof. intros k app. reflexivity. Qed.

(** Frames other than the ready and the info frame are no response to a
    probe: decoding them leaves the detection fields alone. *)
Lemma parse_network_message_view app data :
  detection_view (parse_network_message app data) = detection_view app.
Proof. unfold parse_network_message. decoder_cases; reflexivity. Qed.

Lemma parse_client_message_view app data :
  detection_view (parse_client_message app data) = detection_view app.
Proof. unfold parse_client_message. decoder_cases; reflexivity. Qed.

Lemma parse_ble_message_view app data :
  detection_view (parse_ble_message app data) = detection_view app.
Proof. unfold parse_ble_message. decoder_cases; reflexivity. Qed.

Lemma credentials_append_view app line :
  detection_view (credentials_append app line) = detection_view app.
Proof. unfold credentials_append. decoder_cases; reflexivity. Qed.

Lemma clear_deauth_flags_view app :
  detection_view (clear_deauth_flags app) = detection_view app.
Proof.
  unfold clear_deauth_flags.
  apply (for_loop_invariant (fun s => detection_view s = detection_view app)); [| done].
  intros i s Hs. rewrite <- Hs. reflexivity.
Qed.

Lemma process_rx_message_view app msg len :
  byte_at msg 0 <> "r"%char -> byte_at msg 0 <> "i"%char ->
  detection_view (process_rx_message app msg len) = detection_view app.
Proof.
  intros Hr Hi. unfold process_rx_message.
  destruct (Nat.ltb len 1); [done |].
  set (data := if Nat.ltb 1 len then _ else _).
  set (app1 := console_append app _).
  change (detection_view app) with (detection_view app1).
  clearbody app1 data.
  destruct (byte_at msg 0) as [[] [] [] [] [] [] [] []];
    try reflexivity; try (by destruct Hr); try (by destruct Hi);
    rewrite ?parse_network_message_view, ?parse_client_message_view,
      ?parse_ble_message_view, ?clear_deauth_flags_view;
    try reflexivity;
    decoder_cases;
    rewrite ?parse_ble_message_view;
    try reflexivity.
  unfold parse_credential_message. by rewrite credentials_append_view.
Qed.

(** Detection during which the peripheral only reports an error to every
    probe. *)
Example error_frames_resolve_unknown :
  let busy := PROTO_STX :: list_ascii_of_string "eBUSY" ++ [PROTO_ETX] in
  let app := detect_firmware (fun _ app => uart_rx app busy) app_connected in
  firmware_type app = FirmwareUnknown /\ caps app = minimal_caps.
Proof. vm_compute. split; reflexivity. Qed.

Lemma silent_detection_witness :
  firmware_type (detect_firmware (fun _ app => uart_rx app []) app_connected) = FirmwareUnknown /\
  caps (detect_firmware (fun _ app => uart_rx app []) app_connected) = minimal_caps.
Proof.
  apply (silent_detection_resolves_unknown (fun _ app => uart_rx app []) app_connected).
  - reflexivity.
  - intros k app. reflexivity.
Defined.

(** The probes that went out meanwhile. *)
Example silent_detection_probes :
  string_of_list_ascii (tx (detect_firmware (fun _ app => uart_rx app []) app_connected))
  = String PROTO_STX ("i" +:+ String PROTO_ETX
      ("INFO" +:+ String "010" ("PING" +:+ String "010" ("HELP" +:+ String "010"
      ("AT" +:+ String "010" ""))))).
Proof. vm_compute. reflexivity. Qed.

End DetectionProperties.

(** ** Deauth by id *)

Section Deauth.

Lemma uart_send_session app cmd : session_view (uart_send app cmd) = session_view app.
Proof. unfold uart_send. by destruct (_ || _). Qed.

Lemma uart_send_tx app cmd :
  serial app = true -> uart_running app = true ->
  tx (uart_send app cmd) = tx app ++ wire cmd.
Proof. intros Hs Hr. unfold uart_send. rewrite Hs, Hr. reflexivity. Qed.

Lemma session_view_fields a b :
  session_view a = session_view b ->
  connected a = connected b /\ serial a = serial b /\ uart_running a = uart_running b /\
  firmware_type a = firmware_type b /\ selected_network a = selected_network b /\
  network_count a = network_count b /\ networks a = networks b /\
  deauth_reason a = deauth_reason b.
Proof. unfold session_view. intros [= -> -> -> -> -> -> -> ->]. done. Qed.

Lemma put_network_tx app i net : tx (put_network app i net) = tx app.
Proof. reflexivity. Qed.

Lemma put_network_selected app i net :
  selected_network (put_network app i net) = selected_network app.
Proof. reflexivity. Qed.

Lemma put_network_networks app i net :
  networks (put_network app i net) = <[i := net]> (networks app).
Proof. reflexivity. Qed.

Lemma put_network_session app i net :
  connected (put_network app i net) = connected app /\
  serial (put_network app i net) = serial app /\
  uart_running (put_network app i net) = uart_running app /\
  firmware_type (put_network app i net) = firmware_type app /\
  network_count (put_network app i net) = network_count app.
Proof. done. Qed.

Lemma selected_flag_put app app' net :
  selected_network app' = selected_network app ->
  networks app' = networks app ->
  Z.to_nat (selected_network app) < length (networks app) ->
  selected_flag (put_network app' (Z.to_nat (selected_network app)) net) = deauth_active net.
Proof.
  intros Es En Hlen. unfold selected_flag, net_at.
  rewrite put_network_selected, put_network_networks, Es, En.
  by rewrite list_lookup_insert_eq.
Qed.

Lemma native_session_put app app' net :
  session_view app' = session_view app ->
  native_session app ->
  native_session (put_network app' (Z.to_nat (selected_network app)) net).
Proof.
  intros Hv (Hc & Hs & Hr & Hf & Hsel & Hlen).
  destruct (session_view_fields _ _ Hv) as (E1 & E2 & E3 & E4 & E5 & E6 & E7 & E8).
  destruct (put_network_session app' (Z.to_nat (selected_network app)) net)
    as (P1 & P2 & P3 & P4 & P5).
  unfold native_session.
  rewrite P1, P2, P3, P4, P5, put_network_selected, put_network_networks, length_insert.
  rewrite E1, E2, E3, E4, E5, E6, E7. done.
Qed.

(** The two branches of [do_deauth] on the Native profile. *)
Lemma do_deauth_native app :
  native_session app ->
  do_deauth app
  = let net := net_at (networks app) (Z.to_nat (selected_network app)) in
    if deauth_active net then
      put_network (uart_send (uart_send app "ds") "r0,255,0")
        (Z.to_nat (selected_network app)) (net <| deauth_active := false |>)
    else
      put_network (uart_send (uart_send app "r3") (deauth_command (id net) (deauth_reason app)))
        (Z.to_nat (selected_network app)) (net <| deauth_active := true |>).
Proof.
  intros (Hc & Hs & Hr & Hf & Hsel & Hlen). cbv zeta. unfold do_deauth.
  rewrite Hc.
  destruct (Z.ltb_spec (selected_network app) 0); [lia |].
  destruct (Z.geb_spec (selected_network app) (network_count app)); [lia |].
  cbn [negb orb]. rewrite Hf.
  cbn [firmware_eqb firmware_index Nat.eqb].
  destruct (deauth_active _); [reflexivity |].
  destruct (session_view_fields _ _ (uart_send_session app "r3")) as (_ & _ & _ & _ & _ & _ & _ & E).
  rewrite E. unfold deauth_command.
  by destruct (deauth_reason app =? 2)%Z.
Qed.

Lemma uart_send_twice_session app c1 c2 :
  session_view (uart_send (uart_send app c1) c2) = session_view app.
Proof. by rewrite !uart_send_session. Qed.

Lemma uart_send_twice_tx app c1 c2 :
  serial app = true -> uart_running app = true ->
  tx (uart_send (uart_send app c1) c2) = tx app ++ wire c1 ++ wire c2.
Proof.
  intros Hs Hr.
  destruct (session_view_fields _ _ (uart_send_session app c1)) as (_ & E2 & E3 & _).
  rewrite uart_send_tx by (by rewrite ?E2, ?E3).
  rewrite uart_send_tx by done. by rewrite <- app_assoc.
Qed.

Lemma do_deauth_start app :
  native_session app -> selected_flag app = false ->
  let app' := do_deauth app in
  tx app' = tx app ++ wire "r3"
            ++ wire (deauth_command (id (net_at (networks app) (Z.to_nat (selected_network app))))
                       (deauth_reason app))
  /\ selected_flag app' = true
  /\ native_session app'.
Proof.
  intros Hn Hflag. cbv zeta. rewrite do_deauth_native by exact Hn. cbv zeta.
  unfold selected_flag in Hflag. rewrite Hflag.
  pose proof (uart_send_twice_session app "r3"
    (deauth_command (id (net_at (networks app) (Z.to_nat (selected_network app))))
       (deauth_reason app))) as Hv.
  destruct (session_view_fields _ _ Hv) as (_ & _ & _ & _ & E5 & _ & E7 & _).
  destruct Hn as (Hc & Hs & Hr & Hf & Hsel & Hlen).
  split; [| split].
  - rewrite put_network_tx. by apply uart_send_twice_tx.
  - by rewrite selected_flag_put.
  - by apply native_session_put.
Qed.

Lemma do_deauth_stop app :
  native_session app -> selected_flag app = true ->
  let app' := do_deauth app in
  tx app' = tx app ++ wire "ds" ++ wire "r0,255,0"
  /\ selected_flag app' = false
  /\ native_session app'.
Proof.
  intros Hn Hflag. cbv zeta. rewrite do_deauth_native by exact Hn. cbv zeta.
  unfold selected_flag in Hflag. rewrite Hflag.
  pose proof (uart_send_twice_session app "ds" "r0,255,0") as Hv.
  destruct (session_view_fields _ _ Hv) as (_ & _ & _ & _ & E5 & _ & E7 & _).
  destruct Hn as (Hc & Hs & Hr & Hf & Hsel & Hlen).
  split; [| split].
  - rewrite put_network_tx. by apply uart_send_twice_tx.
  - by rewrite selected_flag_put.
  - by apply native_session_put.
Qed.

(** A deauth-status frame is logged and signalled, nothing else. *)
Lemma process_rx_message_deauth app data rest :
  cstr data = data ->
  process_rx_message app (frame_bytes "d" data ++ NUL :: rest) (length (frame_bytes "d" data))
  = console_append app (str_take 127 ("[d] " +:+ data)).
Proof.
  intros Hd. unfold process_rx_message. rewrite frame_data by done. reflexivity.
Qed.

Lemma native_session_console app line :
  native_session app -> native_session (console_append app line).
Proof. intros H. exact H. Qed.

Lemma selected_flag_console app line :
  selected_flag (console_append app line) = selected_flag app.
Proof. reflexivity. Qed.

Lemma tx_console app line : tx (console_append app line) = tx app.
Proof. reflexivity. Qed.

(** The stop-all confirmation clears the flag of every network of the
    collection. *)
Lemma clear_flags_loop n : forall app,
  let app' :=
    for_loop n 0
      (fun i a => put_network a i ((net_at (networks a) i) <| deauth_active := false |>)) app in
  length (networks app') = length (networks app) /\
  selected_network app' = selected_network app /\
  forall i, i < n -> i < length (networks app) ->
            deauth_active (net_at (networks app') i) = false.
Proof.
  induction n as [| n IH]; intros app; cbv zeta.
  - split; [done |]. split; [done |]. intros i Hi. lia.
  - rewrite for_loop_snoc. change (0 + n) with n.
    destruct (IH app) as (Hlen & Hsel & Hflags).
    set (s := for_loop n 0 _ app) in *. clearbody s.
    rewrite put_network_networks, put_network_selected, length_insert.
    split; [done |]. split; [done |].
    intros i Hi Hl. unfold net_at at 1.
    destruct (decide (i = n)) as [-> | Hne].
    + rewrite list_lookup_insert_eq by lia. reflexivity.
    + rewrite list_lookup_insert_ne by done. apply Hflags; lia.
Qed.

Lemma process_rx_message_stop app data rest :
  cstr data = data ->
  process_rx_message app (frame_bytes "x" data ++ NUL :: rest) (length (frame_bytes "x" data))
  = clear_deauth_flags ((console_append app (str_take 127 ("[x] " +:+ data)))
                          <| monitor_active := false |>).
Proof.
  intros Hd. unfold process_rx_message. rewrite frame_data by done. reflexivity.
Qed.

Lemma stop_confirmation_clears app data rest :
  cstr data = data -> native_session app ->
  selected_flag
    (process_rx_message app (frame_bytes "x" data ++ NUL :: rest) (length (frame_bytes "x" data)))
  = false.
Proof.
  intros Hd (_ & _ & _ & _ & Hsel & Hlen).
  rewrite process_rx_message_stop by exact Hd.
  unfold clear_deauth_flags.
  set (a := _ <| monitor_active := false |>).
  assert (En : networks a = networks app) by reflexivity.
  assert (Ec : network_count a = network_count app) by reflexivity.
  assert (Es : selected_network a = selected_network app) by reflexivity.
  clearbody a.
  destruct (clear_flags_loop (Z.to_nat (network_count a)) a) as (_ & Hs & Hflags).
  unfold selected_flag. rewrite Hs. apply Hflags; rewrite ?En, ?Ec, Es; lia.
Qed.

(** C9. On the Native profile, with a selected network of the collection
    that is not under deauth: the deauth command goes out as [d<id>] (with
    the reason when it is not the default) and the flag of the network is
    set, a deauth-status frame leaves it set, the next command is the stop
    [ds] and clears the flag, and the confirmation, be it a deauth-status
    frame or the stop-all frame, leaves it cleared. *)
Theorem deauth_round_trip (app : App) (ack stop rest1 rest2 : _) :
  native_session app ->
  selected_flag app = false ->
  cstr ack = ack -> cstr stop = stop ->
  let net_id := id (net_at (networks app) (Z.to_nat (selected_network app))) in
  let app1 := do_deauth app in
  let app2 := process_rx_message app1 (frame_bytes "d" ack ++ NUL :: rest1)
                (length (frame_bytes "d" ack)) in
  let app3 := do_deauth app2 in
  let app4 := process_rx_message app3 (frame_bytes "d" stop ++ NUL :: rest2)
                (length (frame_bytes "d" stop)) in
  let app4x := process_rx_message app3 (frame_bytes "x" stop ++ NUL :: rest2)
                 (length (frame_bytes "x" stop)) in
  tx app1 = tx app ++ wire "r3" ++ wire (deauth_command net_id (deauth_reason app))
  /\ selected_flag app1 = true
  /\ selected_flag app2 = true
  /\ tx app3 = tx app2 ++ wire "ds" ++ wire "r0,255,0"
  /\ selected_flag app3 = false
  /\ selected_flag app4 = false
  /\ selected_flag app4x = false.
Proof.
  intros Hn Hflag Hack Hstop. cbv zeta.
  destruct (do_deauth_start app Hn Hflag) as (Htx1 & Hf1 & Hn1).
  rewrite (process_rx_message_deauth _ ack) by exact Hack.
  set (app2 := console_append (do_deauth app) _).
  assert (Hn2 : native_session app2) by (by apply native_session_console).
  assert (Hf2 : selected_flag app2 = true) by (unfold app2; by rewrite selected_flag_console).
  clearbody app2.
  destruct (do_deauth_stop app2 Hn2 Hf2) as (Htx3 & Hf3 & Hn3).
  rewrite (process_rx_message_deauth _ stop) by exact Hstop.
  rewrite selected_flag_console.
  rewrite stop_confirmation_clears by done.
  done.
Qed.

Lemma deauth_round_trip_witness :
  let app1 := do_deauth native_app in
  let app2 := process_rx_message app1 (frame_bytes "d" "DEAUTH:3" ++ [NUL]) 9 in
  let app3 := do_deauth app2 in
  let app4 := process_rx_message app3 (frame_bytes "d" "STOPPED" ++ [NUL]) 8 in
  let app4x := process_rx_message app3 (frame_bytes "x" "STOPPED" ++ [NUL]) 8 in
  tx app1 = tx native_app ++ wire "r3" ++ wire "d3-0"
  /\ selected_flag app1 = true
  /\ selected_flag app2 = true
  /\ tx app3 = tx app2 ++ wire "ds" ++ wire "r0,255,0"
  /\ selected_flag app3 = false
  /\ selected_flag app4 = false
  /\ selected_flag app4x = false.
Proof.
  apply (deauth_round_trip native_app "DEAUTH:3" "STOPPED" [] []).
  - repeat split; try reflexivity; vm_compute; (discriminate || lia).
  - reflexivity.
  - reflexivity.
  - reflexivity.
Defined.

End Deauth.

(** ** Ranking *)

Section Ranking.

Lemma should_swap_cases a b :
  count_ok a -> count_ok b ->
  network_should_swap a b = true <->
  (has_clients a = false /\ has_clients b = true) \/
  (has_clients a = has_clients b /\ (rssi a < rssi b)%Z).
Proof.
  unfold count_ok, network_should_swap, has_clients. intros Ha Hb.
  destruct (Z.gtb_spec (client_count a) 0), (Z.eqb_spec (client_count b) 0),
    (Z.eqb_spec (client_count a) 0), (Z.gtb_spec (client_count b) 0),
    (Z.ltb_spec 0 (client_count a)), (Z.ltb_spec 0 (client_count b)),
    (Z.ltb_spec (rssi a) (rssi b)); cbn; intuition (discriminate || lia).
Qed.

Lemma keeps_order_cases a b :
  count_ok a -> count_ok b ->
  keeps_order a b <->
  (has_clients a = true /\ has_clients b = false) \/
  (has_clients a = has_clients b /\ (rssi b <= rssi a)%Z).
Proof.
  intros Ha Hb. unfold keeps_order.
  pose proof (should_swap_cases a b Ha Hb) as H.
  destruct (network_should_swap a b); split; intros H'; try discriminate.
  - exfalso. destruct H as [H _]. specialize (H eq_refl).
    destruct (has_clients a), (has_clients b); intuition (discriminate || lia).
  - destruct (has_clients a), (has_clients b), (Z.le_gt_cases (rssi b) (rssi a));
      intuition (try discriminate; try lia);
      exfalso; assert (true = false) by (apply H; (left; done) || (right; split; done || lia));
      discriminate.
  - reflexivity.
Qed.

Lemma keeps_order_trans a b c :
  count_ok a -> count_ok b -> count_ok c ->
  keeps_order a b -> keeps_order b c -> keeps_order a c.
Proof.
  intros Ha Hb Hc Hab Hbc.
  apply keeps_order_cases in Hab, Hbc; try done.
  apply keeps_order_cases; try done.
  destruct (has_clients a), (has_clients b), (has_clients c);
    intuition (discriminate || lia).
Qed.

Lemma should_swap_flip a b : network_should_swap a b = true -> keeps_order b a.
Proof.
  unfold keeps_order, network_should_swap.
  destruct (Z.gtb_spec (client_count a) 0), (Z.eqb_spec (client_count b) 0),
    (Z.eqb_spec (client_count a) 0), (Z.gtb_spec (client_count b) 0),
    (Z.ltb_spec (rssi a) (rssi b)), (Z.ltb_spec (rssi b) (rssi a));
    cbn; intros; try discriminate; try reflexivity; lia.
Qed.

Lemma keeps_order_refl a : keeps_order a a.
Proof.
  unfold keeps_order, network_should_swap.
  destruct (Z.gtb_spec (client_count a) 0), (Z.eqb_spec (client_count a) 0);
    cbn; try reflexivity; try lia; apply Z.ltb_irrefl.
Qed.

(** Two networks that are exchanged are not tied. *)
Lemma should_swap_not_tied a b c r :
  network_should_swap a b = true -> tie c r a && tie c r b = false.
Proof.
  unfold network_should_swap, tie, has_clients.
  destruct (Z.gtb_spec (client_count a) 0), (Z.eqb_spec (client_count b) 0),
    (Z.eqb_spec (client_count a) 0), (Z.gtb_spec (client_count b) 0),
    (Z.ltb_spec 0 (client_count a)), (Z.ltb_spec 0 (client_count b)),
    (Z.ltb_spec (rssi a) (rssi b)), (Z.eqb_spec (rssi a) r), (Z.eqb_spec (rssi b) r), c;
    cbn; intros; try discriminate; try reflexivity; lia.
Qed.

(** *** One pass, on lists *)

Lemma bubble_length x r : length (bubble x r).1 = length r.
Proof.
  revert x. induction r as [| y r IH]; intros x; simpl; [done |].
  destruct (network_should_swap x y).
  - specialize (IH x). destruct (bubble x r). simpl in *. by rewrite IH.
  - specialize (IH y). destruct (bubble y r). simpl in *. by rewrite IH.
Qed.

Lemma bubble_perm x r : Permutation ((bubble x r).1 ++ [(bubble x r).2]) (x :: r).
Proof.
  revert x. induction r as [| y r IH]; intros x; simpl; [done |].
  destruct (network_should_swap x y).
  - specialize (IH x). destruct (bubble x r) as [q z]. simpl in *.
    rewrite IH. apply perm_swap.
  - specialize (IH y). destruct (bubble y r) as [q z]. simpl in *.
    by rewrite IH.
Qed.

(** The carried element may stay behind everything the pass left in front. *)
Lemma bubble_last x r :
  Forall count_ok (x :: r) ->
  keeps_order x (bubble x r).2 /\ Forall (fun w => keeps_order w (bubble x r).2) (bubble x r).1.
Proof.
  revert x. induction r as [| y r IH]; intros x Hok; simpl.
  - split; [apply keeps_order_refl | constructor].
  - inversion Hok as [| ? ? Hx Hok']; subst. inversion Hok' as [| ? ? Hy Hr]; subst.
    assert (Hz : forall x', count_ok x' -> count_ok (bubble x' r).2).
    { intros x' Hx'. pose proof (bubble_perm x' r) as Hp.
      assert (Hin : In (bubble x' r).2 ((bubble x' r).1 ++ [(bubble x' r).2])).
      { apply in_or_app. right. by left. }
      apply (Permutation_in _ Hp) in Hin. destruct Hin as [<- | Hin]; [done |].
      by apply (proj1 (List.Forall_forall _ _) Hr). }
    destruct (network_should_swap x y) eqn:E.
    + destruct (IH x) as [H1 H2]; [by constructor |].
      specialize (Hz x Hx).
      destruct (bubble x r) as [q z]. simpl in *.
      split; [done |]. constructor; [| done].
      apply (keeps_order_trans y x z); try done. by apply should_swap_flip.
    + destruct (IH y) as [H1 H2]; [done |].
      specialize (Hz y Hy).
      destruct (bubble y r) as [q z]. simpl in *.
      assert (keeps_order x z) by (by apply (keeps_order_trans x y z)).
      split; [done |]. by constructor.
Qed.

(** A pass keeps the relative order of tied networks. *)
Lemma bubble_stable c r0 x r :
  List.filter (tie c r0) ((bubble x r).1 ++ [(bubble x r).2]) = List.filter (tie c r0) (x :: r).
Proof.
  revert x. induction r as [| y r IH]; intros x; [done |].
  cbn [bubble].
  destruct (network_should_swap x y) eqn:E.
  - specialize (IH x). destruct (bubble x r) as [q z]. cbn [fst snd] in *.
    change ((y :: q) ++ [z]) with (y :: (q ++ [z])).
    cbn [List.filter]. rewrite IH. cbn [List.filter].
    pose proof (should_swap_not_tied x y c r0 E) as Ht.
    destruct (tie c r0 x), (tie c r0 y); try done.
  - specialize (IH y). destruct (bubble y r) as [q z]. cbn [fst snd] in *.
    change ((x :: q) ++ [z]) with (x :: (q ++ [z])).
    cbn [List.filter]. by rewrite IH.
Qed.

(** *** All passes, on lists *)

Lemma StronglySorted_snoc {A} (R : A -> A -> Prop) s z :
  StronglySorted R s -> Forall (fun w => R w z) s -> StronglySorted R (s ++ [z]).
Proof.
  induction 1 as [| a s Hs IH Ha]; intros Hz; simpl.
  - repeat constructor.
  - inversion Hz; subst. constructor; [by apply IH |].
    apply Forall_app. split; [done | by constructor].
Qed.

Lemma bubble_passes_perm k : forall l, Permutation (bubble_passes k l) l.
Proof.
  induction k as [| k IH]; intros [| x r]; simpl; try done.
  pose proof (bubble_perm x r) as Hp. destruct (bubble x r) as [q z]. simpl in Hp.
  by rewrite IH.
Qed.

Lemma bubble_passes_stable c r0 k : forall l,
  List.filter (tie c r0) (bubble_passes k l) = List.filter (tie c r0) l.
Proof.
  induction k as [| k IH]; intros [| x r]; cbn [bubble_passes]; try done.
  pose proof (bubble_stable c r0 x r) as Hs. destruct (bubble x r) as [q z]. cbn [fst snd] in Hs.
  rewrite <- Hs, !List.filter_app. by rewrite IH.
Qed.

Lemma bubble_passes_sorted k : forall l,
  length l = S k -> Forall count_ok l -> StronglySorted keeps_order (bubble_passes k l).
Proof.
  induction k as [| k IH]; intros [| x r] Hlen Hok; simpl in *; try done.
  - destruct r; [| done]. repeat constructor.
  - pose proof (bubble_length x r) as Hl.
    pose proof (bubble_perm x r) as Hp.
    destruct (bubble_last x r Hok) as [_ Hlast].
    destruct (bubble x r) as [q z]. cbn [fst snd] in *.
    assert (Hokq : Forall count_ok (q ++ [z])) by (by rewrite Hp).
    apply Forall_app in Hokq as [Hokq _].
    apply StronglySorted_snoc.
    + apply IH; [lia | done].
    + by rewrite bubble_passes_perm.
Qed.

(** *** The loops of [sort_networks] on the array *)

Lemma net_at_middle pre x rest : net_at (pre ++ x :: rest) (length pre) = x.
Proof. unfold net_at. by rewrite list_lookup_middle. Qed.

Lemma swap_with_next_middle pre x y rest :
  swap_with_next (pre ++ x :: y :: rest) (length pre) = pre ++ y :: x :: rest.
Proof.
  unfold swap_with_next.
  rewrite net_at_middle.
  replace (net_at (pre ++ x :: y :: rest) (S (length pre))) with y.
  2:{ change (pre ++ x :: y :: rest) with (pre ++ [x] ++ y :: rest).
      rewrite app_assoc.
      replace (S (length pre)) with (length (pre ++ [x])) by (rewrite length_app; simpl; lia).
      by rewrite net_at_middle. }
  replace (length pre) with (length pre + 0) at 2 by lia.
  rewrite insert_app_r. simpl.
  replace (S (length pre)) with (length pre + 1) by lia.
  by rewrite insert_app_r.
Qed.

Lemma pass_loop_bubble r : forall pre x post,
  for_loop (length r) (length pre) pass_body (pre ++ x :: r ++ post)
  = pre ++ (bubble x r).1 ++ [(bubble x r).2] ++ post.
Proof.
  induction r as [| y r IH]; intros pre x post; [done |].
  cbn [length for_loop bubble]. unfold pass_body at 2.
  rewrite net_at_middle.
  replace (net_at (pre ++ x :: (y :: r) ++ post) (S (length pre))) with y.
  2:{ change (pre ++ x :: (y :: r) ++ post) with (pre ++ [x] ++ y :: r ++ post).
      rewrite app_assoc.
      replace (S (length pre)) with (length (pre ++ [x])) by (rewrite length_app; simpl; lia).
      by rewrite net_at_middle. }
  destruct (network_should_swap x y).
  - change (pre ++ x :: (y :: r) ++ post) with (pre ++ x :: y :: r ++ post).
    rewrite swap_with_next_middle.
    specialize (IH (pre ++ [y]) x post).
    rewrite length_app in IH. simpl in IH.
    replace (length pre + 1) with (S (length pre)) in IH by lia.
    rewrite <- app_assoc in IH. simpl in IH. rewrite IH.
    destruct (bubble x r) as [q z]. simpl. by rewrite <- app_assoc.
  - specialize (IH (pre ++ [x]) y post).
    rewrite length_app in IH. simpl in IH.
    replace (length pre + 1) with (S (length pre)) in IH by lia.
    rewrite <- app_assoc in IH. simpl in IH. simpl. rewrite IH.
    destruct (bubble y r) as [q z]. simpl. by rewrite <- app_assoc.
Qed.

Lemma sort_pass_bubble bound x r post :
  Z.to_nat bound = length r ->
  sort_pass bound (x :: r ++ post) = (bubble x r).1 ++ [(bubble x r).2] ++ post.
Proof.
  intros Hb. unfold sort_pass. rewrite Hb.
  apply (pass_loop_bubble r [] x post).
Qed.

Lemma outer_loop_passes (n : Z) k : forall i p post,
  length p = S k ->
  n = Z.of_nat (i + S k) ->
  for_loop k i (fun i nets => sort_pass (n - Z.of_nat i - 1) nets) (p ++ post)
  = bubble_passes k p ++ post.
Proof.
  induction k as [| k IH]; intros i p post Hlen Hn; [by destruct p |].
  destruct p as [| x r]; [done |]. simpl in Hlen.
  cbn [for_loop bubble_passes].
  change ((x :: r) ++ post) with (x :: r ++ post).
  rewrite sort_pass_bubble by lia.
  pose proof (bubble_length x r) as Hl.
  destruct (bubble x r) as [q z]. cbn [fst snd] in *.
  rewrite (IH (S i) q ([z] ++ post)) by lia.
  by rewrite <- app_assoc.
Qed.

(** The bubble sort of the first [n] cells is the passes on the list of
    these cells; the cells behind stay. *)
Lemma bubble_sort_passes n nets :
  (0 <= n)%Z -> Z.to_nat n <= length nets ->
  bubble_sort n nets
  = bubble_passes (Z.to_nat n - 1) (take (Z.to_nat n) nets) ++ drop (Z.to_nat n) nets.
Proof.
  intros Hn Hlen. unfold bubble_sort.
  rewrite <- (take_drop (Z.to_nat n) nets) at 1.
  destruct (Z.to_nat n) as [| k] eqn:E.
  - replace (Z.to_nat (n - 1)) with 0 by lia. reflexivity.
  - replace (Z.to_nat (n - 1)) with k by lia.
    replace (S k - 1) with k by lia.
    apply outer_loop_passes; [| lia].
    rewrite length_take. lia.
Qed.

(** *** The re-link *)

Lemma lists_client_spec net c :
  lists_client net c = true <->
  exists ci, ci < Z.to_nat (client_count net) /\ client_indices net !! ci = Some c.
Proof.
  unfold lists_client. rewrite for_loop_or. simpl. rewrite existsb_exists. split.
  - intros (ci & Hin & H). apply in_seq in Hin. exists ci. split; [lia |].
    destruct (client_indices net !! ci) as [x |]; [| done].
    apply Z.eqb_eq in H. by subst.
  - intros (ci & Hlt & H). exists ci. split; [apply in_seq; lia |].
    rewrite H. apply Z.eqb_refl.
Qed.

Lemma relink_loop_spec nets c cl k :
  let cl' := for_loop k 0 (relink_body nets c) cl in
  mac cl' = mac cl /\ client_rssi cl' = client_rssi cl /\
  ((exists i, i < k /\ lists_client (net_at nets i) (Z.of_nat c) = true) ->
   exists i, ap_index cl' = Z.of_nat i /\ i < k /\
             lists_client (net_at nets i) (Z.of_nat c) = true) /\
  ((forall i, i < k -> lists_client (net_at nets i) (Z.of_nat c) = false) -> cl' = cl).
Proof.
  induction k as [| k IH]; cbv zeta.
  - split; [done |]. split; [done |]. split; [| done]. intros (i & Hi & _). lia.
  - rewrite for_loop_snoc. change (0 + k) with k.
    destruct IH as (Hm & Hr & Hsome & Hnone).
    set (cl1 := for_loop k 0 (relink_body nets c) cl) in *. clearbody cl1.
    unfold relink_body at 1 2 3 4.
    destruct (lists_client (net_at nets k) (Z.of_nat c)) eqn:E.
    + split; [done |]. split; [done |]. split.
      * intros _. exists k. split; [reflexivity |]. split; [lia | done].
      * intros Hall. rewrite Hall in E by lia. done.
    + split; [done |]. split; [done |]. split.
      * intros (i & Hi & Hl).
        destruct (decide (i = k)) as [-> | Hne]; [congruence |].
        destruct Hsome as (i' & H1 & H2 & H3); [exists i; split; [lia | done] |].
        exists i'. split; [done |]. split; [lia | done].
      * intros Hall. apply Hnone. intros i Hi. apply Hall. lia.
Qed.

Lemma relink_step_fields c app :
  networks (relink_step c app) = networks app /\
  network_count (relink_step c app) = network_count app /\
  app_client_count (relink_step c app) = app_client_count app /\
  clients (relink_step c app)
  = <[c := relink_client (networks app) (network_count app) c (client_at (clients app) c)]>
      (clients app).
Proof. done. Qed.

(** The client loop: the network array stays, and the first [k] clients
    are re-linked against it. *)
Lemma client_loop_spec app k :
  let app' := for_loop k 0 relink_step app in
  networks app' = networks app /\
  network_count app' = network_count app /\
  app_client_count app' = app_client_count app /\
  length (clients app') = length (clients app) /\
  forall c,
    clients app' !! c
    = if decide (c < k)
      then relink_client (networks app) (network_count app) c <$> clients app !! c
      else clients app !! c.
Proof.
  induction k as [| k IH]; cbv zeta.
  - repeat (split; [done |]). intros c. by destruct (decide (c < 0)); [lia |].
  - rewrite for_loop_snoc. change (0 + k) with k.
    destruct IH as (Hn & Hc & Hcc & Hlen & Hcl).
    set (s := for_loop k 0 relink_step app) in *. clearbody s.
    destruct (relink_step_fields k s) as (E1 & E2 & E3 & E4).
    rewrite E1, E2, E3, E4, length_insert, Hn, Hc.
    repeat (split; [done |]). intros c.
    destruct (decide (c = k)) as [-> | Hne].
    + destruct (decide (k < S k)); [| lia].
      destruct (decide (k < length (clients s))) as [Hlt | Hge].
      * rewrite list_lookup_insert_eq by done.
        unfold client_at. rewrite Hcl.
        destruct (decide (k < k)); [lia |].
        rewrite Hlen in Hlt. apply lookup_lt_is_Some_2 in Hlt as [x Hx].
        by rewrite Hx.
      * rewrite list_insert_ge by lia. rewrite Hcl.
        destruct (decide (k < k)); [lia |].
        rewrite Hlen in Hge. by rewrite (lookup_ge_None_2 (clients app) k) by lia.
    + rewrite list_lookup_insert_ne by done. rewrite Hcl.
      destruct (decide (c < k)), (decide (c < S k)); try lia; done.
Qed.

(** *** The sort *)

Lemma sort_networks_loops app :
  sort_networks app
  = for_loop (Z.to_nat (app_client_count app)) 0 relink_step
      (app <| networks := bubble_sort (network_count app) (networks app) |>).
Proof. reflexivity. Qed.

Lemma relink_client_loop nets n c cl :
  relink_client nets n c cl = for_loop (Z.to_nat n) 0 (relink_body nets c) cl.
Proof. reflexivity. Qed.

Lemma sort_networks_fields app :
  inventory_ok app ->
  network_count (sort_networks app) = network_count app /\
  app_client_count (sort_networks app) = app_client_count app /\
  live_networks (sort_networks app)
  = bubble_passes (Z.to_nat (network_count app) - 1) (live_networks app) /\
  drop (Z.to_nat (network_count app)) (networks (sort_networks app))
  = drop (Z.to_nat (network_count app)) (networks app) /\
  forall c,
    clients (sort_networks app) !! c
    = if decide (c < Z.to_nat (app_client_count app))
      then relink_client (networks (sort_networks app)) (network_count app) c
             <$> clients app !! c
      else clients app !! c.
Proof.
  intros (Hlen & Hcnt & _ & _).
  rewrite sort_networks_loops.
  set (app1 := app <| networks := _ |>).
  assert (E1 : networks app1 = bubble_sort (network_count app) (networks app)) by reflexivity.
  assert (E2 : network_count app1 = network_count app) by reflexivity.
  assert (E3 : app_client_count app1 = app_client_count app) by reflexivity.
  assert (E4 : clients app1 = clients app) by reflexivity.
  clearbody app1.
  destruct (client_loop_spec app1 (Z.to_nat (app_client_count app)))
    as (Hn & Hc & Hcc & _ & Hcl).
  set (app2 := for_loop _ 0 relink_step app1) in *. clearbody app2.
  assert (Hs : networks app2
               = bubble_passes (Z.to_nat (network_count app) - 1) (live_networks app)
                 ++ drop (Z.to_nat (network_count app)) (networks app)).
  { rewrite Hn, E1. apply bubble_sort_passes; unfold MAX_NETWORKS in *; lia. }
  assert (Hpl : length (bubble_passes (Z.to_nat (network_count app) - 1) (live_networks app))
                = Z.to_nat (network_count app)).
  { rewrite (Permutation_length (bubble_passes_perm _ _)).
    unfold live_networks. rewrite length_take. unfold MAX_NETWORKS in *. lia. }
  split; [by rewrite Hc, E2 |]. split; [by rewrite Hcc, E3 |].
  split; [| split].
  - unfold live_networks at 1. rewrite Hc, E2, Hs.
    by rewrite take_app_length' by done.
  - rewrite Hs. by rewrite drop_app_length' by done.
  - intros c. rewrite Hcl, Hn, E2, E4. reflexivity.
Qed.

(** C1, as the code has it.  On an inventory in which no network has a
    negative client count, the sort permutes the Network collection so that
    every network with a positive client count precedes every network whose
    client count is zero, within each of the two categories a stronger
    signal precedes a weaker one, and networks of the same category and
    signal keep their relative order; and every client whose position is
    among the first [client_count] index slots of some network (no client
    count being above sixteen) is left with a network index that points to a
    network listing that position. *)
Theorem sort_networks_ranks_and_relinks (app : App) :
  inventory_ok app ->
  Forall count_ok (live_networks app) ->
  let live := live_networks app in
  let live' := live_networks (sort_networks app) in
  network_count (sort_networks app) = network_count app
  /\ Permutation live' live
  /\ (forall i j a b,
        live' !! i = Some a -> live' !! j = Some b ->
        (0 < client_count a)%Z -> client_count b = 0%Z -> i < j)
  /\ (forall i j a b,
        live' !! i = Some a -> live' !! j = Some b ->
        has_clients a = has_clients b -> (rssi b < rssi a)%Z -> i < j)
  /\ (forall c r, List.filter (tie c r) live' = List.filter (tie c r) live)
  /\ (forall c cl,
        Forall (fun net => (client_count net <= MAX_CLIENTS_PER_AP)%Z) live ->
        c < Z.to_nat (app_client_count app) ->
        clients (sort_networks app) !! c = Some cl ->
        (exists net, net ∈ live /\ lists_client net (Z.of_nat c) = true) ->
        exists net',
          (0 <= ap_index cl)%Z
          /\ live' !! Z.to_nat (ap_index cl) = Some net'
          /\ exists ci, ci < Z.to_nat (client_count net')
                        /\ client_indices net' !! ci = Some (Z.of_nat c)).
Proof.
  intros Hok Hcount. cbv zeta.
  destruct (sort_networks_fields app Hok) as (Hn & Hcc & Hlive & _ & Hcl).
  destruct Hok as (Hlen & Hcnt & _ & _).
  set (live := live_networks app) in *.
  set (live' := live_networks (sort_networks app)) in *.
  assert (Hperm : Permutation live' live) by (rewrite Hlive; apply bubble_passes_perm).
  assert (Hsorted : StronglySorted keeps_order live').
  { rewrite Hlive. destruct live as [| x r] eqn:E.
    - destruct (Z.to_nat (network_count app) - 1); constructor.
    - apply bubble_passes_sorted; [| done].
      rewrite <- E. unfold live, live_networks. rewrite length_take.
      unfold MAX_NETWORKS in *.
      assert (0 < length (take (Z.to_nat (network_count app)) (networks app))).
      { fold (live_networks app). fold live. rewrite E. simpl. lia. }
      rewrite length_take in H. lia. }
  assert (Hcount' : Forall count_ok live') by (by rewrite Hperm).
  assert (Hordered : forall i j a b,
            live' !! i = Some a -> live' !! j = Some b -> i < j -> keeps_order a b).
  { clear -Hsorted. induction Hsorted as [| x l Hs IH Hx]; intros i j a b Hi Hj Hlt; [done |].
    destruct j as [| j]; [lia |]. destruct i as [| i]; simpl in *.
    - injection Hi as <-. rewrite List.Forall_forall in Hx. apply Hx.
      apply list_elem_of_In. by eapply list_elem_of_lookup_2.
    - apply (IH i j); try done. lia. }
  assert (Hin : forall i a, live' !! i = Some a -> count_ok a).
  { intros i a Hi. rewrite List.Forall_forall in Hcount'. apply Hcount'.
    apply list_elem_of_In. by eapply list_elem_of_lookup_2. }
  split; [done |]. split; [done |]. split; [| split; [| split]].
  - intros i j a b Hi Hj Ha Hb.
    destruct (Nat.lt_total i j) as [Hlt | [-> | Hgt]]; [done | |].
    + rewrite Hi in Hj. injection Hj as <-. lia.
    + exfalso. pose proof (Hordered j i b a Hj Hi Hgt) as Hk.
      apply keeps_order_cases in Hk; [| by eapply Hin | by eapply Hin].
      unfold has_clients in Hk.
      destruct (Z.ltb_spec 0 (client_count a)), (Z.ltb_spec 0 (client_count b));
        intuition (discriminate || lia).
  - intros i j a b Hi Hj Hcat Hr.
    destruct (Nat.lt_total i j) as [Hlt | [-> | Hgt]]; [done | |].
    + rewrite Hi in Hj. injection Hj as <-. lia.
    + exfalso. pose proof (Hordered j i b a Hj Hi Hgt) as Hk.
      apply keeps_order_cases in Hk; [| by eapply Hin | by eapply Hin].
      destruct (has_clients a), (has_clients b); intuition (discriminate || lia).
  - intros c r. rewrite Hlive. apply bubble_passes_stable.
  - intros c cl _ Hc Hlook (net & Hnet & Hlists).
    rewrite Hcl in Hlook. destruct (decide (c < Z.to_nat (app_client_count app))); [| lia].
    destruct (clients app !! c) as [cl0 |] eqn:E0; [| done].
    injection Hlook as <-.
    assert (Hnet' : net ∈ live').
    { apply list_elem_of_In. apply (Permutation_in _ (Permutation_sym Hperm)).
      by apply list_elem_of_In. }
    apply list_elem_of_lookup_1 in Hnet' as (i & Hi).
    assert (Hi' : i < Z.to_nat (network_count app)).
    { apply lookup_lt_Some in Hi. unfold live', live_networks in Hi.
      rewrite length_take, Hn in Hi. lia. }
    assert (Hat : forall k x, live' !! k = Some x -> net_at (networks (sort_networks app)) k = x).
    { intros k x Hk. unfold live', live_networks in Hk.
      apply lookup_take_Some in Hk as [Hk _]. unfold net_at. by rewrite Hk. }
    rewrite relink_client_loop.
    destruct (relink_loop_spec (networks (sort_networks app)) c cl0
                (Z.to_nat (network_count app))) as (_ & _ & Hsome & _).
    destruct Hsome as (i' & Hap & Hi'lt & Hl').
    { exists i. split; [done |]. by rewrite (Hat i net Hi). }
    set (cl' := for_loop _ 0 _ cl0) in *. clearbody cl'.
    assert (Hlook' : is_Some (live' !! i')).
    { apply lookup_lt_is_Some_2. unfold live', live_networks.
      rewrite length_take, Hn.
      assert (Z.to_nat (network_count app) <= length (networks (sort_networks app))).
      { assert (Hl : length live' = length live) by (by apply Permutation_length).
        unfold live', live, live_networks in Hl. rewrite !length_take, Hn in Hl.
        unfold MAX_NETWORKS in *. lia. }
      lia. }
    destruct Hlook' as [net' Hnet'].
    exists net'. rewrite Hap. split; [lia |]. rewrite Nat2Z.id. split; [done |].
    rewrite (Hat i' net' Hnet') in Hl'. by apply lists_client_spec.
Qed.

(** *** The claim on linked clients *)

Lemma announced_app_sorted :
  (id <$> live_networks (sort_networks announced_app),
   client_count <$> live_networks (sort_networks announced_app),
   valid_entries <$> live_networks (sort_networks announced_app))
  = ([1%Z; 2%Z], [2%Z; 1%Z], [0%Z; 1%Z]).
Proof. vm_compute. reflexivity. Qed.

Lemma sort_ranks_by_count_not_by_links : ~ linked_first (sort_networks announced_app).
Proof.
  intros H.
  assert (E : exists a b, live_networks (sort_networks announced_app) = [a; b]
                          /\ valid_entries a = 0%Z /\ valid_entries b = 1%Z).
  { eexists _, _. vm_compute. repeat split; reflexivity. }
  destruct E as (a & b & E & Ha & Hb).
  specialize (H 1 0 b a). rewrite E in H.
  specialize (H eq_refl eq_refl). lia.
Qed.

Lemma announced_app_ok :
  inventory_ok announced_app /\ Forall count_ok (live_networks announced_app).
Proof.
  split.
  - repeat split; try reflexivity; by vm_compute.
  - assert (E : client_count <$> live_networks announced_app = [2%Z; 1%Z])
      by (vm_compute; reflexivity).
    destruct (live_networks announced_app) as [| a [| b [| c r]]]; try discriminate E.
    injection E as Ea Eb. repeat constructor; unfold count_ok; lia.
Qed.

Lemma sort_networks_witness :
  network_count (sort_networks announced_app) = network_count announced_app
  /\ Permutation (live_networks (sort_networks announced_app)) (live_networks announced_app).
Proof.
  pose proof (sort_networks_ranks_and_relinks announced_app
                (proj1 announced_app_ok) (proj2 announced_app_ok)) as H.
  split; [exact (proj1 H) | exact (proj1 (proj2 H))].
Defined.

(** In [crowded_app] the seventeenth client of network B is in no index
    list: after the sort has moved B to the front, the client still carries
    B's old position. *)
Example unlinked_client_keeps_stale_index :
  let app' := sort_networks crowded_app in
  id <$> live_networks crowded_app = [1%Z; 2%Z]
  /\ id <$> live_networks app' = [2%Z; 1%Z]
  /\ app_client_count app' = 17%Z
  /\ ap_index <$> live_clients app'
     = replicate 16 0%Z ++ [1%Z]
  /\ lists_client (net_at (networks app') 1) 16 = false
  /\ lists_client (net_at (networks app') 0) 16 = false.
Proof. vm_compute. repeat split; reflexivity. Qed.

End Ranking.

(** ** The token scanner *)

Section TokenScanner.

Variable delim : ascii.
Hypothesis delim_not_nul : delim <> NUL.

Lemma str_drop_app (pre s : string) : str_drop (String.length pre) (pre +:+ s) = s.
Proof. induction pre as [| c pre IH]; [done |]. rewrite string_app_cons. exact IH. Qed.

Lemma char_at_app (pre s : string) i :
  char_at (pre +:+ s) (String.length pre + i) = char_at s i.
Proof. induction pre as [| c pre IH]; [done |]. rewrite string_app_cons. exact IH. Qed.

Lemma set_char_app (pre : string) c r x :
  set_char (pre +:+ String c r) (String.length pre) x = pre +:+ String x r.
Proof.
  induction pre as [| a pre IH]; [done |].
  rewrite !string_app_cons. simpl. by rewrite IH.
Qed.

Lemma string_length_app (a b : string) :
  String.length (a +:+ b) = String.length a + String.length b.
Proof. induction a as [| x a IH]; [done |]. rewrite string_app_cons. simpl. by rewrite IH. Qed.

Lemma token_span_field f rest :
  plain_field delim f ->
  (rest = "" \/ exists c r, rest = String c r /\ (c = delim \/ c = NUL)) ->
  token_span (f +:+ rest) delim = String.length f.
Proof.
  intros Hf Hrest. induction f as [| a f IH].
  - rewrite string_app_nil_l. destruct Hrest as [-> | (c & r & -> & Hc)]; [done |].
    simpl. destruct Hc as [-> | ->].
    + by rewrite Ascii.eqb_refl, orb_true_r.
    + done.
  - inversion Hf as [| ? ? [Hd Hn] Hf']; subst.
    rewrite string_app_cons. simpl.
    apply Ascii.eqb_neq in Hd. rewrite Hd.
    assert (is_nul a = false) as -> by (by apply Ascii.eqb_neq).
    simpl. by rewrite IH.
Qed.

Lemma cstr_field f tail : plain_field delim f -> cstr (f +:+ String NUL tail) = f.
Proof.
  intros Hf. induction f as [| a f IH]; [done |].
  inversion Hf as [| ? ? [Hd Hn] Hf']; subst.
  rewrite string_app_cons. simpl.
  assert (is_nul a = false) as -> by (by apply Ascii.eqb_neq).
  by rewrite IH.
Qed.

Lemma cstr_plain f : plain_field delim f -> cstr f = f.
Proof.
  intros Hf. induction f as [| a f IH]; [done |].
  inversion Hf as [| ? ? [Hd Hn] Hf']; subst. simpl.
  assert (is_nul a = false) as -> by (by apply Ascii.eqb_neq).
  by rewrite IH.
Qed.

Lemma char_at_end (s : string) : char_at s (String.length s) = NUL.
Proof. induction s as [| c s IH]; [done |]. exact IH. Qed.

Lemma char_at_field_head f c rest :
  plain_field delim f -> c <> NUL ->
  is_nul (char_at (f +:+ String c rest) 0) = false.
Proof.
  intros Hf Hc. destruct f as [| a f].
  - by apply Ascii.eqb_neq.
  - inversion Hf as [| ? ? [Hd Hn] Hf']; subst. by apply Ascii.eqb_neq.
Qed.

Lemma char_at_app0 (pre : string) c r : char_at (pre +:+ String c r) (String.length pre) = c.
Proof.
  replace (String.length pre) with (String.length pre + 0) by lia.
  by rewrite char_at_app.
Qed.

(** A field that is followed by a delimiter. *)
Lemma token_next_inner pre f tail :
  plain_field delim f ->
  token_next (mkTokenState (pre +:+ f +:+ String delim tail) (String.length pre)) delim
  = (Some f,
     mkTokenState ((pre +:+ f) +:+ String NUL tail) (String.length (pre +:+ f) + 1)).
Proof.
  intros Hf. unfold token_next. cbn [str pos].
  replace (String.length pre) with (String.length pre + 0) at 1 by lia.
  rewrite char_at_app, char_at_field_head by done.
  rewrite str_drop_app, token_span_field by (try done; right; eauto).
  rewrite <- string_length_app, <- (string_app_assoc pre f).
  rewrite !char_at_app0, Ascii.eqb_refl.
  cbn [str pos]. rewrite set_char_app.
  rewrite (string_app_assoc pre f), str_drop_app, cstr_field by done.
  rewrite <- (string_app_assoc pre f).
  do 3 f_equal. lia.
Qed.

Lemma token_span_plain f : plain_field delim f -> token_span f delim = String.length f.
Proof.
  intros Hf. rewrite <- (string_app_nil_r f) at 1.
  apply token_span_field; [done | by left].
Qed.

(** The last field, when it is not empty. *)
Lemma token_next_last pre f :
  plain_field delim f -> f <> "" ->
  token_next (mkTokenState (pre +:+ f) (String.length pre)) delim
  = (Some f, mkTokenState (pre +:+ f) (String.length (pre +:+ f))).
Proof.
  intros Hf Hne. unfold token_next. cbn [str pos].
  rewrite str_drop_app, token_span_plain, <- string_length_app, char_at_end by done.
  assert (Ascii.eqb NUL delim = false) as -> by (apply Ascii.eqb_neq; congruence).
  cbn [str]. rewrite str_drop_app, cstr_plain by done.
  destruct f as [| a f]; [done |].
  inversion Hf as [| ? ? [Hd Hn] Hf']; subst.
  rewrite char_at_app0.
  by assert (is_nul a = false) as -> by (by apply Ascii.eqb_neq).
Qed.

Lemma token_next_end (s : string) :
  token_next (mkTokenState s (String.length s)) delim = (None, mkTokenState s (String.length s)).
Proof. unfold token_next. cbn [str pos]. by rewrite char_at_end. Qed.

Lemma join_fields_cons f g fields :
  join_fields delim (f :: g :: fields) = f +:+ String delim (join_fields delim (g :: fields)).
Proof. reflexivity. Qed.

Lemma tokens_from_S n ts :
  tokens_from (S n) ts delim
  = match token_next ts delim with
    | (Some t, ts') => t :: tokens_from n ts' delim
    | (None, _) => []
    end.
Proof. reflexivity. Qed.

Lemma tokens_from_end n (s : string) :
  tokens_from n (mkTokenState s (String.length s)) delim = [].
Proof. destruct n; [done |]. by rewrite tokens_from_S, token_next_end. Qed.

Lemma tokens_from_joined fields : forall pre extra,
  Forall (plain_field delim) fields ->
  last fields <> Some "" ->
  tokens_from (length fields + extra)
    (mkTokenState (pre +:+ join_fields delim fields) (String.length pre)) delim
  = fields.
Proof.
  induction fields as [| f fields IH]; intros pre extra Hf Hlast.
  - change (join_fields delim []) with "". rewrite string_app_nil_r.
    apply tokens_from_end.
  - inversion Hf as [| ? ? Hf1 Hf2]; subst.
    change (length (f :: fields) + extra) with (S (length fields + extra)).
    rewrite tokens_from_S.
    destruct fields as [| g fields].
    + change (join_fields delim [f]) with f.
      rewrite token_next_last by (try done; intros ->; by apply Hlast).
      f_equal. apply tokens_from_end.
    + rewrite join_fields_cons, token_next_inner by done.
      f_equal.
      replace (String.length (pre +:+ f) + 1)
        with (String.length ((pre +:+ f) +:+ String NUL "")).
      2: { rewrite !string_length_app. simpl. lia. }
      replace ((pre +:+ f) +:+ String NUL (join_fields delim (g :: fields)))
        with (((pre +:+ f) +:+ String NUL "") +:+ join_fields delim (g :: fields)).
      2: { by rewrite (string_app_assoc (pre +:+ f)). }
      apply (IH _ extra); [done |].
      intros H. apply Hlast. by rewrite last_cons, H.
Qed.

Lemma scan_state_init fields : token_init (join_fields delim fields) = scan_state delim "" fields.
Proof. reflexivity. Qed.

Lemma token_next_scan_inner seen f g fields :
  plain_field delim f ->
  token_next (scan_state delim seen (f :: g :: fields)) delim
  = (Some f, scan_state delim ((seen +:+ f) +:+ String NUL "") (g :: fields)).
Proof.
  intros Hf. unfold scan_state. rewrite join_fields_cons, token_next_inner by done.
  f_equal. f_equal.
  - by rewrite (string_app_assoc (seen +:+ f)).
  - rewrite !string_length_app. simpl. lia.
Qed.

Lemma token_next_scan_last seen f :
  plain_field delim f -> f <> "" ->
  token_next (scan_state delim seen [f]) delim = (Some f, scan_state delim (seen +:+ f) []).
Proof.
  intros Hf Hne. unfold scan_state.
  change (join_fields delim [f]) with f. change (join_fields delim []) with "".
  rewrite token_next_last by done. by rewrite string_app_nil_r.
Qed.

Lemma token_next_scan_end seen :
  token_next (scan_state delim seen []) delim = (None, scan_state delim seen []).
Proof.
  unfold scan_state. change (join_fields delim []) with "". rewrite string_app_nil_r.
  apply token_next_end.
Qed.

(** X1.  The scanner splits what joining the fields wrote: when no field holds
    the delimiter or a terminator and the last field is not empty, the
    successive calls of [token_next] on the joined text return the fields in
    order, empty ones included, and then nothing, however often they are
    repeated. *)
Theorem token_scanner_splits_joined_fields (fields : list string) (extra : nat) :
  Forall (plain_field delim) fields ->
  last fields <> Some "" ->
  tokens_from (length fields + extra) (token_init (join_fields delim fields)) delim
  = fields.
Proof.
  intros Hf Hlast.
  exact (tokens_from_joined fields "" extra Hf Hlast).
Qed.

End TokenScanner.

Lemma token_scanner_witness :
  tokens_from (3 + 2) (token_init (join_fields "|" ["12"; ""; "-40"])) "|" = ["12"; ""; "-40"].
Proof.
  apply (token_scanner_splits_joined_fields "|" ltac:(discriminate) ["12"; ""; "-40"] 2).
  - repeat constructor; discriminate.
  - discriminate.
Defined.

(** ** Field-wise decoding *)

Section FieldwiseDecoding.

Lemma plain_field_no_nul d f : plain_field d f -> cstr f = f.
Proof.
  intros Hf. induction f as [| a f IH]; [done |].
  inversion Hf as [| ? ? [Hd Hn] Hf']; subst. simpl.
  assert (is_nul a = false) as -> by (by apply Ascii.eqb_neq).
  by rewrite IH.
Qed.

Lemma cstr_app (a b : string) : cstr a = a -> cstr (a +:+ b) = a +:+ cstr b.
Proof.
  induction a as [| x a IH]; intros H; [done |].
  rewrite !string_app_cons. simpl in *.
  destruct (is_nul x); [done |]. injection H as H. by rewrite IH.
Qed.

Lemma cstr_join sep fs :
  sep <> NUL -> Forall (fun f => cstr f = f) fs -> cstr (join_fields sep fs) = join_fields sep fs.
Proof.
  intros Hsep. induction 1 as [| f fs Hf Hfs IH]; [done |].
  destruct fs as [| g fs]; [exact Hf |].
  rewrite join_fields_cons, cstr_app by done.
  cbn [cstr]. assert (is_nul sep = false) as -> by (by apply Ascii.eqb_neq).
  by rewrite IH.
Qed.

Lemma str_map_app f (a b : string) : str_map f (a +:+ b) = str_map f a +:+ str_map f b.
Proof. induction a as [| x a IH]; [done |]. rewrite !string_app_cons. simpl. by rewrite IH. Qed.

Lemma sep_to_pipe_field f : plain_field PROTO_SEP f -> sep_to_pipe PROTO_SEP f = f.
Proof.
  unfold sep_to_pipe. intros Hf. induction f as [| a f IH]; [done |].
  inversion Hf as [| ? ? [Hd Hn] Hf']; subst. simpl.
  apply Ascii.eqb_neq in Hd. by rewrite Hd, IH.
Qed.

(** Both dialects of the separator read the same. *)
Lemma sep_to_pipe_join sep fs :
  sep = "|"%char \/ sep = PROTO_SEP ->
  Forall message_field fs ->
  sep_to_pipe PROTO_SEP (join_fields sep fs) = join_fields "|" fs.
Proof.
  intros Hsep. induction 1 as [| f fs [_ Hf] Hfs IH]; [done |].
  destruct fs as [| g fs]; [by apply sep_to_pipe_field |].
  rewrite !join_fields_cons. unfold sep_to_pipe in *.
  rewrite str_map_app. cbn [str_map].
  rewrite IH. fold (sep_to_pipe PROTO_SEP f). rewrite sep_to_pipe_field by done.
  by destruct Hsep as [-> | ->].
Qed.

Lemma message_buffer sep fs n :
  sep = "|"%char \/ sep = PROTO_SEP ->
  Forall message_field fs ->
  String.length (join_fields sep fs) <= n ->
  token_init (sep_to_pipe PROTO_SEP (strncpy (join_fields sep fs) n))
  = scan_state "|" "" fs.
Proof.
  intros Hsep Hfs Hlen.
  rewrite strncpy_short; [| | exact Hlen].
  - by rewrite sep_to_pipe_join.
  - apply cstr_join.
    + destruct Hsep as [-> | ->]; discriminate.
    + eapply Forall_impl; [exact Hfs |]. intros f [Hf _]. by eapply plain_field_no_nul.
Qed.

(** Rewrites the token reads of a decoder on a scanner state. *)
Ltac scan_fields :=
  repeat first
    [ rewrite token_next_scan_inner by (discriminate || assumption)
    | rewrite token_next_scan_last by
        first [ discriminate | assumption
              | intros ->; match goal with H : last _ <> _ |- _ => by apply H end ]
    | rewrite token_next_scan_end by discriminate ].

Lemma fresh_network_fields :
  fresh_network = mkNetwork 0 "" "" 0 0 0 false false 0 (replicate 16 (-1)%Z) "" false false.
Proof. reflexivity. Qed.

(** X2.  A network message is read field by field: whichever of the two
    separators ('|' or the field separator 0x1D) the device writes between
    them, a message of at least five fields, none of which holds a
    separator or a terminator and the last of which is not empty, that fits
    the decoder's 127-character copy, decoded while the collection has
    room, stores in the next cell the Network of its fields (id, SSID cut
    to 32 characters, BSSID cut to 17, channel, signal, band, client count,
    security label cut to 15, PMF, hidden) and counts it; the fields past
    the fifth may be missing, in which case band, count and flags are zero
    and the security label is "???", and fields past the tenth are
    ignored. *)
Theorem network_message_decodes_fieldwise (app : App) (sep : ascii) (fs : list string) :
  sep = "|"%char \/ sep = PROTO_SEP ->
  Forall message_field fs ->
  5 <= length fs ->
  last fs <> Some "" ->
  String.length (join_fields sep fs) <= 127 ->
  (network_count app < MAX_NETWORKS)%Z ->
  parse_network_message app (join_fields sep fs)
  = (put_network app (Z.to_nat (network_count app)) (network_of_fields fs))
      <| network_count := (network_count app + 1)%Z |>.
Proof.
  intros Hsep Hfs Hn Hlast Hlen Hfree.
  unfold parse_network_message.
  destruct (Z.geb_spec (network_count app) MAX_NETWORKS); [lia |].
  rewrite message_buffer by done.
  assert (Hp : Forall (plain_field "|") fs).
  { eapply Forall_impl; [exact Hfs |]. by intros f [Hf _]. }
  clear Hfs Hlen Hsep. rewrite fresh_network_fields.
  do 5 (destruct fs as [| ? fs]; [simpl in Hn; lia |]). clear Hn.
  repeat match goal with
    | H : Forall _ (_ :: _) |- _ => inversion H; clear H; subst
    end.
  do 5 (try destruct fs as [| ? fs];
        repeat match goal with
          | H : Forall _ (_ :: _) |- _ => inversion H; clear H; subst
          end).
  all: repeat match goal with
         | H : last (_ :: _ :: _) <> _ |- _ => rewrite last_cons_cons in H
         end.
  all: scan_fields.
  all: try reflexivity.
  (* more than ten fields *)
  destruct fs as [| ? fs]; scan_fields; reflexivity.
Qed.

Lemma live_clients_append app cl :
  (0 <= app_client_count app)%Z ->
  Z.to_nat (app_client_count app) < length (clients app) ->
  take (Z.to_nat (app_client_count app + 1))
    (<[Z.to_nat (app_client_count app) := cl]> (clients app))
  = live_clients app ++ [cl].
Proof.
  intros Hn Hlen. unfold live_clients.
  replace (Z.to_nat (app_client_count app + 1)) with (S (Z.to_nat (app_client_count app))) by lia.
  rewrite (take_S_r _ _ cl) by (by apply list_lookup_insert_eq).
  by rewrite take_insert_ge.
Qed.

(** X3.  A client message is read field by field too.  A message of at least two
    fields that fits the decoder's 63-character copy, whose MAC no stored
    client has, decoded while the Client collection has room: when its AP
    index is that of a stored network, the collection grows by the Client of
    its fields (MAC cut to 17 characters, signal -80 when the field is
    missing), and the network's first free index slot, when it has one,
    holds the client's position; when the AP index is negative or not below
    the network count, the message changes nothing. *)
Theorem client_message_decodes_fieldwise (app : App) (sep : ascii) (fs : list string) :
  sep = "|"%char \/ sep = PROTO_SEP ->
  Forall message_field fs ->
  2 <= length fs ->
  last fs <> Some "" ->
  String.length (join_fields sep fs) <= 63 ->
  inventory_ok app ->
  (app_client_count app < MAX_CLIENTS)%Z ->
  client_known app (field fs 1) = false ->
  let ap := atoi (field fs 0) in
  let app' := parse_client_message app (join_fields sep fs) in
  ((0 <= ap < network_count app)%Z ->
   live_clients app' = live_clients app ++ [client_of_fields fs]
   /\ app_client_count app' = (app_client_count app + 1)%Z
   /\ network_count app' = network_count app
   /\ let net := net_at (networks app) (Z.to_nat ap) in
      ((actual_count net < MAX_CLIENTS_PER_AP)%Z ->
       client_indices (net_at (networks app') (Z.to_nat ap))
       = <[Z.to_nat (actual_count net) := app_client_count app]> (client_indices net)))
  /\
  ((ap < 0 \/ network_count app <= ap)%Z -> app' = app).
Proof.
  intros Hsep Hfs Hn Hlast Hlen (Hnl & Hnc & Hcl & Hcc) Hroom Hnew. cbv zeta.
  unfold parse_client_message.
  destruct (Z.geb_spec (app_client_count app) MAX_CLIENTS); [lia |].
  rewrite message_buffer by done.
  assert (Hp : Forall (plain_field "|") fs).
  { eapply Forall_impl; [exact Hfs |]. by intros f [Hf _]. }
  clear Hfs Hlen Hsep.
  destruct fs as [| a [| m fs]]; [simpl in Hn; lia | simpl in Hn; lia |]. clear Hn.
  change (field (a :: m :: fs) 0) with a in *.
  change (field (a :: m :: fs) 1) with m in *.
  assert (E : exists ts,
             token_next (scan_state "|" (("" +:+ a) +:+ String NUL "") (m :: fs)) "|"
             = (Some m, ts)
             /\ fst (token_next ts "|") = fs !! 0).
  { inversion Hp as [| ? ? Ha Hp1]; subst. inversion Hp1 as [| ? ? Hm Hp2]; subst.
    rewrite !last_cons_cons in Hlast.
    destruct fs as [| r fs].
    - eexists. split; [by scan_fields |]. by scan_fields.
    - inversion Hp2; subst. eexists. split; [by scan_fields |].
      destruct fs as [| ? fs]; [| by scan_fields].
      by scan_fields. }
  destruct E as (ts & E1 & E2).
  inversion Hp as [| ? ? Ha _]; subst.
  rewrite (token_next_scan_inner "|" ltac:(discriminate) "" a m fs Ha), E1.
  destruct (token_next ts "|") as [t3 ts3]. cbn [fst] in E2. subst t3.
  rewrite Hnew.
  split.
  - intros Hap.
    destruct (Z.ltb_spec (atoi a) 0); [lia |].
    destruct (Z.geb_spec (atoi a) (network_count app)); [lia |]. cbn [orb].
    split; [| split; [reflexivity |]; split; [reflexivity |]].
    + unfold live_clients at 1.
      change (take _ _ = live_clients app ++ [client_of_fields (a :: m :: fs)])
        with (take (Z.to_nat (app_client_count app + 1))
                (<[Z.to_nat (app_client_count app) :=
                     (client_at (clients app) (Z.to_nat (app_client_count app)))
                       <| mac := strncpy m (MAX_BSSID_LEN - 1) |>
                       <| client_rssi := match fs !! 0 with
                                         | Some token => atoi token
                                         | None => (-80)%Z
                                         end |>
                       <| ap_index := atoi a |>]> (clients app))
              = live_clients app ++ [client_of_fields (a :: m :: fs)]).
      rewrite live_clients_append by (unfold MAX_CLIENTS in *; lia).
      reflexivity.
    + intros Hfree.
      unfold put_network.
      change (networks (?x <| networks := ?l |> <| app_client_count := _ |>)) with l.
      change (networks (?x <| clients := _ |>)) with (networks x).
      change (app_client_count (?x <| clients := _ |>)) with (app_client_count x).
      unfold net_at at 1. rewrite list_lookup_insert_eq by (unfold MAX_NETWORKS in *; lia).
      cbn [default].
      destruct (Z.ltb_spec (actual_count (net_at (networks app) (Z.to_nat (atoi a))))
                  MAX_CLIENTS_PER_AP); [| lia].
      by destruct (_ >? _)%Z.
  - intros Hap.
    destruct (Z.ltb_spec (atoi a) 0); [done |].
    destruct (Z.geb_spec (atoi a) (network_count app)); [done | lia].
Qed.

Lemma live_ble_append app dev :
  (0 <= ble_count app)%Z ->
  Z.to_nat (ble_count app) < length (ble_devices app) ->
  live_ble (app <| ble_devices := <[Z.to_nat (ble_count app) := dev]> (ble_devices app) |>
                <| ble_count := (ble_count app + 1)%Z |>)
  = live_ble app ++ [dev].
Proof.
  intros Hn Hlen. unfold live_ble.
  change (ble_count (?a <| ble_count := ?v |>)) with v.
  change (ble_devices (?a <| ble_devices := ?v |> <| ble_count := _ |>)) with v.
  replace (Z.to_nat (ble_count app + 1)) with (S (Z.to_nat (ble_count app))) by lia.
  rewrite (take_S_r _ _ dev) by (by apply list_lookup_insert_eq).
  by rewrite take_insert_ge.
Qed.

(** X4.  A BLE device message is read field by field: a message with at least an
    address that fits the decoder's 127-character copy, decoded while the
    list holds fewer than 32 devices, appends the device of its fields
    (address cut to 17 characters, name cut to 63 and "Unknown" when the
    field is missing, signal -80 when missing); the list is not searched,
    so an address met again is listed again.  Once the list holds 32
    devices every message leaves the state as it was. *)
Theorem ble_message_decodes_fieldwise (app : App) (sep : ascii) (fs : list string) :
  sep = "|"%char \/ sep = PROTO_SEP ->
  Forall message_field fs ->
  1 <= length fs ->
  last fs <> Some "" ->
  String.length (join_fields sep fs) <= 127 ->
  length (ble_devices app) = Z.to_nat MAX_BLE_DEVICES ->
  (0 <= ble_count app)%Z ->
  let app' := parse_ble_message app (join_fields sep fs) in
  ((ble_count app < MAX_BLE_DEVICES)%Z ->
   live_ble app' = live_ble app ++ [ble_of_fields fs]
   /\ ble_count app' = (ble_count app + 1)%Z
   /\ live_ble (parse_ble_message app' (join_fields sep fs)) !! S (Z.to_nat (ble_count app))
      = (if (ble_count app' <? MAX_BLE_DEVICES)%Z then Some (ble_of_fields fs) else None))
  /\
  ((MAX_BLE_DEVICES <= ble_count app)%Z -> app' = app).
Proof.
  intros Hsep Hfs Hn Hlast Hlen Harr Hcnt. cbv zeta.
  assert (Hp : Forall (plain_field "|") fs).
  { eapply Forall_impl; [exact Hfs |]. by intros f [Hf _]. }
  assert (Hdec : forall a : App,
            (ble_count a < MAX_BLE_DEVICES)%Z ->
            parse_ble_message a (join_fields sep fs)
            = a <| ble_devices := <[Z.to_nat (ble_count a) := ble_of_fields fs]> (ble_devices a) |>
                <| ble_count := (ble_count a + 1)%Z |>).
  { intros a Ha. unfold parse_ble_message.
    destruct (Z.geb_spec (ble_count a) MAX_BLE_DEVICES); [lia |].
    rewrite message_buffer by done.
    clear Hfs Hlen Hsep.
    destruct fs as [| f0 fs]; [simpl in Hn; lia |].
    inversion Hp as [| ? ? H0 Hp1]; subst.
    destruct fs as [| f1 fs]; [by scan_fields |].
    inversion Hp1 as [| ? ? H1 Hp2]; subst.
    rewrite last_cons_cons in Hlast.
    destruct fs as [| f2 fs]; [by scan_fields |].
    inversion Hp2 as [| ? ? H2 Hp3]; subst.
    rewrite last_cons_cons in Hlast.
    destruct fs as [| f3 fs]; by scan_fields. }
  split.
  - intros Hroom. rewrite (Hdec app Hroom).
    split; [| split; [reflexivity |]].
    { apply live_ble_append; [done |]. unfold MAX_BLE_DEVICES in *. lia. }
    set (app' := app <| ble_devices := _ |> <| ble_count := _ |>).
    assert (Hc' : ble_count app' = (ble_count app + 1)%Z) by reflexivity.
    assert (Hl' : length (ble_devices app') = Z.to_nat MAX_BLE_DEVICES).
    { unfold app'. change (ble_devices (?a <| ble_devices := ?v |> <| ble_count := _ |>)) with v.
      by rewrite length_insert. }
    destruct (Z.ltb_spec (ble_count app') MAX_BLE_DEVICES) as [Hlt | Hge].
    + rewrite (Hdec app' Hlt), live_ble_append by (unfold MAX_BLE_DEVICES in *; lia).
      rewrite lookup_app_r; unfold live_ble; rewrite length_take, Hl', Hc';
        unfold MAX_BLE_DEVICES in *.
      * replace (S (Z.to_nat (ble_count app)) - _) with 0 by lia. reflexivity.
      * lia.
    + unfold parse_ble_message.
      destruct (Z.geb_spec (ble_count app') MAX_BLE_DEVICES); [| lia].
      apply lookup_ge_None_2. unfold live_ble. rewrite length_take, Hl', Hc'.
      unfold MAX_BLE_DEVICES in *. lia.
  - intros Hfull. unfold parse_ble_message.
    destruct (Z.geb_spec (ble_count app) MAX_BLE_DEVICES); [done | lia].
Qed.

End FieldwiseDecoding.

Lemma network_message_fieldwise_witness :
  parse_network_message app_connected
    (join_fields PROTO_SEP ["7"; "Cafe"; "00:11:22:33:44:55"; "11"; "-70"; "5"])
  = (put_network app_connected 0
       (mkNetwork 7 "Cafe" "00:11:22:33:44:55" 11 (-70) 0 true false 0
          (replicate 16 (-1)%Z) "???" false false))
      <| network_count := 1%Z |>.
Proof.
  apply (network_message_decodes_fieldwise app_connected PROTO_SEP
           ["7"; "Cafe"; "00:11:22:33:44:55"; "11"; "-70"; "5"]).
  - by right.
  - repeat constructor; discriminate.
  - simpl. lia.
  - discriminate.
  - vm_compute. lia.
  - reflexivity.
Defined.

Lemma client_message_fieldwise_witness :
  let app := parse_network_message app_connected myap_body in
  let app' := parse_client_message app (join_fields PROTO_SEP ["0"; "DE:AD:BE:EF:00:01"]) in
  live_clients app' = [mkClient "DE:AD:BE:EF:00:01" (-80) 0]
  /\ app_client_count app' = 1%Z
  /\ network_count app' = 1%Z
  /\ ((actual_count (net_at (networks app) 0) < MAX_CLIENTS_PER_AP)%Z ->
      client_indices (net_at (networks app') 0)
      = <[Z.to_nat (actual_count (net_at (networks app) 0)) := 0%Z]>
          (client_indices (net_at (networks app) 0))).
Proof.
  apply (proj1 (client_message_decodes_fieldwise (parse_network_message app_connected myap_body)
                  PROTO_SEP ["0"; "DE:AD:BE:EF:00:01"]
                  ltac:(by right) ltac:(repeat constructor; discriminate)
                  ltac:(simpl; lia) ltac:(discriminate) ltac:(vm_compute; lia)
                  ltac:(repeat split; try reflexivity; by vm_compute)
                  eq_refl eq_refl)).
  vm_compute. split; [discriminate | reflexivity].
Defined.

Lemma ble_message_fieldwise_witness :
  let app' := parse_ble_message app_connected (join_fields "|" ["C0:FF:EE:00:00:01"; "Tag"]) in
  live_ble app' = [mkBleDevice "C0:FF:EE:00:00:01" "Tag" (-80)]
  /\ ble_count app' = 1%Z
  /\ live_ble (parse_ble_message app' (join_fields "|" ["C0:FF:EE:00:00:01"; "Tag"])) !! 1
     = Some (mkBleDevice "C0:FF:EE:00:00:01" "Tag" (-80)).
Proof.
  apply (proj1 (ble_message_decodes_fieldwise app_connected "|" ["C0:FF:EE:00:00:01"; "Tag"]
                  ltac:(by left) ltac:(repeat constructor; discriminate)
                  ltac:(simpl; lia) ltac:(discriminate) ltac:(vm_compute; lia)
                  eq_refl ltac:(reflexivity))).
  reflexivity.
Defined.

(** ** The console log *)

Section ConsoleLog.

Lemma str_take_drop n (s : string) : str_take n s +:+ str_drop n s = s.
Proof.
  revert n. induction s as [| c s IH]; intros [| n]; try reflexivity.
  cbn [str_take str_drop]. by rewrite string_app_cons, IH.
Qed.

Lemma str_drop_length n (s : string) : String.length (str_drop n s) = String.length s - n.
Proof.
  revert n. induction s as [| c s IH]; intros [| n]; try reflexivity.
  cbn [str_drop]. rewrite IH. reflexivity.
Qed.

Lemma str_take_length n (s : string) : String.length (str_take n s) = Nat.min n (String.length s).
Proof.
  revert n. induction s as [| c s IH]; intros [| n]; try reflexivity.
  cbn [str_take]. simpl. by rewrite IH.
Qed.

Lemma strchr_from_found s c : forall off n,
  strchr_from s c off = Some n ->
  exists pre post, s = pre +:+ String c post /\ n = off + String.length pre
                   /\ str_drop (S (String.length pre)) s = post
                   /\ lacks c pre.
Proof.
  induction s as [| a s IH]; intros off n H; [done |].
  cbn [strchr_from] in H. destruct (Ascii.eqb_spec a c) as [-> | Hne].
  - injection H as <-. exists "", s. split; [done |]. split; [simpl; lia |].
    split; [done | constructor].
  - destruct (IH _ _ H) as (pre & post & -> & -> & Hd & Hl).
    exists (String a pre), post. rewrite string_app_cons. split; [done |].
    split; [simpl; lia |]. split; [exact Hd |]. by constructor.
Qed.

Lemma strchr_from_none s c : forall off, strchr_from s c off = None -> lacks c s.
Proof.
  induction s as [| a s IH]; intros off H; [constructor |].
  cbn [strchr_from] in H. destruct (Ascii.eqb_spec a c) as [-> | Hne]; [done |].
  constructor; [exact Hne | by eapply IH].
Qed.

(** X5.  The log never outgrows its array and never loses the line that is
    appended: from a log of at most 2046 characters and for a line of at
    most 1022 (every caller's line is far shorter), [console_append] leaves
    a log of at most 2046 characters that ends with the whole line and a
    newline.  What stands before the line is the old log when line, newline
    and terminator fit behind it; otherwise it is what followed the first
    newline at or after character 1023 of the old log, and nothing when
    there is no newline from character 1023 on. *)
Theorem console_log_keeps_latest_line (app : App) (line : string) :
  String.length (console_buffer app) <= CONSOLE_SIZE - 2 ->
  strlen line <= 1022 ->
  let old := console_buffer app in
  let new := console_buffer (console_append app line) in
  String.length new <= CONSOLE_SIZE - 2
  /\ exists kept,
       new = kept +:+ cstr line +:+ String newline ""
       /\ (String.length old + strlen line + 2 <= CONSOLE_SIZE - 2 -> kept = old)
       /\ (CONSOLE_SIZE - 2 < String.length old + strlen line + 2 ->
           (lacks newline (str_drop 1023 old) /\ kept = "")
           \/ exists before,
                lacks newline before
                /\ str_drop 1023 old = before +:+ String newline kept).
Proof.
  intros Hold Hline. cbv zeta. unfold console_append, strlen, CONSOLE_SIZE in *.
  change (console_buffer (?a <| console_buffer := ?b |>)) with b.
  set (l := cstr line) in *. set (old := console_buffer app) in *.
  change (2048 - 2) with 2046 in *. change (2046 / 2) with 1023.
  assert (Hfit : forall kept,
            String.length kept + String.length l + 2 <= 2046 ->
            (if Nat.ltb (String.length kept
                         + (if Nat.ltb (String.length l) (2046 - String.length kept)
                            then String.length l else 2046 - String.length kept)) 2046
             then (kept +:+ str_take (if Nat.ltb (String.length l) (2046 - String.length kept)
                                      then String.length l else 2046 - String.length kept) l)
                  +:+ String "010" ""
             else kept +:+ str_take (if Nat.ltb (String.length l) (2046 - String.length kept)
                                     then String.length l else 2046 - String.length kept) l)
            = kept +:+ l +:+ String newline "").
  { intros kept Hk.
    destruct (Nat.ltb_spec (String.length l) (2046 - String.length kept)); [| lia].
    destruct (Nat.ltb_spec (String.length kept + String.length l) 2046); [| lia].
    rewrite str_take_all by lia. by rewrite string_app_assoc. }
  assert (Hlen : forall kept,
            String.length kept + String.length l + 2 <= 2046 ->
            String.length (kept +:+ l +:+ String newline "") <= 2046).
  { intros kept Hk. rewrite !string_length_app. simpl. lia. }
  destruct (Nat.ltb_spec 2046 (String.length old + String.length l + 2)) as [Hev | Hno].
  - destruct (strchr_from (str_drop 1023 old) "010" 0) as [nl |] eqn:E.
    + destruct (strchr_from_found _ _ _ _ E) as (pre & post & Hhalf & -> & Hpost & Hlacks).
      cbn [Nat.add]. rewrite Hpost.
      assert (Hp : String.length post + String.length l + 2 <= 2046).
      { apply (f_equal String.length) in Hhalf.
        rewrite str_drop_length, string_length_app in Hhalf. simpl in Hhalf. lia. }
      rewrite Hfit by exact Hp. split; [by apply Hlen |].
      exists post. split; [done |]. split; [lia |].
      intros _. right. exists pre. split; [exact Hlacks | exact Hhalf].
    + rewrite (Hfit "") by (simpl; lia). split; [apply Hlen; simpl; lia |].
      exists "". split; [done |]. split; [lia |]. intros _. left.
      split; [| done]. by eapply strchr_from_none.
  - rewrite Hfit by lia. split; [by apply Hlen |].
    exists old. split; [done |]. split; [done | lia].
Qed.

End ConsoleLog.

Lemma console_log_witness :
  String.length (console_buffer (console_append app_alloc "[r] GATTROSE-NG:2.0")) <= CONSOLE_SIZE - 2
  /\ exists kept,
       console_buffer (console_append app_alloc "[r] GATTROSE-NG:2.0")
       = kept +:+ "[r] GATTROSE-NG:2.0" +:+ String newline ""
       /\ (String.length (console_buffer app_alloc) + strlen "[r] GATTROSE-NG:2.0" + 2
           <= CONSOLE_SIZE - 2 -> kept = console_buffer app_alloc)
       /\ (CONSOLE_SIZE - 2 < String.length (console_buffer app_alloc)
                              + strlen "[r] GATTROSE-NG:2.0" + 2 ->
           (lacks newline (str_drop 1023 (console_buffer app_alloc)) /\ kept = "")
           \/ exists before,
                lacks newline before
                /\ str_drop 1023 (console_buffer app_alloc)
                   = before +:+ String newline kept).
Proof.
  apply (console_log_keeps_latest_line app_alloc "[r] GATTROSE-NG:2.0").
  - vm_compute. lia.
  - vm_compute. lia.
Defined.

(** The eviction on a sample: a log of 2040 characters with newlines after
    characters 900, 1500 and 1800 keeps what follows the second one, the
    first at or after character 1023. *)
Example console_log_eviction :
  let old := string_of_list_ascii
               (replicate 900 "a"%char ++ [newline] ++ replicate 599 "b"%char ++ [newline]
                ++ replicate 299 "c"%char ++ [newline] ++ replicate 239 "d"%char) in
  let app := console_append (app_alloc <| console_buffer := old |>) "hello" in
  String.length old = 2040
  /\ console_buffer app
     = string_of_list_ascii (replicate 299 "c"%char ++ [newline] ++ replicate 239 "d"%char)
       +:+ "hello" +:+ String newline "".
Proof. vm_compute. split; reflexivity. Qed.

(** ** The inventory under the receive path *)

Section InventoryInvariant.

Lemma inventory_grows_refl a : inventory_grows a a.
Proof. repeat split; reflexivity. Qed.

Lemma inventory_grows_trans a b c :
  inventory_grows a b -> inventory_grows b c -> inventory_grows a c.
Proof.
  intros (H1 & H2 & H3) (K1 & K2 & K3).
  repeat split; etrans; eassumption.
Qed.

Lemma inventory_step_trans a b c :
  inventory_step a b -> inventory_step b c -> inventory_step a c.
Proof.
  intros Hab Hbc Ha. destruct (Hab Ha) as [Hb Gab]. destruct (Hbc Hb) as [Hc Gbc].
  split; [done |]. by eapply inventory_grows_trans.
Qed.

Lemma inventory_view_fields a b :
  inventory_view b = inventory_view a ->
  networks b = networks a /\ network_count b = network_count a /\
  clients b = clients a /\ app_client_count b = app_client_count a /\
  ble_devices b = ble_devices a /\ ble_count b = ble_count a.
Proof. unfold inventory_view. intros [= -> -> -> -> -> ->]. done. Qed.

(** A step that leaves the collections and their counters alone. *)
Lemma inventory_step_view a b : inventory_view b = inventory_view a -> inventory_step a b.
Proof.
  intros Hv Ha. destruct (inventory_view_fields _ _ Hv) as (E1 & E2 & E3 & E4 & E5 & E6).
  unfold inventory_linked, inventory_grows, inventory_ok, live_networks, live_clients,
    live_ble, link_ok in *.
  rewrite E1, E2, E3, E4, E5, E6. split; [exact Ha |]. repeat split; reflexivity.
Qed.

Lemma live_networks_put a i x :
  live_networks (put_network a i x)
  = if decide (i < Z.to_nat (network_count a)) then <[i := x]> (live_networks a)
    else live_networks a.
Proof.
  unfold live_networks, put_network.
  change (network_count (?a <| networks := _ |>)) with (network_count a).
  change (networks (?a <| networks := ?l |>)) with l.
  destruct (decide _).
  - by apply take_insert_lt.
  - apply take_insert_ge. lia.
Qed.

Lemma live_networks_lookup a i :
  i < Z.to_nat (network_count a) -> i < length (networks a) ->
  live_networks a !! i = Some (net_at (networks a) i).
Proof.
  intros Hi Hl. unfold live_networks, net_at. rewrite lookup_take_lt by done.
  destruct (lookup_lt_is_Some_2 _ _ Hl) as [x ->]. done.
Qed.

(** A network is rewritten in place, with the index list [idx] and the
    identity it had. *)
Lemma put_network_step a i x :
  net_identity x = net_identity (net_at (networks a) i) ->
  length (client_indices x) = length (client_indices (net_at (networks a) i)) ->
  (Forall (link_ok a) (client_indices (net_at (networks a) i)) ->
   Forall (link_ok a) (client_indices x)) ->
  inventory_step a (put_network a i x).
Proof.
  intros Hid Hlen Hlinks (Hok & Hbl & Hbc & Hnets & Hcls).
  destruct Hok as (Hnl & Hnc & Hcl & Hcc).
  assert (Hlive := live_networks_put a i x).
  split.
  - split; [| split; [| split; [| split]]]; try done.
    + split; [| split; [| split]]; try done. unfold put_network.
      change (networks (?a <| networks := ?l |>)) with l. by rewrite length_insert.
    + rewrite Hlive. destruct (decide _) as [Hi |]; [| done].
      apply Forall_insert; [done |].
      assert (Hli : i < length (networks a)) by (unfold MAX_NETWORKS in *; lia).
      pose proof (live_networks_lookup a i Hi Hli) as Hlk.
      rewrite Forall_lookup in Hnets. destruct (Hnets _ _ Hlk) as [H1 H2].
      split; [congruence | by apply Hlinks].
  - split; [done |]. split; [done |].
    rewrite Hlive. destruct (decide _) as [Hi |]; [| done].
    rewrite list_fmap_insert, list_insert_id; [done |].
    rewrite list_lookup_fmap, live_networks_lookup by (unfold MAX_NETWORKS in *; lia).
    cbn [fmap option_fmap option_map]. by rewrite Hid.
Qed.

(** The cell behind the collection is written and not counted. *)
Lemma put_network_free_step a i x :
  Z.to_nat (network_count a) <= i -> inventory_step a (put_network a i x).
Proof.
  intros Hi (Hok & Hbl & Hbc & Hnets & Hcls).
  destruct Hok as (Hnl & Hnc & Hcl & Hcc).
  assert (Hlive : live_networks (put_network a i x) = live_networks a).
  { rewrite live_networks_put. destruct (decide _); [lia | done]. }
  split.
  - split; [| split; [| split; [| split]]]; try done.
    + split; [| split; [| split]]; try done. unfold put_network.
      change (networks (?a <| networks := ?l |>)) with l. by rewrite length_insert.
    + by rewrite Hlive.
  - split; [done |]. split; [done |]. by rewrite Hlive.
Qed.

(** A network is appended with an empty index list. *)
Lemma append_network_step a x :
  (network_count a < MAX_NETWORKS)%Z ->
  client_indices x = unlinked_indices ->
  inventory_step a ((put_network a (Z.to_nat (network_count a)) x)
                      <| network_count := (network_count a + 1)%Z |>).
Proof.
  intros Hfree Hx (Hok & Hbl & Hbc & Hnets & Hcls).
  destruct Hok as (Hnl & Hnc & Hcl & Hcc).
  assert (Hlive := live_networks_append a x ltac:(lia) ltac:(unfold MAX_NETWORKS in *; lia)).
  split.
  - split; [| split; [| split; [| split]]]; try done.
    + split; [| split; [| split]]; try done.
      * unfold put_network.
        change (networks (?a <| networks := ?l |> <| network_count := _ |>)) with l.
        by rewrite length_insert.
      * change (network_count (?a <| network_count := ?v |>)) with v. lia.
    + rewrite Hlive. apply Forall_app. split; [exact Hnets |].
      constructor; [| constructor]. rewrite Hx. split; [reflexivity |].
      apply Forall_replicate. unfold link_ok.
      change (app_client_count (?a <| network_count := _ |>)) with (app_client_count a).
      change (app_client_count (put_network ?a _ _)) with (app_client_count a). lia.
    + change (network_count (?a <| network_count := ?v |>)) with v.
      eapply Forall_impl; [exact Hcls |]. intros cl Hc. cbv beta in *. lia.
  - split; [done |]. split; [done |].
    rewrite Hlive, fmap_app. by apply prefix_app_r.
Qed.

(** A client is stored behind the collection and linked, or not, to a
    stored network. *)
Lemma store_client_step a cl idx x :
  (app_client_count a < MAX_CLIENTS)%Z ->
  (0 <= idx < network_count a)%Z ->
  ap_index cl = idx ->
  net_identity x = net_identity (net_at (networks a) (Z.to_nat idx)) ->
  (client_indices x = client_indices (net_at (networks a) (Z.to_nat idx))
   \/ exists k, client_indices x
                = <[k := app_client_count a]> (client_indices (net_at (networks a) (Z.to_nat idx)))) ->
  inventory_step a
    ((put_network (a <| clients := <[Z.to_nat (app_client_count a) := cl]> (clients a) |>)
        (Z.to_nat idx) x)
       <| app_client_count := (app_client_count a + 1)%Z |>).
Proof.
  intros Hroom Hidx Hap Hid Hlinks (Hok & Hbl & Hbc & Hnets & Hcls).
  destruct Hok as (Hnl & Hnc & Hcl & Hcc).
  set (b := _ <| app_client_count := _ |>).
  assert (Hlc : live_clients b = live_clients a ++ [cl]).
  { apply live_clients_append; unfold MAX_CLIENTS in *; lia. }
  assert (Hln : live_networks b = <[Z.to_nat idx := x]> (live_networks a)).
  { change (live_networks b)
      with (take (Z.to_nat (network_count a)) (<[Z.to_nat idx := x]> (networks a))).
    apply take_insert_lt. lia. }
  assert (Hlk : live_networks a !! Z.to_nat idx = Some (net_at (networks a) (Z.to_nat idx))).
  { apply live_networks_lookup; unfold MAX_NETWORKS in *; lia. }
  rewrite Forall_lookup in Hnets. destruct (Hnets _ _ Hlk) as [H1 H2].
  assert (Hweak : forall l, Forall (link_ok a) l -> Forall (link_ok b) l).
  { intros l Hl. eapply Forall_impl; [exact Hl |]. unfold link_ok.
    change (app_client_count b) with (app_client_count a + 1)%Z. intros ? ?. lia. }
  split.
  - split; [| split; [| split; [| split]]]; try done.
    + split; [| split; [| split]]; try done.
      * change (networks b) with (<[Z.to_nat idx := x]> (networks a)). by rewrite length_insert.
      * change (clients b) with (<[Z.to_nat (app_client_count a) := cl]> (clients a)).
        by rewrite length_insert.
      * change (app_client_count b) with (app_client_count a + 1)%Z. lia.
    + rewrite Hln. apply Forall_insert.
      * apply Forall_lookup. intros i net Hi. destruct (Hnets _ _ Hi) as [K1 K2].
        split; [done | by apply Hweak].
      * destruct Hlinks as [-> | [k ->]].
        -- split; [done | by apply Hweak].
        -- rewrite length_insert. split; [done |].
           apply Forall_insert; [by apply Hweak |]. unfold link_ok.
           change (app_client_count b) with (app_client_count a + 1)%Z. lia.
    + rewrite Hlc. apply Forall_app. split; [exact Hcls |].
      constructor; [| constructor]. rewrite Hap. exact Hidx.
  - split; [| split; [done |]].
    + rewrite Hlc. by apply prefix_app_r.
    + rewrite Hln, list_fmap_insert, list_insert_id; [done |].
      rewrite list_lookup_fmap, Hlk. cbn [fmap option_fmap option_map]. by rewrite Hid.
Qed.

(** A BLE device is written behind the list, and counted or not. *)
Lemma store_ble_step a dev (counted : bool) :
  (ble_count a < MAX_BLE_DEVICES)%Z ->
  inventory_step a
    (let b := a <| ble_devices := <[Z.to_nat (ble_count a) := dev]> (ble_devices a) |> in
     if counted then b <| ble_count := (ble_count a + 1)%Z |> else b).
Proof.
  intros Hroom (Hok & Hbl & Hbc & Hnets & Hcls). cbv zeta.
  destruct counted.
  - split.
    + split; [done |]. split; [| split; [| split]]; try done.
      * change (ble_devices (?a <| ble_devices := ?l |> <| ble_count := _ |>)) with l.
        by rewrite length_insert.
      * change (ble_count (?a <| ble_count := ?v |>)) with v. lia.
    + split; [done |]. split; [| done].
      rewrite live_ble_append by (unfold MAX_BLE_DEVICES in *; lia). by apply prefix_app_r.
  - split.
    + split; [done |]. split; [| split; [| split]]; try done.
      change (ble_devices (?a <| ble_devices := ?l |>)) with l. by rewrite length_insert.
    + split; [done |]. split; [| done].
      unfold live_ble.
      change (ble_count (?a <| ble_devices := _ |>)) with (ble_count a).
      change (ble_devices (?a <| ble_devices := ?l |>)) with l.
      by rewrite take_insert_ge.
Qed.

Lemma inventory_step_refl a : inventory_step a a.
Proof. by apply inventory_step_view. Qed.

Lemma for_loop_step (body : nat -> App -> App) :
  (forall i s, inventory_step s (body i s)) ->
  forall count i s, inventory_step s (for_loop count i body s).
Proof.
  intros Hbody count. induction count as [| k IH]; intros i s; simpl.
  - apply inventory_step_refl.
  - eapply inventory_step_trans; [apply Hbody | apply IH].
Qed.

(** *** The decoders *)

Lemma parse_network_message_step app data :
  inventory_step app (parse_network_message app data).
Proof.
  unfold parse_network_message.
  destruct (Z.geb_spec (network_count app) MAX_NETWORKS); [apply inventory_step_refl |].
  decoder_cases;
    first [ apply put_network_free_step; lia
          | apply append_network_step; [lia | reflexivity] ].
Qed.

Lemma legacy_ap_line_step app line : inventory_step app (legacy_ap_line app line).
Proof.
  unfold legacy_ap_line.
  destruct (Z.geb_spec (network_count app) MAX_NETWORKS); [apply inventory_step_refl |].
  decoder_cases;
    first [ apply inventory_step_refl
          | apply put_network_free_step; lia
          | apply append_network_step; [lia | reflexivity] ].
Qed.

Lemma parse_client_message_step app data :
  inventory_step app (parse_client_message app data).
Proof.
  unfold parse_client_message.
  destruct (Z.geb_spec (app_client_count app) MAX_CLIENTS); [apply inventory_step_refl |].
  destruct (token_next _ _) as [[t1|] ts1]; [| apply inventory_step_refl].
  destruct (token_next ts1 _) as [[t2|] ts2]; [| apply inventory_step_refl].
  destruct (token_next ts2 _) as [t3 ts3].
  destruct (client_known app t2); [apply inventory_step_refl |].
  destruct (Z.ltb_spec (atoi t1) 0); [apply inventory_step_refl |].
  destruct (Z.geb_spec (atoi t1) (network_count app)); [apply inventory_step_refl |].
  cbn [orb].
  refine (store_client_step app _ (atoi t1) _ _ _ _ _ _); [lia | lia | reflexivity | |].
  - destruct (_ <? _)%Z; [| reflexivity]. destruct (_ >? _)%Z; reflexivity.
  - destruct (_ <? _)%Z; [| by left]. right. eexists. destruct (_ >? _)%Z; reflexivity.
Qed.

Lemma find_ap_by_id_bound app ap_id :
  (find_ap_by_id app ap_id < 0 \/ 0 <= find_ap_by_id app ap_id < network_count app)%Z.
Proof.
  unfold find_ap_by_id.
  assert (H : forall count i found,
            (found < 0 \/ 0 <= found < Z.of_nat i)%Z ->
            let r := for_loop count i
                       (fun i found =>
                          if (found <? 0)%Z && (id (net_at (networks app) i) =? ap_id)%Z
                          then Z.of_nat i else found) found in
            (r < 0 \/ 0 <= r < Z.of_nat (i + count))%Z).
  { induction count as [| k IH]; intros i found Hf; cbv zeta; simpl.
    - rewrite Nat.add_0_r. exact Hf.
    - replace (i + S k) with (S i + k) by lia. apply IH.
      destruct (_ && _); lia. }
  specialize (H (Z.to_nat (network_count app)) 0 (-1)%Z ltac:(lia)). cbv zeta in H.
  destruct H as [H | H]; [by left |]. right. lia.
Qed.

Lemma legacy_client_line_step app line : inventory_step app (legacy_client_line app line).
Proof.
  unfold legacy_client_line.
  destruct (Z.geb_spec (app_client_count app) MAX_CLIENTS); [apply inventory_step_refl |].
  destruct (token_next _ _) as [[t1|] ts1]; [| apply inventory_step_refl].
  destruct (token_next ts1 _) as [[t2|] ts2]; [| apply inventory_step_refl].
  destruct (if strcmp_eq t2 "NEW" then _ else _) as [[t3|] ts3]; [| apply inventory_step_refl].
  destruct (token_next ts3 _) as [[t4|] ts4]; [| apply inventory_step_refl].
  destruct (token_next ts4 _) as [t5 ts5].
  pose proof (find_ap_by_id_bound app (atoi t3)) as Hb.
  destruct (Z.ltb_spec (find_ap_by_id app (atoi t3)) 0); [apply inventory_step_refl |].
  destruct (client_known app t4); [apply inventory_step_refl |].
  refine (store_client_step app _ (find_ap_by_id app (atoi t3)) _ _ _ _ _ _);
    [lia | lia | reflexivity | |].
  - destruct (_ <? _)%Z; reflexivity.
  - destruct (_ <? _)%Z; [| by left].
    change (client_indices (?n <| client_indices := ?l |> <| client_count := _ |>)) with l.
    unfold store_index. destruct (0 <=? _)%Z; [right; by eexists | by left].
Qed.

Lemma parse_ble_message_step app data : inventory_step app (parse_ble_message app data).
Proof.
  unfold parse_ble_message.
  destruct (Z.geb_spec (ble_count app) MAX_BLE_DEVICES); [apply inventory_step_refl |].
  decoder_cases;
    first [ apply (store_ble_step app _ true); lia
          | apply (store_ble_step app _ false); lia ].
Qed.

Lemma clear_deauth_flags_step app : inventory_step app (clear_deauth_flags app).
Proof.
  unfold clear_deauth_flags. apply for_loop_step.
  intros i s. by apply put_network_step.
Qed.

Lemma credentials_append_inventory app line :
  inventory_view (credentials_append app line) = inventory_view app.
Proof. unfold credentials_append. decoder_cases; reflexivity. Qed.

Lemma parse_info_inventory app data : inventory_view (parse_info app data) = inventory_view app.
Proof. unfold parse_info. decoder_cases; reflexivity. Qed.

Lemma process_rx_message_step app msg len :
  inventory_step app (process_rx_message app msg len).
Proof.
  unfold process_rx_message.
  destruct (Nat.ltb len 1); [apply inventory_step_refl |].
  set (data := if Nat.ltb 1 len then _ else _).
  set (app1 := console_append app _).
  apply (inventory_step_trans app app1); [by apply inventory_step_view |].
  clearbody app1 data.
  destruct (byte_at msg 0) as [[] [] [] [] [] [] [] []];
    try apply inventory_step_refl;
    try apply parse_network_message_step;
    try apply parse_client_message_step.
  all: try (unfold parse_credential_message;
            apply inventory_step_view, credentials_append_inventory).
  all: try (eapply inventory_step_trans; [| apply clear_deauth_flags_step];
            by apply inventory_step_view).
  all: try (apply inventory_step_view;
            change (inventory_view (?a <| got_info := _ |>)) with (inventory_view a);
            destruct (_ && _); [done | apply parse_info_inventory]).
  all: decoder_cases;
    first [ apply inventory_step_refl
          | apply parse_ble_message_step
          | by apply inventory_step_view ].
Qed.

Lemma process_rx_line_step app line : inventory_step app (process_rx_line app line).
Proof.
  unfold process_rx_line.
  set (app1 := console_append app _).
  apply (inventory_step_trans app app1); [by apply inventory_step_view |].
  clearbody app1.
  repeat match goal with
    | |- context [if ?c then _ else _] => destruct c
    | |- context [match ?o with Some _ => _ | None => _ end] => destruct o
    end;
    first [ apply legacy_ap_line_step
          | apply legacy_client_line_step
          | by apply inventory_step_view
          | idtac ].
  all: unfold legacy_credential_line.
  all: apply inventory_step_view.
  all: change (inventory_view (console_append ?a ?l)) with (inventory_view a).
  all: apply credentials_append_inventory.
Qed.

Lemma uart_rx_byte_step app data : inventory_step app (uart_rx_byte app data).
Proof.
  unfold uart_rx_byte.
  set (app0 := app <| bytes_rx := _ |>).
  apply (inventory_step_trans app app0); [by apply inventory_step_view |].
  clearbody app0.
  destruct (Ascii.eqb data PROTO_STX); [by apply inventory_step_view |].
  destruct (Ascii.eqb data PROTO_ETX && in_message app0).
  { set (app1 := app0 <| rx_line := _ |>).
    apply (inventory_step_trans app0 app1); [by apply inventory_step_view |].
    eapply inventory_step_trans; [apply process_rx_message_step |].
    by apply inventory_step_view. }
  destruct (in_message app0).
  { destruct (Nat.ltb _ _); by apply inventory_step_view. }
  destruct (Ascii.eqb data "010").
  { destruct (Nat.ltb 0 _); [| apply inventory_step_refl].
    set (app1 := if Ascii.eqb _ _ then _ else _).
    apply (inventory_step_trans app0 app1).
    { unfold app1. destruct (Ascii.eqb _ _); by apply inventory_step_view. }
    set (app2 := app1 <| rx_line := _ |>).
    apply (inventory_step_trans app1 app2); [by apply inventory_step_view |].
    eapply inventory_step_trans; [apply process_rx_line_step |].
    by apply inventory_step_view. }
  destruct (_ || _); [| apply inventory_step_refl].
  destruct (Nat.ltb _ _); by apply inventory_step_view.
Qed.

Lemma uart_rx_step bytes : forall app, inventory_step app (uart_rx app bytes).
Proof.
  unfold uart_rx. induction bytes as [| b bytes IH]; intros app; simpl.
  - apply inventory_step_refl.
  - eapply inventory_step_trans; [apply uart_rx_byte_step | apply IH].
Qed.

(** *** Stores outside the index lists

    The one store of the receive path that can leave its array is that of
    the legacy client line, [client_indices[client_count++]], which is
    guarded from above only.  The mark it sets is never cleared, so a run
    that ends with the mark clear has made no such store. *)

Lemma parse_network_message_mark app data :
  out_of_bounds (parse_network_message app data) = out_of_bounds app.
Proof. unfold parse_network_message. decoder_cases; reflexivity. Qed.

Lemma parse_client_message_mark app data :
  out_of_bounds (parse_client_message app data) = out_of_bounds app.
Proof. unfold parse_client_message. decoder_cases; reflexivity. Qed.

Lemma parse_ble_message_mark app data :
  out_of_bounds (parse_ble_message app data) = out_of_bounds app.
Proof. unfold parse_ble_message. decoder_cases; reflexivity. Qed.

Lemma credentials_append_mark app line :
  out_of_bounds (credentials_append app line) = out_of_bounds app.
Proof. unfold credentials_append. decoder_cases; reflexivity. Qed.

Lemma parse_info_mark app data : out_of_bounds (parse_info app data) = out_of_bounds app.
Proof. unfold parse_info. decoder_cases; reflexivity. Qed.

Lemma clear_deauth_flags_mark app :
  out_of_bounds (clear_deauth_flags app) = out_of_bounds app.
Proof.
  unfold clear_deauth_flags.
  apply (for_loop_invariant (fun s => out_of_bounds s = out_of_bounds app)); [| done].
  intros i s Hs. rewrite <- Hs. reflexivity.
Qed.

Lemma legacy_ap_line_mark app line :
  out_of_bounds (legacy_ap_line app line) = out_of_bounds app.
Proof. unfold legacy_ap_line. decoder_cases; reflexivity. Qed.

(** The legacy client line leaves the mark as it was or sets it (when it
    stores for a network whose client count is negative); it never clears
    it. *)
Lemma legacy_client_line_mark app line :
  out_of_bounds (legacy_client_line app line) = out_of_bounds app
  \/ out_of_bounds (legacy_client_line app line) = true.
Proof.
  unfold legacy_client_line.
  repeat match goal with
    | |- context [match token_next ?ts ?d with _ => _ end] =>
        destruct (token_next ts d) as [[?|] ?]
    | |- context [if strcmp_eq ?a ?b then _ else _] => destruct (strcmp_eq a b)
    | |- context [if (?a >=? ?b)%Z then _ else _] => destruct (a >=? b)%Z
    | |- context [if (find_ap_by_id ?a ?b <? 0)%Z then _ else _] =>
        destruct (find_ap_by_id a b <? 0)%Z
    | |- context [if client_known ?a ?b then _ else _] => destruct (client_known a b)
    end;
    try (by left).
  all: cbv zeta.
  all: change (out_of_bounds (?a <| app_client_count := _ |>)) with (out_of_bounds a).
  all: change (out_of_bounds (?a <| out_of_bounds := ?v |>)) with v.
  all: change (out_of_bounds (put_network ?a _ _)) with (out_of_bounds a).
  all: change (out_of_bounds (?a <| clients := _ |>)) with (out_of_bounds a).
  all: destruct (out_of_bounds app); [by right |]; cbn [orb].
  all: destruct (_ && _); [by right | by left].
Qed.

Lemma process_rx_message_mark app msg len :
  out_of_bounds (process_rx_message app msg len) = out_of_bounds app.
Proof.
  unfold process_rx_message.
  destruct (Nat.ltb len 1); [done |].
  set (data := if Nat.ltb 1 len then _ else _).
  set (app1 := console_append app _).
  change (out_of_bounds app) with (out_of_bounds app1).
  clearbody app1 data.
  destruct (byte_at msg 0) as [[] [] [] [] [] [] [] []];
    try reflexivity;
    rewrite ?parse_network_message_mark, ?parse_client_message_mark, ?parse_ble_message_mark,
      ?clear_deauth_flags_mark;
    try reflexivity;
    decoder_cases;
    rewrite ?parse_ble_message_mark, ?parse_info_mark;
    try reflexivity.
  - unfold parse_credential_message. by rewrite credentials_append_mark.
  - change (out_of_bounds (?a <| got_info := ?v |>)) with (out_of_bounds a).
    apply parse_info_mark.
Qed.

Lemma process_rx_line_mark app line :
  out_of_bounds app = true -> out_of_bounds (process_rx_line app line) = true.
Proof.
  intros H. unfold process_rx_line.
  set (app1 := console_append app _).
  change (out_of_bounds app) with (out_of_bounds app1) in H. clearbody app1.
  repeat match goal with
    | |- context [if ?c then _ else _] => destruct c
    | |- context [match ?o with Some _ => _ | None => _ end] => destruct o
    end;
    rewrite ?legacy_ap_line_mark;
    try exact H.
  all: try match goal with
           | |- out_of_bounds (legacy_client_line ?a ?l) = true =>
               destruct (legacy_client_line_mark a l) as [E | E]; rewrite E; done
           end.
  all: unfold legacy_credential_line.
  all: change (out_of_bounds (console_append ?a ?l)) with (out_of_bounds a).
  all: by rewrite credentials_append_mark.
Qed.

Lemma uart_rx_byte_mark app data :
  out_of_bounds app = true -> out_of_bounds (uart_rx_byte app data) = true.
Proof.
  intros H. unfold uart_rx_byte.
  set (app0 := app <| bytes_rx := _ |>).
  change (out_of_bounds app) with (out_of_bounds app0) in H. clearbody app0.
  destruct (Ascii.eqb data PROTO_STX); [exact H |].
  destruct (Ascii.eqb data PROTO_ETX && in_message app0).
  { change (out_of_bounds (?a <| rx_pos := _ |> <| in_message := _ |>))
      with (out_of_bounds a).
    by rewrite process_rx_message_mark. }
  destruct (in_message app0).
  { destruct (Nat.ltb _ _); exact H. }
  destruct (Ascii.eqb data "010").
  { destruct (Nat.ltb 0 _); [| exact H].
    change (out_of_bounds (?a <| rx_pos := _ |>)) with (out_of_bounds a).
    apply process_rx_line_mark. destruct (Ascii.eqb _ _); exact H. }
  destruct (_ || _); [| exact H].
  destruct (Nat.ltb _ _); exact H.
Qed.

(** The receive path never clears the mark. *)
Lemma uart_rx_mark bytes : forall app,
  out_of_bounds app = true -> out_of_bounds (uart_rx app bytes) = true.
Proof.
  unfold uart_rx. induction bytes as [| b bytes IH]; intros app H; simpl; [done |].
  by apply IH, uart_rx_byte_mark.
Qed.

(** A legacy network line that announces a negative client count, followed
    by a client line for that network: the store of the client's position
    goes outside the index list, and the run is marked. *)
Example negative_count_store_is_marked :
  let lines := list_ascii_of_string "AP:1:Net:B:6:7:-50:-4" ++ ["010"%char]
               ++ list_ascii_of_string "CLIENT:1:AA" ++ ["010"%char] in
  client_count <$> live_networks (uart_rx app_alloc (take 22 lines)) = [(-4)%Z]
  /\ out_of_bounds (uart_rx app_alloc (take 22 lines)) = false
  /\ out_of_bounds (uart_rx app_alloc lines) = true.
Proof. vm_compute. repeat split; reflexivity. Qed.

(** X6.  As long as no store goes outside an index list, the receive path
    keeps the inventory inside its arrays and linked, whatever bytes
    arrive: when the run ends with the mark clear (no legacy client line
    was decoded for a network with a negative client count), the counters
    are between 0 and 64, 128 and 32, the arrays have their sizes, every
    entry of the index list of a stored network is -1 or the position of a
    stored client, and every stored client names a stored network. *)
Theorem receive_path_keeps_inventory_linked (app : App) (bytes : list ascii) :
  inventory_linked app ->
  out_of_bounds (uart_rx app bytes) = false ->
  inventory_linked (uart_rx app bytes).
Proof. intros H _. exact (proj1 (uart_rx_step bytes app H)). Qed.

(** X7.  As long as no store goes outside an index list, the receive path
    only adds to the collections, whatever bytes arrive: when the run ends
    with the mark clear, the clients and the BLE devices that were stored
    are still there, unchanged and at their positions, and so are the
    networks with the identity they had (id, names, channel, signal,
    security, flags of the network itself); only their client count, index
    list and active-deauth flag may have changed. *)
Theorem receive_path_only_appends (app : App) (bytes : list ascii) :
  inventory_linked app ->
  out_of_bounds (uart_rx app bytes) = false ->
  inventory_grows app (uart_rx app bytes).
Proof. intros H _. exact (proj2 (uart_rx_step bytes app H)). Qed.

End InventoryInvariant.

Lemma app_alloc_inventory_linked : inventory_linked app_alloc.
Proof.
  split; [apply app_alloc_inventory_ok |].
  split; [reflexivity |]. split; [by vm_compute |]. split; constructor.
Qed.

Lemma receive_path_linked_witness : inventory_linked (uart_rx app_alloc sample_stream).
Proof.
  apply (receive_path_keeps_inventory_linked app_alloc sample_stream).
  - apply app_alloc_inventory_linked.
  - by vm_compute.
Defined.

Lemma receive_path_appends_witness : inventory_grows app_alloc (uart_rx app_alloc sample_stream).
Proof.
  apply (receive_path_only_appends app_alloc sample_stream).
  - apply app_alloc_inventory_linked.
  - by vm_compute.
Defined.

Example sample_stream_inventory :
  network_count (uart_rx app_alloc sample_stream) = 1%Z /\
  mac <$> live_clients (uart_rx app_alloc sample_stream) = ["DE:AD:BE:EF:00:01"; "02"] /\
  client_indices <$> live_networks (uart_rx app_alloc sample_stream)
  = [[0; 1] ++ replicate 14 (-1)]%Z.
Proof. vm_compute. repeat split; reflexivity. Qed.

(** ** More of the framer *)

Section FramerEdges.

(** Past the last cell a frame only counts its bytes. *)
Lemma uart_rx_overflow rest : forall app,
  in_message app = true -> rx_pos app = RX_LINE_SIZE - 1 -> Forall frame_byte rest ->
  uart_rx app rest = app <| bytes_rx := count_rx (length rest) (bytes_rx app) |>.
Proof.
  induction rest as [| b rest IH]; intros app Hin Hpos Hfb.
  - by destruct app.
  - inversion Hfb as [| ? ? Hb Hrest]; subst.
    change (uart_rx app (b :: rest)) with (uart_rx (uart_rx_byte app b) rest).
    rewrite uart_rx_full, IH by done.
    change (bytes_rx (app <| bytes_rx := ?v |>)) with v.
    change (count_rx 1 (bytes_rx app)) with ((bytes_rx app + 1) mod 2 ^ 32)%Z.
    rewrite count_rx_succ. by destruct app.
Qed.

Lemma count_rx_add n m x : count_rx n (count_rx m x) = count_rx (n + m) x.
Proof. unfold count_rx. by rewrite Nat.iter_add. Qed.

(** X8.  A frame that is longer than the line buffer is cut: its first 255 bytes
    are dispatched, with a terminator in the last cell, and the others are
    only counted. *)
Theorem overlong_frame_is_cut (app : App) (body : list ascii) :
  length (rx_line app) = RX_LINE_SIZE ->
  Forall frame_byte body ->
  RX_LINE_SIZE - 1 <= length body ->
  let msg := take (RX_LINE_SIZE - 1) body ++ [NUL] in
  uart_rx app (PROTO_STX :: body ++ [PROTO_ETX])
  = (process_rx_message
       (app <| bytes_rx := count_rx (length body + 2) (bytes_rx app) |>
            <| in_message := true |>
            <| rx_pos := RX_LINE_SIZE - 1 |>
            <| rx_line := msg |>)
       msg (RX_LINE_SIZE - 1))
      <| rx_pos := 0 |> <| in_message := false |>.
Proof.
  intros Hlen Hbody Hlong msg. unfold RX_LINE_SIZE in *.
  rewrite <- (take_drop 255 body) at 1.
  change (PROTO_STX :: (take 255 body ++ drop 255 body) ++ [PROTO_ETX])
    with ((PROTO_STX :: take 255 body ++ drop 255 body) ++ [PROTO_ETX]).
  rewrite uart_rx_app.
  change (PROTO_STX :: take 255 body ++ drop 255 body)
    with ((PROTO_STX :: take 255 body) ++ drop 255 body).
  rewrite uart_rx_app.
  assert (Htl : length (take 255 body) = 255) by (rewrite length_take; lia).
  rewrite uart_rx_stx_body; [| done | by apply Forall_take | unfold RX_LINE_SIZE; lia].
  rewrite Htl.
  rewrite (uart_rx_overflow (drop 255 body)); [| reflexivity | reflexivity | by apply Forall_drop].
  change (uart_rx ?a [PROTO_ETX]) with (uart_rx_byte a PROTO_ETX).
  rewrite uart_rx_etx by reflexivity.
  change (rx_line (?a <| rx_line := ?l |> <| bytes_rx := _ |>)) with l.
  change (rx_pos (?a <| rx_pos := ?p |> <| rx_line := _ |> <| bytes_rx := _ |>)) with p.
  assert (Hmsg : store (take 255 body ++ drop 255 (rx_line app)) 255 NUL = msg).
  { unfold msg.
    destruct (drop 255 (rx_line app)) as [| x [| y r]] eqn:E;
      try (apply (f_equal length) in E; rewrite length_drop in E; simpl in E; lia).
    rewrite store_in_range by (rewrite length_app; simpl; lia).
    rewrite insert_app_r_alt by lia. rewrite Htl. reflexivity. }
  rewrite Hmsg. clearbody msg.
  change (bytes_rx (?a <| bytes_rx := ?v |> <| in_message := _ |> <| rx_pos := _ |>
                       <| rx_line := _ |> <| bytes_rx := _ |>))
    with (bytes_rx (a <| bytes_rx := v |> <| in_message := true |> <| rx_pos := 255 |>
                       <| rx_line := take 255 body ++ drop 255 (rx_line app) |>
                       <| bytes_rx := count_rx (length (drop 255 body))
                                        (count_rx (S 255) (bytes_rx app)) |>)).
  change (bytes_rx (?a <| bytes_rx := ?v |>)) with v.
  rewrite !count_rx_add, length_drop.
  replace (1 + (length body - 255) + 256) with (length body + 2) by lia.
  do 3 f_equal.
Qed.

(** X9.  What [uart_send] puts on the wire is a frame the receive path takes:
    for a sender whose UART is up and a command without start or end byte
    that is shorter than the line buffer, the bytes added to the wire are
    STX, the command, ETX, the transmit counter grows by their number, and
    a receiver that gets these bytes, whatever its framer held, dispatches
    one message whose text is the command. *)
Theorem sent_command_is_received (sender receiver : App) (cmd : string) :
  serial sender = true -> uart_running sender = true ->
  Forall frame_byte (list_ascii_of_string (cstr cmd)) ->
  strlen cmd < RX_LINE_SIZE ->
  length (rx_line receiver) = RX_LINE_SIZE ->
  let sent := wire cmd in
  let msg := list_ascii_of_string (cstr cmd) ++ NUL :: drop (S (strlen cmd)) (rx_line receiver) in
  tx (uart_send sender cmd) = tx sender ++ sent
  /\ bytes_tx (uart_send sender cmd) = ((bytes_tx sender + Z.of_nat (length sent)) mod 2 ^ 32)%Z
  /\ cstring_at msg 0 = cstr cmd
  /\ uart_rx receiver sent
     = (process_rx_message
          (receiver <| bytes_rx := count_rx (length sent) (bytes_rx receiver) |>
                    <| in_message := true |>
                    <| rx_pos := strlen cmd |>
                    <| rx_line := msg |>)
          msg (strlen cmd))
         <| rx_pos := 0 |> <| in_message := false |>.
Proof.
  intros Hs Hr Hfb Hfit Hlen sent msg. unfold sent, msg, wire, strlen in *. clear sent msg.
  set (body := list_ascii_of_string (cstr cmd)) in *.
  assert (Hb : length body = String.length (cstr cmd)) by apply string_length_list.
  split; [| split; [| split]].
  - unfold uart_send. rewrite Hs, Hr. reflexivity.
  - unfold uart_send, strlen. rewrite Hs, Hr. cbn [negb orb].
    change (bytes_tx (?a <| bytes_tx := ?v |>)) with v.
    f_equal. rewrite !length_app, Hb. simpl. lia.
  - unfold cstring_at. rewrite drop_0, cstr_list by apply cstr_no_nul.
    simpl. unfold body. by rewrite string_app_nil_r, string_of_list_ascii_of_string.
  - rewrite <- Hb.
    change ([PROTO_STX] ++ body ++ [PROTO_ETX]) with (PROTO_STX :: body ++ [PROTO_ETX]).
    rewrite uart_rx_frame by (try done; lia).
    cbv zeta.
    replace (length (PROTO_STX :: body ++ [PROTO_ETX])) with (S (S (length body)))
      by (rewrite length_cons, length_app; simpl; lia).
    reflexivity.
Qed.

(** *** Legacy lines *)

Lemma uart_rx_byte_legacy app b :
  in_message app = false -> b <> "010"%char -> b <> PROTO_STX ->
  uart_rx_byte app b
  = if is_printable b && Nat.ltb (rx_pos app) (RX_LINE_SIZE - 1)
    then app <| bytes_rx := count_rx 1 (bytes_rx app) |>
             <| rx_line := store (rx_line app) (rx_pos app) b |>
             <| rx_pos := S (rx_pos app) |>
    else app <| bytes_rx := count_rx 1 (bytes_rx app) |>.
Proof.
  intros Hin Hlf Hstx. unfold uart_rx_byte, is_printable.
  apply Ascii.eqb_neq in Hlf, Hstx. rewrite Hstx, Hlf.
  change (in_message (app <| bytes_rx := _ |>)) with (in_message app). rewrite Hin.
  rewrite andb_false_r.
  change (rx_pos (app <| bytes_rx := _ |>)) with (rx_pos app).
  destruct (_ || _); [| reflexivity].
  destruct (Nat.ltb _ _); reflexivity.
Qed.

Lemma rx3_compose (a : App) n1 l1 p1 n2 l2 p2 :
  (a <| bytes_rx := n1 |> <| rx_line := l1 |> <| rx_pos := p1 |>)
    <| bytes_rx := n2 |> <| rx_line := l2 |> <| rx_pos := p2 |>
  = a <| bytes_rx := n2 |> <| rx_line := l2 |> <| rx_pos := p2 |>.
Proof. by destruct a. Qed.

Lemma rx1_compose (a : App) n1 n2 l p :
  (a <| bytes_rx := n1 |>) <| bytes_rx := n2 |> <| rx_line := l |> <| rx_pos := p |>
  = a <| bytes_rx := n2 |> <| rx_line := l |> <| rx_pos := p |>.
Proof. by destruct a. Qed.

Lemma rx3_id (a : App) n :
  a <| bytes_rx := n |> <| rx_line := rx_line a |> <| rx_pos := rx_pos a |>
  = a <| bytes_rx := n |>.
Proof. by destruct a. Qed.

Lemma rx3_ext (a : App) n l p n' l' p' :
  n = n' -> l = l' -> p = p' ->
  a <| bytes_rx := n |> <| rx_line := l |> <| rx_pos := p |>
  = a <| bytes_rx := n' |> <| rx_line := l' |> <| rx_pos := p' |>.
Proof. by intros -> -> ->. Qed.

(** In legacy mode the printable bytes pile up from the position on, as
    far as the buffer takes them; the others are only counted. *)
Lemma uart_rx_legacy_collect bytes : forall app,
  in_message app = false ->
  length (rx_line app) = RX_LINE_SIZE ->
  rx_pos app < RX_LINE_SIZE ->
  Forall (fun b => b <> "010"%char /\ b <> PROTO_STX) bytes ->
  let kept := take (RX_LINE_SIZE - 1 - rx_pos app) (List.filter is_printable bytes) in
  uart_rx app bytes
  = app <| bytes_rx := count_rx (length bytes) (bytes_rx app) |>
        <| rx_line := take (rx_pos app) (rx_line app) ++ kept
                      ++ drop (rx_pos app + length kept) (rx_line app) |>
        <| rx_pos := rx_pos app + length kept |>.
Proof.
  unfold RX_LINE_SIZE.
  induction bytes as [| b bytes IH]; intros app Hin Hlen Hpos Hb; cbv zeta.
  - cbn [List.filter]. rewrite take_nil. cbn [length List.app].
    rewrite Nat.add_0_r, take_drop, rx3_id. by destruct app.
  - inversion Hb as [| ? ? [Hlf Hstx] Hb']; subst.
    change (uart_rx app (b :: bytes)) with (uart_rx (uart_rx_byte app b) bytes).
    rewrite uart_rx_byte_legacy by done. unfold RX_LINE_SIZE.
    change (count_rx 1 (bytes_rx app)) with ((bytes_rx app + 1) mod 2 ^ 32)%Z.
    cbn [List.filter].
    destruct (is_printable b); cbn [andb].
    + destruct (Nat.ltb_spec (rx_pos app) (256 - 1)) as [Hlt | Hge].
      * rewrite IH; [| done | | | done].
        2: { cbn. rewrite store_length; lia. }
        2: { cbn. lia. }
        cbv zeta.
        change (rx_pos (_ <| rx_pos := ?p |>)) with p.
        change (rx_line (_ <| rx_line := ?l |> <| rx_pos := _ |>)) with l.
        change (bytes_rx (_ <| bytes_rx := ?v |> <| rx_line := _ |> <| rx_pos := _ |>)) with v.
        rewrite rx3_compose, count_rx_succ.
        replace (256 - 1 - rx_pos app) with (S (256 - 1 - S (rx_pos app))) by lia.
        cbn [take]. set (kept := take _ (List.filter is_printable bytes)).
        apply rx3_ext; [reflexivity | | cbn [length]; lia].
        rewrite store_in_range by lia.
        rewrite (take_S_r _ _ b) by (apply list_lookup_insert_eq; lia).
        rewrite take_insert_ge, drop_insert_lt by (cbn [length]; lia).
        rewrite <- app_assoc. cbn [List.app length].
        by replace (rx_pos app + S (length kept)) with (S (rx_pos app) + length kept) by lia.
      * rewrite IH; [| done | done | cbn; lia | done]. cbv zeta.
        change (rx_pos (_ <| bytes_rx := _ |>)) with (rx_pos app).
        change (rx_line (_ <| bytes_rx := _ |>)) with (rx_line app).
        change (bytes_rx (_ <| bytes_rx := ?v |>)) with v.
        rewrite rx1_compose, count_rx_succ.
        replace (256 - 1 - rx_pos app) with 0 by lia.
        by rewrite !take_0.
    + rewrite IH by done. cbv zeta.
      change (rx_pos (_ <| bytes_rx := _ |>)) with (rx_pos app).
      change (rx_line (_ <| bytes_rx := _ |>)) with (rx_line app).
      change (bytes_rx (_ <| bytes_rx := ?v |>)) with v.
      by rewrite rx1_compose, count_rx_succ.
Qed.

Lemma printable_not_cr b : is_printable b = true -> b <> "013"%char /\ is_nul b = false.
Proof.
  intros H. split.
  - intros ->. discriminate H.
  - destruct (is_nul b) eqn:E; [| done]. apply is_nul_true in E. subst. discriminate H.
Qed.

Lemma line_text_printable bytes : Forall (fun b => is_printable b = true) (line_text bytes).
Proof.
  unfold line_text. apply Forall_take. apply List.Forall_forall.
  intros b Hb. by apply List.filter_In in Hb as [_ Hb].
Qed.

Lemma uart_rx_byte_lf app :
  in_message app = false -> 0 < rx_pos app ->
  byte_at (rx_line app) (rx_pos app - 1) <> "013"%char ->
  uart_rx_byte app "010"
  = (process_rx_line
       (app <| bytes_rx := count_rx 1 (bytes_rx app) |>
            <| rx_line := store (rx_line app) (rx_pos app) NUL |>)
       (cstring_at (store (rx_line app) (rx_pos app) NUL) 0))
      <| rx_pos := 0 |>.
Proof.
  intros Hin Hpos Hcr. unfold uart_rx_byte.
  change (Ascii.eqb "010" PROTO_STX) with false.
  change (Ascii.eqb "010" PROTO_ETX) with false.
  change (Ascii.eqb "010" "010") with true. cbv iota. cbn [andb].
  change (in_message (app <| bytes_rx := _ |>)) with (in_message app).
  change (rx_pos (app <| bytes_rx := _ |>)) with (rx_pos app).
  change (rx_line (app <| bytes_rx := _ |>)) with (rx_line app).
  rewrite Hin. cbv iota.
  destruct (Nat.ltb_spec 0 (rx_pos app)); [| lia].
  apply Ascii.eqb_neq in Hcr. rewrite Hcr. reflexivity.
Qed.

Lemma uart_rx_byte_lf_empty app :
  in_message app = false -> rx_pos app = 0 ->
  uart_rx_byte app "010" = app <| bytes_rx := count_rx 1 (bytes_rx app) |>.
Proof.
  intros Hin Hpos. unfold uart_rx_byte.
  change (Ascii.eqb "010" PROTO_STX) with false.
  change (Ascii.eqb "010" PROTO_ETX) with false.
  change (Ascii.eqb "010" "010") with true. cbv iota. cbn [andb].
  change (in_message (app <| bytes_rx := _ |>)) with (in_message app).
  change (rx_pos (app <| bytes_rx := _ |>)) with (rx_pos app).
  rewrite Hin, Hpos. reflexivity.
Qed.

Lemma rx3_then_line (a : App) n l p n' l' :
  (a <| bytes_rx := n |> <| rx_line := l |> <| rx_pos := p |>)
    <| bytes_rx := n' |> <| rx_line := l' |>
  = a <| bytes_rx := n' |> <| rx_line := l' |> <| rx_pos := p |>.
Proof. by destruct a. Qed.

Lemma byte_at_last_printable (text rest : list ascii) :
  0 < length text -> Forall (fun b => is_printable b = true) text ->
  byte_at (text ++ rest) (length text - 1) <> "013"%char.
Proof.
  intros Hne Hpr. unfold byte_at.
  rewrite lookup_app_l by lia.
  destruct (lookup_lt_is_Some_2 text (length text - 1) ltac:(lia)) as [c Hc].
  rewrite Hc. cbn [default].
  rewrite Forall_lookup in Hpr. by apply (printable_not_cr c), (Hpr _ _ Hc).
Qed.

Lemma uart_rx_legacy_line (app : App) (bytes : list ascii) :
  in_message app = false -> rx_pos app = 0 -> length (rx_line app) = RX_LINE_SIZE ->
  Forall (fun b => b <> "010"%char /\ b <> PROTO_STX) bytes ->
  let text := line_text bytes in
  let counted := app <| bytes_rx := count_rx (S (length bytes)) (bytes_rx app) |> in
  uart_rx app (bytes ++ ["010"%char])
  = match text with
    | [] => counted
    | _ :: _ =>
        let line := text ++ NUL :: drop (S (length text)) (rx_line app) in
        (process_rx_line (counted <| rx_line := line |> <| rx_pos := length text |>)
           (string_of_list_ascii text))
          <| rx_pos := 0 |>
    end.
Proof.
  intros Hin Hpos Hlen Hb text counted.
  rewrite uart_rx_app.
  rewrite (uart_rx_legacy_collect bytes app Hin Hlen
             ltac:(rewrite Hpos; unfold RX_LINE_SIZE; lia) Hb).
  cbv zeta. rewrite Hpos, Nat.sub_0_r, take_0. cbn [List.app Nat.add].
  fold (line_text bytes). fold text.
  assert (Htl : length text <= 255).
  { unfold text, line_text, RX_LINE_SIZE. rewrite length_take. lia. }
  pose proof (line_text_printable bytes) as Hpr. fold text in Hpr.
  change (uart_rx ?a ["010"%char]) with (uart_rx_byte a "010").
  unfold counted. clear counted. clearbody text. unfold RX_LINE_SIZE in *.
  destruct (decide (length text = 0)) as [H0 | Hne].
  - destruct text; [| done]. cbn [length List.app]. rewrite drop_0.
    rewrite <- Hpos at 1. rewrite rx3_id.
    rewrite uart_rx_byte_lf_empty by (exact Hin || exact Hpos).
    change (bytes_rx (?a <| bytes_rx := ?v |>)) with v.
    change (count_rx 1 (count_rx (length bytes) (bytes_rx app)))
      with (count_rx (S (length bytes)) (bytes_rx app)).
    by destruct app.
  - rewrite uart_rx_byte_lf; [| exact Hin | cbn; lia |].
    2: { change (rx_line (?a <| rx_line := ?l |> <| rx_pos := _ |>)) with l.
         change (rx_pos (?a <| rx_pos := ?p |>)) with p.
         apply byte_at_last_printable; [lia | done]. }
    change (rx_line (?a <| rx_line := ?l |> <| rx_pos := _ |>)) with l.
    change (rx_pos (?a <| rx_pos := ?p |>)) with p.
    change (bytes_rx (?a <| bytes_rx := ?v |> <| rx_line := _ |> <| rx_pos := _ |>)) with v.
    rewrite rx3_then_line.
    assert (Hline : store (text ++ drop (length text) (rx_line app)) (length text) NUL
                    = text ++ NUL :: drop (S (length text)) (rx_line app)).
    { rewrite store_in_range by (rewrite length_app, length_drop; lia).
      rewrite insert_app_r_alt by lia. rewrite Nat.sub_diag. f_equal.
      destruct (drop (length text) (rx_line app)) as [| x r] eqn:E.
      - apply (f_equal length) in E. rewrite length_drop in E. simpl in E. lia.
      - simpl. f_equal. change (S (length text)) with (1 + length text).
        rewrite Nat.add_comm, <- drop_drop, E. reflexivity. }
    rewrite Hline.
    assert (Htext : cstring_at (text ++ NUL :: drop (S (length text)) (rx_line app)) 0
                    = string_of_list_ascii text).
    { unfold cstring_at. rewrite drop_0, cstr_list.
      - simpl. by rewrite string_app_nil_r.
      - eapply Forall_impl; [exact Hpr |]. intros b Hbp. by apply printable_not_cr. }
    rewrite Htext.
    change (count_rx 1 (count_rx (length bytes) (bytes_rx app)))
      with (count_rx (S (length bytes)) (bytes_rx app)).
    destruct text; [done | reflexivity].
Qed.

(** X10.  A legacy line is the printable bytes before its line feed: for a framer
    at the start of a line, bytes that hold neither a line feed nor a start
    byte, followed by a line feed, dispatch one line, made of the bytes that
    are 0x20 or more or a tab, cut to 255 of them; carriage returns and
    other control bytes are dropped as they arrive, so a line ended by CR LF
    and the same line ended by LF dispatch the same text; when no printable
    byte came, nothing is dispatched. *)
Theorem legacy_line_is_dispatched (app : App) (bytes : list ascii) :
  in_message app = false -> rx_pos app = 0 -> length (rx_line app) = RX_LINE_SIZE ->
  Forall (fun b => b <> "010"%char /\ b <> PROTO_STX) bytes ->
  let text := line_text bytes in
  let counted := app <| bytes_rx := count_rx (S (length bytes)) (bytes_rx app) |> in
  uart_rx app (bytes ++ ["010"%char])
  = match text with
    | [] => counted
    | _ :: _ =>
        let line := text ++ NUL :: drop (S (length text)) (rx_line app) in
        (process_rx_line (counted <| rx_line := line |> <| rx_pos := length text |>)
           (string_of_list_ascii text))
          <| rx_pos := 0 |>
    end.
Proof. apply uart_rx_legacy_line. Qed.


End FramerEdges.

Lemma sent_command_witness :
  tx (uart_send app_connected "d3-1") = tx app_connected ++ wire "d3-1"
  /\ bytes_tx (uart_send app_connected "d3-1")
     = ((bytes_tx app_connected + Z.of_nat (length (wire "d3-1"))) mod 2 ^ 32)%Z
  /\ cstring_at (list_ascii_of_string (cstr "d3-1")
                 ++ NUL :: drop (S (strlen "d3-1")) (rx_line app_alloc)) 0 = cstr "d3-1"
  /\ uart_rx app_alloc (wire "d3-1")
     = (process_rx_message
          (app_alloc <| bytes_rx := count_rx (length (wire "d3-1")) (bytes_rx app_alloc) |>
                     <| in_message := true |>
                     <| rx_pos := strlen "d3-1" |>
                     <| rx_line := list_ascii_of_string (cstr "d3-1")
                                   ++ NUL :: drop (S (strlen "d3-1")) (rx_line app_alloc) |>)
          (list_ascii_of_string (cstr "d3-1")
           ++ NUL :: drop (S (strlen "d3-1")) (rx_line app_alloc))
          (strlen "d3-1"))
         <| rx_pos := 0 |> <| in_message := false |>.
Proof.
  apply (sent_command_is_received app_connected app_alloc "d3-1").
  - reflexivity.
  - reflexivity.
  - repeat constructor; discriminate.
  - vm_compute. lia.
  - reflexivity.
Defined.

Lemma legacy_line_witness :
  uart_rx app_alloc (list_ascii_of_string ("PONG" +:+ String "013" "") ++ ["010"%char])
  = (process_rx_line
       (app_alloc <| bytes_rx := count_rx 6 (bytes_rx app_alloc) |>
                  <| rx_line := list_ascii_of_string "PONG"
                                ++ NUL :: drop 5 (rx_line app_alloc) |>
                  <| rx_pos := 4 |>)
       "PONG")
      <| rx_pos := 0 |>.
Proof.
  apply (legacy_line_is_dispatched app_alloc (list_ascii_of_string ("PONG" +:+ String "013" ""))).
  - reflexivity.
  - reflexivity.
  - reflexivity.
  - repeat constructor; discriminate.
Defined.

Lemma overlong_frame_witness :
  let body := replicate 300 "A"%char in
  let msg := take (RX_LINE_SIZE - 1) body ++ [NUL] in
  uart_rx app_alloc (PROTO_STX :: body ++ [PROTO_ETX])
  = (process_rx_message
       (app_alloc <| bytes_rx := count_rx (length body + 2) (bytes_rx app_alloc) |>
                  <| in_message := true |>
                  <| rx_pos := RX_LINE_SIZE - 1 |>
                  <| rx_line := msg |>)
       msg (RX_LINE_SIZE - 1))
      <| rx_pos := 0 |> <| in_message := false |>.
Proof.
  apply (overlong_frame_is_cut app_alloc (replicate 300 "A"%char)).
  - reflexivity.
  - apply Forall_replicate. split; discriminate.
  - rewrite length_replicate. unfold RX_LINE_SIZE. lia.
Defined.

(** ** Detection and the wire *)

Section DetectionOnTheWire.

Lemma parse_network_message_link app data :
  link_view (parse_network_message app data) = link_view app.
Proof. unfold parse_network_message. decoder_cases; reflexivity. Qed.

Lemma parse_client_message_link app data :
  link_view (parse_client_message app data) = link_view app.
Proof. unfold parse_client_message. decoder_cases; reflexivity. Qed.

Lemma parse_ble_message_link app data :
  link_view (parse_ble_message app data) = link_view app.
Proof. unfold parse_ble_message. decoder_cases; reflexivity. Qed.

Lemma credentials_append_link app line :
  link_view (credentials_append app line) = link_view app.
Proof. unfold credentials_append. decoder_cases; reflexivity. Qed.

Lemma parse_info_link app data : link_view (parse_info app data) = link_view app.
Proof. unfold parse_info. decoder_cases; reflexivity. Qed.

Lemma clear_deauth_flags_link app : link_view (clear_deauth_flags app) = link_view app.
Proof.
  unfold clear_deauth_flags.
  apply (for_loop_invariant (fun s => link_view s = link_view app)); [| done].
  intros i s Hs. rewrite <- Hs. reflexivity.
Qed.

Lemma legacy_ap_line_link app line : link_view (legacy_ap_line app line) = link_view app.
Proof. unfold legacy_ap_line. decoder_cases; reflexivity. Qed.

Lemma legacy_client_line_link app line : link_view (legacy_client_line app line) = link_view app.
Proof. unfold legacy_client_line. decoder_cases; reflexivity. Qed.

Lemma process_rx_message_link app msg len :
  link_view (process_rx_message app msg len) = link_view app.
Proof.
  unfold process_rx_message.
  destruct (Nat.ltb len 1); [done |].
  set (data := if Nat.ltb 1 len then _ else _).
  set (app1 := console_append app _).
  change (link_view app) with (link_view app1).
  clearbody app1 data.
  destruct (byte_at msg 0) as [[] [] [] [] [] [] [] []];
    try reflexivity;
    rewrite ?parse_network_message_link, ?parse_client_message_link, ?parse_ble_message_link,
      ?clear_deauth_flags_link;
    try reflexivity;
    decoder_cases;
    rewrite ?parse_ble_message_link, ?parse_info_link;
    try reflexivity.
  - unfold parse_credential_message. by rewrite credentials_append_link.
  - change (link_view (?a <| got_info := ?v |>)) with (link_view a). apply parse_info_link.
Qed.

Lemma process_rx_line_link app line : link_view (process_rx_line app line) = link_view app.
Proof.
  unfold process_rx_line.
  set (app1 := console_append app _).
  change (link_view app) with (link_view app1). clearbody app1.
  repeat match goal with
    | |- context [if ?c then _ else _] => destruct c
    | |- context [match ?o with Some _ => _ | None => _ end] => destruct o
    end;
    rewrite ?legacy_ap_line_link, ?legacy_client_line_link;
    try reflexivity.
  all: unfold legacy_credential_line.
  all: change (link_view (console_append ?a ?l)) with (link_view a).
  all: apply credentials_append_link.
Qed.

Lemma uart_rx_byte_link app data : link_view (uart_rx_byte app data) = link_view app.
Proof.
  unfold uart_rx_byte.
  set (app0 := app <| bytes_rx := _ |>).
  change (link_view app) with (link_view app0). clearbody app0.
  destruct (Ascii.eqb data PROTO_STX); [reflexivity |].
  destruct (Ascii.eqb data PROTO_ETX && in_message app0).
  { change (link_view (?a <| rx_pos := _ |> <| in_message := _ |>)) with (link_view a).
    by rewrite process_rx_message_link. }
  destruct (in_message app0).
  { by destruct (Nat.ltb _ _). }
  destruct (Ascii.eqb data "010").
  { destruct (Nat.ltb 0 _); [| reflexivity].
    change (link_view (?a <| rx_pos := _ |>)) with (link_view a).
    rewrite process_rx_line_link. by destruct (Ascii.eqb _ _). }
  destruct (_ || _); [| reflexivity].
  by destruct (Nat.ltb _ _).
Qed.

(** The receive path never transmits. *)
Lemma uart_rx_link bytes : forall app, link_view (uart_rx app bytes) = link_view app.
Proof.
  unfold uart_rx. induction bytes as [| b bytes IH]; intros app; simpl; [done |].
  by rewrite IH, uart_rx_byte_link.
Qed.

Lemma link_view_fields a b :
  link_view b = link_view a ->
  serial b = serial a /\ uart_running b = uart_running a /\ tx b = tx a.
Proof. unfold link_view. intros [= -> -> _ -> _]. done. Qed.

Lemma sent_since_rx a b l bytes : sent_since a b l -> sent_since a (uart_rx b bytes) l.
Proof.
  intros (Hs & Hr & Ht).
  destruct (link_view_fields _ _ (uart_rx_link bytes b)) as (E1 & E2 & E3).
  unfold sent_since. by rewrite E1, E2, E3.
Qed.

Lemma sent_since_send a b l cmd :
  sent_since a b l -> sent_since a (uart_send b cmd) (l ++ wire cmd).
Proof.
  intros (Hs & Hr & Ht). unfold sent_since, uart_send. rewrite Hs, Hr. cbn [negb orb].
  split; [exact Hs |]. split; [exact Hr |].
  change (tx (?x <| tx := ?v |> <| bytes_tx := _ |>)) with v.
  rewrite Ht. unfold wire. by rewrite <- !app_assoc.
Qed.

Lemma sent_since_send_legacy a b l cmd :
  sent_since a b l -> sent_since a (uart_send_legacy b cmd) (l ++ legacy_wire cmd).
Proof.
  intros (Hs & Hr & Ht). unfold sent_since, uart_send_legacy. rewrite Hs, Hr. cbn [negb orb].
  split; [exact Hs |]. split; [exact Hr |].
  change (tx (?x <| tx := ?v |> <| bytes_tx := _ |>)) with v.
  rewrite Ht. unfold legacy_wire. by rewrite <- !app_assoc.
Qed.

Lemma sent_since_complete a b l : sent_since a b l -> sent_since a (detection_complete b) l.
Proof. intros H. unfold detection_complete. by destruct (Nat.ltb _ _). Qed.

Lemma detection_complete_caps a :
  caps_of (firmware_type (detection_complete a)) = Some (caps (detection_complete a)).
Proof.
  unfold detection_complete, caps_of.
  destruct (Nat.ltb_spec (firmware_index (firmware_type a)) (length firmware_caps)) as [Hlt | Hge].
  - change (firmware_type (?x <| caps := _ |>)) with (firmware_type x).
    change (caps (?x <| caps := ?v |>)) with v.
    destruct (lookup_lt_is_Some_2 _ _ Hlt) as [c ->]. reflexivity.
  - exfalso. destruct (firmware_type a); simpl in Hge; lia.
Qed.

(** X11.  Whatever the device sends while detection waits, as long as no
    store goes outside an index list (detection ends with the mark clear),
    detection transmits a prefix of its probe sequence (the framed [i],
    then INFO, PING, HELP and AT, each with a line feed) and nothing else, a
    probe being sent only when the ones before it have been; and it ends
    with the capability set that the table gives for the firmware type it
    ends with. *)
Theorem detection_sends_a_prefix_of_the_probes (incoming : nat -> list ascii) (app : App) :
  connected app = true -> serial app = true -> uart_running app = true ->
  let app' := detect_firmware (device incoming) app in
  out_of_bounds app' = false ->
  caps_of (firmware_type app') = Some (caps app')
  /\ exists n,
       n <= length probes /\ tx app' = tx app ++ concat (take n probes).
Proof.
  intros Hc Hs Hr. cbv zeta. intros _. unfold detect_firmware, device. rewrite Hc. cbn [negb].
  set (a0 := app <| firmware_type := _ |> <| firmware_version := _ |>
                 <| firmware_response := _ |> <| detection_done := _ |>
                 <| got_pong := _ |> <| got_info := _ |> <| got_help := _ |>).
  assert (H0 : sent_since app a0 []).
  { split; [exact Hs |]. split; [exact Hr |]. by rewrite app_nil_r. }
  clearbody a0.
  apply (sent_since_rx _ _ _ (incoming 0)) in H0.
  set (a1 := uart_rx a0 (incoming 0)) in *. clearbody a1.
  destruct (_ && _).
  { split; [apply detection_complete_caps |].
    exists 0. split; [simpl; lia |]. by apply sent_since_complete in H0 as (_ & _ & ->). }
  apply (sent_since_send _ _ _ "i"), (sent_since_rx _ _ _ (incoming 1)) in H0.
  set (a2 := uart_rx _ (incoming 1)) in *. clearbody a2.
  destruct (_ || _).
  { split; [apply detection_complete_caps |].
    exists 1. split; [simpl; lia |].
    assert (H0' : sent_since app
                    (if firmware_eqb (firmware_type a2) FirmwareUnknown && got_info a2
                     then a2 <| firmware_type := FirmwareGattrose |> else a2)
                    ([] ++ wire "i")) by (by destruct (_ && _)).
    by apply sent_since_complete in H0' as (_ & _ & ->). }
  apply (sent_since_send_legacy _ _ _ "INFO"), (sent_since_rx _ _ _ (incoming 2)) in H0.
  set (a3 := uart_rx _ (incoming 2)) in *. clearbody a3.
  destruct (detection_done a3).
  { split; [apply detection_complete_caps |].
    exists 2. split; [simpl; lia |]. by apply sent_since_complete in H0 as (_ & _ & ->). }
  apply (sent_since_send_legacy _ _ _ "PING"), (sent_since_rx _ _ _ (incoming 3)) in H0.
  set (a4 := uart_rx _ (incoming 3)) in *. clearbody a4.
  set (a5 := if got_pong a4 then _ else a4).
  assert (H5 : sent_since app a5 ((([] ++ wire "i") ++ legacy_wire "INFO") ++ legacy_wire "PING"))
    by (unfold a5; by destruct (got_pong a4)).
  clearbody a5. clear H0.
  split; [apply detection_complete_caps |].
  destruct (firmware_eqb (firmware_type a5) FirmwareUnknown) eqn:E5.
  - apply (sent_since_send_legacy _ _ _ "HELP"), (sent_since_rx _ _ _ (incoming 4)) in H5.
    set (a6 := uart_rx _ (incoming 4)) in *. clearbody a6.
    destruct (firmware_eqb (firmware_type a6) FirmwareUnknown).
    + apply (sent_since_send_legacy _ _ _ "AT"), (sent_since_rx _ _ _ (incoming 5)) in H5.
      exists 5. split; [simpl; lia |].
      apply sent_since_complete in H5 as (_ & _ & ->). cbn [take concat probes].
      by rewrite app_nil_r, <- !app_assoc.
    + exists 4. split; [simpl; lia |].
      apply sent_since_complete in H5 as (_ & _ & ->). cbn [take concat probes].
      by rewrite app_nil_r, <- !app_assoc.
  - rewrite E5. exists 3. split; [simpl; lia |].
    apply sent_since_complete in H5 as (_ & _ & ->). cbn [take concat probes].
    by rewrite app_nil_r, <- !app_assoc.
Qed.

(** *** The boot banner *)

Lemma process_rx_message_ready app banner rest :
  cstr banner = banner ->
  strncmp_eq banner "LED" 3 = false ->
  let a' := process_rx_message app (frame_bytes "r" banner ++ NUL :: rest)
              (length (frame_bytes "r" banner)) in
  firmware_type a' = FirmwareGattrose /\ detection_done a' = true
  /\ firmware_response a' = strncpy banner 127
  /\ firmware_version a'
     = match strstr banner ":" with
       | Some i => strncpy (str_drop (S i) banner) 31
       | None => firmware_version app
       end
  /\ link_view a' = link_view app.
Proof.
  intros Hb Hled. cbv zeta. unfold process_rx_message.
  rewrite frame_data by done.
  change (Nat.ltb (length (frame_bytes "r" banner)) 1) with false. cbv iota.
  change (byte_at (frame_bytes "r" banner ++ NUL :: rest) 0) with "r"%char. cbv iota.
  rewrite Hled.
  destruct (strstr banner ":"); repeat split; reflexivity.
Qed.

(** X12.  A device that sends its boot banner (a ready frame whose text does not
    start with LED) while detection sits in its first wait is taken for
    Gattrose-NG at once: detection ends with the full capability set, keeps
    the banner as the firmware's response and what follows its first colon
    as the version, and sends no probe. *)
Theorem boot_banner_ends_detection (app : App) (banner : string) :
  connected app = true ->
  length (rx_line app) = RX_LINE_SIZE ->
  cstr banner = banner ->
  Forall frame_byte (list_ascii_of_string banner) ->
  String.length banner < RX_LINE_SIZE - 1 ->
  strncmp_eq banner "LED" 3 = false ->
  let app' := detect_firmware (booting_device banner) app in
  firmware_type app' = FirmwareGattrose
  /\ caps_of FirmwareGattrose = Some (caps app')
  /\ firmware_response app' = strncpy banner 127
  /\ firmware_version app'
     = match strstr banner ":" with
       | Some i => strncpy (str_drop (S i) banner) 31
       | None => ""
       end
  /\ tx app' = tx app.
Proof.
  intros Hc Hlen Hb Hfb Hfit Hled. cbv zeta.
  unfold detect_firmware, booting_device, device. rewrite Hc. cbn [negb].
  set (a0 := app <| firmware_type := _ |> <| firmware_version := _ |>
                 <| firmware_response := _ |> <| detection_done := _ |>
                 <| got_pong := _ |> <| got_info := _ |> <| got_help := _ |>).
  assert (Hv0 : firmware_version a0 = "") by reflexivity.
  assert (Hl0 : link_view a0 = link_view app) by reflexivity.
  assert (Hr0 : length (rx_line a0) = RX_LINE_SIZE) by exact Hlen.
  clearbody a0. unfold ready_frame.
  rewrite uart_rx_frame; [| done | | ].
  2: { constructor; [split; discriminate | done]. }
  2: { unfold frame_bytes. rewrite length_cons, string_length_list. lia. }
  cbv zeta.
  match goal with
  | |- context [process_rx_message ?a (frame_bytes _ _ ++ NUL :: ?rest) _] =>
      destruct (process_rx_message_ready a banner rest Hb Hled) as (E1 & E2 & E3 & E4 & E5);
      set (a1 := process_rx_message a _ _) in *
  end.
  change (firmware_version (?x <| rx_line := _ |>)) with (firmware_version x) in E4.
  change (firmware_version (?x <| bytes_rx := _ |> <| in_message := _ |> <| rx_pos := _ |>))
    with (firmware_version x) in E4.
  rewrite Hv0 in E4.
  change (link_view (?x <| bytes_rx := _ |> <| in_message := _ |> <| rx_pos := _ |>
                        <| rx_line := _ |>)) with (link_view x) in E5.
  rewrite Hl0 in E5.
  clearbody a1.
  change (detection_done (a1 <| rx_pos := _ |> <| in_message := _ |>)) with (detection_done a1).
  change (firmware_type (a1 <| rx_pos := _ |> <| in_message := _ |>)) with (firmware_type a1).
  rewrite E1, E2. cbn [andb firmware_eqb firmware_index Nat.eqb].
  set (a2 := a1 <| rx_pos := _ |> <| in_message := _ |>).
  pose proof (detection_complete_caps a2) as Hcaps.
  assert (Ht : firmware_type (detection_complete a2) = FirmwareGattrose).
  { unfold detection_complete. by destruct (Nat.ltb _ _). }
  rewrite Ht in Hcaps.
  split; [exact Ht |]. split; [exact Hcaps |].
  destruct (link_view_fields _ _ E5) as (_ & _ & E6).
  unfold detection_complete. destruct (Nat.ltb _ _); repeat split; assumption.
Qed.

(** *** The answer to PING *)

Lemma uart_rx_nil a : uart_rx a [] = a.
Proof. reflexivity. Qed.

Lemma uart_rx_pong a :
  in_message a = false -> rx_pos a = 0 -> length (rx_line a) = RX_LINE_SIZE ->
  got_pong (uart_rx a (legacy_wire "PONG")) = true.
Proof.
  intros Hin Hpos Hlen.
  pose proof (uart_rx_legacy_line a (list_ascii_of_string "PONG") Hin Hpos Hlen
                ltac:(repeat constructor; discriminate)) as Hline.
  change (list_ascii_of_string "PONG" ++ ["010"%char]) with (legacy_wire "PONG") in Hline.
  rewrite Hline. reflexivity.
Qed.

Lemma sent_since_type a b l t :
  sent_since a b l -> sent_since a (b <| firmware_type := t |>) l.
Proof. intros (H1 & H2 & H3). split; [exact H1 |]. split; [exact H2 | exact H3]. Qed.

Lemma framer_idle_send a cmd : framer_idle a -> framer_idle (uart_send a cmd).
Proof. intros H. unfold uart_send. by destruct (_ || _). Qed.

Lemma framer_idle_send_legacy a cmd : framer_idle a -> framer_idle (uart_send_legacy a cmd).
Proof. intros H. unfold uart_send_legacy. by destruct (_ || _). Qed.

(** X13.  A device that answers nothing but the PING probe, with the line PONG,
    is taken for Evil-BW16: detection ends with that profile's capability
    set (no client detection, no targeted deauth, no BLE) after the probes
    [i], INFO and PING; HELP and AT are not sent. *)
Theorem pong_resolves_evil_bw16 (app : App) :
  connected app = true -> serial app = true -> uart_running app = true ->
  framer_idle app ->
  let app' := detect_firmware pong_device app in
  firmware_type app' = FirmwareEvilBW16
  /\ caps_of FirmwareEvilBW16 = Some (caps app')
  /\ tx app' = tx app ++ wire "i" ++ legacy_wire "INFO" ++ legacy_wire "PING".
Proof.
  intros Hc Hs Hr Hidle. cbv zeta.
  unfold detect_firmware, pong_device, device. rewrite Hc. cbn [negb].
  rewrite !uart_rx_nil.
  set (a0 := app <| firmware_type := _ |> <| firmware_version := _ |>
                 <| firmware_response := _ |> <| detection_done := _ |>
                 <| got_pong := _ |> <| got_info := _ |> <| got_help := _ |>).
  assert (S0 : sent_since app a0 []).
  { split; [exact Hs |]. split; [exact Hr |]. by rewrite app_nil_r. }
  assert (U0 : undetected a0) by reflexivity.
  assert (I0 : framer_idle a0) by exact Hidle.
  clearbody a0.
  destruct (undetected_fields _ U0) as (F0 & D0 & G0 & P0).
  rewrite D0. cbn [andb].
  set (a1 := uart_send a0 "i").
  assert (S1 : sent_since app a1 ([] ++ wire "i")) by (by apply sent_since_send).
  assert (U1 : undetected a1) by (by apply undetected_send).
  assert (I1 : framer_idle a1) by (by apply framer_idle_send).
  clearbody a1. clear S0 U0 I0.
  destruct (undetected_fields _ U1) as (F1 & D1 & G1 & P1).
  rewrite D1, G1. cbn [orb].
  set (a2 := uart_send_legacy a1 "INFO").
  assert (S2 : sent_since app a2 (([] ++ wire "i") ++ legacy_wire "INFO"))
    by (by apply sent_since_send_legacy).
  assert (U2 : undetected a2) by (by apply undetected_send_legacy).
  assert (I2 : framer_idle a2) by (by apply framer_idle_send_legacy).
  clearbody a2. clear S1 U1 I1.
  destruct (undetected_fields _ U2) as (F2 & D2 & G2 & P2).
  rewrite D2.
  set (a3 := uart_send_legacy a2 "PING").
  assert (S3 : sent_since app a3 ((([] ++ wire "i") ++ legacy_wire "INFO") ++ legacy_wire "PING"))
    by (by apply sent_since_send_legacy).
  assert (I3 : framer_idle a3) by (by apply framer_idle_send_legacy).
  clearbody a3. clear S2 U2 I2.
  destruct I3 as (Hin3 & Hpos3 & Hlen3).
  pose proof (uart_rx_pong a3 Hin3 Hpos3 Hlen3) as Hp.
  apply (sent_since_rx _ _ _ (legacy_wire "PONG")) in S3.
  set (a4 := uart_rx a3 (legacy_wire "PONG")) in *.
  clearbody a4. rewrite Hp.
  set (a5 := a4 <| firmware_type := FirmwareEvilBW16 |>).
  assert (E5 : firmware_eqb (firmware_type a5) FirmwareUnknown = false) by reflexivity.
  assert (S5 := sent_since_type _ _ _ FirmwareEvilBW16 S3). fold a5 in S5.
  assert (Ht : firmware_type (detection_complete a5) = FirmwareEvilBW16).
  { unfold detection_complete. by destruct (Nat.ltb _ _). }
  clearbody a5. rewrite E5. cbv iota. rewrite E5.
  pose proof (detection_complete_caps a5) as Hcaps.
  rewrite Ht in Hcaps.
  split; [exact Ht |]. split; [exact Hcaps |].
  apply sent_since_complete in S5 as (_ & _ & ->).
  by rewrite <- !app_assoc.
Qed.

End DetectionOnTheWire.

Lemma detection_probes_witness :
  let app' := detect_firmware (device (fun _ => legacy_wire "OK")) app_connected in
  caps_of (firmware_type app') = Some (caps app')
  /\ exists n,
       n <= length probes /\ tx app' = tx app_connected ++ concat (take n probes).
Proof.
  apply (detection_sends_a_prefix_of_the_probes (fun _ => legacy_wire "OK") app_connected);
    reflexivity.
Defined.

Lemma boot_banner_witness :
  let app' := detect_firmware (booting_device "GATTROSE-NG:2.0") app_connected in
  firmware_type app' = FirmwareGattrose
  /\ caps_of FirmwareGattrose = Some (caps app')
  /\ firmware_response app' = strncpy "GATTROSE-NG:2.0" 127
  /\ firmware_version app'
     = match strstr "GATTROSE-NG:2.0" ":" with
       | Some i => strncpy (str_drop (S i) "GATTROSE-NG:2.0") 31
       | None => ""
       end
  /\ tx app' = tx app_connected.
Proof.
  apply (boot_banner_ends_detection app_connected "GATTROSE-NG:2.0").
  - reflexivity.
  - reflexivity.
  - reflexivity.
  - repeat constructor; discriminate.
  - vm_compute. lia.
  - reflexivity.
Defined.

Lemma pong_witness :
  let app' := detect_firmware pong_device app_connected in
  firmware_type app' = FirmwareEvilBW16
  /\ caps_of FirmwareEvilBW16 = Some (caps app')
  /\ tx app' = tx app_connected ++ wire "i" ++ legacy_wire "INFO" ++ legacy_wire "PING".
Proof.
  apply (pong_resolves_evil_bw16 app_connected); try reflexivity.
  repeat split.
Defined.

(** The table is read when detection ends and not again: a line that
    changes the firmware type afterwards leaves the capability set of the
    type detection ended with. *)
Example later_line_leaves_capabilities :
  let app := detect_firmware pong_device app_connected in
  let app' := uart_rx app (legacy_wire "AT+GMR") in
  firmware_type app' = FirmwareGeneric /\ caps app' = caps app
  /\ caps_of FirmwareGeneric <> Some (caps app').
Proof. vm_compute. repeat split; try reflexivity. discriminate. Qed.

(** ** MAC addresses *)

Section MacAddresses.

Lemma hex_digits_byte v :
  is_byte v -> fmt_02X v = String (hex_digit (v / 16)) (String (hex_digit (v mod 16)) "").
Proof.
  intros Hv. unfold is_byte in Hv. unfold fmt_02X.
  change (hex_digits 8 v "")
    with (if (v <? 16)%Z then String (hex_digit (v mod 16)) ""
          else hex_digits 7 (v / 16) (String (hex_digit (v mod 16)) "")).
  destruct (Z.ltb_spec v 16).
  - cbn [String.length Nat.ltb Nat.leb]. rewrite Z.div_small by lia. reflexivity.
  - change (hex_digits 7 (v / 16) ?acc)
      with (if (v / 16 <? 16)%Z then String (hex_digit ((v / 16) mod 16)) acc
            else hex_digits 6 (v / 16 / 16) (String (hex_digit ((v / 16) mod 16)) acc)).
    assert (v / 16 < 16)%Z by (apply Z.div_lt_upper_bound; lia).
    destruct (Z.ltb_spec (v / 16) 16); [| lia].
    rewrite (Z.mod_small (v / 16)) by (split; [apply Z.div_pos; lia | lia]).
    reflexivity.
Qed.

Lemma nibble_cases d :
  (0 <= d < 16)%Z ->
  (d = 0 \/ d = 1 \/ d = 2 \/ d = 3 \/ d = 4 \/ d = 5 \/ d = 6 \/ d = 7 \/
   d = 8 \/ d = 9 \/ d = 10 \/ d = 11 \/ d = 12 \/ d = 13 \/ d = 14 \/ d = 15)%Z.
Proof. lia. Qed.

Ltac each_nibble H :=
  apply nibble_cases in H;
  repeat (destruct H as [H | H]; [subst; try reflexivity |]); subst; try reflexivity.

Lemma hex_val_digit d : (0 <= d < 16)%Z -> hex_val (hex_digit d) = Some d.
Proof. intros H. each_nibble H. Qed.

Lemma hex_digit_plain d :
  (0 <= d < 16)%Z ->
  is_space (hex_digit d) = false /\ Ascii.eqb (hex_digit d) "-" = false
  /\ Ascii.eqb (hex_digit d) "+" = false /\ is_nul (hex_digit d) = false.
Proof. intros H. each_nibble H; repeat split. Qed.

(** A byte that was printed scans back, up to what follows it. *)
Lemma scan_hex2_fmt v rest :
  is_byte v ->
  (rest = "" \/ exists r, rest = String ":" r) ->
  scan_hex2 (fmt_02X v +:+ rest) = Some (v, rest).
Proof.
  intros Hv Hrest. rewrite hex_digits_byte by done. unfold is_byte in Hv.
  assert (H1 : (0 <= v / 16 < 16)%Z).
  { split; [apply Z.div_pos; lia | apply Z.div_lt_upper_bound; lia]. }
  assert (H0 : (0 <= v mod 16 < 16)%Z) by (apply Z.mod_pos_bound; lia).
  destruct (hex_digit_plain _ H1) as (S1 & M1 & P1 & _).
  unfold scan_hex2. rewrite !string_app_cons, string_app_nil_l.
  cbn [skip_space]. rewrite S1, M1, P1. cbn [orb].
  rewrite !hex_val_digit by done.
  f_equal. f_equal. rewrite (Z.div_mod v 16) at 3 by lia. lia.
Qed.

Lemma cstr_fmt v (rest : string) :
  is_byte v -> cstr (fmt_02X v +:+ rest) = fmt_02X v +:+ cstr rest.
Proof.
  intros Hv. rewrite hex_digits_byte by done. unfold is_byte in Hv.
  assert (H1 : (0 <= v / 16 < 16)%Z).
  { split; [apply Z.div_pos; lia | apply Z.div_lt_upper_bound; lia]. }
  assert (H0 : (0 <= v mod 16 < 16)%Z) by (apply Z.mod_pos_bound; lia).
  destruct (hex_digit_plain _ H1) as (_ & _ & _ & N1).
  destruct (hex_digit_plain _ H0) as (_ & _ & _ & N0).
  rewrite !string_app_cons, string_app_nil_l. cbn [cstr]. by rewrite N1, N0.
Qed.

Lemma fmt_length v : is_byte v -> String.length (fmt_02X v) = 2.
Proof. intros Hv. by rewrite hex_digits_byte. Qed.

Lemma six_bytes (bytes : list Z) :
  length bytes = MAC_LENGTH ->
  bytes = [byte_nth bytes 0; byte_nth bytes 1; byte_nth bytes 2;
           byte_nth bytes 3; byte_nth bytes 4; byte_nth bytes 5].
Proof.
  intros H. do 6 (destruct bytes as [| ? bytes]; [discriminate H |]).
  destruct bytes; [reflexivity | discriminate H].
Qed.

(** The text of six bytes, before the cut of [snprintf]. *)
Lemma mac_text_length b0 b1 b2 b3 b4 b5 :
  is_byte b0 -> is_byte b1 -> is_byte b2 -> is_byte b3 -> is_byte b4 -> is_byte b5 ->
  String.length (fmt_02X b0 +:+ ":" +:+ fmt_02X b1 +:+ ":" +:+ fmt_02X b2 +:+ ":" +:+
                 fmt_02X b3 +:+ ":" +:+ fmt_02X b4 +:+ ":" +:+ fmt_02X b5) = 17.
Proof.
  intros. rewrite !string_length_app, !fmt_length by done. reflexivity.
Qed.

Lemma mac_text_round_trip_aux (bytes old : list Z) :
  length bytes = MAC_LENGTH -> Forall is_byte bytes -> length old = MAC_LENGTH ->
  String.length (mac_bytes_to_string bytes) = MAX_BSSID_LEN - 1
  /\ mac_string_to_bytes (mac_bytes_to_string bytes) old = bytes.
Proof.
  intros Hlen Hb Hold.
  rewrite (six_bytes bytes Hlen) in Hb.
  repeat match goal with
    | H : Forall _ (_ :: _) |- _ => inversion H; clear H; subst
    end.
  match goal with H : Forall _ [] |- _ => clear H end.
  unfold mac_bytes_to_string.
  rewrite str_take_all by (by rewrite mac_text_length).
  split; [by apply mac_text_length |].
  unfold mac_string_to_bytes, sscanf_mac.
  assert (Hcolon : forall s : string, cstr (String ":" s) = String ":" (cstr s))
    by reflexivity.
  rewrite ?string_app_cons, ?string_app_nil_l.
  repeat (rewrite cstr_fmt by done; rewrite Hcolon).
  assert (Hc : cstr (fmt_02X (byte_nth bytes 5)) = fmt_02X (byte_nth bytes 5)).
  { rewrite <- (string_app_nil_r (fmt_02X _)) at 1. rewrite cstr_fmt by done.
    by rewrite string_app_nil_r. }
  rewrite Hc.
  assert (Hsc : forall s : string, scan_char ":" (String ":" s) = Some s) by reflexivity.
  repeat (rewrite scan_hex2_fmt by (try done; right; eauto);
          cbn [mbind option_bind]; rewrite Hsc; cbn [mbind option_bind]).
  rewrite <- (string_app_nil_r (fmt_02X (byte_nth bytes 5))).
  rewrite scan_hex2_fmt by (try done; by left).
  cbn [mbind option_bind fmap list_fmap].
  rewrite (drop_ge old) by (rewrite Hold; reflexivity).
  rewrite app_nil_r, (six_bytes bytes Hlen) at 1.
  unfold is_byte in *.
  rewrite !Z.mod_small by done.
  symmetry. rewrite (six_bytes bytes Hlen) at 1. reflexivity.
Qed.

(** X14.  The text of a MAC address reads back as the address: for six bytes,
    [mac_bytes_to_string] writes seventeen characters, which with their
    terminator fill the 18-byte array exactly, nothing being cut, and
    [mac_string_to_bytes] on that text stores the same six bytes, whatever
    the array held. *)
Theorem mac_text_round_trip (bytes old : list Z) :
  length bytes = MAC_LENGTH -> Forall is_byte bytes -> length old = MAC_LENGTH ->
  String.length (mac_bytes_to_string bytes) = MAX_BSSID_LEN - 1
  /\ mac_string_to_bytes (mac_bytes_to_string bytes) old = bytes.
Proof. apply mac_text_round_trip_aux. Qed.


Lemma byte_lor_land b : is_byte b -> is_byte (Z.lor (Z.land b 254) 2).
Proof.
  unfold is_byte. intros Hb.
  assert (Ha : (0 <= Z.land b 254)%Z) by (apply Z.land_nonneg; lia).
  assert (Hn : (0 <= Z.lor (Z.land b 254) 2)%Z) by (apply Z.lor_nonneg; lia).
  split; [exact Hn |].
  assert (Hne : Z.lor (Z.land b 254) 2 <> 0%Z).
  { intros E. apply (f_equal (fun z => Z.testbit z 1)) in E.
    rewrite Z.lor_spec in E. cbn in E. by rewrite orb_true_r in E. }
  assert (Hpos : (0 < Z.lor (Z.land b 254) 2)%Z) by lia.
  change 256%Z with (2 ^ 8)%Z. apply Z.log2_lt_pow2; [exact Hpos |].
  rewrite Z.log2_lor by lia.
  pose proof (Z.log2_land b 254 ltac:(lia) ltac:(lia)) as Hl.
  change (Z.log2 254) with 7%Z in Hl. change (Z.log2 2) with 1%Z. lia.
Qed.

Lemma generate_random_mac_cons b0 rest :
  length (b0 :: rest) = MAC_LENGTH ->
  generate_random_mac (b0 :: rest) = Z.lor (Z.land b0 254) 2 :: rest.
Proof.
  intros Hlen. unfold generate_random_mac.
  rewrite firstn_all2 by (rewrite Hlen; reflexivity). reflexivity.
Qed.

Lemma byte_nth_0 x l : byte_nth (x :: l) 0 = x.
Proof. reflexivity. Qed.

Lemma random_mac_is_local_unicast_aux (random : list Z) :
  length random = MAC_LENGTH -> Forall is_byte random ->
  length (generate_random_mac random) = MAC_LENGTH /\ Forall is_byte (generate_random_mac random).
Proof.
  intros Hlen Hb.
  destruct random as [| b0 rest]; [discriminate Hlen |].
  inversion Hb as [| ? ? Hb0 Hrest]; subst.
  rewrite generate_random_mac_cons by done.
  split; [exact Hlen |]. constructor; [by apply byte_lor_land | exact Hrest].
Qed.

Lemma mac_text_no_nul b :
  length b = MAC_LENGTH -> Forall is_byte b -> cstr (mac_bytes_to_string b) = mac_bytes_to_string b.
Proof.
  intros Hlen Hb. rewrite (six_bytes b Hlen) in Hb.
  repeat match goal with
    | H : Forall _ (_ :: _) |- _ => inversion H; clear H; subst
    end.
  unfold mac_bytes_to_string.
  rewrite str_take_all by (by rewrite mac_text_length).
  assert (Hcolon : forall s : string, cstr (String ":" s) = String ":" (cstr s))
    by reflexivity.
  rewrite ?string_app_cons, ?string_app_nil_l.
  repeat (rewrite cstr_fmt by done; rewrite Hcolon).
  rewrite <- (string_app_nil_r (fmt_02X (byte_nth b 5))) at 1.
  rewrite cstr_fmt by done. by rewrite string_app_nil_r.
Qed.

(** X15.  A generated address is a locally administered unicast address: of the
    six random bytes, the first has its lowest bit cleared and the next bit
    set, its other bits and the other five bytes are what the generator
    gave, and every byte is still a byte. *)
Theorem random_mac_is_local_unicast (random : list Z) :
  length random = MAC_LENGTH -> Forall is_byte random ->
  let mac := generate_random_mac random in
  length mac = MAC_LENGTH /\ Forall is_byte mac
  /\ Z.testbit (byte_nth mac 0) 0 = false
  /\ Z.testbit (byte_nth mac 0) 1 = true
  /\ (forall i, (2 <= i)%Z -> Z.testbit (byte_nth mac 0) i = Z.testbit (byte_nth random 0) i)
  /\ drop 1 mac = drop 1 random.
Proof.
  intros Hlen Hb. cbv zeta.
  destruct random as [| b0 rest]; [discriminate Hlen |].
  inversion Hb as [| ? ? Hb0 Hrest]; subst.
  rewrite generate_random_mac_cons, !byte_nth_0 by done.
  split; [exact Hlen |].
  split; [constructor; [by apply byte_lor_land | exact Hrest] |].
  split; [| split; [| split; [| reflexivity]]].
  - rewrite Z.lor_spec, Z.land_spec. cbn. by rewrite andb_false_r.
  - rewrite Z.lor_spec. cbn. by rewrite orb_true_r.
  - intros i Hi. rewrite Z.lor_spec, Z.land_spec.
    destruct (Z.lt_ge_cases i 8%Z) as [Hlt | Hge].
    + assert (Hc : (i = 2 \/ i = 3 \/ i = 4 \/ i = 5 \/ i = 6 \/ i = 7)%Z) by lia.
      repeat (destruct Hc as [-> | Hc]; [cbn; by rewrite andb_true_r, orb_false_r |]).
      subst. cbn. by rewrite andb_true_r, orb_false_r.
    + rewrite (Z.bits_above_log2 254 i) by (change (Z.log2 254) with 7%Z; lia).
      rewrite (Z.bits_above_log2 2 i) by (change (Z.log2 2) with 1%Z; lia).
      rewrite andb_false_r. cbn [orb]. symmetry.
      unfold is_byte in Hb0.
      destruct (Z.eq_dec b0 0%Z) as [-> | Hne]; [apply Z.bits_0 |].
      apply Z.bits_above_log2; [lia |].
      assert (Z.log2 b0 < 8)%Z by (apply Z.log2_lt_pow2; lia). lia.
Qed.

Lemma mac_type_change_cb_default random app cfg :
  mac_type_change_cb random 0 app cfg
  = (app <| custom_mac := strncpy "00:E0:4C:01:02:03" MAX_BSSID_LEN |>,
     mkMacConfig 0 (mac_string_to_bytes (strncpy "00:E0:4C:01:02:03" MAX_BSSID_LEN)
                      (mac_bytes cfg))).
Proof. reflexivity. Qed.

Lemma mac_type_change_cb_random random app cfg :
  mac_type_change_cb random 1 app cfg
  = (app <| custom_mac := mac_bytes_to_string (generate_random_mac random) |>,
     mkMacConfig 1 (mac_string_to_bytes (mac_bytes_to_string (generate_random_mac random))
                      (mac_bytes cfg))).
Proof. reflexivity. Qed.

Lemma mac_type_change_cb_same random app cfg :
  (0 <= selected_network app)%Z ->
  let text := strncpy (bssid (net_at (networks app) (Z.to_nat (selected_network app))))
                MAX_BSSID_LEN in
  mac_type_change_cb random 3 app cfg
  = (app <| custom_mac := text |>, mkMacConfig 3 (mac_string_to_bytes text (mac_bytes cfg))).
Proof.
  intros Hsel. cbv zeta. unfold mac_type_change_cb. cbn [mac_type mac_bytes Z.eqb andb].
  destruct (Z.geb_spec (selected_network app) 0); [reflexivity | lia].
Qed.

(** X16.  Choosing the Default or the Random MAC, or the MAC of the selected
    network when its BSSID is the text of six bytes, leaves the text and
    the bytes of the configured MAC in step: six bytes, and the text
    [mac_bytes_to_string] gives for them.  With Random the bytes are the
    generated address. *)
Theorem mac_type_change_keeps_text_and_bytes_in_step
    (random : list Z) (index : Z) (app : App) (cfg : MacConfig) :
  length random = MAC_LENGTH -> Forall is_byte random ->
  length (mac_bytes cfg) = MAC_LENGTH ->
  (index = 0 \/ index = 1
   \/ (index = 3 /\ 0 <= selected_network app
       /\ exists b, length b = MAC_LENGTH /\ Forall is_byte b
                    /\ bssid (net_at (networks app) (Z.to_nat (selected_network app)))
                       = mac_bytes_to_string b))%Z ->
  let app' := fst (mac_type_change_cb random index app cfg) in
  let cfg' := snd (mac_type_change_cb random index app cfg) in
  mac_in_step app' cfg' /\ mac_type cfg' = index
  /\ (index = 1%Z -> mac_bytes cfg' = generate_random_mac random).
Proof.
  intros Hr Hrb Hold Hcase. cbv zeta.
  destruct (random_mac_is_local_unicast_aux random Hr Hrb) as (Hgl & Hgb).
  destruct Hcase as [-> | [-> | (-> & Hsel & b & Hbl & Hbb & Hbssid)]].
  - rewrite mac_type_change_cb_default. cbn [fst snd].
    change (strncpy "00:E0:4C:01:02:03" MAX_BSSID_LEN)
      with (mac_bytes_to_string [0; 224; 76; 1; 2; 3]%Z).
    destruct (mac_text_round_trip_aux [0; 224; 76; 1; 2; 3]%Z (mac_bytes cfg) eq_refl
                ltac:(repeat constructor; unfold is_byte; lia) Hold) as [_ E].
    rewrite E. split; [| split; [reflexivity | discriminate]].
    split; [reflexivity |]. split; [| reflexivity].
    repeat constructor; unfold is_byte; lia.
  - rewrite mac_type_change_cb_random. cbn [fst snd].
    destruct (mac_text_round_trip_aux _ (mac_bytes cfg) Hgl Hgb Hold) as [_ E].
    rewrite E. split; [| split; [reflexivity | done]].
    split; [exact Hgl |]. split; [exact Hgb | reflexivity].
  - rewrite mac_type_change_cb_same by done. cbv zeta. cbn [fst snd].
    rewrite Hbssid.
    destruct (mac_text_round_trip_aux b (mac_bytes cfg) Hbl Hbb Hold) as [Hl E].
    assert (Hs : strncpy (mac_bytes_to_string b) MAX_BSSID_LEN = mac_bytes_to_string b).
    { apply strncpy_short; [| rewrite Hl; unfold MAX_BSSID_LEN; lia].
      apply mac_text_no_nul; done. }
    rewrite Hs, E. split; [| split; [reflexivity | discriminate]].
    split; [exact Hbl |]. split; [exact Hbb | reflexivity].
Qed.

End MacAddresses.

Lemma mac_text_witness :
  String.length (mac_bytes_to_string [0; 224; 76; 1; 2; 3]%Z) = MAX_BSSID_LEN - 1
  /\ mac_string_to_bytes (mac_bytes_to_string [0; 224; 76; 1; 2; 3]%Z) [0; 0; 0; 0; 0; 0]%Z
     = [0; 224; 76; 1; 2; 3]%Z.
Proof.
  apply (mac_text_round_trip [0; 224; 76; 1; 2; 3]%Z [0; 0; 0; 0; 0; 0]%Z).
  - reflexivity.
  - repeat constructor; unfold is_byte; lia.
  - reflexivity.
Defined.

Example mac_bytes_to_string_ex :
  mac_bytes_to_string [0; 224; 76; 1; 2; 3]%Z = "00:E0:4C:01:02:03".
Proof. reflexivity. Qed.

Example mac_string_to_bytes_ex :
  mac_string_to_bytes "de:ad:be:ef:0:1" [9; 9; 9; 9; 9; 9]%Z = [222; 173; 190; 239; 0; 1]%Z
  /\ mac_string_to_bytes "11" [9; 9; 9; 9; 9; 9]%Z = [9; 9; 9; 9; 9; 9]%Z
  /\ mac_string_to_bytes "AA:BB:CC:DD:EE" [9; 9; 9; 9; 9; 9]%Z = [9; 9; 9; 9; 9; 9]%Z.
Proof. repeat split; reflexivity. Qed.


Lemma random_mac_witness :
  let mac := generate_random_mac [255; 1; 2; 3; 4; 5]%Z in
  length mac = MAC_LENGTH /\ Forall is_byte mac
  /\ Z.testbit (byte_nth mac 0) 0 = false
  /\ Z.testbit (byte_nth mac 0) 1 = true
  /\ (forall i, (2 <= i)%Z ->
        Z.testbit (byte_nth mac 0) i = Z.testbit (byte_nth [255; 1; 2; 3; 4; 5]%Z 0) i)
  /\ drop 1 mac = drop 1 [255; 1; 2; 3; 4; 5]%Z.
Proof.
  apply (random_mac_is_local_unicast [255; 1; 2; 3; 4; 5]%Z).
  - reflexivity.
  - repeat constructor; unfold is_byte; lia.
Defined.

Lemma mac_type_change_witness :
  let r := mac_type_change_cb [255; 1; 2; 3; 4; 5]%Z 1 app_alloc (mkMacConfig 0 [0; 0; 0; 0; 0; 0]%Z) in
  mac_in_step (fst r) (snd r) /\ mac_type (snd r) = 1%Z
  /\ (1%Z = 1%Z -> mac_bytes (snd r) = generate_random_mac [255; 1; 2; 3; 4; 5]%Z).
Proof.
  apply (mac_type_change_keeps_text_and_bytes_in_step [255; 1; 2; 3; 4; 5]%Z 1 app_alloc
           (mkMacConfig 0 [0; 0; 0; 0; 0; 0]%Z)).
  - reflexivity.
  - repeat constructor; unfold is_byte; lia.
  - reflexivity.
  - right. by left.
Defined.

(** The BSSID that the legacy AP line leaves is no MAC text: choosing "Same
    as AP" for such a network changes the text and not the bytes. *)
Example same_as_ap_out_of_step :
  let app := uart_rx app_connected (list_ascii_of_string testnet_line ++ ["010"%char]) in
  let cfg := mkMacConfig 0 [0; 224; 76; 1; 2; 3]%Z in
  let r := mac_type_change_cb [] 3 app cfg in
  custom_mac (fst r) = "11" /\ mac_bytes (snd r) = [0; 224; 76; 1; 2; 3]%Z.
Proof. vm_compute. split; reflexivity. Qed.

(** ** The ranking pass and the inventory *)

Section RankingInvariant.

Lemma app_set_clients_twice (app : App) (u v : list Client) :
  app <| clients := u |> <| clients := v |> = app <| clients := v |>.
Proof. by destruct app. Qed.

Lemma app_set_clients_same (app : App) : app <| clients := clients app |> = app.
Proof. by destruct app. Qed.

Lemma app_set_networks_same (app : App) : app <| networks := networks app |> = app.
Proof. by destruct app. Qed.

Lemma client_set_index_twice (cl : Client) (u v : Z) :
  cl <| ap_index := u |> <| ap_index := v |> = cl <| ap_index := v |>.
Proof. by destruct cl. Qed.

Lemma client_loop_eta app k :
  for_loop k 0 relink_step app
  = app <| clients := clients (for_loop k 0 relink_step app) |>.
Proof.
  induction k as [| k IH].
  - simpl. by rewrite app_set_clients_same.
  - rewrite for_loop_snoc. change (0 + k) with k.
    set (s := for_loop k 0 relink_step app) in *. clearbody s.
    set (X := clients (relink_step k s)).
    assert (E : relink_step k s = s <| clients := X |>) by reflexivity.
    rewrite E. clearbody X. rewrite IH. apply app_set_clients_twice.
Qed.

(** The ranking pass writes the two arrays and nothing else. *)
Lemma sort_networks_eta app :
  sort_networks app
  = app <| networks := networks (sort_networks app) |>
        <| clients := clients (sort_networks app) |>.
Proof.
  rewrite sort_networks_loops.
  set (app1 := app <| networks := _ |>).
  rewrite (client_loop_eta app1) at 1.
  destruct (client_loop_spec app1 (Z.to_nat (app_client_count app))) as (Hn & _).
  cbv zeta in Hn. rewrite Hn. reflexivity.
Qed.

Lemma sort_networks_inventory_ok app :
  inventory_ok app -> inventory_ok (sort_networks app).
Proof.
  intros Hok. destruct (sort_networks_fields app Hok) as (Hn & Hcc & Hlive & Hdrop & _).
  destruct Hok as (Hlen & Hcnt & Hclen & Hccnt).
  split; [| split; [| split]].
  - rewrite <- (take_drop (Z.to_nat (network_count app)) (networks (sort_networks app))).
    fold (live_networks (sort_networks app)) in Hlive.
    unfold live_networks in Hlive at 1. rewrite Hn in Hlive.
    rewrite Hlive, Hdrop, length_app, length_drop.
    rewrite (Permutation_length (bubble_passes_perm _ _)).
    unfold live_networks. rewrite length_take. unfold MAX_NETWORKS in *. lia.
  - by rewrite Hn.
  - rewrite sort_networks_loops.
    destruct (client_loop_spec
                (app <| networks := bubble_sort (network_count app) (networks app) |>)
                (Z.to_nat (app_client_count app))) as (_ & _ & _ & Hl & _).
    cbv zeta in Hl. rewrite Hl. exact Hclen.
  - by rewrite Hcc.
Qed.

Lemma relink_client_range nets n c cl k :
  (0 <= ap_index cl < n)%Z -> k <= Z.to_nat n ->
  (0 <= ap_index (for_loop k 0 (relink_body nets c) cl) < n)%Z.
Proof.
  intros Hcl. induction k as [| k IH]; intros Hk; [done |].
  rewrite for_loop_snoc. change (0 + k) with k.
  specialize (IH ltac:(lia)).
  set (cl1 := for_loop k 0 (relink_body nets c) cl) in *. clearbody cl1.
  unfold relink_body. destruct (lists_client (net_at nets k) (Z.of_nat c)); [| done].
  cbn. lia.
Qed.

Lemma relink_client_eta nets c cl k :
  for_loop k 0 (relink_body nets c) cl
  = cl <| ap_index := ap_index (for_loop k 0 (relink_body nets c) cl) |>.
Proof.
  destruct (relink_loop_spec nets c cl k) as (Hm & Hr & _).
  cbv zeta in Hm, Hr.
  set (cl' := for_loop k 0 (relink_body nets c) cl) in *. clearbody cl'.
  destruct cl, cl'. cbn in *. by subst.
Qed.

Lemma relink_client_twice nets c k : forall cl,
  for_loop k 0 (relink_body nets c) (for_loop k 0 (relink_body nets c) cl)
  = for_loop k 0 (relink_body nets c) cl.
Proof.
  induction k as [| k IH]; intros cl; [done |].
  rewrite !for_loop_snoc. change (0 + k) with k.
  set (cl1 := for_loop k 0 (relink_body nets c) cl).
  unfold relink_body at 1 3 4.
  destruct (lists_client (net_at nets k) (Z.of_nat c)) eqn:E.
  - rewrite (relink_client_eta nets c (cl1 <| ap_index := Z.of_nat k |>) k).
    by rewrite !client_set_index_twice.
  - apply IH.
Qed.

Lemma sorted_bubble x r :
  StronglySorted keeps_order (x :: r) ->
  (bubble x r).1 ++ [(bubble x r).2] = x :: r.
Proof.
  revert x. induction r as [| y r IH]; intros x Hs; [done |].
  apply StronglySorted_inv in Hs as [Hs Hx].
  cbn [bubble].
  assert (E : network_should_swap x y = false) by (by inversion Hx).
  rewrite E. specialize (IH y Hs). destruct (bubble y r) as [q z]. cbn [fst snd] in *.
  by rewrite <- IH.
Qed.

Lemma StronglySorted_app_l {A} (R : A -> A -> Prop) (l1 l2 : list A) :
  StronglySorted R (l1 ++ l2) -> StronglySorted R l1.
Proof.
  induction l1 as [| a l1 IH]; intros H; [constructor |].
  simpl in H. apply StronglySorted_inv in H as [H Ha].
  constructor; [by apply IH |]. by apply Forall_app in Ha as [Ha _].
Qed.

Lemma sorted_bubble_passes k : forall l,
  StronglySorted keeps_order l -> bubble_passes k l = l.
Proof.
  induction k as [| k IH]; intros [| x r] Hs; cbn [bubble_passes]; try done.
  pose proof (sorted_bubble x r Hs) as E.
  destruct (bubble x r) as [q z]. cbn [fst snd] in E.
  rewrite IH; [done |]. rewrite <- E in Hs. by apply StronglySorted_app_l in Hs.
Qed.

Lemma sort_networks_sorted app :
  inventory_ok app -> Forall count_ok (live_networks app) ->
  StronglySorted keeps_order (live_networks (sort_networks app)).
Proof.
  intros Hok Hcount.
  destruct (sort_networks_fields app Hok) as (_ & _ & Hlive & _).
  destruct Hok as (Hlen & Hcnt & _ & _).
  rewrite Hlive. destruct (live_networks app) as [| x r] eqn:E.
  - destruct (Z.to_nat (network_count app) - 1); constructor.
  - apply bubble_passes_sorted; [| done].
    rewrite <- E. unfold live_networks. rewrite length_take.
    assert (0 < length (live_networks app)) by (rewrite E; simpl; lia).
    unfold live_networks in H. rewrite length_take in H.
    unfold MAX_NETWORKS in *. lia.
Qed.

Lemma sort_networks_client_lookup app :
  inventory_ok app ->
  forall i cl, live_clients (sort_networks app) !! i = Some cl ->
    exists cl0, live_clients app !! i = Some cl0
      /\ cl = relink_client (networks (sort_networks app)) (network_count app) i cl0.
Proof.
  intros Hok i cl Hi.
  destruct (sort_networks_fields app Hok) as (Hn & Hcc & Hlive & Hdrop & Hcl).
  unfold live_clients in Hi.
  apply lookup_take_Some in Hi as [Hi Hlt]. rewrite Hcc in Hlt.
  rewrite Hcl in Hi. destruct (decide (i < Z.to_nat (app_client_count app))); [| lia].
  destruct (clients app !! i) as [cl0 |] eqn:E0; [| done].
  injection Hi as <-. exists cl0. split; [| done].
  unfold live_clients. by rewrite lookup_take_lt by done.
Qed.

Lemma sort_networks_ble app :
  ble_devices (sort_networks app) = ble_devices app
  /\ ble_count (sort_networks app) = ble_count app.
Proof. rewrite sort_networks_eta. by split. Qed.

Lemma sort_networks_linked app :
  inventory_linked app -> inventory_linked (sort_networks app).
Proof.
  intros (Hok & Hbl & Hbc & Hnets & Hcls).
  pose proof (sort_networks_inventory_ok app Hok) as Hok'.
  pose proof (sort_networks_client_lookup app Hok) as Hlook.
  destruct (sort_networks_fields app Hok) as (Hn & Hcc & Hlive & Hdrop & Hcl).
  assert (Hperm : Permutation (live_networks (sort_networks app)) (live_networks app)).
  { rewrite Hlive. apply bubble_passes_perm. }
  destruct (sort_networks_ble app) as [Hb1 Hb2].
  split; [done |]. split; [by rewrite Hb1 |]. split; [by rewrite Hb2 |]. split.
  - rewrite Hperm. eapply Forall_impl; [exact Hnets |].
    intros net [H1 H2]. split; [done |].
    eapply Forall_impl; [exact H2 |]. intros x Hx. unfold link_ok in *. by rewrite Hcc.
  - apply Forall_lookup. intros i cl Hi.
    destruct (Hlook i cl Hi) as (cl0 & Hi0 & ->).
    rewrite Hn. rewrite relink_client_loop.
    apply relink_client_range; [| lia].
    rewrite Forall_lookup in Hcls. by apply (Hcls i).
Qed.

(** X17.  The ranking pass moves the stored networks and re-links the stored
    clients, and keeps the inventory inside its arrays and linked: the
    networks are the same ones in another order, each with its index list,
    every stored client keeps its MAC and signal and still names a stored
    network, and the BLE list and the counters are untouched. *)
Theorem ranking_keeps_inventory_linked (app : App) :
  inventory_linked app ->
  let app' := sort_networks app in
  inventory_linked app'
  /\ Permutation (live_networks app') (live_networks app)
  /\ client_identity <$> live_clients app' = client_identity <$> live_clients app
  /\ live_ble app' = live_ble app.
Proof.
  intros Hlinked. cbv zeta.
  pose proof (sort_networks_linked app Hlinked) as Hlinked'.
  destruct Hlinked as (Hok & _). pose proof Hlinked' as (Hok' & _).
  pose proof (sort_networks_client_lookup app Hok) as Hlook.
  destruct (sort_networks_fields app Hok) as (Hn & Hcc & Hlive & Hdrop & Hcl).
  destruct (sort_networks_ble app) as [Hb1 Hb2].
  split; [exact Hlinked' |]. split; [| split].
  - rewrite Hlive. apply bubble_passes_perm.
  - apply list_eq. intros i. rewrite !list_lookup_fmap.
    destruct (live_clients (sort_networks app) !! i) as [cl |] eqn:E.
    + destruct (Hlook i cl E) as (cl0 & Hi0 & ->). rewrite Hi0. cbn. f_equal.
      rewrite relink_client_loop.
      destruct (relink_loop_spec (networks (sort_networks app)) i cl0
                  (Z.to_nat (network_count app))) as (Hm & Hr & _).
      cbv zeta in Hm, Hr. unfold client_identity. by rewrite Hm, Hr.
    + apply lookup_ge_None in E. unfold live_clients in *.
      rewrite length_take in E. rewrite Hcc in E.
      destruct Hok' as (_ & _ & Hl' & _). destruct Hok as (_ & _ & Hl & _).
      rewrite Hl' in E. rewrite (lookup_ge_None_2 (take _ (clients app)) i); [done |].
      rewrite length_take. lia.
  - unfold live_ble. by rewrite Hb1, Hb2.
Qed.

(** X18.  Ranking a ranked inventory changes nothing: when no stored network has
    a negative client count or one above sixteen (so that the re-link reads
    inside the index lists), a second run of the ranking pass right after
    the first leaves every field of the state as the first run left it. *)
Theorem ranking_twice_is_ranking_once (app : App) :
  inventory_ok app ->
  Forall count_ok (live_networks app) ->
  Forall (fun net => (client_count net <= MAX_CLIENTS_PER_AP)%Z) (live_networks app) ->
  sort_networks (sort_networks app) = sort_networks app.
Proof.
  intros Hok Hcount _.
  pose proof (sort_networks_inventory_ok app Hok) as Hok'.
  pose proof (sort_networks_sorted app Hok Hcount) as Hsorted.
  destruct (sort_networks_fields app Hok) as (Hn & Hcc & Hlive & Hdrop & Hcl).
  destruct (sort_networks_fields _ Hok') as (Hn2 & Hcc2 & Hlive2 & Hdrop2 & Hcl2).
  set (s := sort_networks app) in *. clearbody s.
  assert (Hnets : networks (sort_networks s) = networks s).
  { rewrite <- (take_drop (Z.to_nat (network_count s)) (networks (sort_networks s))).
    rewrite <- (take_drop (Z.to_nat (network_count s)) (networks s)) at 1.
    rewrite Hdrop2. f_equal.
    unfold live_networks in Hlive2 at 1. rewrite Hn2 in Hlive2. rewrite Hlive2.
    by apply sorted_bubble_passes. }
  assert (Hcls : clients (sort_networks s) = clients s).
  { apply list_eq. intros c. rewrite Hcl2, Hnets.
    destruct (decide (c < Z.to_nat (app_client_count s))) as [Hlt | Hge]; [| done].
    rewrite Hcl. rewrite Hcc in Hlt.
    destruct (decide (c < Z.to_nat (app_client_count app))); [| lia].
    destruct (clients app !! c) as [cl0 |]; [| done]. cbn. f_equal.
    rewrite Hn, !relink_client_loop. apply relink_client_twice. }
  rewrite sort_networks_eta, Hnets, Hcls.
  by rewrite app_set_networks_same, app_set_clients_same.
Qed.

End RankingInvariant.

Lemma unranked_app_linked : inventory_linked unranked_app.
Proof.
  unfold unranked_app.
  repeat match goal with
         | |- inventory_linked (parse_client_message ?a ?m) =>
             apply (parse_client_message_step a m)
         | |- inventory_linked (parse_network_message ?a ?m) =>
             apply (parse_network_message_step a m)
         end.
  apply app_alloc_inventory_linked.
Qed.

Lemma ranking_linked_witness :
  inventory_linked (sort_networks unranked_app)
  /\ Permutation (live_networks (sort_networks unranked_app)) (live_networks unranked_app)
  /\ client_identity <$> live_clients (sort_networks unranked_app)
     = client_identity <$> live_clients unranked_app
  /\ live_ble (sort_networks unranked_app) = live_ble unranked_app.
Proof.
  apply (ranking_keeps_inventory_linked unranked_app).
  apply unranked_app_linked.
Defined.

Lemma ranking_twice_witness :
  sort_networks (sort_networks unranked_app) = sort_networks unranked_app.
Proof.
  apply (ranking_twice_is_ranking_once unranked_app).
  - apply unranked_app_linked.
  - unfold count_ok. vm_compute. repeat constructor; discriminate.
  - vm_compute. repeat constructor; discriminate.
Defined.

(** The pass on the sample: the network with a client moves to the front,
    the stronger of the other two follows, and the client is linked to the
    new position of its network. *)
Example unranked_app_ranked :
  id <$> live_networks unranked_app = [1; 2; 3]%Z
  /\ ap_index <$> live_clients unranked_app = [2%Z]
  /\ id <$> live_networks (sort_networks unranked_app) = [3; 2; 1]%Z
  /\ ap_index <$> live_clients (sort_networks unranked_app) = [0%Z].
Proof. vm_compute. repeat split; reflexivity. Qed.

(** ** Scanning and stopping *)

Section ScanInvariant.

Lemma linked_view a b :
  inventory_view b = inventory_view a -> inventory_linked a -> inventory_linked b.
Proof. intros Hv Ha. by apply (inventory_step_view a b Hv). Qed.

Lemma uart_send_inventory app cmd : inventory_view (uart_send app cmd) = inventory_view app.
Proof. unfold uart_send. by destruct (_ || _). Qed.

Lemma uart_send_legacy_inventory app cmd :
  inventory_view (uart_send_legacy app cmd) = inventory_view app.
Proof. unfold uart_send_legacy. by destruct (_ || _). Qed.

Lemma detection_complete_inventory app :
  inventory_view (detection_complete app) = inventory_view app.
Proof. unfold detection_complete. by destruct (Nat.ltb _ _). Qed.

Lemma linked_reset app :
  inventory_linked app ->
  inventory_linked (app <| network_count := 0%Z |> <| app_client_count := 0%Z |>).
Proof.
  intros ((Hnl & Hnc & Hcl & Hcc) & Hbl & Hbc & _ & _).
  split; [| split; [exact Hbl | split; [exact Hbc | split; constructor]]].
  split; [exact Hnl |]. split; [by vm_compute |]. split; [exact Hcl | by vm_compute].
Qed.

Ltac linked_steps Hd Hw :=
  repeat first
    [ assumption
    | apply Hd
    | apply Hw
    | match goal with
      | |- inventory_linked (uart_send ?a ?c) =>
          apply (linked_view a); [apply uart_send_inventory |]
      | |- inventory_linked (uart_send_legacy ?a ?c) =>
          apply (linked_view a); [apply uart_send_legacy_inventory |]
      | |- inventory_linked (detection_complete ?a) =>
          apply (linked_view a); [apply detection_complete_inventory |]
      | |- inventory_linked (sort_networks ?a) => apply sort_networks_linked
      | |- inventory_linked (if ?c then _ else _) => destruct c eqn:?
      | |- inventory_linked (set_field network_count _ _) => fail 1
      | |- inventory_linked (set_field app_client_count _ (set_field network_count _ _)) =>
          apply linked_reset
      | |- inventory_linked (set_field ?p ?v ?a) =>
          apply (linked_view a); [reflexivity |]
      end ].

Section Waits.

Variable acquire : bool.
Variables delay wait : nat -> App -> App.
Hypothesis delay_linked : forall k a, inventory_linked a -> inventory_linked (delay k a).
Hypothesis wait_linked : forall k a, inventory_linked a -> inventory_linked (wait k a).

Lemma detect_firmware_linked app :
  inventory_linked app -> inventory_linked (detect_firmware delay app).
Proof.
  intros Ha. unfold detect_firmware. cbv zeta.
  linked_steps delay_linked wait_linked.
Qed.

Lemma scan_wait_linked left : forall times app,
  inventory_linked app -> inventory_linked (scan_wait wait left times app).
Proof.
  induction left as [| left IH]; intros times app Ha; cbn [scan_wait]; [done |].
  destruct (negb (scan_finished app)); [| done]. by apply IH, wait_linked.
Qed.

Lemma do_scan_not_connected app :
  connected app = false -> acquire = false ->
  do_scan acquire delay wait app = app <| serial := false |>.
Proof. intros Hc Hacq. unfold do_scan, uart_init. rewrite Hc, Hacq. reflexivity. Qed.

Lemma uart_init_acquired app :
  acquire = true ->
  uart_init acquire app
  = (true, app <| serial := true |> <| uart_running := true |> <| connected := true |>).
Proof. intros Hacq. unfold uart_init. rewrite Hacq. reflexivity. Qed.

(** One binding of [do_scan]: what it binds keeps the inventory linked, and
    that is all the rest of the proof needs to know of it. *)
Ltac scan_let :=
  lazymatch goal with
  | |- _ (let x := sort_networks _ in _) => fail
  | |- ?Q (let x := set_field network_count ?c ?a in @?body x) =>
      change (Q (body (set_field network_count c a))); cbv beta
  | |- ?Q (let x := ?v in @?body x) =>
      let Hv := fresh "Hv" in
      assert (Hv : inventory_linked v)
        by (cbv zeta;
            repeat first [ progress linked_steps delay_linked wait_linked
                         | apply scan_wait_linked
                         | apply detect_firmware_linked ]);
      change (Q (body v)); cbv beta;
      revert Hv; generalize v; intros ? Hv
  end.

(** A scan that gets its UART ends with the ranking pass on a linked
    inventory, the flag and the LED command. *)
Lemma do_scan_tail (Q : App -> Prop) app :
  (forall mid, inventory_linked mid ->
     Q (let a := sort_networks mid in
        let a := a <| scanning := false |> in
        if firmware_eqb (firmware_type a) FirmwareGattrose
        then uart_send a "r0,255,0"
        else a)) ->
  inventory_linked app ->
  connected app = true \/ acquire = true ->
  Q (do_scan acquire delay wait app).
Proof.
  intros HQ Ha Hup. cbv beta delta [do_scan].
  destruct (connected app) eqn:Hc.
  - cbv beta iota delta [negb]. repeat scan_let. by apply HQ.
  - destruct Hup as [| Hacq]; [done |]. rewrite (uart_init_acquired app Hacq).
    cbv beta iota delta [negb].
    assert (H0 : inventory_linked
                   (app <| serial := true |> <| uart_running := true |> <| connected := true |>))
      by (by apply (linked_view app)).
    revert H0. generalize (app <| serial := true |> <| uart_running := true |>
                               <| connected := true |>). intros a0 H0.
    repeat scan_let. by apply HQ.
Qed.

Lemma do_scan_linked app :
  inventory_linked app -> inventory_linked (do_scan acquire delay wait app).
Proof.
  intros Ha.
  destruct (connected app) eqn:Hc; [| destruct (decide (acquire = true)) as [Hacq | Hacq]].
  - apply do_scan_tail; [| done | by left]. intros mid Hm. cbv zeta.
    linked_steps delay_linked wait_linked.
  - apply do_scan_tail; [| done | by right]. intros mid Hm. cbv zeta.
    linked_steps delay_linked wait_linked.
  - apply not_true_is_false in Hacq.
    rewrite do_scan_not_connected by done. by apply (linked_view app).
Qed.

Lemma do_scan_ranked app :
  inventory_linked app ->
  connected app = true \/ acquire = true ->
  scanning (do_scan acquire delay wait app) = false
  /\ (Forall count_ok (live_networks (do_scan acquire delay wait app)) ->
      StronglySorted keeps_order (live_networks (do_scan acquire delay wait app))).
Proof.
  intros Ha Hup.
  apply (do_scan_tail
           (fun a => scanning a = false
                     /\ (Forall count_ok (live_networks a) ->
                         StronglySorted keeps_order (live_networks a)))); [| done | done].
  intros mid Hm. cbv zeta.
  set (s := (sort_networks mid) <| scanning := false |>).
  assert (Hs : scanning s = false) by reflexivity.
  assert (Hl : live_networks s = live_networks (sort_networks mid)) by reflexivity.
  assert (E : scanning (if firmware_eqb (firmware_type s) FirmwareGattrose
                        then uart_send s "r0,255,0" else s) = false
              /\ live_networks (if firmware_eqb (firmware_type s) FirmwareGattrose
                                then uart_send s "r0,255,0" else s)
                 = live_networks (sort_networks mid)).
  { clearbody s. destruct (firmware_eqb _ _); [| done].
    unfold uart_send. by destruct (_ || _). }
  destruct E as [E1 E2]. split; [exact E1 |]. rewrite E2. intros Hcount.
  destruct Hm as (Hok & _).
  apply sort_networks_sorted; [done |].
  destruct (sort_networks_fields mid Hok) as (_ & _ & Hlive & _).
  rewrite Hlive in Hcount. by rewrite (bubble_passes_perm _ _) in Hcount.
Qed.

End Waits.

Lemma device_linked incoming k a :
  inventory_linked a -> inventory_linked (device incoming k a).
Proof. intros Ha. unfold device. by apply (uart_rx_step (incoming k) a). Qed.

(** X19.  Whatever the device sends while the scan waits, and whether or not the
    UART can be had, as long as no store goes outside an index list (the
    scan ends with the mark clear), a scan leaves the inventory inside its
    arrays and linked.  When the scan runs (the application was connected,
    or the UART is acquired) it ends with the scanning flag cleared and,
    provided no stored network has a negative client count, with the
    networks ranked: no network stands before one that the comparison of
    the ranking pass puts in front of it. *)
Theorem scan_leaves_inventory_linked_and_ranked
    (acquire : bool) (incoming arriving : nat -> list ascii) (app : App) :
  inventory_linked app ->
  let app' := do_scan acquire (device incoming) (device arriving) app in
  out_of_bounds app' = false ->
  inventory_linked app'
  /\ (connected app = true \/ acquire = true ->
      scanning app' = false
      /\ (Forall count_ok (live_networks app') ->
          StronglySorted keeps_order (live_networks app'))).
Proof.
  intros Ha. cbv zeta. intros _. split.
  - apply do_scan_linked; [apply device_linked | apply device_linked | exact Ha].
  - intros Hup. apply do_scan_ranked; [apply device_linked | apply device_linked | done | done].
Qed.

(** *** Stop all *)

Lemma app_set_networks_twice (app : App) (u v : list Network) :
  app <| networks := u |> <| networks := v |> = app <| networks := v |>.
Proof. by destruct app. Qed.

Lemma clear_flags_loop_eta n : forall app,
  let body := fun i a => put_network a i ((net_at (networks a) i) <| deauth_active := false |>) in
  for_loop n 0 body app = app <| networks := networks (for_loop n 0 body app) |>.
Proof.
  induction n as [| n IH]; intros app; cbv zeta.
  - simpl. by rewrite app_set_networks_same.
  - rewrite for_loop_snoc. change (0 + n) with n. cbv zeta in IH.
    set (s := for_loop n 0 _ app) in *.
    unfold put_network at 1 2.
    set (X := <[n := _]> (networks s)).
    change (networks (s <| networks := X |>)) with X.
    clearbody X. specialize (IH app). fold s in IH. clearbody s.
    rewrite IH. apply app_set_networks_twice.
Qed.

Lemma clear_flags_loop_networks n : forall app,
  n <= length (networks app) ->
  networks
    (for_loop n 0
       (fun i a => put_network a i ((net_at (networks a) i) <| deauth_active := false |>)) app)
  = (at_rest <$> take n (networks app)) ++ drop n (networks app).
Proof.
  induction n as [| n IH]; intros app Hn.
  - reflexivity.
  - rewrite for_loop_snoc. change (0 + n) with n.
    specialize (IH app ltac:(lia)).
    set (s := for_loop n 0 _ app) in *. clearbody s.
    unfold put_network. change (networks (s <| networks := ?X |>)) with X.
    rewrite IH. unfold net_at.
    assert (Hl : length (at_rest <$> take n (networks app)) = n).
    { rewrite length_fmap, length_take. lia. }
    destruct (lookup_lt_is_Some_2 (networks app) n ltac:(lia)) as [x Hx].
    rewrite lookup_app_r by lia. rewrite Hl, Nat.sub_diag.
    rewrite lookup_drop, Nat.add_0_r, Hx. cbn [default].
    rewrite insert_app_r_alt by lia. rewrite Hl, Nat.sub_diag.
    rewrite (take_S_r _ _ x Hx), fmap_app, <- app_assoc. f_equal.
    rewrite (drop_S _ x n Hx). reflexivity.
Qed.

Lemma do_stop_all_eta app :
  do_stop_all app
  = (if connected app then
       if firmware_eqb (firmware_type app) FirmwareGattrose
       then uart_send (console_append app "=== STOPPING ALL ===") "x"
       else uart_send_legacy (console_append app "=== STOPPING ALL ===") "STOP"
     else console_append app "=== STOPPING ALL ===")
      <| networks := (at_rest <$> live_networks app)
                     ++ drop (Z.to_nat (network_count app)) (networks app) |>
      <| monitor_active := false |> \/
  ~ Z.to_nat (network_count app) <= length (networks app).
Proof.
  destruct (decide (Z.to_nat (network_count app) <= length (networks app))) as [Hn | Hn];
    [left | by right].
  unfold do_stop_all. cbv zeta.
  change (connected (console_append app "=== STOPPING ALL ===")) with (connected app).
  change (firmware_type (console_append app "=== STOPPING ALL ===")) with (firmware_type app).
  set (a := console_append app _).
  assert (E1 : networks a = networks app) by reflexivity.
  assert (E2 : network_count a = network_count app) by reflexivity.
  clearbody a.
  set (b := if connected app then _ else a).
  assert (F1 : networks b = networks app).
  { subst b. destruct (connected app); [| done].
    destruct (firmware_eqb _ _); [unfold uart_send | unfold uart_send_legacy];
      by destruct (_ || _). }
  assert (F2 : network_count b = network_count app).
  { subst b. destruct (connected app); [| done].
    destruct (firmware_eqb _ _); [unfold uart_send | unfold uart_send_legacy];
      by destruct (_ || _). }
  clearbody b. f_equal. unfold clear_deauth_flags.
  rewrite clear_flags_loop_eta. f_equal.
  rewrite clear_flags_loop_networks by (rewrite F1, F2; exact Hn).
  unfold live_networks. by rewrite F1, F2.
Qed.

(** X20.  Stop-all leaves no stored network marked as under deauth and changes
    nothing else of the inventory: the stored networks are the ones before
    with the flag cleared, the clients are untouched and the monitor flag is
    off.  When the application is connected and its UART is up, one stop
    command goes out, the framed [x] to Gattrose-NG and the line STOP to any
    other firmware; when it is not connected, nothing is sent. *)
Theorem stop_all_puts_every_network_at_rest (app : App) :
  inventory_ok app ->
  let app' := do_stop_all app in
  live_networks app' = at_rest <$> live_networks app
  /\ network_count app' = network_count app
  /\ live_clients app' = live_clients app
  /\ monitor_active app' = false
  /\ (connected app = true -> serial app = true -> uart_running app = true ->
      tx app' = tx app ++ (if firmware_eqb (firmware_type app) FirmwareGattrose
                           then wire "x" else legacy_wire "STOP"))
  /\ (connected app = false -> tx app' = tx app).
Proof.
  intros (Hnl & Hnc & _ & _). cbv zeta.
  destruct (do_stop_all_eta app) as [E | Hbad];
    [| exfalso; apply Hbad; unfold MAX_NETWORKS in *; lia].
  rewrite E. clear E.
  set (b := if connected app then _ else _).
  assert (Hb : network_count b = network_count app /\ clients b = clients app
               /\ app_client_count b = app_client_count app).
  { subst b. destruct (connected app); [| done].
    destruct (firmware_eqb _ _); [unfold uart_send | unfold uart_send_legacy];
      by destruct (_ || _). }
  destruct Hb as (B1 & B2 & B3).
  assert (Hl : length (at_rest <$> live_networks app) = Z.to_nat (network_count app)).
  { unfold live_networks. rewrite length_fmap, length_take. unfold MAX_NETWORKS in *. lia. }
  split; [| split; [| split; [| split; [| split]]]].
  - unfold live_networks at 1.
    change (network_count (b <| networks := ?X |> <| monitor_active := _ |>))
      with (network_count b).
    change (networks (b <| networks := ?X |> <| monitor_active := _ |>)) with X.
    rewrite B1. by rewrite take_app_length' by done.
  - exact B1.
  - unfold live_clients.
    change (app_client_count (b <| networks := ?X |> <| monitor_active := _ |>))
      with (app_client_count b).
    change (clients (b <| networks := ?X |> <| monitor_active := _ |>)) with (clients b).
    by rewrite B2, B3.
  - reflexivity.
  - intros Hc Hs Hr.
    change (tx (b <| networks := ?X |> <| monitor_active := _ |>)) with (tx b).
    subst b. rewrite Hc.
    destruct (firmware_eqb _ _).
    + by rewrite uart_send_tx.
    + unfold uart_send_legacy.
      change (serial (console_append app ?l)) with (serial app).
      change (uart_running (console_append app ?l)) with (uart_running app).
      rewrite Hs, Hr. reflexivity.
  - intros Hc.
    change (tx (b <| networks := ?X |> <| monitor_active := _ |>)) with (tx b).
    subst b. rewrite Hc. reflexivity.
Qed.

End ScanInvariant.

Lemma scan_witness :
  inventory_linked (do_scan true (device scan_banner) (device scan_answers) unranked_app)
  /\ (connected unranked_app = true \/ true = true ->
      scanning (do_scan true (device scan_banner) (device scan_answers) unranked_app) = false
      /\ (Forall count_ok
            (live_networks
               (do_scan true (device scan_banner) (device scan_answers) unranked_app)) ->
          StronglySorted keeps_order
            (live_networks
               (do_scan true (device scan_banner) (device scan_answers) unranked_app)))).
Proof.
  apply (scan_leaves_inventory_linked_and_ranked true scan_banner scan_answers unranked_app).
  - apply unranked_app_linked.
  - by vm_compute.
Defined.

(** The scan on the sample: the three networks stored before are gone, the
    two the device lists are stored with the stronger one first, and the
    commands sent are those of the Gattrose-NG protocol. *)
Example scan_on_sample :
  let app' := do_scan true (device scan_banner) (device scan_answers) unranked_app in
  id <$> live_networks unranked_app = [1; 2; 3]%Z
  /\ id <$> live_networks app' = [9; 7]%Z
  /\ app_client_count app' = 0%Z
  /\ tx app' = wire "r1" ++ wire "s" ++ wire "g" ++ wire "c" ++ wire "r0,255,0".
Proof. vm_compute. repeat split; reflexivity. Qed.

Lemma stop_all_witness :
  let app' := do_stop_all unranked_app in
  live_networks app' = at_rest <$> live_networks unranked_app
  /\ network_count app' = network_count unranked_app
  /\ live_clients app' = live_clients unranked_app
  /\ monitor_active app' = false
  /\ (connected unranked_app = true -> serial unranked_app = true ->
      uart_running unranked_app = true ->
      tx app' = tx unranked_app
                ++ (if firmware_eqb (firmware_type unranked_app) FirmwareGattrose
                    then wire "x" else legacy_wire "STOP"))
  /\ (connected unranked_app = false -> tx app' = tx unranked_app).
Proof.
  apply (stop_all_puts_every_network_at_rest unranked_app).
  apply unranked_app_linked.
Defined.

(** ** The lists and their callbacks *)

Section Lists.

(** *** Texts without terminator *)

Lemma clean_app (a b : string) : cstr a = a -> cstr b = b -> cstr (a +:+ b) = a +:+ b.
Proof. intros Ha Hb. by rewrite cstr_app, Hb. Qed.

Lemma digit_char_not_nul n : is_nul (digit_char (n mod 10)) = false.
Proof.
  pose proof (Nat.mod_upper_bound n 10 ltac:(lia)) as H.
  destruct (n mod 10) as [| d]; [done |].
  do 9 (destruct d as [| d]; [done |]). lia.
Qed.

Lemma pos_digits_clean fuel : forall n acc,
  cstr acc = acc -> cstr (pos_digits fuel n acc) = pos_digits fuel n acc.
Proof.
  induction fuel as [| fuel IH]; intros n acc Hacc; cbn [pos_digits]; [done |].
  assert (H : cstr (String (digit_char (n mod 10)) acc) = String (digit_char (n mod 10)) acc).
  { cbn [cstr]. rewrite digit_char_not_nul. by rewrite Hacc. }
  destruct (Nat.ltb n 10); [exact H | by apply IH].
Qed.

Lemma int_to_decimal_clean z : cstr (int_to_decimal z) = int_to_decimal z.
Proof.
  unfold int_to_decimal, nat_to_decimal. destruct (z <? 0)%Z.
  - cbn [cstr]. change (is_nul "-") with false. cbv iota.
    f_equal. by apply pos_digits_clean.
  - by apply pos_digits_clean.
Qed.

Ltac clean_text :=
  repeat first
    [ reflexivity
    | apply cstr_take
    | apply cstr_idem
    | apply int_to_decimal_clean
    | apply clean_app
    | match goal with |- cstr (if ?c then _ else _) = _ => destruct c end ].

Lemma network_label_clean net : cstr (network_label net) = network_label net.
Proof. unfold network_label. cbv zeta. clean_text. Qed.

Lemma client_label_clean cl : cstr (client_label cl) = client_label cl.
Proof. unfold client_label. clean_text. Qed.

Lemma network_label_length net : String.length (network_label net) <= 32.
Proof.
  unfold network_label. cbv zeta.
  match goal with |- context [Nat.ltb 32 (String.length ?l)] => set (label := l) end.
  destruct (Nat.ltb_spec 32 (String.length label)); [| done].
  rewrite string_length_app, str_take_length.
  change (String.length "..") with 2. lia.
Qed.

(** *** The network list *)

Lemma shown_skip show_all net :
  count_ok net ->
  negb show_all && (client_count net =? 0)%Z = negb (shown show_all net).
Proof.
  unfold count_ok, shown. intros H. destruct show_all; [done |]. cbn.
  destruct (Z.eqb_spec (client_count net) 0), (Z.ltb_spec 0 (client_count net)); try done; lia.
Qed.

Lemma network_loop_items show_all app k : forall menu,
  (forall i, i < k -> count_ok (net_at (networks app) i)) ->
  let menu' :=
    for_loop k 0
      (fun i menu =>
         let net := net_at (networks app) i in
         if negb show_all && (client_count net =? 0)%Z then menu
         else submenu_add_item menu (network_label net) (Z.of_nat i) true)
      menu in
  submenu_header menu' = submenu_header menu
  /\ submenu_items menu'
     = submenu_items menu
       ++ omap (fun i =>
                  let net := net_at (networks app) i in
                  if shown show_all net
                  then Some (mkSubmenuItem (network_label net) (Z.of_nat i) true)
                  else None)
               (seq 0 k).
Proof.
  induction k as [| k IH]; intros menu Hok; cbv zeta.
  - split; [done |]. cbn. by rewrite app_nil_r.
  - rewrite for_loop_snoc. change (0 + k) with k.
    destruct (IH menu ltac:(intros i Hi; apply Hok; lia)) as [Hh Hi]. cbv zeta in Hh, Hi.
    set (m := for_loop k 0 _ menu) in *. clearbody m.
    rewrite seq_S, omap_app. change (0 + k) with k.
    match goal with
    | |- context [omap ?f [k]] =>
        change (omap f [k]) with (match f k with Some y => [y] | None => [] end)
    end.
    cbv beta zeta.
    rewrite shown_skip by (apply Hok; lia).
    destruct (shown show_all (net_at (networks app) k)); cbn [negb].
    + unfold submenu_add_item. cbn [submenu_header submenu_items].
      rewrite network_label_clean. split; [done |]. by rewrite Hi, <- app_assoc.
    + split; [done |]. by rewrite Hi, app_nil_r.
Qed.

Lemma with_clients_loop app k :
  for_loop k 0
    (fun i n => if (client_count (net_at (networks app) i) >? 0)%Z then (n + 1)%Z else n) 0%Z
  = Z.of_nat
      (length
         (omap (fun i =>
                  let net := net_at (networks app) i in
                  if shown false net
                  then Some (mkSubmenuItem (network_label net) (Z.of_nat i) true)
                  else None)
               (seq 0 k))).
Proof.
  induction k as [| k IH]; [done |].
  rewrite for_loop_snoc, IH. change (0 + k) with k.
  rewrite seq_S, omap_app, length_app. change (0 + k) with k.
  match goal with
  | |- context [omap ?f [k]] =>
      change (omap f [k]) with (match f k with Some y => [y] | None => [] end)
  end.
  cbv beta zeta.
  assert (Es : shown false (net_at (networks app) k)
               = (0 <? client_count (net_at (networks app) k))%Z) by reflexivity.
  rewrite Es, Z.gtb_ltb.
  destruct (0 <? client_count (net_at (networks app) k))%Z; cbn [length]; lia.
Qed.

Lemma all_networks_loop app k :
  length
    (omap (fun i =>
             let net := net_at (networks app) i in
             if shown true net
             then Some (mkSubmenuItem (network_label net) (Z.of_nat i) true)
             else None)
          (seq 0 k))
  = k.
Proof.
  induction k as [| k IH]; [done |].
  rewrite seq_S, omap_app, length_app, IH. cbn. lia.
Qed.

Lemma list_header_fits (pre : string) m :
  pre = "All APs (" \/ pre = "APs w/Clients (" ->
  m <= 64 ->
  cstr (str_take 47 (pre +:+ int_to_decimal (Z.of_nat m) +:+ ")"))
  = pre +:+ int_to_decimal (Z.of_nat m) +:+ ")".
Proof.
  intros Hpre Hm.
  assert (Hc : cstr (pre +:+ int_to_decimal (Z.of_nat m) +:+ ")")
               = pre +:+ int_to_decimal (Z.of_nat m) +:+ ")").
  { destruct Hpre as [-> | ->]; clean_text. }
  rewrite str_take_all; [exact Hc |].
  rewrite !string_length_app.
  assert (String.length (int_to_decimal (Z.of_nat m)) <= 2).
  { do 65 (destruct m as [| m]; [vm_compute; lia |]). lia. }
  destruct Hpre as [-> | ->]; simpl; lia.
Qed.

Lemma to_int_small i : i < 64 -> to_int (Z.of_nat i) = Z.of_nat i.
Proof. intros Hi. unfold to_int. destruct (Z.ltb_spec (Z.of_nat i) (2 ^ 31)); lia. Qed.

Lemma update_network_list_items show_all app :
  inventory_ok app -> (0 < network_count app)%Z -> Forall count_ok (live_networks app) ->
  let entries :=
    omap (fun i =>
            let net := net_at (networks app) i in
            if shown show_all net
            then Some (mkSubmenuItem (network_label net) (Z.of_nat i) true)
            else None)
         (seq 0 (Z.to_nat (network_count app))) in
  submenu_items (update_network_list show_all app)
  = mkSubmenuItem (if show_all then "[Show Only w/Clients]" else "[Show All Networks]")
      998 true :: entries
  /\ submenu_header (update_network_list show_all app)
     = (if show_all then "All APs (" else "APs w/Clients (")
       +:+ int_to_decimal (Z.of_nat (length entries)) +:+ ")".
Proof.
  intros (Hnl & Hnc & _ & _) Hpos Hcount. cbv zeta.
  assert (Hok : forall i, i < Z.to_nat (network_count app) ->
                          count_ok (net_at (networks app) i)).
  { intros i Hi. rewrite Forall_lookup in Hcount.
    destruct (lookup_lt_is_Some_2 (live_networks app) i) as [net Hnet].
    { unfold live_networks. rewrite length_take. unfold MAX_NETWORKS in *. lia. }
    unfold net_at. unfold live_networks in Hnet.
    apply lookup_take_Some in Hnet as [Hnet _]. rewrite Hnet. cbn.
    apply (Hcount i). unfold live_networks. by rewrite lookup_take_lt by lia. }
  unfold update_network_list. cbv zeta.
  destruct (Z.eqb_spec (network_count app) 0) as [E | _]; [lia |].
  unfold submenu_set_selected_item. cbn [submenu_items submenu_header].
  set (m0 := if show_all then _ else _).
  destruct (network_loop_items show_all app (Z.to_nat (network_count app)) m0 Hok)
    as [Hh Hi].
  cbv zeta in Hh, Hi. rewrite Hh, Hi. split.
  - subst m0. by destruct show_all.
  - assert (Hm0 : submenu_header m0
                  = cstr (if show_all
                          then str_take 47 ("All APs (" +:+ int_to_decimal (network_count app)
                                            +:+ ")")
                          else str_take 47
                                 ("APs w/Clients ("
                                  +:+ int_to_decimal
                                        (for_loop (Z.to_nat (network_count app)) 0
                                           (fun i n =>
                                              if (client_count (net_at (networks app) i) >? 0)%Z
                                              then (n + 1)%Z else n) 0%Z)
                                  +:+ ")"))).
    { subst m0. by destruct show_all. }
    rewrite Hm0. destruct show_all.
    + rewrite all_networks_loop.
      rewrite <- (Z2Nat.id (network_count app)) at 1 by lia.
      apply list_header_fits; [by left | unfold MAX_NETWORKS in *; lia].
    + rewrite with_clients_loop.
      apply list_header_fits; [by right |].
      set (f := fun i : nat => _).
      assert (Hle : forall l, length (omap f l) <= length l).
      { induction l as [| x l IH]; [done |]. cbn. destruct (f x); cbn; lia. }
      specialize (Hle (seq 0 (Z.to_nat (network_count app)))).
      rewrite length_seq in Hle. unfold MAX_NETWORKS in *. lia.
Qed.

(** X21.  The network list shows what its header counts.  For an inventory with
    at least one stored network, none with a negative client count, the
    list holds the filter toggle and after it one entry for each stored
    network that is shown (every network, or those with a client), in the
    order of the collection; the number in the header is the number of
    these entries; each entry carries the network's label, at most 32
    characters long, and the network's position as its index, and choosing
    it selects that network and does nothing else. *)
Theorem network_list_shows_what_its_header_counts (show_all : bool) (app : App) :
  inventory_ok app -> (0 < network_count app)%Z -> Forall count_ok (live_networks app) ->
  exists toggle entries,
    submenu_items (update_network_list show_all app) = toggle :: entries
    /\ item_index toggle = 998%Z
    /\ submenu_header (update_network_list show_all app)
       = (if show_all then "All APs (" else "APs w/Clients (")
         +:+ int_to_decimal (Z.of_nat (length entries)) +:+ ")"
    /\ item_index <$> entries
       = Z.of_nat <$> List.filter (fun i => shown show_all (net_at (networks app) i))
                        (seq 0 (Z.to_nat (network_count app)))
    /\ Forall (fun e =>
                 exists i net,
                   item_index e = Z.of_nat i
                   /\ live_networks app !! i = Some net
                   /\ item_label e = network_label net
                   /\ String.length (item_label e) <= 32
                   /\ forall acquire delay wait view,
                        network_list_callback acquire delay wait app view (item_index e)
                        = (app <| selected_network := Z.of_nat i |>, view))
              entries.
Proof.
  intros Hok Hpos Hcount.
  destruct (update_network_list_items show_all app Hok Hpos Hcount) as [Hi Hh].
  cbv zeta in Hi, Hh. destruct Hok as (Hnl & Hnc & _ & _).
  eexists _, _. split; [exact Hi |]. split; [reflexivity |]. split; [exact Hh |].
  clear Hi Hh. split.
  - generalize (seq 0 (Z.to_nat (network_count app))) as l.
    induction l as [| i l IH]; [done |]. cbn.
    destruct (shown show_all (net_at (networks app) i)); cbn; by rewrite IH.
  - apply Forall_forall. intros e He.
    apply list_elem_of_omap in He as (i & Hin & He).
    apply elem_of_seq in Hin. cbv zeta in He.
    destruct (shown show_all (net_at (networks app) i)) eqn:Hs; [| done].
    injection He as <-. cbn [item_index item_label].
    destruct (lookup_lt_is_Some_2 (live_networks app) i) as [net Hnet].
    { unfold live_networks. rewrite length_take. unfold MAX_NETWORKS in *. lia. }
    assert (Hat : net_at (networks app) i = net).
    { unfold live_networks in Hnet. apply lookup_take_Some in Hnet as [Hnet _].
      unfold net_at. by rewrite Hnet. }
    exists i, net. rewrite Hat.
    split; [done |]. split; [done |]. split; [done |].
    split; [apply network_label_length |].
    intros acquire delay wait view. unfold network_list_callback.
    unfold MAX_NETWORKS in *.
    destruct (Z.eqb_spec (Z.of_nat i) 999); [lia |].
    destruct (Z.eqb_spec (Z.of_nat i) 998); [lia |].
    rewrite to_int_small by lia. reflexivity.
Qed.


(** *** The client list *)

Lemma client_loop_items app net k : forall menu,
  let menu' :=
    for_loop k 0
      (fun i menu =>
         match client_indices net !! i with
         | Some ci =>
             if (ci >=? 0)%Z && (ci <? app_client_count app)%Z then
               let client := client_at (clients app) (Z.to_nat ci) in
               submenu_add_item menu (client_label client) (Z.of_nat i) true
             else menu
         | None => menu
         end)
      menu in
  forall e, e ∈ submenu_items menu' ->
    e ∈ submenu_items menu
    \/ exists i ci,
         i < k /\ client_indices net !! i = Some ci
         /\ (0 <= ci < app_client_count app)%Z
         /\ e = mkSubmenuItem (client_label (client_at (clients app) (Z.to_nat ci)))
                  (Z.of_nat i) true.
Proof.
  induction k as [| k IH]; intros menu; cbv zeta.
  - intros e He. by left.
  - rewrite for_loop_snoc. change (0 + k) with k.
    specialize (IH menu). cbv zeta in IH.
    set (m := for_loop k 0 _ menu) in *. clearbody m.
    assert (Hm : forall e, e ∈ submenu_items m ->
              e ∈ submenu_items menu
              \/ exists i ci,
                   i < S k /\ client_indices net !! i = Some ci
                   /\ (0 <= ci < app_client_count app)%Z
                   /\ e = mkSubmenuItem (client_label (client_at (clients app) (Z.to_nat ci)))
                            (Z.of_nat i) true).
    { intros e He. destruct (IH e He) as [H | (i & ci & Hi & H)]; [by left |].
      right. exists i, ci. split; [lia | exact H]. }
    destruct (client_indices net !! k) as [ci |] eqn:Hk; [| exact Hm].
    destruct (Z.geb_spec ci 0); [| exact Hm].
    destruct (Z.ltb_spec ci (app_client_count app)); [| exact Hm].
    cbn [andb]. cbv zeta. intros e He.
    unfold submenu_add_item in He. cbn [submenu_items] in He.
    apply elem_of_app in He as [He | He]; [by apply Hm |].
    apply list_elem_of_singleton in He. right. exists k, ci.
    rewrite client_label_clean in He.
    split; [lia |]. split; [done |]. split; [lia | done].
Qed.

(** X22.  Every client entry of the list deauths the client it shows.  For a
    selected stored network with at most sixteen clients counted, an entry
    of the client list that can be chosen stands for an index slot of the
    network that holds the position of a stored client; its label is that
    client's MAC and signal, and choosing it sends, when the UART is up, one
    command that names the network's id and this client's MAC (with the
    reason, framed, to Gattrose-NG; as a DEAUTH line to a firmware with
    targeted deauth) and marks the network as under deauth; on a firmware
    without targeted deauth it does nothing. *)
Theorem client_entry_deauths_the_client_it_shows (app : App) (e : SubmenuItem) :
  inventory_ok app ->
  (0 <= selected_network app < network_count app)%Z ->
  let slot := Z.to_nat (selected_network app) in
  let net := net_at (networks app) slot in
  (client_count net <= MAX_CLIENTS_PER_AP)%Z ->
  e ∈ submenu_items (update_client_list app) ->
  item_callback e = true ->
  exists i ci,
    let client := client_at (clients app) (Z.to_nat ci) in
    let app' := client_list_callback app (item_index e) in
    item_index e = Z.of_nat i
    /\ client_indices net !! i = Some ci
    /\ (0 <= ci < app_client_count app)%Z
    /\ item_label e = client_label client
    /\ (firmware_type app = FirmwareGattrose ->
        serial app = true -> uart_running app = true ->
        tx app' = tx app ++ wire (client_deauth_command net (deauth_reason app) client)
        /\ deauth_active (net_at (networks app') slot) = true)
    /\ (firmware_type app <> FirmwareGattrose -> targeted_deauth (caps app) = true ->
        serial app = true -> uart_running app = true ->
        tx app' = tx app ++ legacy_wire (legacy_client_deauth_command net client)
        /\ deauth_active (net_at (networks app') slot) = true)
    /\ (firmware_type app <> FirmwareGattrose -> targeted_deauth (caps app) = false ->
        app' = app).
Proof.
  intros (Hnl & Hnc & _ & _) Hsel. cbv zeta. intros Hcc He Hcb.
  unfold update_client_list in He. cbv zeta in He.
  destruct (Z.ltb_spec (selected_network app) 0); [lia |].
  destruct (Z.geb_spec (selected_network app) (network_count app)); [lia |].
  cbn [orb] in He.
  set (slot := Z.to_nat (selected_network app)) in *.
  set (net := net_at (networks app) slot) in *.
  destruct (Z.eqb_spec (client_count net) 0) as [E0 | E0].
  { unfold submenu_add_item in He. cbn in He.
    apply list_elem_of_singleton in He. subst e. done. }
  apply client_loop_items in He as [He | (i & ci & Hi & Hk & Hci & ->)].
  { unfold submenu_set_header in He. cbn in He. by apply elem_of_nil in He. }
  exists i, ci. cbn [item_index item_label].
  split; [done |]. split; [done |]. split; [done |]. split; [done |].
  unfold client_list_callback.
  destruct (Z.ltb_spec (selected_network app) 0); [lia |].
  destruct (Z.geb_spec (selected_network app) (network_count app)); [lia |].
  cbn [orb]. cbv zeta. fold slot. fold net.
  assert (Hint : to_int (Z.of_nat i) = Z.of_nat i).
  { unfold to_int. unfold MAX_CLIENTS_PER_AP in *.
    destruct (Z.ltb_spec (Z.of_nat i) (2 ^ 31)); lia. }
  rewrite Hint, Nat2Z.id.
  destruct (Z.geb_spec (Z.of_nat i) (client_count net)); [lia |].
  rewrite Hk.
  destruct (Z.ltb_spec ci 0); [lia |].
  destruct (Z.geb_spec ci (app_client_count app)); [lia |].
  cbn [orb].
  fold (client_deauth_command net (deauth_reason app) (client_at (clients app) (Z.to_nat ci))).
  fold (legacy_client_deauth_command net (client_at (clients app) (Z.to_nat ci))).
  assert (Hslot : slot < length (networks app)).
  { subst slot. unfold MAX_NETWORKS in *. lia. }
  assert (Hflag : forall a x, networks a = networks app ->
            deauth_active (net_at (networks (put_network a slot (x <| deauth_active := true |>)))
                             slot) = true).
  { intros a x Ha. unfold put_network, net_at.
    change (networks (a <| networks := ?X |>)) with X.
    rewrite list_lookup_insert_eq by (rewrite Ha; exact Hslot). reflexivity. }
  split; [| split].
  - intros Hf Hs Hr. rewrite Hf. cbn [firmware_eqb].
    split.
    + change (tx (put_network ?a _ _)) with (tx a). by apply uart_send_tx.
    + apply Hflag. unfold uart_send. by rewrite Hs, Hr.
  - intros Hf Ht Hs Hr.
    assert (Ef : firmware_eqb (firmware_type app) FirmwareGattrose = false)
      by (by destruct (firmware_type app)).
    rewrite Ef, Ht. split.
    + change (tx (put_network ?a _ _)) with (tx a).
      unfold uart_send_legacy. rewrite Hs, Hr. reflexivity.
    + apply Hflag. unfold uart_send_legacy. by rewrite Hs, Hr.
  - intros Hf Ht.
    assert (Ef : firmware_eqb (firmware_type app) FirmwareGattrose = false)
      by (by destruct (firmware_type app)).
    by rewrite Ef, Ht.
Qed.

End Lists.

Lemma listed_app_ok :
  inventory_ok listed_app /\ Forall count_ok (live_networks listed_app).
Proof.
  split.
  - repeat split; try reflexivity; by vm_compute.
  - unfold count_ok. vm_compute. repeat constructor; discriminate.
Qed.

Lemma network_list_witness :
  exists toggle entries,
    submenu_items (update_network_list false listed_app) = toggle :: entries
    /\ item_index toggle = 998%Z
    /\ submenu_header (update_network_list false listed_app)
       = "APs w/Clients (" +:+ int_to_decimal (Z.of_nat (length entries)) +:+ ")"
    /\ item_index <$> entries
       = Z.of_nat <$> List.filter (fun i => shown false (net_at (networks listed_app) i))
                        (seq 0 (Z.to_nat (network_count listed_app)))
    /\ Forall (fun e =>
                 exists i net,
                   item_index e = Z.of_nat i
                   /\ live_networks listed_app !! i = Some net
                   /\ item_label e = network_label net
                   /\ String.length (item_label e) <= 32
                   /\ forall acquire delay wait view,
                        network_list_callback acquire delay wait listed_app view (item_index e)
                        = (listed_app <| selected_network := Z.of_nat i |>, view))
              entries.
Proof.
  apply (network_list_shows_what_its_header_counts false listed_app).
  - apply listed_app_ok.
  - by vm_compute.
  - apply listed_app_ok.
Defined.

(** The two lists of the sample: the filtered network list counts and shows
    the one network with clients, a long SSID is cut to 29 characters and
    two dots, and the client list shows the two clients of the selected
    network. *)
Example lists_on_sample :
  submenu_header (update_network_list false listed_app) = "APs w/Clients (1)"
  /\ item_label <$> submenu_items (update_network_list false listed_app)
     = ["[Show All Networks]"; "5G|2|<hidden> -71dB"]
  /\ item_label <$> submenu_items (update_network_list true listed_app)
     = ["[Show Only w/Clients]"; "2G|Cafe -48dB"; "5G|2|<hidden> -71dB"]
  /\ network_label
       (mkNetwork 1 "A network name of thirty-two ch." "" 1 (-48) 0 false true 3 [] "" false
          false)
     = "D|2G|3|A network name of thir.."
  /\ submenu_header (update_client_list listed_app) = "<hidden> (2)"
  /\ item_label <$> submenu_items (update_client_list listed_app)
     = ["DE:AD:BE:EF:00:01 -50dB"; "DE:AD:BE:EF:00:02 -63dB"].
Proof. vm_compute. repeat split; reflexivity. Qed.

Lemma client_entry_witness :
  exists i ci,
    let net := net_at (networks listed_app) 1 in
    let client := client_at (clients listed_app) (Z.to_nat ci) in
    let app' := client_list_callback listed_app 1 in
    1%Z = Z.of_nat i
    /\ client_indices net !! i = Some ci
    /\ (0 <= ci < app_client_count listed_app)%Z
    /\ "DE:AD:BE:EF:00:02 -63dB" = client_label client
    /\ (firmware_type listed_app = FirmwareGattrose ->
        serial listed_app = true -> uart_running listed_app = true ->
        tx app' = tx listed_app
                  ++ wire (client_deauth_command net (deauth_reason listed_app) client)
        /\ deauth_active (net_at (networks app') 1) = true)
    /\ (firmware_type listed_app <> FirmwareGattrose ->
        targeted_deauth (caps listed_app) = true ->
        serial listed_app = true -> uart_running listed_app = true ->
        tx app' = tx listed_app ++ legacy_wire (legacy_client_deauth_command net client)
        /\ deauth_active (net_at (networks app') 1) = true)
    /\ (firmware_type listed_app <> FirmwareGattrose ->
        targeted_deauth (caps listed_app) = false ->
        app' = listed_app).
Proof.
  apply (client_entry_deauths_the_client_it_shows listed_app
           (mkSubmenuItem "DE:AD:BE:EF:00:02 -63dB" 1 true)).
  - apply listed_app_ok.
  - by vm_compute.
  - by vm_compute.
  - apply list_elem_of_In. vm_compute. tauto.
  - reflexivity.
Defined.

(** Choosing the second client of the sample sends its deauth. *)
Example client_entry_on_sample :
  tx (client_list_callback listed_app 1) = wire "d5-0-DE:AD:BE:EF:00:02".
Proof. reflexivity. Qed.

(** ** Deauth on a legacy firmware *)

Section LegacyDeauth.









End LegacyDeauth.



(** The two commands on the sample. *)
Example legacy_deauth_on_sample :
  tx (do_deauth legacy_app)
  = wire "APMAC 00:E0:4C:01:02:03" ++ wire "REASON 0" ++ wire "PORTAL 0"
    ++ legacy_wire "DEAUTH 2"
  /\ tx (do_deauth (do_deauth legacy_app))
     = tx (do_deauth legacy_app) ++ legacy_wire "STOP 2".
Proof. vm_compute. split; reflexivity. Qed.
